(* ===== verification/_CoqProject ===== *)
-Q . S2P
Prelude.v
ChMath.v
ChVector.v
Interfaces.v
SteeringBase.v
SteeringSR.v
SteeringXT.v
SteeringStanley.v
Driver.v
TrackAssembly.v
TrackReports.v
SedanChassis.v
UJointDemo.v
DemosCMake.v
PyparserCMake.v
