(* ===== verification/Prelude.v ===== *)
(** * Chrono steering controllers and vehicle glue: a verification library

    ** The program

    The repository is an excerpt of Project Chrono (multibody dynamics).  Its
    algorithmic core is the family of path-following steering controllers of
    [chrono_vehicle/utils/ChSteeringController.cpp] (the file
    [src/unnamed/part_000]): a base PID controller on the lateral error
    between a look-ahead "sentinel" point and a "target" point, and four
    variants that differ in how the target is found and how the error is
    turned into a steering command (plain PID on a curve tracker, "XT",
    "SR" and "Stanley").  Around it sit vehicle glue code
    ([ChTrackAssembly.cpp], [Sedan_Chassis.cpp]), a geometry header
    ([ChEllipsoid.h]) and a demo program ([demo_IRR_ujoint.cpp]) that
    builds two shafts joined by a universal joint and steps the engine.

    Each simulation step the driver model calls [Advance vehicle step] on one
    controller object.  The controller reads a snapshot of the vehicle
    (reference frame, position, velocity, speed, time), asks its
    collaborators (a curve tracker, first-order filters) for derived values,
    updates its own fields and returns the steering command.

    ** The files, in dependency order

    - [Prelude] (this file): the scalar interface [Scalar] that stands for
      the C++ type [double], its two instances (the real numbers [R], on
      which every theorem is stated, and the kernel's binary64 floats, on
      which the same definitions run bit for bit), boolean comparisons on
      [R] with their reflection lemmas, the result type [res] for faulting
      code (null dereference, index out of range, failed assertion,
      overflow of a signed integer, loop fuel exhausted), [std::vector]
      access with [size_t] indices, the
      list and search lemmas the components share, the proof tactics and
      the hint database [chrono].
    - [ChMath]: [ChClamp], [ChSignum], [ChSineStep] and the angle constants
      of [ChMathematics.h].
    - [ChVector]: [ChVector<>] with its operations, the world frame
      ([ChWorldFrame]: vertical, forward, [Project], [Height]), rotation
      matrices with their algebra, and [ChFrame<>] with the transforms
      between a frame and its parent.
    - [Interfaces]: what the controllers require of their collaborators: the
      vehicle snapshot, the path, the curve tracker and the filters, each
      as a class of operations with a class of laws, with the instances
      used in the end-to-end theorems, and the JSON document read by the
      file constructors.
    - [SteeringBase]: [ChSteeringController] (constructors, [Reset],
      [Advance], data collection) and [ChPathSteeringController]; a
      simulation ([Path_run]) as a sequence of [Advance] calls.
    - [SteeringSR]: [ChPathSteeringControllerSR]: [CalcPathPoints] with
      its [size_t] indices, both constructors, [Reset], [SetGains],
      [SetPreviewTime], and [Advance] with the segment scan as a fuelled
      loop ([SR_scan]).
    - [SteeringXT]: [ChPathSteeringControllerXT]: constructors,
      [CalcTargetLocation], [Reset], [CalcHeadingError],
      [CalcCurvatureCode], [CalcAckermannAngle] and [Advance], over any
      tracker and any pair of filters.
    - [SteeringStanley]: [ChPathSteeringControllerStanley]: constructors,
      [SetGains], [Reset], the dead zone, the control law, the countdown
      and [Advance], over any tracker and any lag filter.
    - [Driver]: the virtual interface of [ChSteeringController] as the
      class [SteeringController], with the four variants as instances,
      the contract [BoundedController] the specification gives for it, and
      the loop of the caller ([drive], [simulate]).
    - [TrackAssembly]: [ChTrackAssembly]: the loops over sprocket, idler,
      brake, suspensions, rollers and shoes ([Initialize], the inertia
      properties, [Synchronize], [SetOutput], [Output], the setters).
    - [TrackReports]: the rest of [ChTrackAssembly]:
      [UpdateInertiaProperties], [ReportSuspensionForce] and
      [LogConstraintViolations] over the interface [PartReports] of what a
      part answers, and the assembly as a state machine ([TAOp],
      [TA_apply], [TA_reachable]).
    - [SedanChassis]: [Sedan_Chassis] (constants, constructor, contact
      materials) and the header [ChEllipsoid.h].
    - [UJointDemo]: [main] of [demo_IRR_ujoint.cpp]: the engine calls it
      makes as updates of a store of shared bodies and links ([World]),
      the construction of the scene statement by statement
      ([demo_ground], [demo_shaft_1], [demo_shaft_2], [demo_motor],
      [demo_cyljoint], [demo_ujoint], [demo_vis], [demo_scene]) and the
      simulation loop ([demo_loop]) over the interface [Solver].
    - [DemosCMake]: the CMake script that follows the demo in
      [demo_IRR_ujoint.cpp] (from line 213): the commands of CMake as
      functions on the state of a configure run (variables and cache as
      finite maps of stdpp), the settings of the run-time search path
      ([rpath_settings]), and the nineteen groups of demos
      ([demos_base] ... [demos_modal], [demos_CMakeLists]).
    - [PyparserCMake]: [chrono_pyparser/CMakeLists.txt]: the state of a
      directory ([Scope]: the configure state, the variables of the
      parent, the targets, the include directories, the install rules),
      the commands on targets and scopes, the script block by block
      ([pyparser_option], [pyparser_disabled], [pyparser_header],
      [pyparser_find_python], [pyparser_debug], [pyparser_export],
      [pyparser_files], [pyparser_library], [pyparser_install],
      [pyparser_CMakeLists]) over the interface [Platform] of the find
      modules, with [None] for a stopped configuration.

    ** How state and operations correspond to the code

    A C++ object is a [Record] with one field per data member, named as in
    the source ([m_err], [m_erri], ...).  A method that updates the object
    is a function from the record (and the arguments) to the new record and
    the return value.  A derived class is a record that holds the base record
    as its first field; a virtual method is an argument of the base-class
    function that calls it.  A pointer that may be null is an [option]; a
    [std::vector] is a [list] read with [nth_error]; a member the
    constructor leaves uninitialised takes its value from an explicit
    argument that stands for the indeterminate memory.  Code that can fault
    returns [res]; loops that need not terminate take fuel and return
    [Err OutOfFuel] when it runs out, and their termination is a theorem.
    An object held through a [std::shared_ptr] by several owners lives in
    a store and is named by its handle, so that a change made through one
    pointer is seen through the others ([UJointDemo]).  A loop whose
    condition is an input of the program (the window is still open) runs
    for a number of iterations that is an argument of the function.

    ** Numbers

    [double] is the class [Scalar].  Theorems are stated on the instance
    [R]: they describe the controllers in exact arithmetic and say nothing
    about rounding, overflow to infinity or NaN.  Where the code divides,
    a theorem that depends on the quotient carries the hypothesis that the
    divisor is not zero (in [R], [x / 0] is [0]; in C++ it is an infinity
    or NaN).  The float instance [Float_Scalar] runs the definitions that
    need no trigonometry with IEEE semantics, and is used for the examples
    that show where exact arithmetic and the machine disagree.

    ** What the theorems show

    - Base and PID controller ([SteeringBase]): the data-collection
      invariant ([m_collect] implies an allocated [m_csv]) holds in every
      reachable state and is exactly what makes [Advance] return; one
      [Advance] computes sentinel, target, signed lateral error, trapezoidal
      integral, backward difference and the PID command; the accumulated
      integral refines the composite trapezoidal rule; the end-to-end
      scenario and the proportional law of the specification; the command
      is not bounded; the file constructor leaves the gains indeterminate;
      a whole simulation refines a run of the PID recurrence on the
      lateral errors ([Path_run_refines], with the equivalence
      [pid_equiv] on controllers that the recurrence respects); over the
      life of a controller, destructor included, the CSV writer is
      allocated at most once and then deleted exactly once
      ([Path_life_balanced]); the output file of a session of calls
      holds one row for each [Advance] made while collection was on, in
      call order, with the time, the closest point and the sentinel of
      that call ([Path_session_log]), sorted by time when the snapshots
      are ([Path_log_chronological]), and the same session runs on
      binary64 ([Path_float_session]).
    - SR ([SteeringSR]): [CalcPathPoints] refines the polygon of the path
      and faults on degenerate paths; under the invariant a step is memory
      safe and its command lies in [-1, 1]; the invariant holds in every
      reachable state; the scan terminates on an open path with one unit
      of fuel, on a closed path exactly when a segment accepts the
      sentinel, and a concrete closed path makes it run for ever; on an
      open path the index moves forward by one segment a step at most and
      the target is measured on the segment it ends at
      ([SR_open_tracking]), beyond the end of that segment when it does
      not accept the sentinel either ([SR_open_lag]), and mirrored ahead
      of the segment's start when the sentinel is behind it
      ([SR_target_mirrored], [SR_Advance_mirrors]); no call, [Reset]
      included, takes the index of an open path back
      ([SR_open_never_returns]); with a
      steering angle that is not zero the sentinel is the point on the
      predicted arc moved forward once more by the preview distance
      ([SR_sentinel_arc]), so it jumps when the angle leaves zero
      ([SR_sentinel_jump]).
    - XT ([SteeringXT]): the command lies in [-1, 1] and respects the
      counter-steer constraint for every tracker and filter; the curvature
      code and the heading error in closed form (the distance test is a
      60 degree test); the speed test is decided by rounding; the filters
      keep the step size of the first call.
    - Stanley ([SteeringStanley]): for every bounded lag the command lies
      in [-1, 1] in every reachable state; the dead-zone weights of the
      specification; the control law in closed form; the countdown clears
      [m_err] and not the integral; a zero steering limit gives NaN in
      binary64.
    - Caller ([Driver]): a simulation with any controller that keeps the
      contract returns one command per frame, all within [[-1, 1]]
      ([simulate_bounded]); the XT, the open-path SR and the Stanley
      controller keep it (instances [XT_Bounded], [SR_open_Bounded],
      [Stanley_Bounded]); no invariant makes the PID controller keep it
      ([Path_not_bounded]); the caller's step is the controller's own
      ([Path_ctl_Advance]); all four variants keep the logging behaviour
      of the base class (instances of [LoggingController]), so a
      simulation that collects appends one row per frame, in frame
      order, [Reset] none ([simulate_logs]).
    - Track assembly ([TrackAssembly]): [Initialize] connects the shoes in
      a ring; the mass is the sum of the part masses; [Synchronize] needs a
      force per shoe; [GetTrackShoeStates] and its assertion; [SetOutput]
      and the sections [Output] writes.
    - Track reports ([TrackReports]): [UpdateInertiaProperties] stores
      the mass-weighted mean of the centres of mass of the parts, in the
      frame of the assembly, and needs the chassis and a non-zero mass;
      the inertia tensor it stores is shifted by the square of the mass
      where the parallel-axis theorem has the mass; what
      [LogConstraintViolations] reports and what it leaves out; the
      neighbour indices of the shoes stay within the track in every
      reachable state; [Initialize], [InitializeInertiaProperties] and
      [UpdateInertiaProperties] in this order give the centre of mass of
      the parts ([TA_lifecycle]).
    - Sedan chassis and ellipsoid ([SedanChassis]): the inertia tensor is
      that of a rigid body; which collision shapes exist for each collision
      type; the ellipsoid drops its centre and reports itself a sphere.
    - Demo ([UJointDemo]): the scene is well formed when the loop starts
      (each body and joint once in the system, every joint between two
      different bodies); the universal joint sits at the ends of both
      shafts, at the origin, and the arms drawn on the shafts are the two
      perpendicular axes of its cross; the supports lie along the shaft
      axes; the rotation built from the quaternion is the rotation by the
      bend angle about X; for every solver that advances the clock by the
      step, [main] prints the banner and one line per twentieth frame with
      the time [j / 10]; the frame counter overflows exactly after
      [INT_MAX] frames; in binary64 the printed times drift from
      [j / 10]; with the shafts turned by [theta_1] and [theta_2] the
      joint ends stay together, and the cross stays rigid exactly when
      [tan theta_2 = cos angle * tan theta_1] ([ujoint_transmission]).
    - Configuration script ([DemosCMake]): the script is equal to the
      run of a table of groups, each acting as if it were the first
      ([run_groups_eq], for any table whose names are separate); a run
      configures exactly the selected groups, in order, writes the
      defaults of the options to the cache and marks them
      ([demos_selection]); the directory of the universal joint demo is
      configured exactly when the Irrlicht module is enabled and its demos
      are not switched off ([ujoint_demo_configured]); a second run
      changes nothing ([configure_idempotent]); the test that guards the
      install search path has no effect ([rpath_unconditional]); only
      cache entries are ever marked as advanced
      ([demos_CMakeLists_wf]).
    - Script of the Python parser ([PyparserCMake]): a module that is not
      enabled returns before anything is searched or declared
      ([pyparser_disabled_run]); an enabled one returns exactly when the
      search returns and the target is new, and leaves the directory
      [pyparser_result] ([pyparser_enabled_run]); the configuration
      stops in no other case ([pyparser_fails_iff]); directories stay
      well formed when the base library exists, and not without it
      ([pyparser_wf], [pyparser_needs_engine]); the package name, the
      install override and the debug switch never leave the directory
      ([pyparser_local_names]); and the script of the demos that runs
      next configures the Python demos exactly when the module was
      enabled ([python_demos]).  These hold for every platform that
      keeps [PlatformLaws]; [unix_python] is one.  Lists written with
      [set] are read back element by element ([cm_elements_join]) and
      the directory of [dir/name] is [dir] ([cm_dirname_file]).

    ** Fuel and bounds

    Only one loop takes fuel: the scan [while (t > rt)] of the SR
    controller, which need not terminate.  On an open path one unit is
    enough (the body ends in [break]); on a closed path the fuel needed is
    the number of segments walked to the first accepting one, at most the
    number of segments when one accepts, and [SR_scan_terminates_iff] and
    [SR_closed_scan_diverges] say what happens otherwise.  The loop of
    [CalcPathPoints] is given one unit more than the number of points,
    which [segment_loop_run] shows to be enough.  All other loops run over
    a list or a counter and are structurally recursive.  Vector indices of
    type [size_t] are integers modulo [2^64] ([size_sub]); the theorems on
    [CalcPathPoints] assume fewer than [2^64] points.  The loop of the demo
    runs while the window is open: its model takes the number of frames
    [runs] as an argument and is structurally recursive on it, so every
    run of the program with a window that is eventually closed is a value
    of [main runs]; the frame counter is an [int] bounded by [INT_MAX]
    ([2^31 - 1]), and [main_overflow] says when the bound is reached.

    ** Not modelled

    The physics engine, collision detection, visualisation, file input and
    output (a JSON document is an input value, the CSV log an in-memory
    list of rows, the vehicle output database a list of section names),
    log messages, the implementation of the Bezier curve tracker and of
    the filters (only their interfaces, with a straight-line tracker and
    backward-Euler filters as instances), the bodies and joints inside
    the parts of a track assembly (a part is the record of what the
    assembly reads and writes), the out-of-line members of [ChEllipsoid],
    and, of the demo, the solver step (the interface [Solver], with the
    law [SolverClock] that a step advances the clock), the camera, the
    lights and the drawing, which change nothing the program reads, and
    the real-time timer.  Of the configuration scripts, the one of the
    demos is modelled with the commands of CMake after their
    documentation (policies CMP0054, CMP0077 and CMP0102 at NEW, list
    values without escaped semicolons); the scripts of the directories it
    adds are not in the excerpt.  Of the script of the Python parser,
    the search of the find modules is an interface ([Platform]): what
    they find depends on the machine; the build system that CMake
    generates from the targets and the install rules is not modelled. *)

From Stdlib Require Import Reals Lra Psatz ZArith Lia List Bool.
From Stdlib Require PrimFloat Uint63.
Import ListNotations.

(** ** The scalar interface *)

(** The operations the controllers use on [double].  [sc_dbl_min] is
    [std::numeric_limits<double>::min()], the threshold of
    [ChVector::Normalize]. *)
Class Scalar (A : Type) : Type := {
  sc_of_Z : Z -> A;
  sc_add : A -> A -> A;
  sc_sub : A -> A -> A;
  sc_mul : A -> A -> A;
  sc_div : A -> A -> A;
  sc_opp : A -> A;
  sc_abs : A -> A;
  sc_sqrt : A -> A;
  sc_ltb : A -> A -> bool;
  sc_leb : A -> A -> bool;
  sc_eqb : A -> A -> bool;
  sc_pi : A;
  sc_dbl_min : A
}.

(** The functions of [<cmath>] that have no counterpart on binary64 in the
    kernel: only the real numbers provide them. *)
Class Trig (A : Type) : Type := {
  sc_sin : A -> A;
  sc_cos : A -> A;
  sc_asin : A -> A;
  sc_atan : A -> A
}.

Declare Scope scalar_scope.
Delimit Scope scalar_scope with S.
Notation "x + y" := (sc_add x y) : scalar_scope.
Notation "x - y" := (sc_sub x y) : scalar_scope.
Notation "x * y" := (sc_mul x y) : scalar_scope.
Notation "x / y" := (sc_div x y) : scalar_scope.
Notation "- x" := (sc_opp x) : scalar_scope.
Notation "x <? y" := (sc_ltb x y) : scalar_scope.
Notation "x <=? y" := (sc_leb x y) : scalar_scope.
Notation "x >? y" := (sc_ltb y x) : scalar_scope.
Notation "x >=? y" := (sc_leb y x) : scalar_scope.
Notation "x =? y" := (sc_eqb x y) : scalar_scope.
Notation "'#' z" := (sc_of_Z z%Z) (at level 1, format "'#' z") : scalar_scope.

(** A decimal literal [n/d] of the source, such as [0.4] or [9.81]. *)
Definition lit {A} `{Scalar A} (n d : Z) : A := (#n / #d)%S.

(** ** Comparisons on the real numbers as booleans *)

Definition Rltb (x y : R) : bool := if Rlt_dec x y then true else false.
Definition Rleb (x y : R) : bool := if Rle_dec x y then true else false.
Definition Reqb (x y : R) : bool := if Req_dec_T x y then true else false.

(** [numeric_limits<double>::min()] as a real number: [2^-1022]. *)
Definition Rdbl_min : R := (/ 2 ^ 1022)%R.

#[export] Instance R_Scalar : Scalar R := {|
  sc_of_Z := IZR;
  sc_add := Rplus;
  sc_sub := Rminus;
  sc_mul := Rmult;
  sc_div := Rdiv;
  sc_opp := Ropp;
  sc_abs := Rabs;
  sc_sqrt := R_sqrt.sqrt;
  sc_ltb := Rltb;
  sc_leb := Rleb;
  sc_eqb := Reqb;
  sc_pi := PI;
  sc_dbl_min := Rdbl_min
|}.

#[export] Instance R_Trig : Trig R := {|
  sc_sin := sin;
  sc_cos := cos;
  sc_asin := asin;
  sc_atan := atan
|}.

(** ** The binary64 instance *)

(** An integer literal as a float: exact for the small constants the
    source writes. *)
Definition float_of_Z (z : Z) : PrimFloat.float :=
  match z with
  | Z0 => PrimFloat.of_uint63 (Uint63.of_Z 0)
  | Zpos _ => PrimFloat.of_uint63 (Uint63.of_Z z)
  | Zneg p => PrimFloat.opp (PrimFloat.of_uint63 (Uint63.of_Z (Zpos p)))
  end.

(** The double nearest to pi, [0x1.921fb54442d18p+1], and the least
    positive normal double, [0x1p-1022]. *)
Definition float_pi : PrimFloat.float :=
  PrimFloat.ldshiftexp (float_of_Z 7074237752028440) (Uint63.of_Z (2101 - 51)).
Definition float_dbl_min : PrimFloat.float :=
  PrimFloat.ldshiftexp (float_of_Z 1) (Uint63.of_Z (2101 - 1022)).

#[export] Instance Float_Scalar : Scalar PrimFloat.float := {|
  sc_of_Z := float_of_Z;
  sc_add := PrimFloat.add;
  sc_sub := PrimFloat.sub;
  sc_mul := PrimFloat.mul;
  sc_div := PrimFloat.div;
  sc_opp := PrimFloat.opp;
  sc_abs := PrimFloat.abs;
  sc_sqrt := PrimFloat.sqrt;
  sc_ltb := PrimFloat.ltb;
  sc_leb := PrimFloat.leb;
  sc_eqb := PrimFloat.eqb;
  sc_pi := float_pi;
  sc_dbl_min := float_dbl_min
|}.

(** ** Results of code that can fault *)

Inductive fault : Type :=
| NullDeref      (* a null pointer is dereferenced *)
| OutOfRange     (* a vector is indexed past its end *)
| AssertFail     (* an assertion of the code or of a library fails *)
| IntOverflow    (* a signed integer is incremented past its largest value *)
| OutOfFuel.     (* a loop of the model ran out of fuel *)

Inductive res (T : Type) : Type :=
| Ok (v : T)
| Err (e : fault).
Arguments Ok {T} v.
Arguments Err {T} e.

Definition res_bind {T U} (r : res T) (k : T -> res U) : res U :=
  match r with
  | Ok v => k v
  | Err e => Err e
  end.

Definition res_map {T U} (f : T -> U) (r : res T) : res U :=
  res_bind r (fun v => Ok (f v)).

Definition is_ok {T} (r : res T) : bool :=
  match r with Ok _ => true | Err _ => false end.

Declare Scope res_scope.
Delimit Scope res_scope with res.
Notation "x <- r ;; k" := (res_bind r (fun x => k))
  (at level 61, r at next level, right associativity) : res_scope.
Notation "' p <- r ;; k" := (res_bind r (fun p => k))
  (at level 61, p pattern, r at next level, right associativity) : res_scope.

(** [v[i]] on a [std::vector]: reading past the end is a fault. *)
Definition vec_at {T} (v : list T) (i : nat) : res T :=
  match nth_error v i with
  | Some x => Ok x
  | None => Err OutOfRange
  end.

(** [size_t] arithmetic: 64 bits, unsigned, wrapping. *)
Definition size_sub (a b : Z) : Z := ((a - b) mod 2 ^ 64)%Z.

(** [v[i]] with a [size_t] index. *)
Definition vec_at_z {T} (v : list T) (i : Z) : res T :=
  if ((0 <=? i) && (i <? Z.of_nat (length v)))%Z
  then vec_at v (Z.to_nat i)
  else Err OutOfRange.

(** [v[i] = x] with a [size_t] index. *)
Definition vec_set_z {T} (v : list T) (i : Z) (x : T) : res (list T) :=
  if ((0 <=? i) && (i <? Z.of_nat (length v)))%Z
  then Ok (firstn (Z.to_nat i) v ++ x :: skipn (S (Z.to_nat i)) v)
  else Err OutOfRange.

(** ** Reflection of the boolean comparisons *)

Lemma Rltb_spec (x y : R) : reflect (x < y)%R (Rltb x y).
Proof. unfold Rltb; destruct (Rlt_dec x y); constructor; assumption. Qed.

Lemma Rleb_spec (x y : R) : reflect (x <= y)%R (Rleb x y).
Proof. unfold Rleb; destruct (Rle_dec x y); constructor; assumption. Qed.

Lemma Reqb_spec (x y : R) : reflect (x = y) (Reqb x y).
Proof. unfold Reqb; destruct (Req_dec_T x y); constructor; assumption. Qed.

Lemma Rltb_true (x y : R) : (x < y)%R -> Rltb x y = true.
Proof. intros; destruct (Rltb_spec x y); [reflexivity | contradiction]. Qed.

Lemma Rltb_false (x y : R) : (y <= x)%R -> Rltb x y = false.
Proof. intros; destruct (Rltb_spec x y); [lra | reflexivity]. Qed.

Lemma Rleb_true (x y : R) : (x <= y)%R -> Rleb x y = true.
Proof. intros; destruct (Rleb_spec x y); [reflexivity | contradiction]. Qed.

Lemma Rleb_false (x y : R) : (y < x)%R -> Rleb x y = false.
Proof. intros; destruct (Rleb_spec x y); [lra | reflexivity]. Qed.

Lemma Reqb_true (x y : R) : x = y -> Reqb x y = true.
Proof. intros; destruct (Reqb_spec x y); [reflexivity | contradiction]. Qed.

Lemma Reqb_false (x y : R) : x <> y -> Reqb x y = false.
Proof. intros; destruct (Reqb_spec x y); [contradiction | reflexivity]. Qed.

Lemma Rdbl_min_pos : (0 < Rdbl_min)%R.
Proof. unfold Rdbl_min. apply Rinv_0_lt_compat, pow_lt. lra. Qed.

Lemma Rabs_le_inv (a b : R) : (Rabs a <= b -> - b <= a <= b)%R.
Proof. unfold Rabs. destruct (Rcase_abs a); lra. Qed.

Lemma Rabs_le_iff (a b : R) : (Rabs a <= b <-> - b <= a <= b)%R.
Proof. split; [apply Rabs_le_inv | apply Rabs_le]. Qed.

Lemma Rdiv_abs_le_1 (x m : R) :
  (0 < m -> Rabs x <= m -> -1 <= x / m <= 1)%R.
Proof.
  intros Hm Hx. apply Rabs_le_inv in Hx.
  pose proof (Rinv_0_lt_compat m Hm) as Hi.
  assert (E : (m * / m = 1)%R) by (field; lra).
  unfold Rdiv. split; nra.
Qed.

Lemma Rdbl_min_lt_1 : (Rdbl_min < 1)%R.
Proof.
  assert (H : (1 < 2 ^ 1022)%R) by (apply Rlt_pow_R1; [lra | apply Nat.lt_0_succ]).
  unfold Rdbl_min. apply Rlt_le_trans with (/ 1)%R.
  - apply Rinv_1_lt_contravar; [lra | exact H].
  - rewrite Rinv_1. lra.
Qed.

(** ** Results *)

Lemma res_bind_ok {T U} (r : res T) (k : T -> res U) (u : U) :
  res_bind r k = Ok u <-> exists v, r = Ok v /\ k v = Ok u.
Proof.
  destruct r as [v | e]; simpl; split.
  - intros Hk; exists v; split; [reflexivity | exact Hk].
  - intros (v' & Hv & Hk); injection Hv as <-; exact Hk.
  - discriminate.
  - intros (v' & Hv & _); discriminate.
Qed.

Lemma vec_at_ok {T} (v : list T) (i : nat) :
  i < length v -> exists x, vec_at v i = Ok x /\ nth_error v i = Some x.
Proof.
  intros Hi. unfold vec_at.
  destruct (nth_error v i) as [x |] eqn:E.
  - exists x; split; reflexivity.
  - apply nth_error_None in E. exfalso. apply (Nat.lt_irrefl i).
    eapply Nat.lt_le_trans; eassumption.
Qed.

Lemma vec_at_nth {T} (v : list T) (i : nat) (d : T) :
  i < length v -> vec_at v i = Ok (nth i v d).
Proof.
  intros Hi. unfold vec_at. rewrite (nth_error_nth' v d Hi). reflexivity.
Qed.

Lemma vec_at_err {T} (v : list T) (i : nat) :
  length v <= i -> vec_at v i = Err OutOfRange.
Proof.
  intros Hi. unfold vec_at.
  rewrite (proj2 (nth_error_None v i) Hi). reflexivity.
Qed.

Lemma vec_at_inv {T} (v : list T) (i : nat) (x : T) :
  vec_at v i = Ok x -> nth_error v i = Some x /\ i < length v.
Proof.
  unfold vec_at. destruct (nth_error v i) as [y |] eqn:E; [| discriminate].
  intros H; injection H as <-. split; [reflexivity |].
  apply nth_error_Some. rewrite E. discriminate.
Qed.

Lemma size_sub_small (a b : Z) : (0 <= b <= a)%Z -> (a < 2 ^ 64)%Z -> size_sub a b = (a - b)%Z.
Proof. intros Hb Ha. unfold size_sub. apply Z.mod_small. split; [| apply Z.le_lt_trans with a]; lia. Qed.

Lemma vec_at_z_ok {T} (v : list T) (i : nat) :
  i < length v -> vec_at_z v (Z.of_nat i) = vec_at v i.
Proof.
  intros Hi. unfold vec_at_z.
  replace ((0 <=? Z.of_nat i)%Z) with true by (symmetry; apply Z.leb_le; lia).
  replace ((Z.of_nat i <? Z.of_nat (length v))%Z) with true
    by (symmetry; apply Z.ltb_lt; lia).
  simpl. rewrite Nat2Z.id. reflexivity.
Qed.

Lemma vec_at_z_err {T} (v : list T) (i : Z) :
  (Z.of_nat (length v) <= i)%Z -> vec_at_z v i = Err OutOfRange.
Proof.
  intros Hi. unfold vec_at_z.
  replace ((i <? Z.of_nat (length v))%Z) with false
    by (symmetry; apply Z.ltb_ge; lia).
  rewrite andb_false_r. reflexivity.
Qed.

Lemma vec_set_z_ok {T} (v : list T) (i : nat) (x : T) :
  i < length v ->
  vec_set_z v (Z.of_nat i) x = Ok (firstn i v ++ x :: skipn (S i) v).
Proof.
  intros Hi. unfold vec_set_z.
  replace ((0 <=? Z.of_nat i)%Z) with true by (symmetry; apply Z.leb_le; lia).
  replace ((Z.of_nat i <? Z.of_nat (length v))%Z) with true
    by (symmetry; apply Z.ltb_lt; lia).
  simpl. rewrite Nat2Z.id. reflexivity.
Qed.

(** ** Lists *)

(** The last element of a list that is not empty does not depend on the
    default. *)
Lemma app_cons_snoc {T} (l : list T) (x : T) (r : list T) :
  l ++ x :: r = (l ++ x :: nil) ++ r.
Proof. rewrite <- app_assoc. reflexivity. Qed.

Lemma nth_last {T} (l : list T) (d : T) : nth (length l - 1) l d = last l d.
Proof.
  induction l as [| a [| b r] IH]; [reflexivity | reflexivity |].
  simpl in *. rewrite Nat.sub_0_r in IH. exact IH.
Qed.

Lemma nth_last_removelast {T} (l : list T) (d : T) :
  2 <= length l -> nth (length l - 2) l d = last (removelast l) d.
Proof.
  intros Hl. rewrite <- nth_last, removelast_firstn_len, nth_firstn, length_firstn.
  replace (Nat.min (Nat.pred (length l)) (length l) - 1) with (length l - 2) by lia.
  destruct (Nat.ltb_spec (length l - 2) (Nat.pred (length l))); [reflexivity | lia].
Qed.

(** Reading and writing the element after a prefix. *)
Lemma vec_at_middle {T} (pre post : list T) (x : T) :
  vec_at (pre ++ x :: post) (length pre) = Ok x.
Proof. unfold vec_at. rewrite nth_error_app2, Nat.sub_diag by lia. reflexivity. Qed.

Lemma vec_set_z_middle {T} (pre post : list T) (x y : T) :
  vec_set_z (pre ++ x :: post) (Z.of_nat (length pre)) y = Ok (pre ++ y :: post).
Proof.
  rewrite vec_set_z_ok by (rewrite length_app; simpl; lia).
  f_equal. f_equal.
  - rewrite firstn_app, Nat.sub_diag, firstn_all. simpl. apply app_nil_r.
  - f_equal. rewrite skipn_app, skipn_all2 by lia.
    replace (S (length pre) - length pre) with 1 by lia. reflexivity.
Qed.

Lemma skipn_nth_cons {T} (l : list T) : forall (i : nat) (x : T),
  nth_error l i = Some x -> skipn i l = x :: skipn (S i) l.
Proof.
  induction l as [| a l IH]; intros [| i] x E; try discriminate.
  - injection E as ->. reflexivity.
  - apply (IH i x E).
Qed.

(** Bounded search over a boolean predicate. *)
Lemma first_true (P : nat -> bool) (k : nat) :
  P k = true ->
  exists j, j <= k /\ P j = true /\ forall i, i < j -> P i = false.
Proof.
  revert P. induction k as [| k IH]; intros P Hk.
  - exists 0. split; [lia | split; [assumption | intros; lia]].
  - destruct (P 0) eqn:E0.
    + exists 0. split; [lia | split; [assumption | intros; lia]].
    + destruct (IH (fun i => P (S i)) Hk) as (j & Hj & Hpj & Hlt).
      exists (S j). split; [lia | split; [assumption |]].
      intros [| i] Hi; [assumption | apply Hlt; lia].
Qed.

Lemma bounded_search (P : nat -> bool) (n : nat) :
  (forall j, j <= n -> P j = false) \/ (exists j, j <= n /\ P j = true).
Proof.
  induction n as [| n [IH | (j & Hj & Hp)]].
  - destruct (P 0) eqn:E0; [right; exists 0; auto |].
    left. intros j Hj. replace j with 0 by lia. assumption.
  - destruct (P (S n)) eqn:En; [right; exists (S n); auto |].
    left. intros j Hj. destruct (Nat.eq_dec j (S n)) as [-> |]; [assumption |].
    apply IH. lia.
  - right. exists j. split; [lia | assumption].
Qed.

Lemma last_cons_default {T} (x : T) (l : list T) (d d' : T) :
  last (x :: l) d = last (x :: l) d'.
Proof.
  revert x; induction l as [| y l IH]; intros x; [reflexivity |].
  change (last (y :: l) d = last (y :: l) d'). apply IH.
Qed.

(** ** Automation *)

Create HintDb chrono.
Create Rewrite HintDb chrono_rw.
#[export] Hint Resolve Rdbl_min_pos Rdbl_min_lt_1 sqrt_pos Rabs_pos Rle_refl : chrono.
#[export] Hint Extern 3 (_ <= _)%R => lra : chrono.
#[export] Hint Extern 3 (_ < _)%R => lra : chrono.
#[export] Hint Rewrite Rltb_true Rltb_false Rleb_true Rleb_false
  using (solve [lra | assumption]) : chrono_rw.

(** Unfold the scalar operations at the instance [R], so that the goal is
    in the language of [lra] and [nra]. *)
Ltac scalar_unfold :=
  unfold lit in *;
  cbn [sc_of_Z sc_add sc_sub sc_mul sc_div sc_opp sc_abs sc_sqrt
       sc_ltb sc_leb sc_eqb sc_pi sc_dbl_min
       sc_sin sc_cos sc_asin sc_atan R_Scalar R_Trig] in *.

(** Evaluate a goal down to the operations of the real numbers, which
    stay folded. *)
Ltac rcbv :=
  cbv -[Rplus Rminus Rmult Rdiv Ropp Rinv IZR sin cos PI sqrt Rabs Rlt Rle].

(** Case analysis on every boolean comparison of reals in the goal. *)
Ltac rcase :=
  repeat match goal with
  | |- context [Rltb ?x ?y] => destruct (Rltb_spec x y)
  | |- context [Rleb ?x ?y] => destruct (Rleb_spec x y)
  | |- context [Reqb ?x ?y] => destruct (Reqb_spec x y)
  end.

(** Case analysis on the comparisons in a hypothesis. *)
Ltac rcase_in H :=
  repeat match type of H with
  | context [Rltb ?x ?y] => destruct (Rltb_spec x y)
  | context [Rleb ?x ?y] => destruct (Rleb_spec x y)
  | context [Reqb ?x ?y] => destruct (Reqb_spec x y)
  end.

(** The common closing step: unfold to [R], split the comparisons, and
    finish by linear or non-linear arithmetic. *)
Ltac rsolve :=
  scalar_unfold; rcase;
  try solve [reflexivity | lra | nra | congruence | discriminate].
