(* ===== verification/ChMath.v ===== *)
(** * ChMath: the scalar helpers of [chrono/core/ChMathematics.h]

    [ChClamp], [ChSignum], [ChSineStep] and the angle constants, as the
    controllers call them.  The header is not part of the excerpt, so the
    definitions follow its documented behaviour; the lemmas are the facts
    about them that the controller theorems share. *)

From Stdlib Require Import Reals Lra Psatz ZArith List Bool.
From S2P Require Import Prelude.

Local Open Scope scalar_scope.

Section Generic.
Context {A : Type} `{Scalar A}.

(** [CH_C_PI], [CH_C_2PI] and [CH_C_DEG_TO_RAD = CH_C_PI / 180.0]. *)
Definition CH_C_PI : A := sc_pi.
Definition CH_C_2PI : A := #2 * sc_pi.
Definition CH_C_DEG_TO_RAD : A := CH_C_PI / #180.

(** [ChClamp(value, limitMin, limitMax)]: the lower limit is tested first;
    a value that compares false with both limits is returned unchanged. *)
Definition ChClamp (value limitMin limitMax : A) : A :=
  if value <? limitMin then limitMin
  else if value >? limitMax then limitMax
  else value.

(** [ChSignum(x) = (x > 0) - (x < 0)], an [int]. *)
Definition ChSignum (x : A) : Z :=
  (Z.b2z (x >? #0)%S - Z.b2z (x <? #0)%S)%Z.

(** [ChSineStep(x, x1, y1, x2, y2)]: [y1] up to [x1], [y2] from [x2] on, and
    a sine-smoothed ramp in between. *)
Definition ChSineStep `{Trig A} (x x1 y1 x2 y2 : A) : A :=
  if x <=? x1 then y1
  else if x >=? x2 then y2
  else
    let dx := x2 - x1 in
    let dy := y2 - y1 in
    y1 + dy * (x - x1) / dx - (dy / CH_C_2PI) * sc_sin (CH_C_2PI * (x - x1) / dx).

End Generic.

Local Open Scope R_scope.

Ltac math_unfold := unfold ChClamp, ChSignum, ChSineStep, CH_C_DEG_TO_RAD, CH_C_2PI, CH_C_PI in *.

(** ** [ChClamp] *)

Lemma ChClamp_bounds (v lo hi : R) :
  lo <= hi -> lo <= ChClamp v lo hi <= hi.
Proof. intros; math_unfold; rsolve. Qed.

Lemma ChClamp_id (v lo hi : R) :
  lo <= v <= hi -> ChClamp v lo hi = v.
Proof. intros; math_unfold; rsolve. Qed.

Lemma ChClamp_low (v lo hi : R) : v < lo -> ChClamp v lo hi = lo.
Proof. intros; math_unfold; rsolve. Qed.

Lemma ChClamp_high (v lo hi : R) : lo <= v -> hi < v -> ChClamp v lo hi = hi.
Proof. intros; math_unfold; rsolve. Qed.

Lemma ChClamp_idem (v lo hi : R) :
  lo <= hi -> ChClamp (ChClamp v lo hi) lo hi = ChClamp v lo hi.
Proof. intros; apply ChClamp_id, ChClamp_bounds; assumption. Qed.

Lemma ChClamp_mono (v w lo hi : R) :
  lo <= hi -> v <= w -> ChClamp v lo hi <= ChClamp w lo hi.
Proof. intros; math_unfold; rsolve. Qed.

(** [ChClamp(u, umin, u)], the idiom of the Stanley controller, is the
    maximum of [u] and [umin]. *)
Lemma ChClamp_self_max (u umin : R) : ChClamp u umin u = Rmax u umin.
Proof.
  math_unfold; scalar_unfold; unfold Rmax.
  destruct (Rle_dec u umin); rcase; lra.
Qed.

Lemma ChClamp_abs_le (v m : R) : 0 <= m -> Rabs (ChClamp v (- m) m) <= m.
Proof.
  intros Hm. apply Rabs_le. apply (ChClamp_bounds v (- m) m). lra.
Qed.

(** ** [ChSignum] *)

Lemma ChSignum_pos (x : R) : 0 < x -> ChSignum x = 1%Z.
Proof. intros; math_unfold; rsolve. Qed.

Lemma ChSignum_neg (x : R) : x < 0 -> ChSignum x = (-1)%Z.
Proof. intros; math_unfold; rsolve. Qed.

Lemma ChSignum_zero : ChSignum 0 = 0%Z.
Proof. math_unfold; rsolve. Qed.

Lemma ChSignum_cases (x : R) :
  (0 < x /\ ChSignum x = 1%Z) \/ (x = 0 /\ ChSignum x = 0%Z) \/
  (x < 0 /\ ChSignum x = (-1)%Z).
Proof.
  destruct (Rtotal_order x 0) as [Hx | [Hx | Hx]].
  - right; right; split; [assumption | apply ChSignum_neg; assumption].
  - right; left; subst; split; [reflexivity | apply ChSignum_zero].
  - left; split; [assumption | apply ChSignum_pos; assumption].
Qed.

Lemma ChSignum_abs_le (x : R) : Rabs (IZR (ChSignum x)) <= 1.
Proof.
  destruct (ChSignum_cases x) as [[_ ->] | [[_ ->] | [_ ->]]];
    apply Rabs_le; lra.
Qed.

Lemma ChSignum_opp (x : R) : ChSignum (- x) = (- ChSignum x)%Z.
Proof.
  destruct (ChSignum_cases x) as [[Hx ->] | [[Hx ->] | [Hx ->]]].
  - apply ChSignum_neg; lra.
  - subst; rewrite Ropp_0; apply ChSignum_zero.
  - apply ChSignum_pos; lra.
Qed.

(** The product of the sign and a magnitude has that magnitude, except
    where the sign is zero. *)
Lemma ChSignum_mul_abs (x m : R) :
  0 <= m -> x <> 0 -> Rabs (IZR (ChSignum x) * m) = m.
Proof.
  intros Hm Hx.
  destruct (ChSignum_cases x) as [[_ ->] | [[E _] | [_ ->]]];
    [| contradiction |].
  - rewrite Rmult_1_l. apply Rabs_pos_eq; assumption.
  - replace (-1 * m) with (- m) by lra. rewrite Rabs_Ropp.
    apply Rabs_pos_eq; assumption.
Qed.

Lemma ChSignum_mul_abs_le (x m : R) :
  0 <= m -> Rabs (IZR (ChSignum x) * m) <= m.
Proof.
  intros Hm. rewrite Rabs_mult, (Rabs_pos_eq m Hm).
  pose proof (ChSignum_abs_le x). nra.
Qed.

(** ** [ChSineStep] *)

Lemma sin_le_id (t : R) : 0 <= t -> sin t <= t.
Proof.
  intros [Ht | <-]; [| rewrite sin_0; lra].
  left. apply sin_lt_x. assumption.
Qed.

(** The smooth ramp [s - sin(2 pi s) / (2 pi)] stays in [[0, 1]] on
    [[0, 1]]. *)
Lemma sine_ramp_bounds (s : R) :
  0 <= s <= 1 -> 0 <= s - sin (2 * PI * s) / (2 * PI) <= 1.
Proof.
  intros [H0 H1]. pose proof PI_RGT_0 as Hpi.
  assert (H2pi : 0 < 2 * PI) by lra.
  assert (Hlow : sin (2 * PI * s) <= 2 * PI * s) by (apply sin_le_id; nra).
  assert (Hup : - (2 * PI * (1 - s)) <= sin (2 * PI * s)).
  { replace (2 * PI * s) with (- (2 * PI * (1 - s)) + 2 * PI) by lra.
    rewrite sin_plus, sin_2PI, cos_2PI, sin_neg.
    pose proof (sin_le_id (2 * PI * (1 - s))) as Hs.
    assert (0 <= 2 * PI * (1 - s)) by nra. specialize (Hs H). lra. }
  split.
  - apply Rmult_le_reg_r with (2 * PI); [assumption |].
    unfold Rdiv. rewrite Rmult_minus_distr_r, Rmult_assoc, Rinv_l by lra. lra.
  - apply Rmult_le_reg_r with (2 * PI); [assumption |].
    unfold Rdiv. rewrite Rmult_minus_distr_r, Rmult_assoc, Rinv_l by lra. lra.
Qed.

Lemma ChSineStep_below (x x1 y1 x2 y2 : R) :
  x <= x1 -> ChSineStep x x1 y1 x2 y2 = y1.
Proof. intros; math_unfold; rsolve. Qed.

Lemma ChSineStep_above (x x1 y1 x2 y2 : R) :
  x1 < x -> x2 <= x -> ChSineStep x x1 y1 x2 y2 = y2.
Proof. intros; math_unfold; rsolve. Qed.

(** Between the two abscissae the step is the ramp applied to the
    normalised abscissa. *)
Lemma ChSineStep_between (x x1 y1 x2 y2 : R) :
  x1 < x < x2 ->
  ChSineStep x x1 y1 x2 y2 =
  y1 + (y2 - y1) *
       ((x - x1) / (x2 - x1) - sin (2 * PI * ((x - x1) / (x2 - x1))) / (2 * PI)).
Proof.
  intros [Hl Hr]. pose proof PI_RGT_0 as Hpi.
  math_unfold; scalar_unfold; rcase; try lra.
  replace (2 * PI * (x - x1) / (x2 - x1)) with (2 * PI * ((x - x1) / (x2 - x1)))
    by (field; lra).
  field. split; lra.
Qed.

Lemma ChSineStep_bounds (x x1 y1 x2 y2 : R) :
  x1 < x2 -> y1 <= y2 -> y1 <= ChSineStep x x1 y1 x2 y2 <= y2.
Proof.
  intros Hx Hy.
  destruct (Rle_lt_dec x x1) as [Hl | Hl];
    [rewrite ChSineStep_below by assumption; lra |].
  destruct (Rle_lt_dec x2 x) as [Hr | Hr];
    [rewrite ChSineStep_above by assumption; lra |].
  rewrite ChSineStep_between by lra.
  assert (Hs : 0 <= (x - x1) / (x2 - x1) <= 1).
  { split.
    - apply Rmult_le_pos; [lra | left; apply Rinv_0_lt_compat; lra].
    - apply Rmult_le_reg_r with (x2 - x1); [lra |].
      unfold Rdiv. rewrite Rmult_assoc, Rinv_l by lra. lra. }
  pose proof (sine_ramp_bounds _ Hs). nra.
Qed.

#[export] Hint Resolve ChClamp_bounds ChClamp_abs_le ChSignum_abs_le
  ChSignum_mul_abs_le ChSineStep_bounds : chrono.
