(* ===== verification/ChVector.v ===== *)
(** * ChVector: three-dimensional vectors, the world frame, rotations, frames

    [ChVector<>], [ChMatrix33<>], [ChFrame<>] and [ChWorldFrame] as the
    steering controllers, the track assembly and the demo use them.  These classes are not part of the
    excerpt; the definitions follow their documented behaviour, with the
    world frame in its default ISO orientation (X forward, Y left, Z up).
    A rotation is kept as its matrix, whose columns are the axes returned by
    [GetXaxis], [GetYaxis] and [GetZaxis]. *)

From Stdlib Require Import Reals Lra Psatz RNsatz ZArith List Bool.
From S2P Require Import Prelude.

Local Open Scope scalar_scope.

Record ChVector (A : Type) : Type := mkV { vx : A; vy : A; vz : A }.
Arguments mkV {A} vx vy vz.
Arguments vx {A} c.
Arguments vy {A} c.
Arguments vz {A} c.

(** Columns of a 3x3 matrix. *)
Record ChMatrix33 (A : Type) : Type := mkM {
  Xaxis : ChVector A;
  Yaxis : ChVector A;
  Zaxis : ChVector A
}.
Arguments mkM {A} Xaxis Yaxis Zaxis.
Arguments Xaxis {A} c.
Arguments Yaxis {A} c.
Arguments Zaxis {A} c.

(** A coordinate frame: an origin and an orientation, both expressed in the
    parent frame. *)
Record ChFrame (A : Type) : Type := mkFrame {
  frame_pos : ChVector A;
  frame_rot : ChMatrix33 A
}.
Arguments mkFrame {A} frame_pos frame_rot.
Arguments frame_pos {A} c.
Arguments frame_rot {A} c.

Section Generic.
Context {A : Type} `{Scalar A}.

Definition VNULL : ChVector A := mkV #0 #0 #0.

Definition Vadd (a b : ChVector A) : ChVector A :=
  mkV (vx a + vx b) (vy a + vy b) (vz a + vz b).

Definition Vsub (a b : ChVector A) : ChVector A :=
  mkV (vx a - vx b) (vy a - vy b) (vz a - vz b).

Definition Vneg (a : ChVector A) : ChVector A :=
  mkV (- vx a) (- vy a) (- vz a).

(** [v * s] and [s * v]. *)
Definition Vmul (a : ChVector A) (s : A) : ChVector A :=
  mkV (vx a * s) (vy a * s) (vz a * s).

(** [v / s], computed by the library as [v * (1 / s)]. *)
Definition Vdiv (a : ChVector A) (s : A) : ChVector A :=
  let oos := #1 / s in
  mkV (vx a * oos) (vy a * oos) (vz a * oos).

Definition Vdot (a b : ChVector A) : A :=
  vx a * vx b + vy a * vy b + vz a * vz b.

Definition Vcross (a b : ChVector A) : ChVector A :=
  mkV (vy a * vz b - vz a * vy b)
      (vz a * vx b - vx a * vz b)
      (vx a * vy b - vy a * vx b).

Definition Length2 (a : ChVector A) : A := Vdot a a.

Definition Length (a : ChVector A) : A := sc_sqrt (Length2 a).

(** [ChVector::Normalize]: a vector shorter than the least normal double
    becomes the X unit vector; any other is scaled by the inverse of its
    length. *)
Definition Normalize (a : ChVector A) : ChVector A :=
  let length := Length a in
  if length <? sc_dbl_min then mkV #1 #0 #0
  else Vmul a (#1 / length).

(** [ChWorldFrame], ISO orientation. *)
Definition Vertical : ChVector A := mkV #0 #0 #1.
Definition Forward : ChVector A := mkV #1 #0 #0.

(** [ChWorldFrame::Height(v)]: the component of [v] along the vertical. *)
Definition Height (v : ChVector A) : A := Vdot Vertical v.

(** [ChWorldFrame::Project(v)]: [v] minus its vertical component. *)
Definition Project (v : ChVector A) : ChVector A :=
  Vsub v (Vmul Vertical (Height v)).

(** Matrix times vector. *)
Definition Mmul (m : ChMatrix33 A) (v : ChVector A) : ChVector A :=
  mkV (vx (Xaxis m) * vx v + vx (Yaxis m) * vy v + vx (Zaxis m) * vz v)
      (vy (Xaxis m) * vx v + vy (Yaxis m) * vy v + vy (Zaxis m) * vz v)
      (vz (Xaxis m) * vx v + vz (Yaxis m) * vy v + vz (Zaxis m) * vz v).

Definition Midentity : ChMatrix33 A :=
  mkM (mkV #1 #0 #0) (mkV #0 #1 #0) (mkV #0 #0 #1).

(** [ChFrame::TransformPointLocalToParent]. *)
Definition TransformPointLocalToParent (f : ChFrame A) (local : ChVector A)
  : ChVector A :=
  Vadd (frame_pos f) (Mmul (frame_rot f) local).

(** [A.transpose()], [A * B], [A + B], [A - B] and [A * s] on 3x3
    matrices, column by column. *)
Definition Mtranspose (m : ChMatrix33 A) : ChMatrix33 A :=
  mkM (mkV (vx (Xaxis m)) (vx (Yaxis m)) (vx (Zaxis m)))
      (mkV (vy (Xaxis m)) (vy (Yaxis m)) (vy (Zaxis m)))
      (mkV (vz (Xaxis m)) (vz (Yaxis m)) (vz (Zaxis m))).

Definition MMmul (a b : ChMatrix33 A) : ChMatrix33 A :=
  mkM (Mmul a (Xaxis b)) (Mmul a (Yaxis b)) (Mmul a (Zaxis b)).

Definition Madd (a b : ChMatrix33 A) : ChMatrix33 A :=
  mkM (Vadd (Xaxis a) (Xaxis b)) (Vadd (Yaxis a) (Yaxis b))
      (Vadd (Zaxis a) (Zaxis b)).

Definition Msub (a b : ChMatrix33 A) : ChMatrix33 A :=
  mkM (Vsub (Xaxis a) (Xaxis b)) (Vsub (Yaxis a) (Yaxis b))
      (Vsub (Zaxis a) (Zaxis b)).

Definition Mscale (a : ChMatrix33 A) (s : A) : ChMatrix33 A :=
  mkM (Vmul (Xaxis a) s) (Vmul (Yaxis a) s) (Vmul (Zaxis a) s).

Definition Mzero : ChMatrix33 A := mkM VNULL VNULL VNULL.

(** [ChFrame::TransformPointParentToLocal]. *)
Definition TransformPointParentToLocal (f : ChFrame A) (parent : ChVector A)
  : ChVector A :=
  Mmul (Mtranspose (frame_rot f)) (Vsub parent (frame_pos f)).

(** [ChFrame::TransformParentToLocal] on a frame: the frame [g], given in
    the parent of [f], expressed in [f]. *)
Definition TransformParentToLocal (f g : ChFrame A) : ChFrame A :=
  mkFrame (TransformPointParentToLocal f (frame_pos g))
          (MMmul (Mtranspose (frame_rot f)) (frame_rot g)).

(** [ChFrame::TransformLocalToParent] on a frame: the frame [g], given in
    [f], expressed in the parent of [f]. *)
Definition TransformLocalToParent (f g : ChFrame A) : ChFrame A :=
  mkFrame (TransformPointLocalToParent f (frame_pos g))
          (MMmul (frame_rot f) (frame_rot g)).

(** [ChMatrix33(angle, axis)]: the rotation by [angle] about the unit vector
    [axis], built as the library does from the quaternion
    [(cos(angle/2), axis * sin(angle/2))]. *)
Definition Mrot_angle_axis `{Trig A} (angle : A) (axis : ChVector A)
  : ChMatrix33 A :=
  let halfang := angle / #2 in
  let sinhalf := sc_sin halfang in
  let e0 := sc_cos halfang in
  let e1 := vx axis * sinhalf in
  let e2 := vy axis * sinhalf in
  let e3 := vz axis * sinhalf in
  mkM (mkV ((e0 * e0 + e1 * e1) * #2 - #1)
           ((e1 * e2 + e0 * e3) * #2)
           ((e1 * e3 - e0 * e2) * #2))
      (mkV ((e1 * e2 - e0 * e3) * #2)
           ((e0 * e0 + e2 * e2) * #2 - #1)
           ((e2 * e3 + e0 * e1) * #2))
      (mkV ((e1 * e3 + e0 * e2) * #2)
           ((e2 * e3 - e0 * e1) * #2)
           ((e0 * e0 + e3 * e3) * #2 - #1)).

End Generic.

(** A vector of reals is horizontal when its vertical component is zero,
    and a unit vector when its squared length is one. *)
Definition horizontal (v : ChVector R) : Prop := vz v = 0%R.
Definition unit_vector (v : ChVector R) : Prop := Length2 v = 1%R.

(** A matrix of reals is a rotation when its columns are orthonormal. *)
Definition orthonormal (m : ChMatrix33 R) : Prop :=
  unit_vector (Xaxis m) /\ unit_vector (Yaxis m) /\ unit_vector (Zaxis m) /\
  Vdot (Xaxis m) (Yaxis m) = 0%R /\ Vdot (Xaxis m) (Zaxis m) = 0%R /\
  Vdot (Yaxis m) (Zaxis m) = 0%R.

Local Open Scope R_scope.

Ltac vec_unfold :=
  unfold unit_vector, horizontal, orthonormal, TransformLocalToParent,
    TransformParentToLocal, TransformPointParentToLocal,
    TransformPointLocalToParent, MMmul, Mtranspose, Madd, Msub, Mscale,
    Mzero, Mmul, Midentity, Project, Height, Vertical, Forward, Normalize, Length,
    Length2, Vcross, Vdot, Vdiv, Vmul, Vneg, Vsub, Vadd, VNULL in *.

(** Break every vector (and matrix, frame) of the context into its
    components. *)
Ltac vec_destruct :=
  repeat match goal with
  | f : ChFrame _ |- _ => destruct f
  | m : ChMatrix33 _ |- _ => destruct m
  | v : ChVector _ |- _ => destruct v
  end.

(** Componentwise proof of an equation or order fact about vectors. *)
Ltac vsolve :=
  intros; vec_destruct; vec_unfold; scalar_unfold; simpl in *;
  try solve [ f_equal; lra | f_equal; ring | lra | nra ].

Lemma ChVector_ext (a b : ChVector R) :
  vx a = vx b -> vy a = vy b -> vz a = vz b -> a = b.
Proof. destruct a, b; simpl; intros; subst; reflexivity. Qed.

(** ** Algebra *)

Lemma Vadd_comm (a b : ChVector R) : Vadd a b = Vadd b a.
Proof. vsolve. Qed.

Lemma Vadd_assoc (a b c : ChVector R) : Vadd (Vadd a b) c = Vadd a (Vadd b c).
Proof. vsolve. Qed.

Lemma Vadd_VNULL_l (a : ChVector R) : Vadd VNULL a = a.
Proof. vsolve. Qed.

Lemma Madd_assoc (a b c : ChMatrix33 R) : Madd (Madd a b) c = Madd a (Madd b c).
Proof. intros. vec_destruct. vec_unfold; scalar_unfold; simpl. f_equal; f_equal; ring. Qed.

Lemma Madd_Mzero_l (a : ChMatrix33 R) : Madd Mzero a = a.
Proof. intros. vec_destruct. vec_unfold; scalar_unfold; simpl. f_equal; f_equal; ring. Qed.

Lemma Madd_Mzero_r (a : ChMatrix33 R) : Madd a Mzero = a.
Proof. intros. vec_destruct. vec_unfold; scalar_unfold; simpl. f_equal; f_equal; ring. Qed.

Lemma Vadd_VNULL_r (a : ChVector R) : Vadd a VNULL = a.
Proof. vsolve. Qed.

Lemma Vsub_self (a : ChVector R) : Vsub a a = VNULL.
Proof. vsolve. Qed.

Lemma Vsub_VNULL_r (a : ChVector R) : Vsub a VNULL = a.
Proof. vsolve. Qed.

Lemma Vadd_Vsub_cancel (a b : ChVector R) : Vsub (Vadd a b) a = b.
Proof. vsolve. Qed.

Lemma Vmul_zero (a : ChVector R) : Vmul a 0 = VNULL.
Proof. vsolve. Qed.

Lemma Vmul_one (a : ChVector R) : Vmul a 1 = a.
Proof. vsolve. Qed.

Lemma Vdot_comm (a b : ChVector R) : Vdot a b = Vdot b a.
Proof. vsolve. Qed.

Lemma Vdot_Vmul_l (a b : ChVector R) (s : R) : Vdot (Vmul a s) b = s * Vdot a b.
Proof. vsolve. Qed.

Lemma Vdot_Vsub_l (a b c : ChVector R) :
  Vdot (Vsub a b) c = Vdot a c - Vdot b c.
Proof. vsolve. Qed.

Lemma Vcross_anticomm (a b : ChVector R) : Vcross a b = Vneg (Vcross b a).
Proof. vsolve. Qed.

Lemma Vcross_self (a : ChVector R) : Vcross a a = VNULL.
Proof. vsolve. Qed.

Lemma Vcross_Vneg_r (a b : ChVector R) : Vcross a (Vneg b) = Vneg (Vcross a b).
Proof. vsolve. Qed.

(** ** Length *)

Lemma Length2_nonneg (a : ChVector R) : 0 <= Length2 a.
Proof. vsolve. Qed.

Lemma Length_nonneg (a : ChVector R) : 0 <= Length a.
Proof. unfold Length. scalar_unfold. apply sqrt_pos. Qed.

Lemma Length_sqr (a : ChVector R) : Length a * Length a = Length2 a.
Proof. unfold Length. scalar_unfold. apply sqrt_sqrt, Length2_nonneg. Qed.

Lemma Length2_zero_iff (a : ChVector R) : Length2 a = 0 <-> a = VNULL.
Proof.
  split.
  - destruct a as [x y z]. vec_unfold; scalar_unfold; simpl. intros Hs.
    assert (x = 0) by nra. assert (y = 0) by nra. assert (z = 0) by nra.
    subst; reflexivity.
  - intros ->. vsolve.
Qed.

Lemma Length_zero_iff (a : ChVector R) : Length a = 0 <-> a = VNULL.
Proof.
  rewrite <- Length2_zero_iff. unfold Length. scalar_unfold. split.
  - intros Hs. apply sqrt_eq_0; [apply Length2_nonneg | assumption].
  - intros ->. apply sqrt_0.
Qed.

Lemma Length_of_unit (a : ChVector R) : unit_vector a -> Length a = 1.
Proof.
  unfold unit_vector, Length. scalar_unfold. intros ->. apply sqrt_1.
Qed.

Lemma Length_eq_of_sqr (a : ChVector R) (l : R) :
  0 <= l -> Length2 a = l * l -> Length a = l.
Proof.
  intros Hl E. unfold Length. scalar_unfold. rewrite E.
  apply sqrt_square; assumption.
Qed.

Lemma Length_Vmul (a : ChVector R) (s : R) :
  Length (Vmul a s) = Rabs s * Length a.
Proof.
  apply Length_eq_of_sqr.
  - apply Rmult_le_pos; [apply Rabs_pos | apply Length_nonneg].
  - transitivity (s * s * Length2 a); [vsolve |].
    rewrite <- Length_sqr.
    replace (s * s) with (Rabs s * Rabs s); [ring |].
    rewrite <- Rabs_mult. apply Rabs_pos_eq. nra.
Qed.

Lemma Length_Vneg (a : ChVector R) : Length (Vneg a) = Length a.
Proof.
  apply Length_eq_of_sqr; [apply Length_nonneg |].
  rewrite Length_sqr. vsolve.
Qed.

Lemma Length_Vsub_sym (a b : ChVector R) : Length (Vsub a b) = Length (Vsub b a).
Proof.
  apply Length_eq_of_sqr; [apply Length_nonneg |].
  rewrite Length_sqr. vsolve.
Qed.

Lemma Length_mono (a b : ChVector R) :
  Length2 a <= Length2 b -> Length a <= Length b.
Proof. unfold Length. scalar_unfold. apply sqrt_le_1_alt. Qed.

Lemma Length_lt_iff (a : ChVector R) (l : R) :
  0 <= l -> (Length a < l <-> Length2 a < l * l).
Proof.
  intros Hl. rewrite <- Length_sqr. pose proof (Length_nonneg a). split; nra.
Qed.

(** ** Normalisation *)

(** After [Normalize] a vector has length one, whatever it was before:
    either it was scaled by the inverse of its length, or it was replaced by
    the X unit vector. *)
Lemma Normalize_unit (a : ChVector R) : unit_vector (Normalize a).
Proof.
  pose proof (Length_nonneg a) as Hn. pose proof Rdbl_min_pos as Hm.
  pose proof (Length_sqr a) as Hs.
  unfold unit_vector, Normalize. scalar_unfold.
  destruct (Rltb_spec (Length a) Rdbl_min) as [Hlt | Hge].
  - vsolve.
  - transitivity ((1 / Length a) * (1 / Length a) * Length2 a); [vsolve |].
    rewrite <- Hs. field. lra.
Qed.

Lemma Normalize_Length (a : ChVector R) : Length (Normalize a) = 1.
Proof. apply Length_of_unit, Normalize_unit. Qed.

Lemma Normalize_of_unit (a : ChVector R) : unit_vector a -> Normalize a = a.
Proof.
  intros Hu. pose proof (Length_of_unit a Hu) as Hl.
  unfold Normalize. rewrite Hl. scalar_unfold.
  pose proof Rdbl_min_lt_1 as Hm.
  rewrite Rltb_false by lra.
  replace (1 / 1) with 1 by field. apply Vmul_one.
Qed.

Lemma Normalize_small (a : ChVector R) :
  Length a < Rdbl_min -> Normalize a = mkV 1 0 0.
Proof. intros Hl. unfold Normalize. scalar_unfold. rewrite Rltb_true by exact Hl. reflexivity. Qed.

Lemma Normalize_scaled (a : ChVector R) :
  Rdbl_min <= Length a -> Normalize a = Vmul a (1 / Length a).
Proof. intros Hl. unfold Normalize. scalar_unfold. rewrite Rltb_false by exact Hl. reflexivity. Qed.

Lemma Normalize_horizontal (a : ChVector R) :
  horizontal a -> horizontal (Normalize a).
Proof.
  unfold horizontal, Normalize. scalar_unfold. intros Hz.
  destruct (Rltb_spec (Length a) Rdbl_min); simpl; [reflexivity |].
  rewrite Hz. ring.
Qed.

(** ** The world frame *)

Lemma Project_components (v : ChVector R) : Project v = mkV (vx v) (vy v) 0.
Proof. vsolve. Qed.

Lemma Project_horizontal (v : ChVector R) : horizontal (Project v).
Proof. rewrite Project_components. reflexivity. Qed.

Lemma Project_idem (v : ChVector R) : Project (Project v) = Project v.
Proof. vsolve. Qed.

Lemma Project_of_horizontal (v : ChVector R) : horizontal v -> Project v = v.
Proof. destruct v; unfold horizontal; simpl; intros ->. vsolve. Qed.

Lemma Project_Vsub (a b : ChVector R) :
  Project (Vsub a b) = Vsub (Project a) (Project b).
Proof. vsolve. Qed.

Lemma Length_Project_le (v : ChVector R) : Length (Project v) <= Length v.
Proof. apply Length_mono. rewrite Project_components. vsolve. Qed.

Lemma Height_components (v : ChVector R) : Height v = vz v.
Proof. vsolve. Qed.

Lemma Height_Vcross (a b : ChVector R) :
  Height (Vcross a b) = vx a * vy b - vy a * vx b.
Proof. vsolve. Qed.

Lemma Vdot_Vcross_Vertical (a b : ChVector R) :
  Vdot (Vcross a b) Vertical = vx a * vy b - vy a * vx b.
Proof. vsolve. Qed.

(** The vertical component of the cross product of two horizontal unit
    vectors is a sine: it lies in [[-1, 1]]. *)
Lemma Height_Vcross_unit_bound (a b : ChVector R) :
  unit_vector a -> unit_vector b -> -1 <= Height (Vcross a b) <= 1.
Proof.
  rewrite Height_Vcross. destruct a as [ax ay az], b as [bx by' bz].
  unfold unit_vector; vec_unfold; scalar_unfold; simpl. intros Ha Hb.
  set (u := ax * ax + ay * ay). set (w := bx * bx + by' * by').
  assert (Hu : 0 <= u <= 1) by (unfold u; nra).
  assert (Hw : 0 <= w <= 1) by (unfold w; nra).
  assert (Hl : (ax * by' - ay * bx) * (ax * by' - ay * bx) <= u * w).
  { pose proof (Rle_0_sqr (ax * bx + ay * by')) as Hq. unfold Rsqr in Hq.
    unfold u, w. lra. }
  assert (Hsq : (ax * by' - ay * bx) * (ax * by' - ay * bx) <= 1) by nra.
  split; nra.
Qed.

(** For unit vectors, the test [|a - b| < 1] of the XT controller is a test
    on the scalar product: it holds exactly when [a . b > 1/2], that is when
    the angle between them is below 60 degrees. *)
Lemma unit_distance_test (a b : ChVector R) :
  unit_vector a -> unit_vector b ->
  (Length (Vsub a b) < 1 <-> 1 / 2 < Vdot a b).
Proof.
  intros Ha Hb. rewrite Length_lt_iff by lra.
  assert (E : Length2 (Vsub a b) = Length2 a + Length2 b - 2 * Vdot a b) by vsolve.
  rewrite E, Ha, Hb. split; lra.
Qed.

(** ** Frames and rotations *)

Lemma Mmul_identity (v : ChVector R) : Mmul Midentity v = v.
Proof. vsolve. Qed.

Lemma Mmul_Forward (m : ChMatrix33 R) (s : R) :
  Mmul m (Vmul Forward s) = Vmul (Xaxis m) s.
Proof. vsolve. Qed.

Lemma Length2_Mmul (m : ChMatrix33 R) (v : ChVector R) :
  orthonormal m -> Length2 (Mmul m v) = Length2 v.
Proof.
  destruct m as [[a1 a2 a3] [b1 b2 b3] [c1 c2 c3]], v as [x y z].
  unfold orthonormal; vec_unfold; scalar_unfold; simpl.
  intros (Ha & Hb & Hc & Hab & Hac & Hbc).
  transitivity (x * x * (a1 * a1 + a2 * a2 + a3 * a3)
                + y * y * (b1 * b1 + b2 * b2 + b3 * b3)
                + z * z * (c1 * c1 + c2 * c2 + c3 * c3)
                + 2 * x * y * (a1 * b1 + a2 * b2 + a3 * b3)
                + 2 * x * z * (a1 * c1 + a2 * c2 + a3 * c3)
                + 2 * y * z * (b1 * c1 + b2 * c2 + b3 * c3)); [ring |].
  rewrite Ha, Hb, Hc, Hab, Hac, Hbc. ring.
Qed.

Lemma Length_Mmul (m : ChMatrix33 R) (v : ChVector R) :
  orthonormal m -> Length (Mmul m v) = Length v.
Proof. intros Hm. unfold Length. rewrite Length2_Mmul by assumption. reflexivity. Qed.

(** The point at distance [d] ahead of a frame lies at distance [|d|] from
    its origin. *)
Lemma Transform_Forward_distance (f : ChFrame R) (d : R) :
  orthonormal (frame_rot f) ->
  Length (Vsub (TransformPointLocalToParent f (Vmul Forward d)) (frame_pos f))
  = Rabs d.
Proof.
  intros Hm. unfold TransformPointLocalToParent.
  rewrite Vadd_Vsub_cancel, Length_Mmul, Length_Vmul by assumption.
  replace (Length Forward) with 1; [ring |].
  symmetry. apply Length_of_unit. vsolve.
Qed.

Lemma Transform_identity (p v : ChVector R) :
  TransformPointLocalToParent (mkFrame p Midentity) v = Vadd p v.
Proof. unfold TransformPointLocalToParent; simpl. rewrite Mmul_identity. reflexivity. Qed.

(** The half-angle identities behind every rotation built from a
    quaternion. *)
Lemma half_angle (theta : R) :
  cos theta = 2 * cos (theta / 2) * cos (theta / 2) - 1 /\
  sin theta = 2 * sin (theta / 2) * cos (theta / 2) /\
  sin (theta / 2) * sin (theta / 2) + cos (theta / 2) * cos (theta / 2) = 1.
Proof.
  repeat split.
  - replace theta with (2 * (theta / 2)) at 1 by field. apply cos_2a_cos.
  - replace theta with (2 * (theta / 2)) at 1 by field. apply sin_2a.
  - apply (sin2_cos2 (theta / 2)).
Qed.

(** Transposition and product of matrices against a vector. *)
Lemma Mmul_MMmul (a b : ChMatrix33 R) (v : ChVector R) :
  Mmul (MMmul a b) v = Mmul a (Mmul b v).
Proof. vsolve. Qed.

Lemma Mtranspose_involutive (m : ChMatrix33 R) : Mtranspose (Mtranspose m) = m.
Proof. destruct m as [[] [] []]. reflexivity. Qed.

(** The transpose of an orthonormal matrix is its inverse. *)
Lemma orthonormal_inverse (m : ChMatrix33 R) :
  orthonormal m -> MMmul (Mtranspose m) m = Midentity.
Proof.
  destruct m as [[a b c] [d e f] [g h i]]. intros Ho.
  unfold orthonormal in Ho. vec_unfold; scalar_unfold; simpl in *.
  destruct Ho as (Hx & Hy & Hz & Hxy & Hxz & Hyz).
  repeat f_equal; lra.
Qed.

(** Seen from a frame that is only translated, a frame keeps its
    orientation. *)
Lemma TransformParentToLocal_translated (p : ChVector R) (g : ChFrame R) :
  TransformParentToLocal (mkFrame p Midentity) g =
  mkFrame (Vsub (frame_pos g) p) (frame_rot g).
Proof. destruct g as [[x y z] [[] [] []]], p. vec_unfold; scalar_unfold; simpl.
  f_equal; [| f_equal]; f_equal; ring.
Qed.

Lemma MMmul_identity_r (m : ChMatrix33 R) : MMmul m Midentity = m.
Proof. destruct m as [[] [] []]. vec_unfold; scalar_unfold; simpl. f_equal; f_equal; ring. Qed.

(** A point taken into an orthonormal frame and back is the point. *)
Lemma Transform_roundtrip (f : ChFrame R) (p : ChVector R) :
  orthonormal (frame_rot f) ->
  TransformPointLocalToParent f (TransformPointParentToLocal f p) = p.
Proof.
  destruct f as [[ox oy oz] [[a b c] [d e g] [h i j]]], p as [x y z].
  intros Ho. unfold orthonormal in Ho. vec_unfold; scalar_unfold; simpl in *.
  destruct Ho as (Hx & Hy & Hz & Hxy & Hxz & Hyz).
  f_equal; nsatz.
Qed.

(** A frame expressed in itself is the identity frame. *)
Lemma TransformParentToLocal_self (f : ChFrame R) :
  orthonormal (frame_rot f) ->
  TransformParentToLocal f f = mkFrame VNULL Midentity.
Proof.
  intros Ho. unfold TransformParentToLocal.
  rewrite (orthonormal_inverse _ Ho). f_equal.
  unfold TransformPointParentToLocal. destruct f as [[x y z] m].
  vec_unfold; scalar_unfold; simpl. f_equal; ring.
Qed.

(** The rotation about the vertical is the planar rotation of the
    horizontal components. *)
Lemma Mrot_Vertical (theta : R) (v : ChVector R) :
  Mmul (Mrot_angle_axis theta Vertical) v =
  mkV (cos theta * vx v - sin theta * vy v)
      (sin theta * vx v + cos theta * vy v)
      (vz v).
Proof.
  pose proof (sin2_cos2 (theta / 2)) as Hsc. unfold Rsqr in Hsc.
  assert (Hc : cos theta = 2 * cos (theta / 2) * cos (theta / 2) - 1).
  { replace theta with (2 * (theta / 2)) at 1 by field. apply cos_2a_cos. }
  assert (Hs : sin theta = 2 * sin (theta / 2) * cos (theta / 2)).
  { replace theta with (2 * (theta / 2)) at 1 by field. apply sin_2a. }
  rewrite Hc, Hs. destruct v as [x y z].
  unfold Mrot_angle_axis; vec_unfold; scalar_unfold; simpl.
  f_equal; nsatz.
Qed.

Lemma Mrot_Vertical_orthonormal (theta : R) :
  orthonormal (Mrot_angle_axis theta Vertical).
Proof.
  pose proof (sin2_cos2 (theta / 2)) as Hsc. unfold Rsqr in Hsc.
  unfold Mrot_angle_axis, orthonormal, unit_vector; vec_unfold; scalar_unfold;
    simpl.
  repeat split; nsatz.
Qed.

#[export] Hint Resolve Length_nonneg Length2_nonneg Normalize_unit
  Project_horizontal Normalize_horizontal Mrot_Vertical_orthonormal : chrono.
#[export] Hint Rewrite Normalize_Length Project_idem Vsub_self Vadd_VNULL_r
  Vsub_VNULL_r Vmul_one Vmul_zero : chrono_rw.
