(* ===== verification/Interfaces.v ===== *)
(** * Interfaces: what the controllers require of their collaborators

    The steering controllers read a snapshot of the vehicle, query a curve
    tracker, pass signals through first-order filters and load gains from a
    JSON document.  None of these is implemented in the excerpt.  Each is an
    interface here: a record or a class of operations, and, where a
    controller theorem relies on a promise of the collaborator, a class of
    laws.  The instances at the end ([LineTracker], [PT1]) discharge the
    laws; the controller files prove their theorems against the classes. *)

From Stdlib Require Import Reals Lra Psatz ZArith List Bool String.
From S2P Require Import Prelude ChMath ChVector.
Import ListNotations.

Local Open Scope scalar_scope.

(** ** The vehicle *)

(** What a controller reads from [ChVehicle] in one call. *)
Record ChVehicle (A : Type) : Type := mkVehicle {
  GetFrame_REF_to_abs : ChFrame A;   (* GetChassisBody()->GetFrame_REF_to_abs() *)
  GetPos : ChVector A;               (* GetPos() *)
  GetPointVelocity : ChVector A;     (* GetPointVelocity(ChVector<>(0, 0, 0)) *)
  GetSpeed : A;                      (* GetSpeed() *)
  GetChTime : A                      (* GetChTime() *)
}.
Arguments mkVehicle {A}.
Arguments GetFrame_REF_to_abs {A} _.
Arguments GetPos {A} _.
Arguments GetPointVelocity {A} _.
Arguments GetSpeed {A} _.
Arguments GetChTime {A} _.

(** ** The path *)

(** [ChBezierCurve], as far as the controllers see it: its points. *)
Record ChBezierCurve (A : Type) : Type := mkCurve {
  curve_points : list (ChVector A)
}.
Arguments mkCurve {A}.
Arguments curve_points {A} _.

Definition getNumPoints {A} (path : ChBezierCurve A) : nat :=
  List.length (curve_points path).

Definition getPoint {A} (path : ChBezierCurve A) (i : nat) : res (ChVector A) :=
  vec_at (curve_points path) i.

(** ** The curve tracker *)

(** [ChBezierCurveTracker]: built from a path, it keeps a cursor of its own
    (the state [T]); a query returns the point of the path closest to a
    location, optionally with the curve frame (tangent, normal, binormal as
    the axes of a frame at the point) and the curvature there. *)
Class CurveTracker (A T : Type) : Type := {
  trk_new : ChBezierCurve A -> bool -> T;
  trk_reset : T -> ChVector A -> T;
  trk_calcClosestPoint : T -> ChVector A -> T * ChVector A;
  trk_calcClosestPointTNB : T -> ChVector A -> T * (ChFrame A * A)
}.

(** A tracker is _stable_ on a set of its states when a query at a location
    answers the same point whatever the cursor, both queries agree on the
    point, and the states reached stay in the set. *)
Class StableTracker {T : Type} `{CurveTracker R T} (good : T -> Prop)
  (closest : ChVector R -> ChVector R) : Prop := {
  trk_reset_good : forall t loc, good t -> good (trk_reset t loc);
  trk_point_good : forall t loc, good t -> good (fst (trk_calcClosestPoint t loc));
  trk_tnb_good : forall t loc, good t -> good (fst (trk_calcClosestPointTNB t loc));
  trk_point_closest :
    forall t loc, good t -> snd (trk_calcClosestPoint t loc) = closest loc;
  trk_tnb_closest :
    forall t loc, good t ->
      frame_pos (fst (snd (trk_calcClosestPointTNB t loc))) = closest loc
}.

(** ** Filters *)

(** [utils::ChFilterPT1]: a first-order lag.  [pt1_default] is the
    default-constructed object, [pt1_config step T1] the object after
    [Config(step, T1)] (or built by [ChFilterPT1(step, T1)]), and
    [pt1_filter] one call of [Filter]. *)
Class FilterPT1 (A F : Type) : Type := {
  pt1_default : F;
  pt1_config : A -> A -> F;
  pt1_filter : F -> A -> F * A
}.

(** [utils::ChFilterPDT1], configured by [Config(step, Td1, T1, Kdt1)]. *)
Class FilterPDT1 (A F : Type) : Type := {
  pdt1_default : F;
  pdt1_config : A -> A -> A -> A -> F;
  pdt1_filter : F -> A -> F * A
}.

(** A lag filter is _bounded_ when, started from its configuration with a
    positive step and a non-negative time constant, it never answers an
    output larger in magnitude than the bound on its inputs.  [within f m]
    is the invariant on the filter state that carries the bound [m]. *)
Class BoundedPT1 {F : Type} `{FilterPT1 R F} (within : F -> R -> Prop) : Prop := {
  pt1_config_within :
    forall step T1 m, (0 < step)%R -> (0 <= T1)%R -> (0 <= m)%R ->
      within (pt1_config step T1) m;
  pt1_filter_within :
    forall f u m, within f m -> (Rabs u <= m)%R ->
      within (fst (pt1_filter f u)) m /\ (Rabs (snd (pt1_filter f u)) <= m)%R
}.

(** ** JSON documents *)

(** A [rapidjson::Document] after [ReadFileJSON]: null when the file could
    not be read or parsed, otherwise a value. *)
#[local] Unset Elimination Schemes.
Inductive Document (A : Type) : Type :=
| JNull
| JNumber (x : A)
| JObject (members : list (string * Document A))
| JOther.
#[local] Set Elimination Schemes.
Arguments JNull {A}.
Arguments JNumber {A} x.
Arguments JObject {A} members.
Arguments JOther {A}.

Definition IsNull {A} (d : Document A) : bool :=
  match d with JNull => true | _ => false end.

Fixpoint find_member {A} (key : string) (ms : list (string * Document A))
  : option (Document A) :=
  match ms with
  | [] => None
  | (k, v) :: rest => if String.eqb k key then Some v else find_member key rest
  end.

(** [d.HasMember(key)]; the library asserts that [d] is an object. *)
Definition HasMember {A} (d : Document A) (key : string) : res bool :=
  match d with
  | JObject ms => Ok (match find_member key ms with Some _ => true | None => false end)
  | _ => Err AssertFail
  end.

(** [d[key]]; the library asserts that [d] is an object with that member. *)
Definition member {A} (d : Document A) (key : string) : res (Document A) :=
  match d with
  | JObject ms =>
      match find_member key ms with
      | Some v => Ok v
      | None => Err AssertFail
      end
  | _ => Err AssertFail
  end.

(** [v.GetDouble()]; the library asserts that [v] is a number. *)
Definition GetDouble {A} (d : Document A) : res A :=
  match d with
  | JNumber x => Ok x
  | _ => Err AssertFail
  end.

(** [d[k1][k2].GetDouble()]. *)
Definition GetDouble2 {A} (d : Document A) (k1 k2 : string) : res A :=
  (o <- member d k1 ;; v <- member o k2 ;; GetDouble v)%res.

(** [d[k].GetDouble()]. *)
Definition GetDouble1 {A} (d : Document A) (k : string) : res A :=
  (v <- member d k ;; GetDouble v)%res.

(** ** A first-order lag as a bounded filter *)

(** The state of a [ChFilterPT1]: step, time constant, gain and the last
    output. *)
Record PT1 (A : Type) : Type := mkPT1 {
  pt1_step : A;
  pt1_T1 : A;
  pt1_Kpt1 : A;
  pt1_y_old : A
}.
Arguments mkPT1 {A}.
Arguments pt1_step {A} _.
Arguments pt1_T1 {A} _.
Arguments pt1_Kpt1 {A} _.
Arguments pt1_y_old {A} _.

Section PT1Filter.
Context {A : Type} `{Scalar A}.

(** Backward-Euler step of [T1 y' + y = Kpt1 u]. *)
Definition PT1_Filter (f : PT1 A) (u : A) : PT1 A * A :=
  let y := (pt1_Kpt1 f * pt1_step f * u + pt1_T1 f * pt1_y_old f)
           / (pt1_T1 f + pt1_step f) in
  (mkPT1 (pt1_step f) (pt1_T1 f) (pt1_Kpt1 f) y, y).

Definition PT1_Config (step T1 : A) : PT1 A := mkPT1 step T1 #1 #0.

#[export] Instance PT1_FilterPT1 : FilterPT1 A (PT1 A) := {|
  pt1_default := PT1_Config #1 #1;
  pt1_config := PT1_Config;
  pt1_filter := PT1_Filter
|}.

End PT1Filter.

(** ** A lead-lag controller *)

(** The state of a [ChFilterPDT1]: a proportional-derivative stage
    followed by a first-order lag.  [pdt1_first] is set until the first
    sample has been seen, so that the first derivative is zero. *)
Record PDT1 (A : Type) : Type := mkPDT1 {
  pdt1_step : A;
  pdt1_Td1 : A;
  pdt1_Kdt1 : A;
  pdt1_u_old : A;
  pdt1_first : bool;
  pdt1_lag : PT1 A
}.
Arguments mkPDT1 {A}.
Arguments pdt1_step {A} _.
Arguments pdt1_Td1 {A} _.
Arguments pdt1_Kdt1 {A} _.
Arguments pdt1_u_old {A} _.
Arguments pdt1_first {A} _.
Arguments pdt1_lag {A} _.

Section PDT1Filter.
Context {A : Type} `{Scalar A}.

Definition PDT1_Config (step Td1 T1 Kdt1 : A) : PDT1 A :=
  mkPDT1 step Td1 Kdt1 #0 true (PT1_Config step T1).

Definition PDT1_Filter (f : PDT1 A) (u : A) : PDT1 A * A :=
  let u_old := if pdt1_first f then u else pdt1_u_old f in
  let u1 := pdt1_Kdt1 f * (u + pdt1_Td1 f * (u - u_old) / pdt1_step f) in
  let '(lag, y) := PT1_Filter (pdt1_lag f) u1 in
  (mkPDT1 (pdt1_step f) (pdt1_Td1 f) (pdt1_Kdt1 f) u false lag, y).

#[export] Instance PDT1_FilterPDT1 : FilterPDT1 A (PDT1 A) := {|
  pdt1_default := PDT1_Config #1 #1 #1 #1;
  pdt1_config := PDT1_Config;
  pdt1_filter := PDT1_Filter
|}.

End PDT1Filter.

(** ** The tracker of a straight line *)

(** A straight path through [line_origin] along the horizontal unit vector
    [line_dir]: the closest point is the orthogonal projection, the tangent
    is the direction, the normal points to the left, the curvature is
    zero.  The tracker has no cursor. *)
Record LineTracker (A : Type) : Type := mkLine {
  line_origin : ChVector A;
  line_dir : ChVector A
}.
Arguments mkLine {A}.
Arguments line_origin {A} _.
Arguments line_dir {A} _.

Section Line.
Context {A : Type} `{Scalar A}.

Definition line_closest (l : LineTracker A) (loc : ChVector A) : ChVector A :=
  Vadd (line_origin l)
       (Vmul (line_dir l) (Vdot (Vsub loc (line_origin l)) (line_dir l))).

Definition line_frame (l : LineTracker A) (loc : ChVector A) : ChFrame A :=
  mkFrame (line_closest l loc)
          (mkM (line_dir l) (Vcross Vertical (line_dir l)) Vertical).

(** The line through the first two points of the path, along the X axis
    when the path has fewer than two points. *)
Definition line_of_path (path : ChBezierCurve A) : LineTracker A :=
  match curve_points path with
  | p0 :: p1 :: _ => mkLine p0 (Normalize (Vsub p1 p0))
  | p0 :: [] => mkLine p0 Forward
  | [] => mkLine VNULL Forward
  end.

#[export] Instance Line_CurveTracker : CurveTracker A (LineTracker A) := {|
  trk_new := fun path _ => line_of_path path;
  trk_reset := fun l _ => l;
  trk_calcClosestPoint := fun l loc => (l, line_closest l loc);
  trk_calcClosestPointTNB := fun l loc => (l, (line_frame l loc, #0))
|}.

End Line.

Local Open Scope R_scope.

(** ** JSON lookups *)

Lemma member_ok {A} (d : Document A) (key : string) (v : Document A) :
  member d key = Ok v <->
  exists ms, d = JObject ms /\ find_member key ms = Some v.
Proof.
  split.
  - destruct d as [| x | ms |]; simpl; try discriminate.
    destruct (find_member key ms) as [w |] eqn:E; [| discriminate].
    intros Hv; injection Hv as <-. exists ms; split; [reflexivity | exact E].
  - intros (ms & -> & E). simpl. rewrite E. reflexivity.
Qed.

Lemma member_null {A} (key : string) : member (@JNull A) key = Err AssertFail.
Proof. reflexivity. Qed.

Lemma GetDouble1_ok {A} (ms : list (string * Document A)) (k : string) (x : A) :
  find_member k ms = Some (JNumber x) -> GetDouble1 (JObject ms) k = Ok x.
Proof. intros E. unfold GetDouble1. simpl. rewrite E. reflexivity. Qed.

Lemma GetDouble2_ok {A} (ms gs : list (string * Document A)) (k1 k2 : string) (x : A) :
  find_member k1 ms = Some (JObject gs) ->
  find_member k2 gs = Some (JNumber x) ->
  GetDouble2 (JObject ms) k1 k2 = Ok x.
Proof. intros E1 E2. unfold GetDouble2. simpl. rewrite E1. simpl. rewrite E2. reflexivity. Qed.

(** ** The lag filter is bounded *)

(** The state of a lag is within [m] when its gain is one, its step is
    positive, its time constant is not negative, and its last output is at
    most [m] in magnitude. *)
Definition PT1_within (f : PT1 R) (m : R) : Prop :=
  pt1_Kpt1 f = 1 /\ 0 < pt1_step f /\ 0 <= pt1_T1 f /\ Rabs (pt1_y_old f) <= m.

(** A convex combination of two numbers within [m] is within [m]. *)
Lemma convex_within (a b u y m : R) :
  0 < a -> 0 <= b -> Rabs u <= m -> Rabs y <= m ->
  Rabs ((a * u + b * y) / (b + a)) <= m.
Proof.
  intros Ha Hb Hu Hy.
  assert (Hu' : - m <= u <= m) by (split; pose proof (Rabs_le_inv _ _ Hu); lra).
  assert (Hy' : - m <= y <= m) by (split; pose proof (Rabs_le_inv _ _ Hy); lra).
  apply Rabs_le. split.
  - apply Rmult_le_reg_r with (b + a); [lra |].
    unfold Rdiv. rewrite Rmult_assoc, Rinv_l by lra. nra.
  - apply Rmult_le_reg_r with (b + a); [lra |].
    unfold Rdiv. rewrite Rmult_assoc, Rinv_l by lra. nra.
Qed.

Lemma PT1_Filter_within (f : PT1 R) (u m : R) :
  PT1_within f m -> Rabs u <= m ->
  PT1_within (fst (PT1_Filter f u)) m /\ Rabs (snd (PT1_Filter f u)) <= m.
Proof.
  intros (HK & Hs & HT & Hy) Hu.
  assert (Hb : Rabs ((pt1_step f * u + pt1_T1 f * pt1_y_old f)
                     / (pt1_T1 f + pt1_step f)) <= m)
    by (apply convex_within; assumption).
  unfold PT1_within, PT1_Filter; scalar_unfold; simpl.
  rewrite HK, Rmult_1_l. repeat split; assumption.
Qed.

#[export] Instance PT1_Bounded : BoundedPT1 PT1_within.
Proof.
  split.
  - intros step T1 m Hs HT Hm. unfold PT1_within; simpl. scalar_unfold.
    repeat split; try assumption. rewrite Rabs_R0. assumption.
  - intros f u m. apply PT1_Filter_within.
Qed.

(** ** The line tracker is stable *)

Lemma line_closest_on_line (l : LineTracker R) (loc : ChVector R) :
  unit_vector (line_dir l) ->
  line_closest l (line_closest l loc) = line_closest l loc.
Proof.
  destruct l as [[ox oy oz] [dx dy dz]], loc as [x y z].
  unfold unit_vector, line_closest; vec_unfold; scalar_unfold; simpl.
  intros Hu.
  set (k := (x - ox) * dx + (y - oy) * dy + (z - oz) * dz).
  f_equal; f_equal; replace (ox + dx * k - ox) with (dx * k) by ring;
    replace (oy + dy * k - oy) with (dy * k) by ring;
    replace (oz + dz * k - oz) with (dz * k) by ring;
    replace (dx * k * dx + dy * k * dy + dz * k * dz)
      with (k * (dx * dx + dy * dy + dz * dz)) by ring;
    rewrite Hu; ring.
Qed.

(** The closest point is the foot of the perpendicular. *)
Lemma line_closest_perpendicular (l : LineTracker R) (loc : ChVector R) :
  unit_vector (line_dir l) ->
  Vdot (Vsub loc (line_closest l loc)) (line_dir l) = 0.
Proof.
  destruct l as [[ox oy oz] [dx dy dz]], loc as [x y z].
  unfold unit_vector, line_closest; vec_unfold; scalar_unfold; simpl.
  intros Hu.
  set (k := (x - ox) * dx + (y - oy) * dy + (z - oz) * dz).
  transitivity (k - k * (dx * dx + dy * dy + dz * dz)); [unfold k; ring |].
  rewrite Hu. ring.
Qed.

#[export] Instance Line_Stable (l : LineTracker R) :
  StableTracker (fun t => t = l) (line_closest l).
Proof.
  split; simpl; intros; subst; reflexivity.
Qed.

#[export] Hint Resolve PT1_Filter_within convex_within : chrono.
