(* ===== verification/SteeringBase.v ===== *)
(** * SteeringBase: [ChSteeringController] and [ChPathSteeringController]

    The base class keeps the sentinel and target points, the error with its
    integral and derivative, the PID gains, the look-ahead distance and the
    data-collection state.  [Advance] is written once for every derived
    class: the virtual method [CalcTargetLocation] is an argument, and the
    members of the derived class travel beside the base record as the
    extension [E].  [ChPathSteeringController] is the derived class whose
    target is the closest point reported by a curve tracker.

    After the definitions come the data-collection invariant, the
    controller as a state machine, the life of the CSV writer, one step
    and a whole run against the PID law, the file a session of calls
    leaves, the scenarios of the specification, and the session run on
    binary64. *)

From Stdlib Require Import Reals Lra Psatz ZArith List Bool String Morphisms Setoid.
From Stdlib Require Import Sorted.
From Stdlib Require PrimFloat.
From S2P Require Import Prelude ChMath ChVector Interfaces.
Import ListNotations.

Local Open Scope scalar_scope.

(** One line of the CSV log: time, target, sentinel. *)
Record CsvRow (A : Type) : Type := mkRow {
  row_time : A;
  row_target : ChVector A;
  row_sentinel : ChVector A
}.
Arguments mkRow {A}.
Arguments row_time {A} _.
Arguments row_target {A} _.
Arguments row_sentinel {A} _.

(** The data members of [ChSteeringController].  [m_csv] is the pointer to
    the CSV writer: [None] is [nullptr], [Some rows] a writer holding
    [rows], oldest first. *)
Record ChSteeringController (A : Type) : Type := mkController {
  m_sentinel : ChVector A;
  m_target : ChVector A;
  m_err : A;
  m_errd : A;
  m_erri : A;
  m_Kp : A;
  m_Ki : A;
  m_Kd : A;
  m_dist : A;
  m_csv : option (list (CsvRow A));
  m_collect : bool
}.
Arguments mkController {A}.
Arguments m_sentinel {A} _.
Arguments m_target {A} _.
Arguments m_err {A} _.
Arguments m_errd {A} _.
Arguments m_erri {A} _.
Arguments m_Kp {A} _.
Arguments m_Ki {A} _.
Arguments m_Kd {A} _.
Arguments m_dist {A} _.
Arguments m_csv {A} _.
Arguments m_collect {A} _.

Section Base.
Context {A : Type} `{Scalar A}.

(** *** Assignments to single members *)

Definition set_sentinel (c : ChSteeringController A) (p : ChVector A) :=
  mkController p (m_target c) (m_err c) (m_errd c) (m_erri c)
    (m_Kp c) (m_Ki c) (m_Kd c) (m_dist c) (m_csv c) (m_collect c).

Definition set_target (c : ChSteeringController A) (p : ChVector A) :=
  mkController (m_sentinel c) p (m_err c) (m_errd c) (m_erri c)
    (m_Kp c) (m_Ki c) (m_Kd c) (m_dist c) (m_csv c) (m_collect c).

Definition set_errors (c : ChSteeringController A) (err errd erri : A) :=
  mkController (m_sentinel c) (m_target c) err errd erri
    (m_Kp c) (m_Ki c) (m_Kd c) (m_dist c) (m_csv c) (m_collect c).

Definition set_dist (c : ChSteeringController A) (dist : A) :=
  mkController (m_sentinel c) (m_target c) (m_err c) (m_errd c) (m_erri c)
    (m_Kp c) (m_Ki c) (m_Kd c) dist (m_csv c) (m_collect c).

Definition set_csv (c : ChSteeringController A) (csv : option (list (CsvRow A))) :=
  mkController (m_sentinel c) (m_target c) (m_err c) (m_errd c) (m_erri c)
    (m_Kp c) (m_Ki c) (m_Kd c) (m_dist c) csv (m_collect c).

Definition set_collect (c : ChSteeringController A) (b : bool) :=
  mkController (m_sentinel c) (m_target c) (m_err c) (m_errd c) (m_erri c)
    (m_Kp c) (m_Ki c) (m_Kd c) (m_dist c) (m_csv c) b.

(** [SetGains(Kp, Ki, Kd)] and [SetLookAheadDistance(dist)] of the class
    declaration. *)
Definition SetGains (c : ChSteeringController A) (Kp Ki Kd : A) :=
  mkController (m_sentinel c) (m_target c) (m_err c) (m_errd c) (m_erri c)
    Kp Ki Kd (m_dist c) (m_csv c) (m_collect c).

Definition SetLookAheadDistance (c : ChSteeringController A) (dist : A) :=
  set_dist c dist.

(** *** Constructors *)

(** [ChSteeringController()]: everything zero, no writer, not collecting. *)
Definition ChSteeringController_default : ChSteeringController A :=
  SetGains
    (mkController VNULL VNULL #0 #0 #0 #0 #0 #0 #0 None false)
    #0 #0 #0.

(** [ChSteeringController(filename)].  The initialiser list does not mention
    [m_dist] nor the gains: they keep the bytes of the storage, [raw], unless
    the document is read.  A document that is not null must hold
    [Gains.Kp], [Gains.Ki], [Gains.Kd] and [Lookahead Distance] as numbers,
    or the JSON library's assertion fails. *)
Definition ChSteeringController_file (raw : ChSteeringController A)
  (d : Document A) : res (ChSteeringController A) :=
  let c := mkController VNULL VNULL #0 #0 #0
             (m_Kp raw) (m_Ki raw) (m_Kd raw) (m_dist raw) None false in
  if IsNull d then Ok c
  else
    (Kp <- GetDouble2 d "Gains" "Kp" ;;
     Ki <- GetDouble2 d "Gains" "Ki" ;;
     Kd <- GetDouble2 d "Gains" "Kd" ;;
     dist <- GetDouble1 d "Lookahead Distance" ;;
     Ok (set_dist (SetGains c Kp Ki Kd) dist))%res.

(** *** Reset *)

(** The sentinel: the point at the look-ahead distance in front of the
    chassis reference frame. *)
Definition sentinel_location (vehicle : ChVehicle A) (dist : A) : ChVector A :=
  TransformPointLocalToParent (GetFrame_REF_to_abs vehicle) (Vmul Forward dist).

Definition Reset (c : ChSteeringController A) (vehicle : ChVehicle A)
  : ChSteeringController A :=
  let c := set_sentinel c (sentinel_location vehicle (m_dist c)) in
  set_errors c #0 #0 #0.

(** *** Advance *)

(** [*m_csv << time << m_target << m_sentinel << std::endl], guarded by
    [m_collect].  Writing through a null [m_csv] is a fault. *)
Definition log_row (c : ChSteeringController A) (vehicle : ChVehicle A)
  : res (ChSteeringController A) :=
  if m_collect c then
    match m_csv c with
    | Some rows =>
        Ok (set_csv c (Some (rows ++
              [mkRow (GetChTime vehicle) (m_target c) (m_sentinel c)])))
    | None => Err NullDeref
    end
  else Ok c.

(** The signed lateral error: the length of the horizontal projection of
    the vector from sentinel to target, with the sign of the vertical
    component of the cross product of the (projected) vectors from the
    vehicle to the sentinel and to the target. *)
Definition lateral_error (sentinel target pos : ChVector A) : A :=
  let err_vec := Project (Vsub target sentinel) in
  let sentinel_vec := Project (Vsub sentinel pos) in
  let target_vec := Project (Vsub target pos) in
  let temp := Vdot (Vcross sentinel_vec target_vec) Vertical in
  #(ChSignum temp) * Length err_vec.

(** The PID update: backward difference, trapezoidal integral, new error,
    and the command [Kp err + Ki erri + Kd errd]. *)
Definition pid_update (c : ChSteeringController A) (err step : A)
  : ChSteeringController A * A :=
  let errd := (err - m_err c) / step in
  let erri := m_erri c + (err + m_err c) * step / #2 in
  let c := set_errors c err errd erri in
  (c, m_Kp c * m_err c + m_Ki c * m_erri c + m_Kd c * m_errd c).

(** [ChSteeringController::Advance(vehicle, step)] for a derived class
    with members [E] and virtual method [CalcTargetLocation]. *)
Definition Advance {E : Type}
  (CalcTargetLocation : ChSteeringController A -> E -> ChSteeringController A * E)
  (c : ChSteeringController A) (e : E) (vehicle : ChVehicle A) (step : A)
  : res (ChSteeringController A * E * A) :=
  let c := set_sentinel c (sentinel_location vehicle (m_dist c)) in
  let '(c, e) := CalcTargetLocation c e in
  (c <- log_row c vehicle ;;
   let err := lateral_error (m_sentinel c) (m_target c) (GetPos vehicle) in
   let '(c, out) := pid_update c err step in
   Ok (c, e, out))%res.

(** *** Data collection *)

Definition StartDataCollection (c : ChSteeringController A)
  : ChSteeringController A :=
  if m_collect c then c
  else
    let c := match m_csv c with
             | None => set_csv c (Some [])
             | Some _ => c
             end in
    set_collect c true.

Definition StopDataCollection (c : ChSteeringController A)
  : ChSteeringController A :=
  set_collect c false.

(** [WriteOutputFile(filename)]: the rows written to the file, or [None]
    when nothing is written because collection was never enabled. *)
Definition WriteOutputFile (c : ChSteeringController A)
  : option (list (CsvRow A)) :=
  m_csv c.

End Base.

Arguments lateral_error {A _} _ _ _ : simpl never.
Arguments sentinel_location {A _} _ _ : simpl never.

(** The rows the writer holds; none when there is no writer. *)
Definition logged {A} (c : ChSteeringController A) : list (CsvRow A) :=
  match m_csv c with Some rows => rows | None => [] end.

(** ** [ChPathSteeringController] *)

(** The derived class adds the path and its tracker. *)
Record ChPathSteeringController (A T : Type) : Type := mkPath {
  path_base : ChSteeringController A;
  m_path : ChBezierCurve A;
  m_tracker : T
}.
Arguments mkPath {A T}.
Arguments path_base {A T} _.
Arguments m_path {A T} _.
Arguments m_tracker {A T} _.

Section Path.
Context {A T : Type} `{Scalar A} `{CurveTracker A T}.

Definition ChPathSteeringController_new (path : ChBezierCurve A)
  (isClosedPath : bool) : ChPathSteeringController A T :=
  mkPath ChSteeringController_default path (trk_new path isClosedPath).

Definition ChPathSteeringController_file (raw : ChSteeringController A)
  (d : Document A) (path : ChBezierCurve A) (isClosedPath : bool)
  : res (ChPathSteeringController A T) :=
  (b <- ChSteeringController_file raw d ;;
   Ok (mkPath b path (trk_new path isClosedPath)))%res.

(** [m_tracker->calcClosestPoint(m_sentinel, m_target)]. *)
Definition Path_CalcTargetLocation (c : ChSteeringController A) (t : T)
  : ChSteeringController A * T :=
  let '(t, p) := trk_calcClosestPoint t (m_sentinel c) in
  (set_target c p, t).

Definition Path_Reset (p : ChPathSteeringController A T) (vehicle : ChVehicle A)
  : ChPathSteeringController A T :=
  let b := Reset (path_base p) vehicle in
  mkPath b (m_path p) (trk_reset (m_tracker p) (m_sentinel b)).

(** The inherited [Advance]. *)
Definition Path_Advance (p : ChPathSteeringController A T)
  (vehicle : ChVehicle A) (step : A) : res (ChPathSteeringController A T * A) :=
  (r <- Advance Path_CalcTargetLocation (path_base p) (m_tracker p) vehicle step ;;
   let '(b, t, out) := r in
   Ok (mkPath b (m_path p) t, out))%res.

End Path.

(** ** Well-formedness and the abstract specification *)

(** The data-collection invariant: while collection is enabled the writer
    exists, so [Advance] never writes through a null pointer. *)
Definition wf {A} (c : ChSteeringController A) : Prop :=
  m_collect c = true -> m_csv c <> None.

(** A virtual [CalcTargetLocation] is _target-only_ when the only member of
    the base class it assigns is [m_target]. *)
Definition target_only {A E}
  (calc : ChSteeringController A -> E -> ChSteeringController A * E) : Prop :=
  forall c e, fst (calc c e) = set_target c (m_target (fst (calc c e))).

(** The composite trapezoidal rule over a sequence of samples
    [(error, step)], starting from the error [e0]. *)
Fixpoint trapezoid (e0 : R) (samples : list (R * R)) : R :=
  match samples with
  | [] => 0%R
  | (e, h) :: rest => ((e + e0) * h / 2 + trapezoid e rest)%R
  end.

(** The controller fed a sequence of error samples. *)
Fixpoint pid_run {A} `{Scalar A} (c : ChSteeringController A)
  (samples : list (A * A)) : ChSteeringController A :=
  match samples with
  | [] => c
  | (e, h) :: rest => pid_run (fst (pid_update c e h)) rest
  end.

Ltac ctl_unfold :=
  unfold Path_Advance, Path_Reset, Path_CalcTargetLocation,
    ChPathSteeringController_new, ChPathSteeringController_file,
    Advance, Reset, log_row, pid_update, StartDataCollection,
    StopDataCollection, WriteOutputFile, ChSteeringController_default,
    SetLookAheadDistance, SetGains, set_collect, set_csv, set_dist,
    set_errors, set_target, set_sentinel, wf in *.

Section Invariant.
Context {A : Type} `{Scalar A}.
Implicit Types (c : ChSteeringController A) (vehicle : ChVehicle A).

Lemma wf_default : wf (@ChSteeringController_default A _).
Proof. ctl_unfold; simpl. discriminate. Qed.

Lemma wf_file raw (d : Document A) c :
  ChSteeringController_file raw d = Ok c -> wf c.
Proof.
  unfold ChSteeringController_file. cbv zeta. destruct (IsNull d).
  - intros E; injection E as <-. ctl_unfold; simpl. discriminate.
  - intros E.
    repeat (apply res_bind_ok in E; destruct E as (? & _ & E)).
    injection E as <-. ctl_unfold; simpl. discriminate.
Qed.

Lemma wf_Reset c vehicle : wf c -> wf (Reset c vehicle).
Proof. ctl_unfold; simpl. auto. Qed.

Lemma wf_SetGains c Kp Ki Kd : wf c -> wf (SetGains c Kp Ki Kd).
Proof. ctl_unfold; simpl. auto. Qed.

Lemma wf_SetLookAheadDistance c dist : wf c -> wf (SetLookAheadDistance c dist).
Proof. ctl_unfold; simpl. auto. Qed.

(** [StartDataCollection] establishes the invariant from any state, even
    one that violates it. *)
Lemma wf_StartDataCollection c : wf c -> wf (StartDataCollection c).
Proof.
  ctl_unfold. destruct (m_collect c) eqn:Ec; simpl; [rewrite Ec; auto |].
  destruct (m_csv c) eqn:Er; simpl; rewrite ?Er; easy.
Qed.

Lemma wf_StopDataCollection c : wf (StopDataCollection c).
Proof. ctl_unfold; simpl. discriminate. Qed.

Lemma wf_set_target c p : wf c -> wf (set_target c p).
Proof. ctl_unfold; simpl. auto. Qed.

Lemma wf_set_sentinel c p : wf c -> wf (set_sentinel c p).
Proof. ctl_unfold; simpl. auto. Qed.

Lemma wf_pid_update c err step : wf c -> wf (fst (pid_update c err step)).
Proof. ctl_unfold; simpl. auto. Qed.

(** Under the invariant the log step succeeds and keeps the invariant. *)
Lemma log_row_ok c vehicle :
  wf c -> exists c', log_row c vehicle = Ok c' /\ wf c' /\
    m_sentinel c' = m_sentinel c /\ m_target c' = m_target c /\
    m_err c' = m_err c /\ m_erri c' = m_erri c /\ m_errd c' = m_errd c /\
    m_Kp c' = m_Kp c /\ m_Ki c' = m_Ki c /\ m_Kd c' = m_Kd c /\
    m_dist c' = m_dist c /\ m_collect c' = m_collect c.
Proof.
  intros Hwf. unfold log_row. destruct (m_collect c) eqn:Ec.
  - destruct (m_csv c) as [rows |] eqn:Er; [| exfalso; apply (Hwf Ec Er)].
    eexists; split; [reflexivity |].
    ctl_unfold; simpl. repeat split; auto; easy.
  - exists c. repeat split; auto.
Qed.

(** Without the invariant the log step is the one place where [Advance]
    faults. *)
Lemma log_row_fault c vehicle :
  m_collect c = true -> m_csv c = None -> log_row c vehicle = Err NullDeref.
Proof. intros Ec Er. unfold log_row. rewrite Ec, Er. reflexivity. Qed.

(** The log step appends one row while collection is on and none
    otherwise, and leaves the flag as it is. *)
Lemma log_row_logged c vehicle c' :
  log_row c vehicle = Ok c' ->
  m_collect c' = m_collect c /\
  logged c' =
    logged c ++
    (if m_collect c
     then [mkRow (GetChTime vehicle) (m_target c') (m_sentinel c')] else []).
Proof.
  unfold log_row, logged.
  destruct (m_collect c) eqn:Ec; [destruct (m_csv c) eqn:Er |];
    intros E; inversion E; subst; cbn; rewrite ?Ec, ?Er, ?app_nil_r; auto.
Qed.

Lemma Advance_ok {E} (calc : ChSteeringController A -> E -> ChSteeringController A * E)
  c (e : E) vehicle step :
  target_only calc -> wf c ->
  exists c' e' out, Advance calc c e vehicle step = Ok (c', e', out) /\ wf c'.
Proof.
  intros Hcalc Hwf. unfold Advance.
  set (c1 := set_sentinel c (sentinel_location vehicle (m_dist c))).
  pose proof (Hcalc c1 e) as Hc. destruct (calc c1 e) as [c2 e2]; simpl in Hc.
  assert (Hwf2 : wf c2) by (rewrite Hc; apply wf_set_target, wf_set_sentinel, Hwf).
  destruct (log_row_ok c2 vehicle Hwf2) as (c3 & -> & Hwf3 & _).
  cbn [res_bind].
  match goal with
  | |- context [pid_update ?a ?b ?s] => destruct (pid_update a b s) as [c4 out] eqn:Ep
  end.
  exists c4, e2, out. split; [reflexivity |].
  change c4 with (fst (c4, out)). rewrite <- Ep. apply wf_pid_update, Hwf3.
Qed.

Context {T : Type} `{CurveTracker A T}.

Lemma Path_target_only : target_only (@Path_CalcTargetLocation A T _).
Proof.
  intros c t. unfold Path_CalcTargetLocation.
  destruct (trk_calcClosestPoint t (m_sentinel c)); reflexivity.
Qed.

End Invariant.

(** ** The lateral error *)

Section RealError.
Local Open Scope R_scope.
Implicit Types (s t p : ChVector R).

(** The quantity whose sign the error takes: the vertical component of
    [(s - p) x (t - p)], projections included. *)
Definition turn (s t p : ChVector R) : R :=
  (vx s - vx p) * (vy t - vy p) - (vy s - vy p) * (vx t - vx p).

(** The horizontal distance between sentinel and target. *)
Definition horizontal_distance (s t : ChVector R) : R :=
  Length (Project (Vsub t s)).

Lemma lateral_error_eq s t p :
  lateral_error s t p = IZR (ChSignum (turn s t p)) * horizontal_distance s t.
Proof.
  unfold lateral_error, horizontal_distance, turn. scalar_unfold.
  f_equal. f_equal. f_equal. vsolve.
Qed.

Lemma horizontal_distance_nonneg s t : 0 <= horizontal_distance s t.
Proof. unfold horizontal_distance. auto with chrono. Qed.

Lemma horizontal_distance_sqr s t :
  horizontal_distance s t * horizontal_distance s t =
  (vx t - vx s) * (vx t - vx s) + (vy t - vy s) * (vy t - vy s).
Proof. unfold horizontal_distance. rewrite Length_sqr. vsolve. Qed.

Lemma horizontal_distance_zero s t :
  vx t = vx s -> vy t = vy s -> horizontal_distance s t = 0.
Proof.
  intros Hx Hy. unfold horizontal_distance. apply Length_zero_iff.
  rewrite Project_components. destruct s, t; simpl in *; subst. vsolve.
Qed.

Lemma lateral_error_left s t p :
  0 < turn s t p -> lateral_error s t p = horizontal_distance s t.
Proof. intros Ht. rewrite lateral_error_eq, ChSignum_pos by assumption. ring. Qed.

Lemma lateral_error_right s t p :
  turn s t p < 0 -> lateral_error s t p = - horizontal_distance s t.
Proof. intros Ht. rewrite lateral_error_eq, ChSignum_neg by assumption. ring. Qed.

Lemma lateral_error_aligned s t p :
  turn s t p = 0 -> lateral_error s t p = 0.
Proof. intros Ht. rewrite lateral_error_eq, Ht, ChSignum_zero. ring. Qed.

Lemma lateral_error_abs_le s t p :
  Rabs (lateral_error s t p) <= horizontal_distance s t.
Proof.
  rewrite lateral_error_eq. apply ChSignum_mul_abs_le, horizontal_distance_nonneg.
Qed.

Lemma lateral_error_abs s t p :
  turn s t p <> 0 -> Rabs (lateral_error s t p) = horizontal_distance s t.
Proof.
  intros Ht. rewrite lateral_error_eq.
  apply ChSignum_mul_abs; [apply horizontal_distance_nonneg | assumption].
Qed.

Lemma lateral_error_on_target s p : lateral_error s s p = 0.
Proof.
  rewrite lateral_error_eq, horizontal_distance_zero by reflexivity. ring.
Qed.

(** Exchanging sentinel and target changes the sign of the error. *)
Lemma lateral_error_swap s t p :
  lateral_error t s p = - lateral_error s t p.
Proof.
  rewrite !lateral_error_eq.
  replace (turn t s p) with (- turn s t p) by (unfold turn; ring).
  rewrite ChSignum_opp, opp_IZR.
  unfold horizontal_distance.
  replace (Project (Vsub s t)) with (Vneg (Project (Vsub t s))) by vsolve.
  rewrite Length_Vneg. ring.
Qed.

End RealError.

(** ** The PID update *)

Section RealPID.
Local Open Scope R_scope.
Implicit Types (c : ChSteeringController R).

Lemma pid_update_fields c err step :
  let c' := fst (pid_update c err step) in
  m_err c' = err /\
  m_errd c' = (err - m_err c) / step /\
  m_erri c' = m_erri c + (err + m_err c) * step / 2 /\
  m_sentinel c' = m_sentinel c /\ m_target c' = m_target c /\
  m_Kp c' = m_Kp c /\ m_Ki c' = m_Ki c /\ m_Kd c' = m_Kd c /\
  m_dist c' = m_dist c /\ m_csv c' = m_csv c /\ m_collect c' = m_collect c.
Proof. ctl_unfold; simpl. repeat split. Qed.

Lemma pid_update_out c err step :
  snd (pid_update c err step) =
  m_Kp c * err + m_Ki c * (m_erri c + (err + m_err c) * step / 2)
  + m_Kd c * ((err - m_err c) / step).
Proof. reflexivity. Qed.

Lemma pid_run_app c (xs ys : list (R * R)) :
  pid_run c (xs ++ ys) = pid_run (pid_run c xs) ys.
Proof.
  revert c; induction xs as [| [e h] xs IH]; intros c; simpl; [reflexivity |].
  apply IH.
Qed.

Lemma pid_run_err c (samples : list (R * R)) :
  m_err (pid_run c samples) = fst (last samples (m_err c, 0)).
Proof.
  revert c; induction samples as [| [e h] rest IH]; intros c; [reflexivity |].
  simpl pid_run. rewrite IH. destruct rest as [| x rest]; [reflexivity |].
  change (last ((e, h) :: x :: rest) (m_err c, 0)) with (last (x :: rest) (m_err c, 0)).
  f_equal. apply last_cons_default.
Qed.

Lemma trapezoid_app (e0 : R) (xs ys : list (R * R)) :
  trapezoid e0 (xs ++ ys) =
  trapezoid e0 xs + trapezoid (fst (last xs (e0, 0))) ys.
Proof.
  revert e0; induction xs as [| [e h] xs IH]; intros e0; simpl; [ring |].
  rewrite IH. destruct xs as [| x xs]; [simpl; ring |].
  change (last ((e, h) :: x :: xs) (e0, 0)) with (last (x :: xs) (e0, 0)).
  rewrite (last_cons_default x xs (e, 0) (e0, 0)). ring.
Qed.

(** Equal steps: the accumulated integral is the composite trapezoidal
    formula [h (e0/2 + e1 + ... + e(n-1) + en/2)]. *)
Lemma trapezoid_uniform (h e0 en : R) (es : list R) :
  trapezoid e0 (map (fun e => (e, h)) (es ++ [en])) =
  h * (e0 / 2 + fold_right Rplus 0 es + en / 2).
Proof.
  revert e0; induction es as [| e es IH]; intros e0; simpl.
  - field.
  - rewrite IH. field.
Qed.

(** A constant error [e] held for [n] steps of length [h] integrates to
    [n h e]. *)
Lemma trapezoid_constant (h e : R) (n : nat) :
  trapezoid e (repeat (e, h) n) = INR n * h * e.
Proof.
  induction n as [| n IH]; [simpl; ring |].
  cbn [repeat trapezoid]. rewrite IH, S_INR. field.
Qed.

End RealPID.

(** ** The controller as a state machine *)

(** The calls a driver model can make on a [ChPathSteeringController]. *)
Inductive PathOp (A : Type) : Type :=
| OpReset (vehicle : ChVehicle A)
| OpAdvance (vehicle : ChVehicle A) (step : A)
| OpStartDataCollection
| OpStopDataCollection
| OpSetGains (Kp Ki Kd : A)
| OpSetLookAheadDistance (dist : A).
Arguments OpReset {A}.
Arguments OpAdvance {A}.
Arguments OpStartDataCollection {A}.
Arguments OpStopDataCollection {A}.
Arguments OpSetGains {A}.
Arguments OpSetLookAheadDistance {A}.

Section Machine.
Context {A T : Type} `{Scalar A} `{CurveTracker A T}.
Implicit Types (p : ChPathSteeringController A T).

Definition on_base p (f : ChSteeringController A -> ChSteeringController A) :=
  mkPath (f (path_base p)) (m_path p) (m_tracker p).

Definition Path_apply p (o : PathOp A) : res (ChPathSteeringController A T) :=
  match o with
  | OpReset vehicle => Ok (Path_Reset p vehicle)
  | OpAdvance vehicle step => res_map fst (Path_Advance p vehicle step)
  | OpStartDataCollection => Ok (on_base p StartDataCollection)
  | OpStopDataCollection => Ok (on_base p StopDataCollection)
  | OpSetGains Kp Ki Kd => Ok (on_base p (fun b => SetGains b Kp Ki Kd))
  | OpSetLookAheadDistance dist => Ok (on_base p (fun b => SetLookAheadDistance b dist))
  end.

(** The states a program can bring a controller to: it is constructed, then
    called any number of times, and every call returned. *)
Inductive Path_reachable : ChPathSteeringController A T -> Prop :=
| reach_new path isClosedPath :
    Path_reachable (ChPathSteeringController_new path isClosedPath)
| reach_file raw d path isClosedPath p :
    ChPathSteeringController_file raw d path isClosedPath = Ok p ->
    Path_reachable p
| reach_step p o p' :
    Path_reachable p -> Path_apply p o = Ok p' -> Path_reachable p'.

Lemma Path_Advance_ok p vehicle step :
  wf (path_base p) ->
  exists p' out, Path_Advance p vehicle step = Ok (p', out) /\ wf (path_base p').
Proof.
  intros Hwf. unfold Path_Advance.
  destruct (Advance_ok Path_CalcTargetLocation (path_base p) (m_tracker p)
              vehicle step Path_target_only Hwf) as (c' & t' & out & -> & Hwf').
  exists (mkPath c' (m_path p) t'), out. split; [reflexivity | exact Hwf'].
Qed.

Lemma Path_Advance_null p vehicle step :
  m_collect (path_base p) = true -> m_csv (path_base p) = None ->
  Path_Advance p vehicle step = Err NullDeref.
Proof.
  intros Ec Er. unfold Path_Advance, Advance, Path_CalcTargetLocation.
  destruct (trk_calcClosestPoint _ _) as [t' q]. simpl.
  rewrite log_row_fault by (simpl; assumption). reflexivity.
Qed.

Lemma Path_apply_wf p o p' :
  wf (path_base p) -> Path_apply p o = Ok p' -> wf (path_base p').
Proof.
  intros Hwf. destruct o as [v | v step | | | Kp Ki Kd | dist]; simpl;
    try (intros E; injection E as <-; simpl).
  - apply wf_Reset, Hwf.
  - destruct (Path_Advance_ok p v step Hwf) as (q & out & -> & Hq).
    simpl. intros E; injection E as <-. exact Hq.
  - apply wf_StartDataCollection, Hwf.
  - apply wf_StopDataCollection.
  - apply wf_SetGains, Hwf.
  - apply wf_SetLookAheadDistance, Hwf.
Qed.

(** In every state a program can reach, the data-collection invariant
    holds: whenever collection is enabled, the CSV writer exists. *)
Lemma Path_reachable_inv p : Path_reachable p -> wf (path_base p).
Proof.
  induction 1 as [path cl | raw d path cl p E | p o p' _ IH E].
  - apply wf_default.
  - unfold ChPathSteeringController_file in E.
    apply res_bind_ok in E. destruct E as (b & Eb & E). injection E as <-.
    simpl. eapply wf_file, Eb.
  - eapply Path_apply_wf; eassumption.
Qed.

(** From a state of the invariant every call returns. *)
Lemma Path_never_faults_wf p (o : PathOp A) :
  wf (path_base p) -> exists p', Path_apply p o = Ok p'.
Proof.
  intros Hwf. destruct o as [v | v step | | | Kp Ki Kd | dist]; simpl; eauto.
  destruct (Path_Advance_ok p v step Hwf) as (q & out & -> & _).
  simpl. eauto.
Qed.

(** C1: no call on a reachable controller faults: every operation,
    [Advance] with data collection enabled included, returns a new
    state. *)
Theorem Path_never_faults p (o : PathOp A) :
  Path_reachable p -> exists p', Path_apply p o = Ok p'.
Proof.
  intros Hr. apply Path_never_faults_wf, Path_reachable_inv, Hr.
Qed.

(** [Advance] returns exactly when the invariant holds of the
    state it is called on; otherwise it dereferences the null writer. *)
Theorem Path_Advance_ok_iff p vehicle step :
  (exists r, Path_Advance p vehicle step = Ok r) <-> wf (path_base p).
Proof.
  split.
  - intros (r & E) Ec. destruct (m_csv (path_base p)) eqn:Er; [discriminate |].
    rewrite Path_Advance_null in E by assumption. discriminate.
  - intros Hwf. destruct (Path_Advance_ok p vehicle step Hwf) as (q & out & E & _).
    eauto.
Qed.

End Machine.

(** ** The lifetime of the CSV writer *)

(** [~ChSteeringController()]: [delete m_csv].  The writer that is
    released; deleting the null pointer releases nothing. *)
Definition ChSteeringController_delete {A} (c : ChSteeringController A)
  : option (list (CsvRow A)) :=
  m_csv c.

(** What happens to the heap object behind [m_csv]: it is allocated, it
    is deleted, or the only pointer to it is overwritten. *)
Inductive HeapEvent : Type := NewWriter | DeleteWriter | LoseWriter.

Definition has_writer {A} (c : ChSteeringController A) : bool :=
  match m_csv c with Some _ => true | None => false end.

(** The event of a call that takes the base object from [c] to [c']. *)
Definition heap_event {A} (c c' : ChSteeringController A) : list HeapEvent :=
  match has_writer c, has_writer c' with
  | false, true => [NewWriter]
  | true, false => [LoseWriter]
  | _, _ => []
  end.

Section Lifetime.
Context {A T : Type} `{Scalar A} `{CurveTracker A T}.
Implicit Types (p : ChPathSteeringController A T).

(** The life of a controller: the calls [ops] in order, then the
    destructor; the events on the heap in the order they happen.  A call
    that faults ends the program before the destructor runs. *)
Fixpoint Path_life p (ops : list (PathOp A)) : res (list HeapEvent) :=
  match ops with
  | [] =>
      Ok (match ChSteeringController_delete (path_base p) with
          | Some _ => [DeleteWriter]
          | None => []
          end)
  | o :: ops =>
      (p' <- Path_apply p o ;;
       evs <- Path_life p' ops ;;
       Ok (heap_event (path_base p) (path_base p') ++ evs))%res
  end.

Lemma Path_Advance_writer p vehicle step p' out :
  Path_Advance p vehicle step = Ok (p', out) ->
  has_writer (path_base p') = has_writer (path_base p).
Proof.
  unfold Path_Advance, Advance, Path_CalcTargetLocation, log_row, has_writer.
  destruct (trk_calcClosestPoint _ _) as [t' q]. cbn.
  destruct (m_collect (path_base p)); [destruct (m_csv (path_base p)) eqn:E |];
    cbn; intros Ep; inversion Ep; subst; cbn; rewrite ?E; reflexivity.
Qed.

(** [Advance] appends one row while collection is on, and none
    otherwise: the time of the snapshot, then the target and the sentinel
    it leaves in the controller. *)
Lemma Path_Advance_logged p vehicle step p' out :
  Path_Advance p vehicle step = Ok (p', out) ->
  m_collect (path_base p') = m_collect (path_base p) /\
  logged (path_base p') =
    logged (path_base p) ++
    (if m_collect (path_base p)
     then [mkRow (GetChTime vehicle) (m_target (path_base p'))
             (m_sentinel (path_base p'))]
     else []).
Proof.
  unfold Path_Advance, Advance, Path_CalcTargetLocation.
  destruct (trk_calcClosestPoint _ _) as [t' q].
  destruct (log_row _ vehicle) as [b |] eqn:Eb; [| discriminate].
  cbn. intros E; injection E as <- _. exact (log_row_logged _ _ _ Eb).
Qed.

(** A session: the calls a program makes on one controller, in order. *)
Fixpoint Path_session p (ops : list (PathOp A))
  : res (ChPathSteeringController A T) :=
  match ops with
  | [] => Ok p
  | o :: ops => (p' <- Path_apply p o ;; Path_session p' ops)%res
  end.

(** [StartDataCollection] is the one call that needs a writer. *)
Definition starts_collection (o : PathOp A) : bool :=
  match o with OpStartDataCollection => true | _ => false end.

(** A call never loses the writer, and only [StartDataCollection]
    allocates one. *)
Lemma Path_apply_writer p o p' :
  wf (path_base p) -> Path_apply p o = Ok p' ->
  has_writer (path_base p') = has_writer (path_base p) || starts_collection o.
Proof.
  intros Hwf.
  destruct o as [v | v step | | | Kp Ki Kd | dist]; cbn;
    rewrite ?orb_false_r, ?orb_true_r;
    try (intros E; injection E as <-; reflexivity).
  - destruct (Path_Advance p v step) as [[q out] |] eqn:E; [| discriminate].
    cbn. intros E'; injection E' as <-. eapply Path_Advance_writer, E.
  - intros E; injection E as <-. revert Hwf.
    unfold wf, StartDataCollection, has_writer. cbn.
    destruct (m_collect (path_base p)) eqn:Ec, (m_csv (path_base p)) eqn:Er; cbn;
      rewrite ?Er; intros Hwf; try reflexivity; exfalso; now apply Hwf.
Qed.

(** The events of a life, from any state of the invariant: a writer that
    exists or is asked for is deleted once at the end, and it is allocated
    on the way exactly when it did not exist. *)
Lemma Path_life_events ops : forall p,
  wf (path_base p) ->
  Path_life p ops =
    Ok (if has_writer (path_base p) then [DeleteWriter]
        else if existsb starts_collection ops then [NewWriter; DeleteWriter]
        else []).
Proof.
  induction ops as [| o ops IH]; intros p Hwf; cbn [Path_life existsb].
  - unfold ChSteeringController_delete, has_writer.
    destruct (m_csv (path_base p)); reflexivity.
  - destruct (Path_never_faults_wf p o Hwf) as (p' & E). rewrite E. cbn [res_bind].
    rewrite (IH p' (Path_apply_wf p o p' Hwf E)). cbn [res_bind]. unfold heap_event.
    rewrite (Path_apply_writer p o p' Hwf E).
    destruct (has_writer (path_base p)), (starts_collection o); reflexivity.
Qed.

(** The writer is neither leaked nor deleted twice: over the whole life
    of a controller built by the constructor, whatever calls are made on
    it, no call faults, and the heap sees nothing when data collection is
    never started and otherwise one allocation followed by one
    deletion. *)
Theorem Path_life_balanced path isClosedPath (ops : list (PathOp A)) :
  Path_life (ChPathSteeringController_new path isClosedPath) ops =
    Ok (if existsb starts_collection ops then [NewWriter; DeleteWriter] else []).
Proof. apply (Path_life_events ops), wf_default. Qed.

End Lifetime.

(** ** What one step computes *)

Section RealPath.
Local Open Scope R_scope.
Context {T : Type} `{CurveTracker R T}.
Context (good : T -> Prop) (closest : ChVector R -> ChVector R).
Context `{!StableTracker good closest}.
Implicit Types (p : ChPathSteeringController R T) (vehicle : ChVehicle R).

(** The command of the PID law for error [err] in state [b]. *)
Definition pid_command (b : ChSteeringController R) (err step : R) : R :=
  m_Kp b * err + m_Ki b * (m_erri b + (err + m_err b) * step / 2)
  + m_Kd b * ((err - m_err b) / step).

(** What [Advance] leaves in the controller [p'] when it is called on
    [p]: the sentinel at the look-ahead distance ahead of the chassis
    frame, the point of the path closest to it, the signed lateral error
    between them, the integral grown by one trapezoid, the backward
    difference, and the gains, the distance and the collection flag as
    they were. *)
Definition Path_Advance_post p vehicle step p' : Prop :=
  let b := path_base p in
  let s := sentinel_location vehicle (m_dist b) in
  let err := lateral_error s (closest s) (GetPos vehicle) in
  m_sentinel (path_base p') = s /\
  m_target (path_base p') = closest s /\
  m_err (path_base p') = err /\
  m_erri (path_base p') = m_erri b + (err + m_err b) * step / 2 /\
  m_errd (path_base p') = (err - m_err b) / step /\
  m_Kp (path_base p') = m_Kp b /\ m_Ki (path_base p') = m_Ki b /\
  m_Kd (path_base p') = m_Kd b /\ m_dist (path_base p') = m_dist b /\
  m_collect (path_base p') = m_collect b /\
  good (m_tracker p') /\ wf (path_base p').

(** One [Advance] of the PID path controller on a stable tracker, run
    symbolically: it returns the command of the PID law and a state that
    satisfies [Path_Advance_post]. *)
Lemma Path_Advance_step p vehicle step :
  wf (path_base p) -> good (m_tracker p) ->
  let b := path_base p in
  let s := sentinel_location vehicle (m_dist b) in
  let err := lateral_error s (closest s) (GetPos vehicle) in
  exists p',
    Path_Advance p vehicle step = Ok (p', pid_command b err step) /\
    Path_Advance_post p vehicle step p'.
Proof.
  intros Hwf Hgood b s err. unfold Path_Advance_post. fold b s err.
  pose proof (trk_point_closest (m_tracker p) s Hgood) as Hcl.
  pose proof (trk_point_good (m_tracker p) s Hgood) as Hg.
  unfold Path_Advance, Advance, Path_CalcTargetLocation.
  fold b. fold s. cbn [m_sentinel set_sentinel].
  destruct (trk_calcClosestPoint (m_tracker p) s) as [t' q]. simpl in Hcl, Hg.
  subst q.
  set (c2 := set_target (set_sentinel b s) (closest s)).
  assert (Hwf2 : wf c2) by (apply wf_set_target, wf_set_sentinel, Hwf).
  destruct (log_row_ok c2 vehicle Hwf2)
    as (c3 & -> & Hwf3 & Hs & Ht & He & Hi & Hd & HKp & HKi & HKd & Hdist & Hcol).
  cbn [res_bind]. rewrite Hs, Ht. cbn [c2 set_target set_sentinel m_sentinel m_target].
  fold err. eexists. split.
  - unfold pid_update. cbn [res_bind]. f_equal. f_equal.
    cbn [set_errors m_Kp m_Ki m_Kd m_err m_erri m_errd]. scalar_unfold.
    unfold pid_command. rewrite HKp, HKi, HKd, He, Hi. reflexivity.
  - cbn [path_base m_tracker set_errors m_sentinel m_target m_err m_erri m_errd
         m_Kp m_Ki m_Kd m_dist m_collect]. scalar_unfold.
    rewrite Hs, Ht, He, Hi, HKp, HKi, HKd, Hdist, Hcol.
    repeat split; try reflexivity; assumption.
Qed.

(** C5: one [Advance] of the PID path controller on a stable tracker
    returns, and whatever it returns is determined by the state and the
    vehicle: the command is [Kp err + Ki erri + Kd errd] for the signed
    lateral error [err] between the sentinel and the point of the path
    closest to it, with the integral grown by one trapezoid and the
    backward difference as derivative; the new state holds the sentinel,
    the target and the three errors, and the gains, the look-ahead
    distance and the collection flag are unchanged. *)
Theorem Path_Advance_spec p vehicle step :
  wf (path_base p) -> good (m_tracker p) ->
  let b := path_base p in
  let s := sentinel_location vehicle (m_dist b) in
  let err := lateral_error s (closest s) (GetPos vehicle) in
  (exists r, Path_Advance p vehicle step = Ok r) /\
  forall p' out, Path_Advance p vehicle step = Ok (p', out) ->
    out = m_Kp b * err + m_Ki b * (m_erri b + (err + m_err b) * step / 2)
          + m_Kd b * ((err - m_err b) / step) /\
    m_sentinel (path_base p') = s /\
    m_target (path_base p') = closest s /\
    m_err (path_base p') = err /\
    m_erri (path_base p') = m_erri b + (err + m_err b) * step / 2 /\
    m_errd (path_base p') = (err - m_err b) / step /\
    m_Kp (path_base p') = m_Kp b /\ m_Ki (path_base p') = m_Ki b /\
    m_Kd (path_base p') = m_Kd b /\ m_dist (path_base p') = m_dist b /\
    m_collect (path_base p') = m_collect b /\
    good (m_tracker p') /\ wf (path_base p').
Proof.
  intros Hwf Hgood b s err.
  destruct (Path_Advance_step p vehicle step Hwf Hgood) as (q & E & Hq).
  split; [eauto |]. intros p' out E'. rewrite E in E'.
  injection E' as <- <-. split; [reflexivity | exact Hq].
Qed.

End RealPath.

(** ** Refinement of the integral *)

Section Refinement.
Local Open Scope R_scope.

(** C9: the integral the controller accumulates step by step is the
    composite trapezoidal rule over the samples it was given: after any
    sequence of updates, [m_erri] has grown by [trapezoid] of that sequence
    started at the error held before. *)
Theorem pid_run_trapezoid (c : ChSteeringController R) (samples : list (R * R)) :
  m_erri (pid_run c samples) = m_erri c + trapezoid (m_err c) samples.
Proof.
  revert c; induction samples as [| [e h] rest IH]; intros c; simpl.
  - ring.
  - rewrite IH. cbn [pid_update fst set_errors m_erri m_err]. scalar_unfold. ring.
Qed.

End Refinement.

(** ** A run of the controller refines a run of the PID law *)

(** Two controllers are the same PID controller when their errors and
    gains agree, whatever their sentinel, target, look-ahead distance and
    log. *)
Definition pid_equiv (c c' : ChSteeringController R) : Prop :=
  m_err c = m_err c' /\ m_erri c = m_erri c' /\ m_errd c = m_errd c' /\
  m_Kp c = m_Kp c' /\ m_Ki c = m_Ki c' /\ m_Kd c = m_Kd c'.

(** The commands of the PID law fed a sequence of error samples. *)
Fixpoint pid_outputs (c : ChSteeringController R) (samples : list (R * R))
  : list R :=
  match samples with
  | [] => []
  | (e, h) :: rest =>
      snd (pid_update c e h) :: pid_outputs (fst (pid_update c e h)) rest
  end.

#[export] Instance pid_equiv_Equivalence : Equivalence pid_equiv.
Proof.
  unfold pid_equiv. split.
  - intros c. repeat split.
  - intros c c' H. repeat split; symmetry; apply H.
  - intros c c' c'' H H'. repeat split; (etransitivity; [apply H | apply H']).
Qed.

#[export] Instance pid_update_Proper :
  Proper (pid_equiv ==> eq ==> eq ==> (fun x y => pid_equiv (fst x) (fst y) /\ snd x = snd y))
         (@pid_update R _).
Proof.
  intros c c' (He & Hi & Hd & HKp & HKi & HKd) e _ <- h _ <-.
  unfold pid_equiv, pid_update. cbn [fst snd set_errors m_err m_erri m_errd m_Kp m_Ki m_Kd].
  rewrite He, Hi, HKp, HKi, HKd. repeat split; reflexivity.
Qed.

#[export] Instance pid_run_Proper :
  Proper (pid_equiv ==> eq ==> pid_equiv) (@pid_run R _).
Proof.
  intros c c' Hc samples _ <-. revert c c' Hc.
  induction samples as [| [e h] rest IH]; intros c c' Hc; [exact Hc |].
  apply IH. apply (pid_update_Proper c c' Hc e e eq_refl h h eq_refl).
Qed.

#[export] Instance pid_outputs_Proper :
  Proper (pid_equiv ==> eq ==> eq) pid_outputs.
Proof.
  intros c c' Hc samples _ <-. revert c c' Hc.
  induction samples as [| [e h] rest IH]; intros c c' Hc; [reflexivity |].
  destruct (pid_update_Proper c c' Hc e e eq_refl h h eq_refl) as [Hs Ho].
  cbn [pid_outputs]. rewrite Ho, (IH _ _ Hs). reflexivity.
Qed.

Section Simulation.
Local Open Scope R_scope.
Context {T : Type} `{CurveTracker R T}.
Context (good : T -> Prop) (closest : ChVector R -> ChVector R).
Context `{!StableTracker good closest}.
Implicit Types (p : ChPathSteeringController R T).

(** A simulation: [Advance] is called once per step, with the vehicle
    and the step size of that step; the commands are collected. *)
Fixpoint Path_run p (inputs : list (ChVehicle R * R))
  : res (ChPathSteeringController R T * list R) :=
  match inputs with
  | [] => Ok (p, [])
  | (vehicle, step) :: rest =>
      ('(p, out) <- Path_Advance p vehicle step ;;
       '(p, outs) <- Path_run p rest ;;
       Ok (p, out :: outs))%res
  end.

(** The error samples of a simulation with look-ahead distance [dist]. *)
Definition error_samples (dist : R) (inputs : list (ChVehicle R * R))
  : list (R * R) :=
  map (fun '(vehicle, step) =>
         let s := sentinel_location vehicle dist in
         (lateral_error s (closest s) (GetPos vehicle), step)) inputs.

(** One step of the controller is one update of the PID law. *)
Lemma Path_Advance_pid p vehicle step :
  wf (path_base p) -> good (m_tracker p) ->
  let s := sentinel_location vehicle (m_dist (path_base p)) in
  let e := lateral_error s (closest s) (GetPos vehicle) in
  exists p',
    Path_Advance p vehicle step = Ok (p', snd (pid_update (path_base p) e step)) /\
    pid_equiv (path_base p') (fst (pid_update (path_base p) e step)) /\
    m_dist (path_base p') = m_dist (path_base p) /\
    good (m_tracker p') /\ wf (path_base p').
Proof.
  intros Hwf Hgood s e.
  destruct (Path_Advance_step good closest p vehicle step Hwf Hgood)
    as (p' & E & _ & _ & He & Hi & Hd & HKp & HKi & HKd & Hdist & _ & Hg & Hw).
  exists p'. split; [exact E |]. unfold pid_equiv.
  cbn [pid_update fst set_errors m_err m_erri m_errd m_Kp m_Ki m_Kd].
  scalar_unfold. auto 12.
Qed.

(** C12: a simulation of the path controller refines a run of the PID
    law.  On a stable tracker and from a state that satisfies the
    data-collection invariant, any number of [Advance] calls, each with
    its own vehicle state and step size, all return; the commands are
    those of the PID law fed the signed lateral errors of the steps, the
    controller ends as the same PID controller as the law (same error,
    integral, derivative and gains), the look-ahead distance is unchanged
    and the invariant holds again. *)
Theorem Path_run_refines (inputs : list (ChVehicle R * R)) : forall p,
  wf (path_base p) -> good (m_tracker p) ->
  let samples := error_samples (m_dist (path_base p)) inputs in
  exists p',
    Path_run p inputs = Ok (p', pid_outputs (path_base p) samples) /\
    pid_equiv (path_base p') (pid_run (path_base p) samples) /\
    m_dist (path_base p') = m_dist (path_base p) /\
    good (m_tracker p') /\ wf (path_base p').
Proof.
  induction inputs as [| [vehicle step] rest IH]; intros p Hwf Hgood.
  - exists p. repeat split; try assumption; reflexivity.
  - destruct (Path_Advance_pid p vehicle step Hwf Hgood)
      as (p1 & E1 & Hq & Hdist & Hg1 & Hw1).
    destruct (IH p1 Hw1 Hg1) as (p' & E' & Hq' & Hdist' & Hg' & Hw').
    exists p'. cbn [Path_run error_samples map pid_outputs pid_run].
    rewrite E1. cbn [res_bind]. rewrite E'. cbn [res_bind].
    rewrite Hdist in *. fold (error_samples (m_dist (path_base p)) rest).
    split; [| split; [| auto]].
    + do 3 f_equal. rewrite Hq. reflexivity.
    + rewrite <- Hq. exact Hq'.
Qed.

End Simulation.

(** ** The file a session leaves *)

(** What the calls of a program say the output file holds, read off the
    calls alone: collection is on after [StartDataCollection] and off
    after [StopDataCollection], the look-ahead distance is the last one
    set, and every [Advance] made while collection is on gives one row:
    the time of the snapshot, the point of the path closest to the
    sentinel, and the sentinel. *)
Section Log.
Local Open Scope R_scope.
Context {T : Type} `{CurveTracker R T}.
Context (good : T -> Prop) (closest : ChVector R -> ChVector R).
Context `{!StableTracker good closest}.
Implicit Types (p : ChPathSteeringController R T) (ops : list (PathOp R)).

Definition op_collect (collect : bool) (o : PathOp R) : bool :=
  match o with
  | OpStartDataCollection => true
  | OpStopDataCollection => false
  | _ => collect
  end.

Definition op_dist (dist : R) (o : PathOp R) : R :=
  match o with OpSetLookAheadDistance d => d | _ => dist end.

Definition op_rows (collect : bool) (dist : R) (o : PathOp R)
  : list (CsvRow R) :=
  match o with
  | OpAdvance vehicle _ =>
      let s := sentinel_location vehicle dist in
      if collect then [mkRow (GetChTime vehicle) (closest s) s] else []
  | _ => []
  end.

Fixpoint expected_rows (collect : bool) (dist : R) ops : list (CsvRow R) :=
  match ops with
  | [] => []
  | o :: ops =>
      op_rows collect dist o
      ++ expected_rows (op_collect collect o) (op_dist dist o) ops
  end.

(** The times of the [Advance] calls of a session, in call order. *)
Definition advance_times ops : list R :=
  flat_map (fun o => match o with
                     | OpAdvance vehicle _ => [GetChTime vehicle]
                     | _ => []
                     end) ops.

(** One call, followed on the flag, the distance, the writer and its
    rows. *)
Lemma Path_apply_log p (o : PathOp R) :
  wf (path_base p) -> good (m_tracker p) ->
  let b := path_base p in
  exists p',
    Path_apply p o = Ok p' /\ wf (path_base p') /\ good (m_tracker p') /\
    m_collect (path_base p') = op_collect (m_collect b) o /\
    m_dist (path_base p') = op_dist (m_dist b) o /\
    has_writer (path_base p') = (has_writer b || starts_collection o) /\
    logged (path_base p') = logged b ++ op_rows (m_collect b) (m_dist b) o.
Proof.
  intros Hwf Hgood b.
  destruct (Path_never_faults_wf p o Hwf) as (p' & E). exists p'.
  pose proof (Path_apply_wf p o p' Hwf E) as Hwf'.
  pose proof (Path_apply_writer p o p' Hwf E) as Hw.
  split; [exact E |]. split; [exact Hwf' |]. revert E Hw. subst b.
  destruct o as [v | v step | | | Kp Ki Kd | dist];
    cbn [Path_apply op_collect op_dist op_rows starts_collection];
    try (intros E Hw; injection E as <-; rewrite app_nil_r;
         repeat apply conj; try exact Hw; try exact Hgood; reflexivity).
  - intros E Hw; injection E as <-. rewrite app_nil_r.
    repeat apply conj; try exact Hw; try reflexivity.
    apply trk_reset_good, Hgood.
  - destruct (Path_Advance_step good closest p v step Hwf Hgood)
      as (q & Eq & Hs & Ht & _ & _ & _ & _ & _ & _ & Hd & Hc & Hg & _).
    rewrite Eq. cbn [res_map fst]. intros E Hw; injection E as <-.
    rewrite (proj2 (Path_Advance_logged p v step q _ Eq)), Hs, Ht.
    repeat apply conj; assumption || reflexivity.
  - intros E Hw; injection E as <-. rewrite app_nil_r.
    repeat apply conj; try exact Hw; try exact Hgood.
    + unfold StartDataCollection. cbn.
      destruct (m_collect (path_base p)) eqn:Ec; [exact Ec | reflexivity].
    + unfold StartDataCollection. cbn.
      destruct (m_collect (path_base p)); [reflexivity |].
      destruct (m_csv (path_base p)); reflexivity.
    + unfold StartDataCollection, logged. cbn.
      destruct (m_collect (path_base p)); [reflexivity |].
      destruct (m_csv (path_base p)) eqn:Er; cbn; rewrite ?Er; reflexivity.
Qed.

(** A whole session returns, and the rows of its writer are the rows it
    had followed by the expected ones; a writer exists at the end exactly
    when it existed or the session started collection. *)
Lemma Path_session_run ops : forall p,
  wf (path_base p) -> good (m_tracker p) ->
  let b := path_base p in
  exists p',
    Path_session p ops = Ok p' /\ wf (path_base p') /\ good (m_tracker p') /\
    has_writer (path_base p') = (has_writer b || existsb starts_collection ops) /\
    logged (path_base p') =
      logged b ++ expected_rows (m_collect b) (m_dist b) ops.
Proof.
  induction ops as [| o ops IH]; intros p Hwf Hgood b; subst b.
  - exists p. cbn. rewrite orb_false_r, app_nil_r. auto.
  - destruct (Path_apply_log p o Hwf Hgood)
      as (q & E & Hwf1 & Hg1 & Hc & Hd & Hw & Hl).
    destruct (IH q Hwf1 Hg1) as (p' & E' & Hwf' & Hg' & Hw' & Hl').
    exists p'. cbn [Path_session expected_rows existsb]. rewrite E. cbn [res_bind].
    rewrite Hw', Hl', Hw, Hl, Hc, Hd, orb_assoc, <- app_assoc. auto.
Qed.

(** C26: the file of a session: every session on a controller of the
    invariant returns; [WriteOutputFile] then writes nothing when there
    was no writer and collection was never started, and otherwise the rows
    the writer had followed by one row for each [Advance] made while
    collection was on, in call order, each with the time of the snapshot,
    the point of the path closest to the sentinel and the sentinel at the
    look-ahead distance in force at the call. *)
Theorem Path_session_log p ops :
  wf (path_base p) -> good (m_tracker p) ->
  let b := path_base p in
  exists p',
    Path_session p ops = Ok p' /\
    WriteOutputFile (path_base p') =
      if has_writer b || existsb starts_collection ops
      then Some (logged b ++ expected_rows (m_collect b) (m_dist b) ops)
      else None.
Proof.
  intros Hwf Hgood b.
  destruct (Path_session_run ops p Hwf Hgood) as (p' & E & _ & _ & Hw & Hl).
  exists p'. split; [exact E |]. fold b in Hw, Hl. rewrite <- Hw, <- Hl.
  unfold WriteOutputFile, has_writer, logged.
  destruct (m_csv (path_base p')); reflexivity.
Qed.

(** The expected rows carry the times of the [Advance] calls, in call
    order, with those made while collection was off left out. *)
Lemma expected_rows_times (P : R -> Prop) ops : forall collect dist,
  Forall P (advance_times ops) ->
  Forall P (map row_time (expected_rows collect dist ops)).
Proof.
  induction ops as [| o ops IH]; intros collect dist Hall; [constructor |].
  cbn [expected_rows advance_times flat_map] in *. rewrite map_app.
  apply Forall_app in Hall. destruct Hall as [Ho Hall].
  apply Forall_app. split; [| apply IH, Hall].
  destruct o; cbn; try constructor. destruct collect; [exact Ho | constructor].
Qed.

Lemma expected_rows_sorted ops : forall collect dist,
  StronglySorted Rle (advance_times ops) ->
  StronglySorted Rle (map row_time (expected_rows collect dist ops)).
Proof.
  induction ops as [| o ops IH]; intros collect dist Hs; [constructor |].
  cbn [expected_rows advance_times flat_map] in *. rewrite map_app.
  destruct o as [v | v step | | | Kp Ki Kd | d]; cbn [op_rows app map];
    try (apply IH, Hs).
  cbn [app] in Hs. apply StronglySorted_inv in Hs. destruct Hs as [Hs Hall].
  destruct collect; cbn [app map]; [| apply IH, Hs].
  constructor; [apply IH, Hs | apply expected_rows_times, Hall].
Qed.

(** The file is in time order: when the snapshots passed to [Advance]
    carry times that do not decrease, a session that starts without rows
    leaves a file whose rows are sorted by time. *)
Theorem Path_log_chronological p ops :
  wf (path_base p) -> good (m_tracker p) -> logged (path_base p) = [] ->
  StronglySorted Rle (advance_times ops) ->
  exists p',
    Path_session p ops = Ok p' /\
    StronglySorted Rle (map row_time (logged (path_base p'))).
Proof.
  intros Hwf Hgood Hempty Hs.
  destruct (Path_session_run ops p Hwf Hgood) as (p' & E & _ & _ & _ & Hl).
  exists p'. split; [exact E |]. rewrite Hl, Hempty.
  apply expected_rows_sorted, Hs.
Qed.

End Log.

(** ** Constructors, reset and the scenarios of the specification *)

Section Scenarios.
Local Open Scope R_scope.

(** The constructor from a file that cannot be read leaves the
    gains and the look-ahead distance as the storage held them: the
    initialiser list does not set them, and nothing else does. *)
Theorem file_ctor_null_keeps_raw (raw : ChSteeringController R) :
  exists c, ChSteeringController_file raw JNull = Ok c /\
    m_Kp c = m_Kp raw /\ m_Ki c = m_Ki raw /\ m_Kd c = m_Kd raw /\
    m_dist c = m_dist raw /\
    m_err c = 0 /\ m_erri c = 0 /\ m_errd c = 0 /\
    m_csv c = None /\ m_collect c = false.
Proof. eexists. split; [reflexivity |]. simpl. repeat split. Qed.

Lemma file_ctor_loads (raw : ChSteeringController R) (Kp Ki Kd dist : R)
  (others : list (string * Document R)) :
  let d := JObject (("Gains"%string,
                     JObject [("Kp"%string, JNumber Kp); ("Ki"%string, JNumber Ki);
                              ("Kd"%string, JNumber Kd)])
                    :: ("Lookahead Distance"%string, JNumber dist) :: others) in
  exists c, ChSteeringController_file raw d = Ok c /\
    m_Kp c = Kp /\ m_Ki c = Ki /\ m_Kd c = Kd /\ m_dist c = dist.
Proof. eexists. split; [reflexivity |]. simpl. repeat split. Qed.

Lemma file_ctor_missing_gains (raw : ChSteeringController R) (dist : R) :
  ChSteeringController_file raw
    (JObject [("Lookahead Distance"%string, JNumber dist)]) = Err AssertFail.
Proof. reflexivity. Qed.

Lemma Reset_fields (c : ChSteeringController R) (vehicle : ChVehicle R) :
  let c' := Reset c vehicle in
  m_sentinel c' = sentinel_location vehicle (m_dist c) /\
  m_err c' = 0 /\ m_erri c' = 0 /\ m_errd c' = 0 /\
  m_target c' = m_target c /\ m_dist c' = m_dist c /\
  m_Kp c' = m_Kp c /\ m_Ki c' = m_Ki c /\ m_Kd c' = m_Kd c /\
  m_csv c' = m_csv c /\ m_collect c' = m_collect c.
Proof. simpl. repeat split. Qed.

Lemma Reset_idempotent (c : ChSteeringController R) (vehicle : ChVehicle R) :
  Reset (Reset c vehicle) vehicle = Reset c vehicle.
Proof. reflexivity. Qed.

(** The sentinel lies at the look-ahead distance from the origin of the
    chassis frame. *)
Lemma sentinel_distance (vehicle : ChVehicle R) (dist : R) :
  orthonormal (frame_rot (GetFrame_REF_to_abs vehicle)) ->
  Length (Vsub (sentinel_location vehicle dist)
               (frame_pos (GetFrame_REF_to_abs vehicle))) = Rabs dist.
Proof. apply Transform_Forward_distance. Qed.

Lemma Normalize_x_axis (x : R) : 0 < x -> Normalize (mkV x 0 0) = Forward.
Proof.
  intros Hx.
  assert (Hl : Length (mkV x 0 0) = x)
    by (apply Length_eq_of_sqr; [lra | vsolve]).
  unfold Normalize. rewrite Hl. scalar_unfold.
  destruct (Rltb_spec x Rdbl_min); [reflexivity |].
  unfold Forward, Vmul; simpl. scalar_unfold. f_equal; field; lra.
Qed.

Context {T : Type} `{CurveTracker R T}.
Context (good : T -> Prop) (closest : ChVector R -> ChVector R).
Context `{!StableTracker good closest}.

(** C27: [Reset] followed by [Advance] on the same vehicle snapshot
    keeps the sentinel computed by [Reset], finds the point of the path
    closest to it, and, since [Reset] zeroed the error state, answers the
    PID law of a first step: [Kp e + Ki e step / 2 + Kd e / step]. *)
Theorem Path_Reset_then_Advance (p : ChPathSteeringController R T)
  (vehicle : ChVehicle R) (step : R) :
  wf (path_base p) -> good (m_tracker p) ->
  let r := Path_Reset p vehicle in
  let s := m_sentinel (path_base r) in
  let e := lateral_error s (closest s) (GetPos vehicle) in
  exists p',
    Path_Advance r vehicle step =
      Ok (p', m_Kp (path_base p) * e + m_Ki (path_base p) * (e * step / 2)
              + m_Kd (path_base p) * (e / step)) /\
    m_sentinel (path_base p') = s /\ m_target (path_base p') = closest s.
Proof.
  intros Hwf Hgood r s e.
  assert (Hr : wf (path_base r)) by (apply wf_Reset, Hwf).
  assert (Hg : good (m_tracker r)) by (apply trk_reset_good, Hgood).
  destruct (Path_Advance_step good closest r vehicle step Hr Hg)
    as (p' & E & Hs & Ht & _).
  exists p'. split; [| split; assumption].
  rewrite E. f_equal. f_equal. unfold pid_command. subst e s r. simpl.
  scalar_unfold. unfold Rdiv. ring.
Qed.

End Scenarios.

Section LineScenarios.
Local Open Scope R_scope.

Definition x_axis : LineTracker R := mkLine VNULL Forward.

(** A controller on a straight path along +X, built as a program does. *)
Definition line_controller (y x1 Kp Ki Kd dist : R) (closed : bool)
  : ChPathSteeringController R (LineTracker R) :=
  on_base (ChPathSteeringController_new
             (mkCurve [mkV 0 y 0; mkV x1 y 0]) closed)
          (fun b => SetLookAheadDistance (SetGains b Kp Ki Kd) dist).

(** A vehicle at the origin heading along +X. *)
Definition vehicle_at_origin (vel : ChVector R) (speed time : R) : ChVehicle R :=
  mkVehicle (mkFrame VNULL Midentity) VNULL vel speed time.

Lemma line_controller_reachable y x1 Kp Ki Kd dist closed :
  Path_reachable (line_controller y x1 Kp Ki Kd dist closed).
Proof.
  unfold line_controller.
  apply reach_step with
    (p := on_base (ChPathSteeringController_new
                     (mkCurve [mkV 0 y 0; mkV x1 y 0]) closed)
                  (fun b => SetGains b Kp Ki Kd))
    (o := OpSetLookAheadDistance dist); [| reflexivity].
  apply reach_step with
    (p := ChPathSteeringController_new (mkCurve [mkV 0 y 0; mkV x1 y 0]) closed)
    (o := OpSetGains Kp Ki Kd); [| reflexivity].
  apply reach_new.
Qed.

Lemma line_controller_tracker y x1 Kp Ki Kd dist closed :
  0 < x1 ->
  m_tracker (line_controller y x1 Kp Ki Kd dist closed) = mkLine (mkV 0 y 0) Forward.
Proof.
  intros Hx. simpl. unfold line_of_path; simpl. f_equal.
  replace (Vsub (mkV x1 y 0) (mkV 0 y 0)) with (mkV x1 0 0) by vsolve.
  apply Normalize_x_axis, Hx.
Qed.

(** One step of the controller on the line [Y = y], from the origin. *)
Lemma line_controller_step y x1 Kp Ki Kd dist closed vel speed time step :
  0 < x1 ->
  let err := lateral_error (mkV dist 0 0) (mkV dist y 0) VNULL in
  exists p',
    Path_Advance (line_controller y x1 Kp Ki Kd dist closed)
                 (vehicle_at_origin vel speed time) step
    = Ok (p', Kp * err + Ki * (err * step / 2) + Kd * (err / step)) /\
    m_sentinel (path_base p') = mkV dist 0 0 /\
    m_target (path_base p') = mkV dist y 0 /\
    m_err (path_base p') = err.
Proof.
  intros Hx err.
  set (l := mkLine (mkV 0 y 0) Forward).
  set (p := line_controller y x1 Kp Ki Kd dist closed).
  assert (Hwf : wf (path_base p))
    by apply Path_reachable_inv, line_controller_reachable.
  assert (Hg : m_tracker p = l) by (apply line_controller_tracker, Hx).
  destruct (Path_Advance_step (fun t => t = l) (line_closest l) p
              (vehicle_at_origin vel speed time) step Hwf Hg)
    as (p' & E & Hs & Ht & He & _).
  assert (Es : sentinel_location (vehicle_at_origin vel speed time)
                 (m_dist (path_base p)) = mkV dist 0 0)
    by (unfold sentinel_location, vehicle_at_origin, p; simpl; vsolve).
  assert (Et : line_closest l (mkV dist 0 0) = mkV dist y 0)
    by (unfold l, line_closest; vsolve).
  rewrite Es, Et in *. exists p'. repeat split; try assumption.
  rewrite E. f_equal. f_equal. unfold pid_command. simpl. scalar_unfold.
  fold err. unfold Rdiv. ring.
Qed.

(** To the left of the vehicle at distance [d], the lateral error is [d]. *)
Lemma lateral_error_offset (d dist : R) :
  0 < dist -> 0 < d ->
  lateral_error (mkV dist 0 0) (mkV dist d 0) VNULL = d.
Proof.
  intros Hdist Hd.
  rewrite lateral_error_left by (unfold turn; simpl; scalar_unfold; nra).
  replace (horizontal_distance (mkV dist 0 0) (mkV dist d 0)) with d; [ring |].
  symmetry. apply Length_eq_of_sqr; [lra | vsolve].
Qed.

(** C29: The end-to-end scenario of the specification.  A vehicle at the
    origin heading along +X, a straight path along +X through the origin
    and a look-ahead distance of 5: the sentinel is (5,0,0), the target is
    (5,0,0), the lateral error is 0, and the steering command is 0 for all
    gains.  (The step is not zero: the code divides by it.) *)
Theorem straight_line_scenario (x1 Kp Ki Kd step : R) (closed : bool)
  (vel : ChVector R) (speed time : R) :
  0 < x1 -> step <> 0 ->
  exists p',
    Path_Advance (line_controller 0 x1 Kp Ki Kd 5 closed)
                 (vehicle_at_origin vel speed time) step = Ok (p', 0) /\
    m_sentinel (path_base p') = mkV 5 0 0 /\
    m_target (path_base p') = mkV 5 0 0 /\
    m_err (path_base p') = 0.
Proof.
  intros Hx Hstep.
  destruct (line_controller_step 0 x1 Kp Ki Kd 5 closed vel speed time step Hx)
    as (p' & E & Hs & Ht & He).
  rewrite lateral_error_on_target in E, He.
  exists p'. repeat split; try assumption.
  rewrite E. f_equal. f_equal. field. exact Hstep.
Qed.

(** C30: The proportional law of the specification.  With [Kp = 1],
    [Ki = Kd = 0] and a straight path at lateral offset [d] to the left,
    the command is exactly [d]: the output of the PID controller is not
    clamped. *)
Theorem proportional_law (d x1 dist step : R) (closed : bool)
  (vel : ChVector R) (speed time : R) :
  0 < x1 -> 0 < dist -> 0 < d ->
  exists p',
    Path_Advance (line_controller d x1 1 0 0 dist closed)
                 (vehicle_at_origin vel speed time) step = Ok (p', d).
Proof.
  intros Hx Hdist Hd.
  destruct (line_controller_step d x1 1 0 0 dist closed vel speed time step Hx)
    as (p' & E & _).
  exists p'. rewrite E, lateral_error_offset by assumption.
  f_equal. f_equal. ring.
Qed.

(** C39: no bound holds of the command of the PID controller: for
    every [M] there is a reachable controller and a vehicle for which
    [Advance] returns more than [M].  In particular the command is not
    confined to [[-1, 1]]. *)
Theorem Path_Advance_unclamped (M : R) :
  exists (p : ChPathSteeringController R (LineTracker R)) vehicle step p' out,
    Path_reachable p /\ step <> 0 /\
    Path_Advance p vehicle step = Ok (p', out) /\ M < out.
Proof.
  set (d := Rabs M + 1).
  assert (Hd : 0 < d) by (unfold d; pose proof (Rabs_pos M); lra).
  destruct (line_controller_step d 1 1 0 0 1 false VNULL 0 0 1) as (p' & E & _);
    [lra |].
  rewrite lateral_error_offset in E by lra.
  exists (line_controller d 1 1 0 0 1 false), (vehicle_at_origin VNULL 0 0), 1, p'.
  eexists. repeat split; [apply line_controller_reachable | lra | exact E |].
  unfold d. pose proof (Rle_abs M). lra.
Qed.

End LineScenarios.

(** ** Witnesses *)

Local Open Scope R_scope.

(** The controller of the scenarios satisfies the invariant, and its
    tracker follows the X axis. *)
Lemma line_scenario_wf (dist : R) :
  wf (path_base (line_controller 0 10 1 0 0 dist false)).
Proof. apply Path_reachable_inv, line_controller_reachable. Qed.

Lemma line_scenario_tracker (dist : R) :
  m_tracker (line_controller 0 10 1 0 0 dist false) = x_axis.
Proof. apply line_controller_tracker. lra. Qed.

Lemma Path_never_faults_witness :
  exists p', Path_apply (line_controller 0 10 1 0 0 5 false)
               (OpAdvance (vehicle_at_origin VNULL 0 0) 1) = Ok p'.
Proof. apply Path_never_faults, line_controller_reachable. Defined.

Lemma Path_Advance_spec_witness :
  let p := line_controller 0 10 1 0 0 5 false in
  let v := vehicle_at_origin VNULL 0 0 in
  let s := sentinel_location v 5 in
  exists p' out,
    Path_Advance p v 1 = Ok (p', out) /\
    m_sentinel (path_base p') = s /\
    m_target (path_base p') = line_closest x_axis s.
Proof.
  intros p v s.
  pose proof (line_scenario_wf 5) as Hwf. pose proof (line_scenario_tracker 5) as Hg.
  destruct (Path_Advance_spec (fun t => t = x_axis) (line_closest x_axis)
              p v 1 Hwf Hg) as (([p' out] & E) & Hall).
  destruct (Hall p' out E) as (_ & Hs & Ht & _).
  exists p', out. repeat split; assumption.
Defined.

Lemma Path_run_refines_witness :
  let p := line_controller 0 10 1 0 0 5 false in
  let inputs := [(vehicle_at_origin VNULL 0 0, 1); (vehicle_at_origin VNULL 0 1, 1)] in
  exists p',
    Path_run p inputs =
      Ok (p', pid_outputs (path_base p)
                (error_samples (line_closest x_axis) (m_dist (path_base p)) inputs)).
Proof.
  intros p inputs.
  pose proof (line_scenario_wf 5) as Hwf. pose proof (line_scenario_tracker 5) as Hg.
  destruct (Path_run_refines (fun t => t = x_axis) (line_closest x_axis)
              inputs p Hwf Hg) as (p' & E & _).
  exists p'. exact E.
Defined.

Lemma Path_Reset_then_Advance_witness :
  let p := line_controller 0 10 1 0 0 5 false in
  let v := vehicle_at_origin VNULL 0 0 in
  let s := m_sentinel (path_base (Path_Reset p v)) in
  exists p', m_sentinel (path_base p') = s /\
    exists out, Path_Advance (Path_Reset p v) v 1 = Ok (p', out).
Proof.
  intros p v s.
  pose proof (line_scenario_wf 5) as Hwf. pose proof (line_scenario_tracker 5) as Hg.
  destruct (Path_Reset_then_Advance (fun t => t = x_axis) (line_closest x_axis)
              p v 1 Hwf Hg) as (p' & E & Hs & _).
  exists p'. split; [exact Hs | eexists; exact E].
Defined.

(** A session that collects, pauses and collects again. *)
Definition log_session : list (PathOp R) :=
  [OpStartDataCollection; OpAdvance (vehicle_at_origin VNULL 0 0) 1;
   OpStopDataCollection; OpAdvance (vehicle_at_origin VNULL 0 1) 1;
   OpStartDataCollection; OpAdvance (vehicle_at_origin VNULL 0 2) 1].

Lemma Path_session_log_witness :
  let p := line_controller 0 10 1 0 0 5 false in
  exists p',
    Path_session p log_session = Ok p' /\
    WriteOutputFile (path_base p') =
      Some (expected_rows (line_closest x_axis) false 5 log_session).
Proof.
  intros p.
  pose proof (line_scenario_wf 5) as Hwf. pose proof (line_scenario_tracker 5) as Hg.
  destruct (Path_session_log (fun t => t = x_axis) (line_closest x_axis)
              p log_session Hwf Hg) as (p' & E & Hf).
  exists p'. split; [exact E | exact Hf].
Defined.

Lemma Path_log_chronological_witness :
  let p := line_controller 0 10 1 0 0 5 false in
  exists p',
    Path_session p log_session = Ok p' /\
    StronglySorted Rle (map row_time (logged (path_base p'))).
Proof.
  intros p.
  pose proof (line_scenario_wf 5) as Hwf. pose proof (line_scenario_tracker 5) as Hg.
  apply (Path_log_chronological (fun t => t = x_axis) (line_closest x_axis)
           p log_session Hwf Hg eq_refl).
  cbn. repeat constructor; lra.
Defined.

Lemma straight_line_scenario_witness :
  exists p',
    Path_Advance (line_controller 0 10 1 2 3 5 false)
                 (vehicle_at_origin VNULL 0 0) 1 = Ok (p', 0) /\
    m_sentinel (path_base p') = mkV 5 0 0 /\
    m_target (path_base p') = mkV 5 0 0 /\
    m_err (path_base p') = 0.
Proof. apply straight_line_scenario; lra. Defined.

Lemma proportional_law_witness :
  exists p',
    Path_Advance (line_controller 3 10 1 0 0 5 false)
                 (vehicle_at_origin VNULL 0 0) 1 = Ok (p', 3).
Proof. apply proportional_law; lra. Defined.

(** ** The session in binary64 *)

(** The definitions run on the machine's numbers as they are: the
    controller of the proportional law on the line [Y = 3], the session
    that collects, pauses and collects again, the file it leaves and the
    command of its first step. *)
Section FloatSession.
Local Open Scope scalar_scope.

Definition float_controller
  : ChPathSteeringController PrimFloat.float (LineTracker PrimFloat.float) :=
  on_base (ChPathSteeringController_new
             (mkCurve [mkV #0 #3 #0; mkV #10 #3 #0]) false)
          (fun b => SetLookAheadDistance (SetGains b #1 #0 #0) #5).

Definition float_vehicle (time : PrimFloat.float) : ChVehicle PrimFloat.float :=
  mkVehicle (mkFrame VNULL Midentity) VNULL VNULL #0 time.

Definition float_session : list (PathOp PrimFloat.float) :=
  [OpStartDataCollection; OpAdvance (float_vehicle #0) #1;
   OpStopDataCollection; OpAdvance (float_vehicle #1) #1;
   OpStartDataCollection; OpAdvance (float_vehicle #2) #1].

Example Path_float_session :
  res_map (fun p => WriteOutputFile (path_base p))
    (Path_session float_controller float_session) =
    Ok (Some [mkRow #0 (mkV #5 #3 #0) (mkV #5 #0 #0);
              mkRow #2 (mkV #5 #3 #0) (mkV #5 #0 #0)]) /\
  res_map snd (Path_Advance float_controller (float_vehicle #0) #1) = Ok #3.
Proof. vm_compute. split; reflexivity. Qed.

End FloatSession.
