(* ===== verification/SteeringSR.v ===== *)
(** * SteeringSR: [ChPathSteeringControllerSR]

    The "SR" controller replaces the path by the polygon of its points:
    segment start points [S_l], segment vectors [R_l] and unit directions
    [R_lu], built once by [CalcPathPoints].  Each step it projects a preview
    point ahead of the vehicle (along an arc when the steering angle is not
    zero), walks the current segment index forward until the preview point
    projects inside the segment, and integrates the lateral error into the
    steering angle [m_delta].

    The walk is a [while] loop that need not terminate on a closed path: it
    takes fuel here, and its termination is a theorem with a hypothesis.
    On an open path the walk is one test, and the section on tracking says
    where the index goes: forward by one segment a step at most, and never
    back, whatever the program calls. *)

From Stdlib Require Import Reals Lra Psatz RNsatz ZArith Lia List Bool String.
From S2P Require Import Prelude ChMath ChVector Interfaces SteeringBase.
Import ListNotations.

Local Open Scope scalar_scope.

(** The data members of [ChPathSteeringControllerSR], after those of the
    base class. *)
Record ChPathSteeringControllerSR (A : Type) : Type := mkSR {
  sr_base : ChSteeringController A;
  m_path : ChBezierCurve A;
  m_isClosedPath : bool;
  m_Klat : A;
  m_Kug : A;
  m_Tp : A;
  m_L : A;
  m_delta : A;
  m_delta_max : A;
  m_umin : A;
  m_idx_curr : nat;
  S_l : list (ChVector A);
  R_l : list (ChVector A);
  R_lu : list (ChVector A)
}.
Arguments mkSR {A}.
Arguments sr_base {A} _.
Arguments m_path {A} _.
Arguments m_isClosedPath {A} _.
Arguments m_Klat {A} _.
Arguments m_Kug {A} _.
Arguments m_Tp {A} _.
Arguments m_L {A} _.
Arguments m_delta {A} _.
Arguments m_delta_max {A} _.
Arguments m_umin {A} _.
Arguments m_idx_curr {A} _.
Arguments S_l {A} _.
Arguments R_l {A} _.
Arguments R_lu {A} _.

Section SR.
Context {A : Type} `{Scalar A}.
Implicit Types (c : ChPathSteeringControllerSR A) (vehicle : ChVehicle A).

(** ** CalcPathPoints *)

(** The loop [for (i = 0; i < np - 1; i++)]: segment [i] runs from point
    [i] to point [i + 1].  The bound is a [size_t]: for an empty path it is
    [2^64 - 1], and the first iteration reads past the end. *)
Fixpoint segment_loop (fuel : nat) (i bound : Z)
  (Sl Rl Rlu : list (ChVector A)) : res (list (ChVector A) * list (ChVector A)) :=
  if (i <? bound)%Z then
    match fuel with
    | O => Err OutOfFuel
    | S fuel =>
        (a <- vec_at_z Sl (i + 1) ;;
         b <- vec_at_z Sl i ;;
         Rl <- vec_set_z Rl i (Vsub a b) ;;
         Rlu <- vec_set_z Rlu i (Normalize (Vsub a b)) ;;
         segment_loop fuel (i + 1) bound Sl Rl Rlu)%res
    end
  else Ok (Rl, Rlu).

(** [CalcPathPoints]: the three vectors are resized to the number of
    points; [S_l] receives the points; the loop fills all segments but the
    last; the last segment closes the polygon on a closed path and repeats
    the one before it on an open path. *)
Definition SR_CalcPathPoints (path : ChBezierCurve A) (isClosedPath : bool)
  : res (list (ChVector A) * list (ChVector A) * list (ChVector A)) :=
  let np := Z.of_nat (getNumPoints path) in
  let Sl := curve_points path in
  let Rl := repeat VNULL (getNumPoints path) in
  let Rlu := repeat VNULL (getNumPoints path) in
  ('(Rl, Rlu) <- segment_loop (S (getNumPoints path)) 0 (size_sub np 1) Sl Rl Rlu ;;
   let last := size_sub np 1 in
   d <- (if isClosedPath then
           (a <- vec_at_z Sl 0 ;; b <- vec_at_z Sl last ;; Ok (Vsub a b))
         else
           (a <- vec_at_z Sl last ;; b <- vec_at_z Sl (size_sub np 2) ;;
            Ok (Vsub a b))) ;;
   Rl <- vec_set_z Rl last d ;;
   Rlu <- vec_set_z Rlu last (Normalize d) ;;
   Ok (Sl, Rl, Rlu))%res.

(** ** Constructors *)

(** [ChPathSteeringControllerSR(path, isClosedPath, max_wheel_turn_angle,
    axle_space)]. *)
Definition ChPathSteeringControllerSR_new (path : ChBezierCurve A)
  (isClosedPath : bool) (max_wheel_turn_angle axle_space : A)
  : res (ChPathSteeringControllerSR A) :=
  ('(Sl, Rl, Rlu) <- SR_CalcPathPoints path isClosedPath ;;
   Ok (mkSR ChSteeringController_default path isClosedPath
         #0 #0 (lit 5 10) axle_space #0 max_wheel_turn_angle #2 0
         Sl Rl Rlu))%res.

(** [ChPathSteeringControllerSR(filename, path, ...)].  The initialiser list
    names neither [m_Klat], [m_Kug] nor [m_Tp]: they keep the bytes of the
    storage, [raw], unless the document is read; [m_umin] is 1 here and 2
    in the other constructor. *)
Definition ChPathSteeringControllerSR_file (raw : ChPathSteeringControllerSR A)
  (d : Document A) (path : ChBezierCurve A) (isClosedPath : bool)
  (max_wheel_turn_angle axle_space : A)
  : res (ChPathSteeringControllerSR A) :=
  ('(Sl, Rl, Rlu) <- SR_CalcPathPoints path isClosedPath ;;
   let c := mkSR ChSteeringController_default path isClosedPath
              (m_Klat raw) (m_Kug raw) (m_Tp raw) axle_space #0
              max_wheel_turn_angle #1 0 Sl Rl Rlu in
   if IsNull d then Ok c
   else
     (Klat <- GetDouble2 d "Gains" "Klat" ;;
      Kug <- GetDouble2 d "Gains" "Kug" ;;
      Tp <- GetDouble1 d "Preview Time" ;;
      Ok (mkSR (sr_base c) path isClosedPath Klat Kug Tp axle_space #0
            max_wheel_turn_angle #1 0 Sl Rl Rlu)))%res.

(** ** Reset and the setters *)

Definition SR_Reset c vehicle : ChPathSteeringControllerSR A :=
  mkSR (Reset (sr_base c) vehicle) (m_path c) (m_isClosedPath c)
    #0 #0 (m_Tp c) (m_L c) (m_delta c) (m_delta_max c) (m_umin c)
    (m_idx_curr c) (S_l c) (R_l c) (R_lu c).

Definition SR_SetGains c (Klat Kug : A) : ChPathSteeringControllerSR A :=
  mkSR (sr_base c) (m_path c) (m_isClosedPath c)
    (sc_abs Klat) (ChClamp Kug #0 #5) (m_Tp c) (m_L c) (m_delta c)
    (m_delta_max c) (m_umin c) (m_idx_curr c) (S_l c) (R_l c) (R_lu c).

Definition SR_SetPreviewTime c (Tp : A) : ChPathSteeringControllerSR A :=
  mkSR (sr_base c) (m_path c) (m_isClosedPath c)
    (m_Klat c) (m_Kug c) (ChClamp Tp (lit 2 10) #4) (m_L c) (m_delta c)
    (m_delta_max c) (m_umin c) (m_idx_curr c) (S_l c) (R_l c) (R_lu c).

(** ** Advance *)

(** The preview point.  With a zero steering angle it lies straight ahead
    at distance [max(u, m_umin) * m_Tp]; otherwise the point is moved along
    the arc of radius [R] by the angle [theta]. *)
Definition SR_sentinel `{Trig A} c vehicle : ChVector A :=
  let chassis_frame := GetFrame_REF_to_abs vehicle in
  let chassis_rot := frame_rot chassis_frame in
  let u := GetSpeed vehicle in
  let g := lit 981 100 in
  let n_g := Normalize (Project (Yaxis chassis_rot)) in
  let ut := if u >? m_umin c then u else m_umin c in
  let factor := ut * m_Tp c in
  if m_delta c =? #0 then
    TransformPointLocalToParent chassis_frame (Vmul Forward factor)
  else
    let R := (m_L c + CH_C_DEG_TO_RAD * m_Kug c * u * u / g) / m_delta c in
    let theta := u * m_Tp c / R in
    let RM := Mrot_angle_axis theta Vertical in
    Vadd (TransformPointLocalToParent chassis_frame (Vmul Forward factor))
         (Vmul (Vsub n_g (Mmul RM n_g)) R).

(** The three values the scan recomputes for a segment index: the vector
    [Pt] from the segment start to the sentinel, the segment length [rt]
    and the magnitude [t] of the projection of [Pt] on the segment
    direction. *)
Definition SR_probe c (sentinel : ChVector A) (idx : nat)
  : res (ChVector A * A * A) :=
  (s <- vec_at (S_l c) idx ;;
   r <- vec_at (R_l c) idx ;;
   ru <- vec_at (R_lu c) idx ;;
   let Pt := Vsub sentinel s in
   Ok (Pt, Length r, sc_abs (Vdot Pt ru)))%res.

(** The segment to try after [idx]: the next one, wrapping to the first on
    a closed path and staying on the last on an open path. *)
Definition SR_next_index c (idx : nat) : nat :=
  let idx := S idx in
  if Nat.eqb idx (List.length (S_l c)) then
    (if m_isClosedPath c then 0 else List.length (S_l c) - 1)
  else idx.

(** [while (t > rt)]: advance the index and recompute; on an open path the
    loop body ends in [break]. *)
Fixpoint SR_scan (fuel : nat) c (sentinel : ChVector A) (idx : nat)
  (Pt : ChVector A) (rt t : A) : res (nat * ChVector A * A * A) :=
  if t >? rt then
    match fuel with
    | O => Err OutOfFuel
    | S fuel =>
        let idx := SR_next_index c idx in
        ('(Pt, rt, t) <- SR_probe c sentinel idx ;;
         if m_isClosedPath c then SR_scan fuel c sentinel idx Pt rt t
         else Ok (idx, Pt, rt, t))%res
    end
  else Ok (idx, Pt, rt, t).

(** The steering angle after the error [err] at speed [u]: integrated and
    clamped at or above the minimum speed, frozen below it. *)
Definition SR_update_delta c (u err : A) : A :=
  if u >=? m_umin c
  then ChClamp (m_delta c + m_Klat c * err) (- m_delta_max c) (m_delta_max c)
  else m_delta c.

(** [ChPathSteeringControllerSR::Advance(vehicle, step)]. *)
Definition SR_Advance `{Trig A} (fuel : nat) c vehicle (step : A)
  : res (ChPathSteeringControllerSR A * A) :=
  let u := GetSpeed vehicle in
  let sentinel := SR_sentinel c vehicle in
  ('(Pt, rt, t) <- SR_probe c sentinel (m_idx_curr c) ;;
   '(idx, Pt, rt, t) <-
     (if t >=? rt then SR_scan fuel c sentinel (m_idx_curr c) Pt rt t
      else Ok (m_idx_curr c, Pt, rt, t)) ;;
   s <- vec_at (S_l c) idx ;;
   ru <- vec_at (R_lu c) idx ;;
   let target := Vadd s (Vmul ru t) in
   b <- log_row (set_target (set_sentinel (sr_base c) sentinel) target) vehicle ;;
   ru <- vec_at (R_lu c) idx ;;
   let n_lu := Vcross ru Vertical in
   let err := Vdot Pt n_lu in
   let b := set_errors b err (m_errd b) (m_erri b) in
   let delta := SR_update_delta c u err in
   Ok (mkSR b (m_path c) (m_isClosedPath c) (m_Klat c) (m_Kug c) (m_Tp c)
         (m_L c) delta (m_delta_max c) (m_umin c) idx (S_l c) (R_l c) (R_lu c),
       delta / m_delta_max c))%res.

End SR.

Arguments SR_sentinel {A _ _} _ _ : simpl never.

(** ** The polygon of a path: reference definitions *)

Section Polygon.
Local Open Scope nat_scope.
Context {A : Type} `{Scalar A}.
Implicit Types (pts : list (ChVector A)).

(** The vectors between consecutive points. *)
Fixpoint segments pts : list (ChVector A) :=
  match pts with
  | a :: rest =>
      match rest with
      | b :: _ => Vsub b a :: segments rest
      | [] => []
      end
  | [] => []
  end.

(** The last segment: back to the first point on a closed path, the
    one before it again on an open path. *)
Definition closing_segment (isClosedPath : bool) pts : ChVector A :=
  if isClosedPath then Vsub (hd VNULL pts) (last pts VNULL)
  else Vsub (last pts VNULL) (last (removelast pts) VNULL).

Definition polygon (isClosedPath : bool) pts : list (ChVector A) :=
  segments pts ++ [closing_segment isClosedPath pts].

(** Segment [j] by index. *)
Definition segment_at pts (j : nat) : ChVector A :=
  Vsub (nth (S j) pts VNULL) (nth j pts VNULL).

Lemma segments_length pts : List.length (segments pts) = List.length pts - 1.
Proof.
  induction pts as [| a [| b rest] IH]; [reflexivity | reflexivity |].
  change (S (List.length (segments (b :: rest))) = S (List.length (b :: rest)) - 1).
  rewrite IH. simpl. lia.
Qed.

Lemma polygon_length b pts : pts <> [] -> List.length (polygon b pts) = List.length pts.
Proof.
  intros Hne. unfold polygon. rewrite length_app, segments_length. simpl.
  destruct pts; [contradiction | simpl; lia].
Qed.

Lemma segments_seq pts :
  segments pts = map (segment_at pts) (seq 0 (List.length pts - 1)).
Proof.
  induction pts as [| a [| b rest] IH]; [reflexivity | reflexivity |].
  change (Vsub b a :: segments (b :: rest) =
          map (segment_at (a :: b :: rest)) (seq 0 (S (List.length rest)))).
  rewrite IH. cbn [seq map]. f_equal.
  rewrite <- seq_shift, map_map.
  replace (List.length (b :: rest) - 1) with (List.length rest)
    by (simpl; lia).
  reflexivity.
Qed.

(** *** The loop computes the segments *)

Lemma vec_at_z_nth pts (i : nat) :
  i < List.length pts -> vec_at_z pts (Z.of_nat i) = Ok (nth i pts VNULL).
Proof.
  intros Hi. rewrite vec_at_z_ok by assumption. apply vec_at_nth, Hi.
Qed.

Lemma segment_loop_run pts (k : nat) :
  forall (fuel i : nat) (pre_l pre_u : list (ChVector A)),
    i + k + 1 = List.length pts -> k <= fuel ->
    List.length pre_l = i -> List.length pre_u = i ->
    segment_loop fuel (Z.of_nat i) (Z.of_nat (i + k)) pts
      (pre_l ++ repeat VNULL (k + 1)) (pre_u ++ repeat VNULL (k + 1)) =
    Ok (pre_l ++ map (segment_at pts) (seq i k) ++ [VNULL],
        pre_u ++ map Normalize (map (segment_at pts) (seq i k)) ++ [VNULL]).
Proof.
  induction k as [| k IH]; intros fuel i pre_l pre_u Hlen Hfuel Hl Hu.
  - rewrite Nat.add_0_r. destruct fuel; simpl; rewrite Z.ltb_irrefl; reflexivity.
  - destruct fuel as [| fuel]; [lia |].
    cbn [segment_loop].
    replace (Z.of_nat i <? Z.of_nat (i + S k))%Z with true
      by (symmetry; apply Z.ltb_lt; lia).
    replace (Z.of_nat i + 1)%Z with (Z.of_nat (S i)) by lia.
    rewrite !vec_at_z_nth by lia. cbn [res_bind].
    replace (S k + 1) with (S (k + 1)) by lia. cbn [repeat].
    rewrite <- Hl at 1. rewrite vec_set_z_middle. cbn [res_bind].
    rewrite <- Hu at 1. rewrite vec_set_z_middle. cbn [res_bind].
    replace (i + S k) with (S i + k) by lia.
    rewrite (app_cons_snoc pre_l), (app_cons_snoc pre_u).
    rewrite IH by (rewrite ?length_app; simpl; lia).
    cbn [seq map]. rewrite <- !app_assoc. reflexivity.
Qed.

Lemma segment_loop_all pts (fuel : nat) :
  1 <= List.length pts -> List.length pts - 1 <= fuel ->
  segment_loop fuel 0 (Z.of_nat (List.length pts - 1)) pts
    (repeat VNULL (List.length pts)) (repeat VNULL (List.length pts)) =
  Ok (segments pts ++ [VNULL], map Normalize (segments pts) ++ [VNULL]).
Proof.
  intros Hne Hfuel.
  pose proof (segment_loop_run pts (List.length pts - 1) fuel 0 [] []) as E.
  replace (List.length pts - 1 + 1) with (List.length pts) in E by lia.
  rewrite segments_seq. apply E; simpl; lia.
Qed.

(** The closing segment read through [size_t] indices, as the code reads
    it. *)
Lemma closing_segment_read (b : bool) pts :
  (Z.of_nat (List.length pts) < 2 ^ 64)%Z ->
  (if b then 1 else 2) <= List.length pts ->
  (let np := Z.of_nat (List.length pts) in
   if b then
     (a <- vec_at_z pts 0 ;; z <- vec_at_z pts (size_sub np 1) ;; Ok (Vsub a z))
   else
     (a <- vec_at_z pts (size_sub np 1) ;; z <- vec_at_z pts (size_sub np 2) ;;
      Ok (Vsub a z)))%res = Ok (closing_segment b pts).
Proof.
  intros Hmax Hlen. cbv zeta. unfold closing_segment.
  assert (Hne : 1 <= List.length pts) by (destruct b; lia).
  rewrite size_sub_small by lia.
  replace (Z.of_nat (List.length pts) - 1)%Z
    with (Z.of_nat (List.length pts - 1)) by lia.
  destruct b.
  - change 0%Z with (Z.of_nat 0).
    rewrite !vec_at_z_nth by lia. cbn [res_bind].
    rewrite nth_last. destruct pts; reflexivity.
  - rewrite size_sub_small by lia.
    replace (Z.of_nat (List.length pts) - 2)%Z
      with (Z.of_nat (List.length pts - 2)) by lia.
    rewrite !vec_at_z_nth by lia. cbn [res_bind].
    rewrite nth_last, nth_last_removelast by lia. reflexivity.
Qed.

Lemma SR_CalcPathPoints_ok (b : bool) pts :
  (Z.of_nat (List.length pts) < 2 ^ 64)%Z ->
  (if b then 1 else 2) <= List.length pts ->
  SR_CalcPathPoints (mkCurve pts) b =
  Ok (pts, polygon b pts, map Normalize (polygon b pts)).
Proof.
  intros Hmax Hlen.
  assert (Hne : 1 <= List.length pts) by (destruct b; lia).
  pose proof (closing_segment_read b pts Hmax Hlen) as Hclose.
  unfold SR_CalcPathPoints, getNumPoints. cbn [curve_points] in *. cbv zeta in *.
  rewrite Hclose. clear Hclose.
  rewrite size_sub_small by lia.
  replace (Z.of_nat (List.length pts) - 1)%Z
    with (Z.of_nat (List.length pts - 1)) by lia.
  rewrite segment_loop_all by lia. cbn [res_bind].
  rewrite <- (segments_length pts).
  rewrite vec_set_z_middle. cbn [res_bind].
  rewrite <- (length_map Normalize (segments pts)).
  rewrite vec_set_z_middle. cbn [res_bind].
  unfold polygon. rewrite map_app. reflexivity.
Qed.

(** The degenerate paths: the [size_t] bound [np - 1] wraps for an empty
    path and the loop reads [S_l[1]]; an open path of one point reads
    [S_l[np - 2]]. *)
Lemma SR_CalcPathPoints_empty (b : bool) :
  SR_CalcPathPoints (mkCurve (@nil (ChVector A))) b = Err OutOfRange.
Proof. reflexivity. Qed.

Lemma SR_CalcPathPoints_single (p : ChVector A) :
  SR_CalcPathPoints (mkCurve [p]) false = Err OutOfRange.
Proof. reflexivity. Qed.

End Polygon.

(** ** Specification of the segment scan *)

Section Scan.
Local Open Scope nat_scope.
Context {A : Type} `{Scalar A}.
Implicit Types (c : ChPathSteeringControllerSR A) (sentinel : ChVector A).

(** The shape invariant of the controller: the three vectors have the
    same length, the current index is inside them, and the logging state
    of the base class is well formed. *)
Definition SR_wf c : Prop :=
  wf (sr_base c) /\
  List.length (R_l c) = List.length (S_l c) /\
  List.length (R_lu c) = List.length (S_l c) /\
  m_idx_curr c < List.length (S_l c).

(** What the probe reads at an index inside the vectors. *)
Definition SR_probe_at c sentinel (idx : nat) : ChVector A * A * A :=
  let Pt := Vsub sentinel (nth idx (S_l c) VNULL) in
  (Pt, Length (nth idx (R_l c) VNULL),
   sc_abs (Vdot Pt (nth idx (R_lu c) VNULL))).

(** A segment accepts the sentinel when the loop condition [t > rt] is
    false for it. *)
Definition SR_accepts c sentinel (idx : nat) : bool :=
  let '(_, rt, t) := SR_probe_at c sentinel idx in negb (sc_ltb rt t).

(** The state of the loop variables at an index. *)
Definition SR_at c sentinel (idx : nat) : nat * ChVector A * A * A :=
  let '(Pt, rt, t) := SR_probe_at c sentinel idx in (idx, Pt, rt, t).

(** The loop started at an index with the values probed there. *)
Definition SR_scan_from (fuel : nat) c sentinel (idx : nat)
  : res (nat * ChVector A * A * A) :=
  let '(Pt, rt, t) := SR_probe_at c sentinel idx in
  SR_scan fuel c sentinel idx Pt rt t.

(** The index reached from [idx] after [k] iterations of the loop. *)
Fixpoint SR_walk c (k idx : nat) : nat :=
  match k with
  | O => idx
  | S k => SR_walk c k (SR_next_index c idx)
  end.

Lemma SR_probe_ok c sentinel idx :
  SR_wf c -> idx < List.length (S_l c) ->
  SR_probe c sentinel idx = Ok (SR_probe_at c sentinel idx).
Proof.
  intros (_ & Hl & Hu & _) Hi. unfold SR_probe, SR_probe_at.
  rewrite (vec_at_nth (S_l c) idx VNULL), (vec_at_nth (R_l c) idx VNULL),
    (vec_at_nth (R_lu c) idx VNULL) by lia.
  reflexivity.
Qed.

Lemma SR_next_index_lt c idx :
  idx < List.length (S_l c) -> SR_next_index c idx < List.length (S_l c).
Proof.
  intros Hi. unfold SR_next_index.
  destruct (Nat.eqb_spec (S idx) (List.length (S_l c))); [| lia].
  destruct (m_isClosedPath c); lia.
Qed.

Lemma SR_walk_lt c k : forall idx,
  idx < List.length (S_l c) -> SR_walk c k idx < List.length (S_l c).
Proof.
  induction k as [| k IH]; intros idx Hi; [exact Hi |].
  apply IH, SR_next_index_lt, Hi.
Qed.

(** An accepting index ends the loop, whatever the fuel. *)
Lemma SR_scan_accept c sentinel idx (fuel : nat) :
  SR_accepts c sentinel idx = true ->
  SR_scan_from fuel c sentinel idx = Ok (SR_at c sentinel idx).
Proof.
  unfold SR_accepts, SR_scan_from, SR_at.
  destruct (SR_probe_at c sentinel idx) as [[Pt rt] t].
  destruct fuel; cbn [SR_scan]; destruct (sc_ltb rt t); easy.
Qed.

(** One iteration at a rejecting index inside the vectors. *)
Lemma SR_scan_reject c sentinel idx (fuel : nat) :
  SR_wf c -> idx < List.length (S_l c) ->
  SR_accepts c sentinel idx = false ->
  SR_scan_from (S fuel) c sentinel idx =
  if m_isClosedPath c
  then SR_scan_from fuel c sentinel (SR_next_index c idx)
  else Ok (SR_at c sentinel (SR_next_index c idx)).
Proof.
  intros Hwf Hi. unfold SR_accepts, SR_scan_from, SR_at.
  destruct (SR_probe_at c sentinel idx) as [[Pt rt] t].
  cbn [SR_scan]. destruct (sc_ltb rt t); [intros _ | easy].
  rewrite SR_probe_ok by (try apply SR_next_index_lt; assumption).
  cbn [res_bind].
  destruct (SR_probe_at c sentinel (SR_next_index c idx)) as [[Pt' rt'] t'].
  reflexivity.
Qed.

Lemma SR_scan_out_of_fuel c sentinel idx :
  SR_accepts c sentinel idx = false ->
  SR_scan_from 0 c sentinel idx = Err OutOfFuel.
Proof.
  unfold SR_accepts, SR_scan_from.
  destruct (SR_probe_at c sentinel idx) as [[Pt rt] t].
  cbn [SR_scan]. destruct (sc_ltb rt t); easy.
Qed.

(** The loop stops at the first accepting index of the walk, when the
    fuel reaches it. *)
Lemma SR_scan_finds c sentinel (k : nat) : forall (fuel idx : nat),
  SR_wf c -> m_isClosedPath c = true -> idx < List.length (S_l c) ->
  (forall j, j < k -> SR_accepts c sentinel (SR_walk c j idx) = false) ->
  SR_accepts c sentinel (SR_walk c k idx) = true ->
  k <= fuel ->
  SR_scan_from fuel c sentinel idx = Ok (SR_at c sentinel (SR_walk c k idx)).
Proof.
  induction k as [| k IH]; intros fuel idx Hwf Hc Hi Hrej Hacc Hfuel.
  - apply SR_scan_accept, Hacc.
  - destruct fuel as [| fuel]; [lia |].
    rewrite SR_scan_reject, Hc by (try apply (Hrej 0); auto; lia).
    apply IH; auto using SR_next_index_lt; [| lia].
    intros j Hj. apply (Hrej (S j)). lia.
Qed.

(** With fewer iterations than rejecting indices the fuel runs out. *)
Lemma SR_scan_starves c sentinel (fuel : nat) : forall (idx : nat),
  SR_wf c -> m_isClosedPath c = true -> idx < List.length (S_l c) ->
  (forall j, j <= fuel -> SR_accepts c sentinel (SR_walk c j idx) = false) ->
  SR_scan_from fuel c sentinel idx = Err OutOfFuel.
Proof.
  induction fuel as [| fuel IH]; intros idx Hwf Hc Hi Hrej.
  - apply SR_scan_out_of_fuel, (Hrej 0). lia.
  - rewrite SR_scan_reject, Hc by (try apply (Hrej 0); auto; lia).
    apply IH; auto using SR_next_index_lt.
    intros j Hj. apply (Hrej (S j)). lia.
Qed.

(** On an open path the body ends in [break]: one unit of fuel is
    enough. *)
Lemma SR_scan_open c sentinel idx (fuel : nat) :
  SR_wf c -> m_isClosedPath c = false -> idx < List.length (S_l c) ->
  SR_scan_from (S fuel) c sentinel idx =
  Ok (SR_at c sentinel
        (if SR_accepts c sentinel idx then idx else SR_next_index c idx)).
Proof.
  intros Hwf Hc Hi. destruct (SR_accepts c sentinel idx) eqn:Ea.
  - apply SR_scan_accept, Ea.
  - rewrite SR_scan_reject, Hc by assumption. reflexivity.
Qed.

(** Whatever the loop returns is the state at an index inside the
    vectors. *)
Lemma SR_scan_result c sentinel (fuel : nat) : forall idx r,
  SR_wf c -> idx < List.length (S_l c) ->
  SR_scan_from fuel c sentinel idx = Ok r ->
  exists idx', idx' < List.length (S_l c) /\ r = SR_at c sentinel idx'.
Proof.
  induction fuel as [| fuel IH]; intros idx r Hwf Hi;
    destruct (SR_accepts c sentinel idx) eqn:Ea;
    rewrite ?SR_scan_accept, ?SR_scan_out_of_fuel, ?SR_scan_reject by assumption;
    try discriminate;
    try (intros E; injection E as <-; exists idx; auto).
  destruct (m_isClosedPath c).
  - apply IH; auto using SR_next_index_lt.
  - intros E; injection E as <-. eauto using SR_next_index_lt.
Qed.

(** When every segment rejects the sentinel, no fuel is enough. *)
Lemma SR_scan_all_reject c sentinel (fuel idx : nat) :
  SR_wf c -> m_isClosedPath c = true -> idx < List.length (S_l c) ->
  (forall i, i < List.length (S_l c) -> SR_accepts c sentinel i = false) ->
  SR_scan_from fuel c sentinel idx = Err OutOfFuel.
Proof.
  intros Hwf Hc Hi Hrej. apply SR_scan_starves; auto.
  intros j _. apply Hrej, SR_walk_lt, Hi.
Qed.

(** The loop never reads outside the vectors: it stops at an index or
    runs out of fuel. *)
Lemma SR_scan_cases c sentinel (fuel : nat) : forall idx,
  SR_wf c -> idx < List.length (S_l c) ->
  (exists idx', idx' < List.length (S_l c) /\
     SR_scan_from fuel c sentinel idx = Ok (SR_at c sentinel idx')) \/
  SR_scan_from fuel c sentinel idx = Err OutOfFuel.
Proof.
  induction fuel as [| fuel IH]; intros idx Hwf Hi;
    destruct (SR_accepts c sentinel idx) eqn:Ea;
    rewrite ?SR_scan_accept, ?SR_scan_out_of_fuel, ?SR_scan_reject by assumption;
    eauto.
  destruct (m_isClosedPath c); eauto using SR_next_index_lt.
Qed.

End Scan.

(** ** The step on the real numbers *)

Section Step.
Local Open Scope R_scope.
Implicit Types (c : ChPathSteeringControllerSR R) (vehicle : ChVehicle R).

(** The lateral error and the target at a segment. *)
Definition SR_error c (sentinel : ChVector R) (idx : nat) : R :=
  Vdot (Vsub sentinel (nth idx (S_l c) VNULL))
       (Vcross (nth idx (R_lu c) VNULL) Vertical).

Definition SR_target c (sentinel : ChVector R) (idx : nat) : ChVector R :=
  Vadd (nth idx (S_l c) VNULL)
       (Vmul (nth idx (R_lu c) VNULL)
             (Rabs (Vdot (Vsub sentinel (nth idx (S_l c) VNULL))
                         (nth idx (R_lu c) VNULL)))).

(** The controller after a step that stopped at segment [idx] and logged
    into [b]. *)
Definition SR_after c vehicle (b : ChSteeringController R) (idx : nat)
  : ChPathSteeringControllerSR R :=
  let err := SR_error c (SR_sentinel c vehicle) idx in
  mkSR (set_errors b err (m_errd b) (m_erri b)) (m_path c) (m_isClosedPath c)
    (m_Klat c) (m_Kug c) (m_Tp c) (m_L c)
    (SR_update_delta c (GetSpeed vehicle) err) (m_delta_max c) (m_umin c)
    idx (S_l c) (R_l c) (R_lu c).

(** The invariant of the controller: its shape, a positive steering
    limit, and a steering angle within the limit. *)
Definition SR_inv c : Prop :=
  SR_wf c /\ 0 < m_delta_max c /\ Rabs (m_delta c) <= m_delta_max c.

(** The test [t >= rt] before the loop is implied by the loop condition. *)
Lemma SR_guard (fuel : nat) c sentinel idx Pt (rt t : R) :
  (if Rleb rt t then SR_scan fuel c sentinel idx Pt rt t
   else Ok (idx, Pt, rt, t)) = SR_scan fuel c sentinel idx Pt rt t.
Proof.
  destruct (Rleb_spec rt t); [reflexivity |].
  destruct fuel; cbn [SR_scan]; scalar_unfold; rewrite Rltb_false by lra;
    reflexivity.
Qed.

Lemma SR_Advance_scan (fuel : nat) c vehicle step :
  SR_wf c ->
  SR_Advance fuel c vehicle step =
  (r <- SR_scan_from fuel c (SR_sentinel c vehicle) (m_idx_curr c) ;;
   let '(idx, Pt, rt, t) := r in
   s <- vec_at (S_l c) idx ;;
   ru <- vec_at (R_lu c) idx ;;
   b <- log_row (set_target (set_sentinel (sr_base c) (SR_sentinel c vehicle))
                   (Vadd s (Vmul ru t))) vehicle ;;
   ru <- vec_at (R_lu c) idx ;;
   let err := Vdot Pt (Vcross ru Vertical) in
   let delta := SR_update_delta c (GetSpeed vehicle) err in
   Ok (mkSR (set_errors b err (m_errd b) (m_erri b)) (m_path c)
         (m_isClosedPath c) (m_Klat c) (m_Kug c) (m_Tp c) (m_L c) delta
         (m_delta_max c) (m_umin c) idx (S_l c) (R_l c) (R_lu c),
       delta / m_delta_max c))%res.
Proof.
  intros Hwf. unfold SR_Advance, SR_scan_from. cbv zeta.
  rewrite SR_probe_ok by (assumption || apply Hwf).
  destruct (SR_probe_at c (SR_sentinel c vehicle) (m_idx_curr c)) as [[Pt rt] t].
  cbn [res_bind]. scalar_unfold. rewrite SR_guard.
  destruct (SR_scan fuel c (SR_sentinel c vehicle) (m_idx_curr c) Pt rt t)
    as [[[[idx Pt'] rt'] t'] | e]; reflexivity.
Qed.

(** A step whose scan stops at [idx] succeeds and yields [SR_after]. *)
Lemma SR_Advance_found (fuel : nat) c vehicle step idx :
  SR_wf c -> (idx < List.length (S_l c))%nat ->
  SR_scan_from fuel c (SR_sentinel c vehicle) (m_idx_curr c) =
    Ok (SR_at c (SR_sentinel c vehicle) idx) ->
  exists b,
    log_row (set_target (set_sentinel (sr_base c) (SR_sentinel c vehicle))
               (SR_target c (SR_sentinel c vehicle) idx)) vehicle = Ok b /\
    wf b /\
    SR_Advance fuel c vehicle step =
      Ok (SR_after c vehicle b idx, m_delta (SR_after c vehicle b idx) / m_delta_max c).
Proof.
  intros Hwf Hi Hscan. rewrite SR_Advance_scan, Hscan by assumption.
  destruct Hwf as (Hb & Hl & Hu & Hc).
  unfold SR_at, SR_probe_at. cbn [res_bind].
  rewrite (vec_at_nth (S_l c) idx VNULL), (vec_at_nth (R_lu c) idx VNULL) by lia.
  cbn [res_bind].
  destruct (log_row_ok
    (set_target (set_sentinel (sr_base c) (SR_sentinel c vehicle))
       (SR_target c (SR_sentinel c vehicle) idx)) vehicle)
    as (b & Eb & Hwfb & _); [apply wf_set_target, wf_set_sentinel, Hb |].
  exists b. split; [exact Eb | split; [exact Hwfb |]].
  unfold SR_target in Eb. scalar_unfold. rewrite Eb. reflexivity.
Qed.

(** A successful step is [SR_after] at the index its scan stopped at. *)
Lemma SR_Advance_inv (fuel : nat) c vehicle step c' out :
  SR_wf c -> SR_Advance fuel c vehicle step = Ok (c', out) ->
  exists idx b, (idx < List.length (S_l c))%nat /\ wf b /\
    SR_scan_from fuel c (SR_sentinel c vehicle) (m_idx_curr c) =
      Ok (SR_at c (SR_sentinel c vehicle) idx) /\
    c' = SR_after c vehicle b idx /\ out = m_delta c' / m_delta_max c.
Proof.
  intros Hwf E.
  destruct (SR_scan_from fuel c (SR_sentinel c vehicle) (m_idx_curr c))
    as [r | e] eqn:Es;
    [| rewrite SR_Advance_scan, Es in E by assumption; discriminate].
  destruct (SR_scan_result _ _ _ _ _ Hwf (proj2 (proj2 (proj2 Hwf))) Es)
    as (idx & Hi & ->).
  destruct (SR_Advance_found fuel c vehicle step idx Hwf Hi Es) as (b & _ & Hb & E').
  rewrite E' in E. injection E as <- <-. exists idx, b. auto.
Qed.

End Step.

(** ** The life cycle of a controller *)

Section Lifecycle.
Context {A : Type} `{Scalar A} `{Trig A}.
Implicit Types (c : ChPathSteeringControllerSR A).

(** A member function of the base class called on the derived object. *)
Definition SR_on_base c (f : ChSteeringController A -> ChSteeringController A)
  : ChPathSteeringControllerSR A :=
  mkSR (f (sr_base c)) (m_path c) (m_isClosedPath c) (m_Klat c) (m_Kug c)
    (m_Tp c) (m_L c) (m_delta c) (m_delta_max c) (m_umin c) (m_idx_curr c)
    (S_l c) (R_l c) (R_lu c).

(** The calls a program makes on a controller. *)
Inductive SROp : Type :=
| SROpReset (vehicle : ChVehicle A)
| SROpAdvance (fuel : nat) (vehicle : ChVehicle A) (step : A)
| SROpSetGains (Klat Kug : A)
| SROpSetPreviewTime (Tp : A)
| SROpStartDataCollection
| SROpStopDataCollection.

Definition SR_apply c (o : SROp) : res (ChPathSteeringControllerSR A) :=
  match o with
  | SROpReset vehicle => Ok (SR_Reset c vehicle)
  | SROpAdvance fuel vehicle step => res_map fst (SR_Advance fuel c vehicle step)
  | SROpSetGains Klat Kug => Ok (SR_SetGains c Klat Kug)
  | SROpSetPreviewTime Tp => Ok (SR_SetPreviewTime c Tp)
  | SROpStartDataCollection => Ok (SR_on_base c StartDataCollection)
  | SROpStopDataCollection => Ok (SR_on_base c StopDataCollection)
  end.

(** The states a program can bring a constructed controller to. *)
Inductive SR_reachable (c0 : ChPathSteeringControllerSR A)
  : ChPathSteeringControllerSR A -> Prop :=
| SR_reach_init : SR_reachable c0 c0
| SR_reach_step c o c' :
    SR_reachable c0 c -> SR_apply c o = Ok c' -> SR_reachable c0 c'.

(** A step that returns has appended one row to the log while
    collection is on, and none otherwise: the time of the snapshot, then
    the target and the sentinel it leaves in the controller. *)
Lemma SR_Advance_logged (fuel : nat) c vehicle step c' out :
  SR_Advance fuel c vehicle step = Ok (c', out) ->
  m_collect (sr_base c') = m_collect (sr_base c) /\
  logged (sr_base c') =
    logged (sr_base c) ++
    (if m_collect (sr_base c)
     then [mkRow (GetChTime vehicle) (m_target (sr_base c'))
             (m_sentinel (sr_base c'))]
     else []).
Proof.
  unfold SR_Advance. cbv zeta.
  repeat match goal with
         | |- res_bind ?x _ = _ -> _ =>
             destruct x as [? | ?] eqn:?; [cbn [res_bind] | discriminate]
         | |- match ?p with pair _ _ => _ end = _ -> _ => destruct p
         end.
  intros E; injection E as <- _.
  match goal with Eb : log_row _ _ = Ok _ |- _ =>
    exact (log_row_logged _ _ _ Eb) end.
Qed.

End Lifecycle.

Arguments SROp A : clear implicits.

(** ** Construction *)

Section Construction.
Local Open Scope nat_scope.
Context {A : Type} `{Scalar A}.
Implicit Types (pts : list (ChVector A)).

Lemma SR_CalcPathPoints_degenerate (b : bool) pts :
  List.length pts < (if b then 1 else 2) ->
  SR_CalcPathPoints (mkCurve pts) b = Err OutOfRange.
Proof.
  intros Hd. destruct pts as [| p [| q pts]].
  - apply SR_CalcPathPoints_empty.
  - destruct b; [simpl in Hd; lia | apply SR_CalcPathPoints_single].
  - simpl in Hd. destruct b; lia.
Qed.

Lemma SR_wf_new (b : bool) pts (dmax L : A) c :
  (Z.of_nat (List.length pts) < 2 ^ 64)%Z ->
  ChPathSteeringControllerSR_new (mkCurve pts) b dmax L = Ok c ->
  SR_wf c /\ m_delta c = sc_of_Z 0 /\ m_delta_max c = dmax /\
  m_isClosedPath c = b /\ S_l c = pts /\ R_l c = polygon b pts /\
  R_lu c = map Normalize (polygon b pts).
Proof.
  intros Hmax. unfold ChPathSteeringControllerSR_new.
  destruct (Nat.lt_ge_cases (List.length pts) (if b then 1 else 2)) as [Hd | Hd].
  - rewrite SR_CalcPathPoints_degenerate by assumption. discriminate.
  - rewrite SR_CalcPathPoints_ok by assumption. cbn [res_bind].
    intros E; injection E as <-. unfold SR_wf.
    cbn [S_l R_l R_lu m_idx_curr sr_base m_delta m_delta_max m_isClosedPath].
    assert (Hne : pts <> []) by (intros ->; destruct b; simpl in Hd; lia).
    rewrite length_map, polygon_length by assumption.
    repeat split; [apply wf_default | destruct pts; simpl; [easy | lia]].
Qed.

End Construction.

(** ** The invariant and its preservation *)

Section Invariant.
Local Open Scope R_scope.
Implicit Types (c : ChPathSteeringControllerSR R) (vehicle : ChVehicle R).

Lemma SR_update_delta_bounded c (u err : R) :
  0 <= m_delta_max c -> Rabs (m_delta c) <= m_delta_max c ->
  Rabs (SR_update_delta c u err) <= m_delta_max c.
Proof.
  intros Hm Hd. unfold SR_update_delta. scalar_unfold.
  destruct (Rleb (m_umin c) u); [apply ChClamp_abs_le, Hm | exact Hd].
Qed.

(** Below the minimum speed the steering angle is frozen. *)
Lemma SR_update_delta_frozen c (u err : R) :
  u < m_umin c -> SR_update_delta c u err = m_delta c.
Proof.
  intros Hu. unfold SR_update_delta. scalar_unfold.
  rewrite Rleb_false by lra. reflexivity.
Qed.

(** With a zero gain the steering angle does not move. *)
Lemma SR_update_delta_inert c (u err : R) :
  m_Klat c = 0 -> Rabs (m_delta c) <= m_delta_max c ->
  SR_update_delta c u err = m_delta c.
Proof.
  intros Hk Hd. apply Rabs_le_inv in Hd. unfold SR_update_delta. scalar_unfold.
  destruct (Rleb (m_umin c) u); [| reflexivity].
  rewrite Hk, Rmult_0_l, Rplus_0_r. apply ChClamp_id, Hd.
Qed.

Lemma SR_inv_after c vehicle b (idx : nat) :
  SR_inv c -> wf b -> (idx < List.length (S_l c))%nat ->
  SR_inv (SR_after c vehicle b idx).
Proof.
  intros ((Hb & Hl & Hu & Hi) & Hm & Hd) Hwb Hidx.
  unfold SR_inv, SR_wf, SR_after; cbn.
  repeat split; try assumption.
  apply SR_update_delta_bounded; [lra | assumption].
Qed.

Lemma SR_inv_on_base c f :
  (wf (sr_base c) -> wf (f (sr_base c))) -> SR_inv c -> SR_inv (SR_on_base c f).
Proof.
  intros Hf ((Hb & Hl & Hu & Hi) & Hm & Hd).
  unfold SR_inv, SR_wf, SR_on_base; cbn. auto 10.
Qed.

Lemma SR_inv_Reset c vehicle : SR_inv c -> SR_inv (SR_Reset c vehicle).
Proof.
  intros ((Hb & Hl & Hu & Hi) & Hm & Hd).
  unfold SR_inv, SR_wf, SR_Reset; cbn. auto 10 using wf_Reset.
Qed.

Lemma SR_inv_SetGains c Klat Kug : SR_inv c -> SR_inv (SR_SetGains c Klat Kug).
Proof. intros ((Hb & Hl & Hu & Hi) & Hm & Hd). repeat split; assumption. Qed.

Lemma SR_inv_SetPreviewTime c Tp : SR_inv c -> SR_inv (SR_SetPreviewTime c Tp).
Proof. intros ((Hb & Hl & Hu & Hi) & Hm & Hd). repeat split; assumption. Qed.

(** A step never reads outside the vectors and never dereferences a null
    log: under the invariant its only failure is the exhaustion of the
    fuel, and a step that returns keeps the invariant. *)
Lemma SR_Advance_cases (fuel : nat) c vehicle step :
  SR_inv c ->
  (exists c' idx b, (idx < List.length (S_l c))%nat /\ wf b /\
     c' = SR_after c vehicle b idx /\
     SR_scan_from fuel c (SR_sentinel c vehicle) (m_idx_curr c) =
       Ok (SR_at c (SR_sentinel c vehicle) idx) /\
     SR_Advance fuel c vehicle step = Ok (c', m_delta c' / m_delta_max c)) \/
  SR_Advance fuel c vehicle step = Err OutOfFuel.
Proof.
  intros (Hwf & Hm & Hd).
  destruct (SR_scan_cases c (SR_sentinel c vehicle) fuel (m_idx_curr c) Hwf)
    as [(idx & Hi & Es) | Es]; [apply Hwf | |].
  - destruct (SR_Advance_found fuel c vehicle step idx Hwf Hi Es) as (b & _ & Hb & E).
    left. exists (SR_after c vehicle b idx), idx, b. auto.
  - right. rewrite SR_Advance_scan, Es by assumption. reflexivity.
Qed.

(** On an open path the scan of a step is one test: with one unit of
    fuel the step returns, at the current segment when it accepts the
    sentinel and at the next one otherwise. *)
Lemma SR_Advance_open_step (fuel : nat) c vehicle step :
  SR_inv c -> m_isClosedPath c = false ->
  let idx := if SR_accepts c (SR_sentinel c vehicle) (m_idx_curr c)
             then m_idx_curr c else SR_next_index c (m_idx_curr c) in
  exists b,
    wf b /\ (idx < List.length (S_l c))%nat /\
    SR_Advance (S fuel) c vehicle step =
      Ok (SR_after c vehicle b idx,
          m_delta (SR_after c vehicle b idx) / m_delta_max c).
Proof.
  intros Hinv Hopen idx. pose proof Hinv as ((Hb & Hl & Hu & Hi) & _).
  pose proof (SR_scan_open c (SR_sentinel c vehicle) (m_idx_curr c) fuel
                (proj1 Hinv) Hopen Hi) as Es.
  fold idx in Es.
  assert (Hidx : (idx < List.length (S_l c))%nat)
    by (unfold idx; destruct (SR_accepts _ _ _); auto using SR_next_index_lt).
  destruct (SR_Advance_found (S fuel) c vehicle step idx (proj1 Hinv) Hidx Es)
    as (b & _ & Hwb & E).
  exists b. auto.
Qed.

(** The step of an open path keeps the invariant and the path open, and
    its command is within [[-1, 1]]. *)
Lemma SR_Advance_open_bounded (fuel : nat) c vehicle step :
  SR_inv c -> m_isClosedPath c = false ->
  exists c' out,
    SR_Advance (S fuel) c vehicle step = Ok (c', out) /\
    -1 <= out <= 1 /\ SR_inv c' /\ m_isClosedPath c' = false.
Proof.
  intros Hinv Hopen.
  destruct (SR_Advance_open_step fuel c vehicle step Hinv Hopen)
    as (b & Hwb & Hidx & E).
  pose proof (SR_inv_after c vehicle b _ Hinv Hwb Hidx) as Hinv'.
  eexists _, _. split; [exact E |]. split; [| split; [exact Hinv' | exact Hopen]].
  destruct Hinv' as (_ & Hm & Hd). apply Rdiv_abs_le_1; assumption.
Qed.

Lemma SR_apply_inv c (o : SROp R) c' :
  SR_inv c -> SR_apply c o = Ok c' -> SR_inv c'.
Proof.
  intros Hinv. destruct o as [v | fuel v step | Klat Kug | Tp | |]; cbn [SR_apply];
    try (intros E; injection E as <-).
  - apply SR_inv_Reset, Hinv.
  - destruct (SR_Advance_cases fuel c v step Hinv)
      as [(c1 & idx & b & Hi & Hb & -> & _ & ->) | ->]; [| discriminate].
    intros E; injection E as <-. apply SR_inv_after; assumption.
  - apply SR_inv_SetGains, Hinv.
  - apply SR_inv_SetPreviewTime, Hinv.
  - apply SR_inv_on_base; [apply wf_StartDataCollection | exact Hinv].
  - apply SR_inv_on_base; [intros _; apply wf_StopDataCollection | exact Hinv].
Qed.

(** The steering limit is never changed. *)
Lemma SR_apply_delta_max c (o : SROp R) c' :
  SR_inv c -> SR_apply c o = Ok c' -> m_delta_max c' = m_delta_max c.
Proof.
  intros Hinv. destruct o as [v | fuel v step | Klat Kug | Tp | |]; cbn [SR_apply];
    try (intros E; injection E as <-; reflexivity).
  destruct (SR_Advance_cases fuel c v step Hinv)
    as [(c1 & idx & b & Hi & Hb & -> & _ & ->) | ->]; [| discriminate].
  intros E; injection E as <-. reflexivity.
Qed.

End Invariant.

(** ** Properties of the step *)

Section Properties.
Local Open Scope R_scope.
Implicit Types (c : ChPathSteeringControllerSR R) (vehicle : ChVehicle R).

(** C2: the command of the SR controller is bounded and its step is
    memory safe.  Under the invariant (vectors of equal length, index
    inside them, well-formed log, steering angle within a positive limit)
    a step either returns a command in [[-1, 1]] together with a state
    that satisfies the invariant again, or the scan of a closed path has
    used all its fuel; it never reads outside a vector and never writes
    to a log that does not exist. *)
Theorem SR_Advance_bounded (fuel : nat) c vehicle step :
  SR_inv c ->
  match SR_Advance fuel c vehicle step with
  | Ok (c', out) => -1 <= out <= 1 /\ SR_inv c' /\ out = m_delta c' / m_delta_max c'
  | Err e => e = OutOfFuel
  end.
Proof.
  intros Hinv.
  destruct (SR_Advance_cases fuel c vehicle step Hinv)
    as [(c' & idx & b & Hi & Hb & -> & _ & ->) | ->]; [| reflexivity].
  pose proof (SR_inv_after c vehicle b idx Hinv Hb Hi) as Hinv'.
  split; [| split; [exact Hinv' | reflexivity]].
  destruct Hinv' as (_ & Hm & Hd). apply Rdiv_abs_le_1; assumption.
Qed.

(** C23: the invariant holds in every state a program can bring a
    controller to from a state that satisfies it, by any sequence of
    [Reset], [Advance], [SetGains], [SetPreviewTime] and the two data
    collection calls, and the steering limit is the one it was built
    with. *)
Theorem SR_reachable_inv c0 c :
  SR_inv c0 -> SR_reachable c0 c ->
  SR_inv c /\ m_delta_max c = m_delta_max c0.
Proof.
  intros H0 Hr. induction Hr as [| c o c' Hr [IH Em] Ho]; [auto |].
  split; [eapply SR_apply_inv; eassumption |].
  rewrite <- Em. eapply SR_apply_delta_max; eassumption.
Qed.

(** On an open path a step always returns with one unit of fuel:
    the body of the scan ends in [break], so the index moves by at most
    one segment per step, to the next segment when the current one
    rejects the sentinel and never past the last one. *)
Theorem SR_Advance_open_total (fuel : nat) c vehicle step :
  SR_inv c -> m_isClosedPath c = false ->
  exists c' out,
    SR_Advance (S fuel) c vehicle step = Ok (c', out) /\
    m_idx_curr c' =
      (if SR_accepts c (SR_sentinel c vehicle) (m_idx_curr c)
       then m_idx_curr c
       else Nat.min (S (m_idx_curr c)) (List.length (S_l c) - 1)).
Proof.
  intros Hinv Hopen. pose proof Hinv as ((_ & _ & _ & Hi) & _).
  destruct (SR_Advance_open_step fuel c vehicle step Hinv Hopen)
    as (b & _ & _ & E).
  eexists _, _. split; [exact E |]. cbn [SR_after m_idx_curr].
  destruct (SR_accepts _ _ _); [reflexivity |].
  unfold SR_next_index. rewrite Hopen.
  destruct (Nat.eqb_spec (S (m_idx_curr c)) (List.length (S_l c))); lia.
Qed.

(** C21: on a closed path the scan terminates exactly when some segment
    on the walk from the current index accepts the sentinel: then enough
    fuel makes it return, and otherwise no amount of fuel does. *)
Theorem SR_scan_terminates_iff c (sentinel : ChVector R) (idx : nat) :
  SR_wf c -> m_isClosedPath c = true -> (idx < List.length (S_l c))%nat ->
  (exists fuel r, SR_scan_from fuel c sentinel idx = Ok r) <->
  (exists k, SR_accepts c sentinel (SR_walk c k idx) = true).
Proof.
  intros Hwf Hc Hi. split.
  - intros (fuel & r & E).
    destruct (bounded_search
      (fun j => SR_accepts c sentinel (SR_walk c j idx)) fuel)
      as [Hrej | (j & _ & Hj)]; [| eauto].
    rewrite (SR_scan_starves c sentinel fuel idx Hwf Hc Hi Hrej) in E.
    discriminate.
  - intros (k & Hk).
    destruct (first_true (fun j => SR_accepts c sentinel (SR_walk c j idx)) k Hk)
      as (j & _ & Hj & Hlt).
    exists j, (SR_at c sentinel (SR_walk c j idx)).
    apply SR_scan_finds; auto.
Qed.

End Properties.

(** ** The sentinel, [Reset], and the geometry of the error *)

Section Geometry.
Local Open Scope R_scope.
Implicit Types (c : ChPathSteeringControllerSR R) (vehicle : ChVehicle R).

(** With a zero steering angle the sentinel lies straight ahead of the
    chassis frame, at the distance [max(speed, m_umin) * m_Tp]. *)
Lemma SR_sentinel_zero_delta c vehicle :
  m_delta c = 0 ->
  SR_sentinel c vehicle =
  Vadd (frame_pos (GetFrame_REF_to_abs vehicle))
       (Vmul (Xaxis (frame_rot (GetFrame_REF_to_abs vehicle)))
             (Rmax (GetSpeed vehicle) (m_umin c) * m_Tp c)).
Proof.
  intros Hd. unfold SR_sentinel. cbv zeta. scalar_unfold.
  rewrite Hd, Reqb_true by reflexivity.
  unfold TransformPointLocalToParent. rewrite Mmul_Forward.
  do 3 f_equal. unfold Rmax.
  destruct (Rle_dec (GetSpeed vehicle) (m_umin c)); rcase; lra.
Qed.

(** C37: the straight-line sentinel of the specification.  With a zero
    steering angle the sentinel is the chassis position moved along the
    chassis forward axis, whatever the understeer gain: by [speed * m_Tp]
    when the speed is not below the minimum speed, and by
    [m_umin * m_Tp] when it is. *)
Theorem SR_sentinel_straight c vehicle :
  m_delta c = 0 ->
  let ahead d :=
    Vadd (frame_pos (GetFrame_REF_to_abs vehicle))
         (Vmul (Xaxis (frame_rot (GetFrame_REF_to_abs vehicle))) d) in
  (m_umin c <= GetSpeed vehicle ->
   SR_sentinel c vehicle = ahead (GetSpeed vehicle * m_Tp c)) /\
  (GetSpeed vehicle < m_umin c ->
   SR_sentinel c vehicle = ahead (m_umin c * m_Tp c)).
Proof.
  intros Hd ahead. rewrite SR_sentinel_zero_delta by assumption.
  split; intros Hu; [rewrite Rmax_left by lra | rewrite Rmax_right by lra];
    reflexivity.
Qed.

(** [Reset] sets both gains to zero, so a controller that is reset
    no longer steers: every later step that returns leaves the steering
    angle, and with it the command, where it was. *)
Theorem SR_Reset_inert (fuel : nat) c v0 vehicle step :
  SR_inv c ->
  match SR_Advance fuel (SR_Reset c v0) vehicle step with
  | Ok (c', out) => m_delta c' = m_delta c /\ out = m_delta c / m_delta_max c
  | Err e => e = OutOfFuel
  end.
Proof.
  intros Hinv. pose proof (SR_inv_Reset c v0 Hinv) as Hr.
  destruct (SR_Advance_cases fuel _ vehicle step Hr)
    as [(c' & idx & b & Hi & Hb & -> & _ & ->) | ->]; [| reflexivity].
  cbn [SR_after m_delta].
  rewrite SR_update_delta_inert; [split; reflexivity | reflexivity | apply Hinv].
Qed.

(** The chord of a turn: a horizontal unit vector minus its rotation
    by [theta] about the vertical, in the basis of the vector and the
    direction to its right. *)
Lemma chord_of_turn (n : ChVector R) (theta : R) :
  horizontal n ->
  Vsub n (Mmul (Mrot_angle_axis theta Vertical) n) =
  Vadd (Vmul (mkV (vy n) (- vx n) 0) (sin theta)) (Vmul n (1 - cos theta)).
Proof.
  intros Hn. rewrite Mrot_Vertical. destruct n as [x y z].
  unfold horizontal in Hn. cbn in Hn. subst z. vsolve.
Qed.

(** The sentinel of a steering vehicle on a level chassis, in the basis
    of the chassis: forward by [factor + R sin theta], to the left by
    [R (1 - cos theta)]. *)
Lemma SR_sentinel_turning c vehicle :
  m_delta c <> 0 ->
  let f := GetFrame_REF_to_abs vehicle in
  let X := Xaxis (frame_rot f) in
  let Y := Yaxis (frame_rot f) in
  horizontal Y -> unit_vector Y -> X = mkV (vy Y) (- vx Y) 0 ->
  let u := GetSpeed vehicle in
  let factor := Rmax u (m_umin c) * m_Tp c in
  let R := (m_L c + CH_C_DEG_TO_RAD * m_Kug c * u * u / (981 / 100)) / m_delta c in
  let theta := u * m_Tp c / R in
  SR_sentinel c vehicle =
  Vadd (frame_pos f)
       (Vadd (Vmul X (factor + R * sin theta)) (Vmul Y (R * (1 - cos theta)))).
Proof.
  intros Hd f X Y Hh Hu HX u factor R theta.
  unfold SR_sentinel. cbv zeta. scalar_unfold.
  rewrite Reqb_false by exact Hd.
  fold f. fold Y. rewrite (Project_of_horizontal Y Hh), (Normalize_of_unit Y Hu).
  fold u. change (IZR 981 / IZR 100) with (981 / 100). fold R. fold theta.
  rewrite (chord_of_turn Y theta Hh), <- HX.
  unfold TransformPointLocalToParent. rewrite Mmul_Forward. fold X.
  replace (if Rltb (m_umin c) u then u else m_umin c) with (Rmax u (m_umin c))
    by (unfold Rmax; destruct (Rle_dec u (m_umin c)); rcase; lra).
  fold factor. generalize (frame_pos f), X, Y. intros [] [] []. vsolve.
Qed.

(** C38: the sentinel of a steering vehicle is not on the arc the vehicle
    is predicted to drive.  On a level chassis and with a steering angle
    that is not zero, the sentinel is the point reached on the circle of
    radius [R] about the yaw centre after the angle [theta], moved
    forward once more by the straight-line preview distance [factor]: its
    squared distance from the yaw centre is [R^2] plus
    [factor (factor + 2 R sin theta)], so it lies on the circle only when
    that product is zero. *)
Theorem SR_sentinel_arc c vehicle :
  m_delta c <> 0 ->
  let f := GetFrame_REF_to_abs vehicle in
  let X := Xaxis (frame_rot f) in
  let Y := Yaxis (frame_rot f) in
  horizontal Y -> unit_vector Y -> X = mkV (vy Y) (- vx Y) 0 ->
  let u := GetSpeed vehicle in
  let factor := Rmax u (m_umin c) * m_Tp c in
  let R := (m_L c + CH_C_DEG_TO_RAD * m_Kug c * u * u / (981 / 100)) / m_delta c in
  let theta := u * m_Tp c / R in
  let centre := Vadd (frame_pos f) (Vmul Y R) in
  let on_arc := Vadd centre (Vmul (Mmul (Mrot_angle_axis theta Vertical) Y) (- R)) in
  SR_sentinel c vehicle = Vadd on_arc (Vmul X factor) /\
  Length2 (Vsub (SR_sentinel c vehicle) centre) =
    R * R + factor * (factor + 2 * R * sin theta) /\
  (Length2 (Vsub (SR_sentinel c vehicle) centre) = R * R <->
   factor = 0 \/ factor + 2 * R * sin theta = 0).
Proof.
  intros Hd f X Y Hh Hu HX u factor R theta centre on_arc.
  pose proof (SR_sentinel_turning c vehicle Hd Hh Hu HX) as E.
  cbv zeta in E. fold f X Y u factor R theta in E.
  assert (El : Length2 (Vsub (SR_sentinel c vehicle) centre) =
               R * R + factor * (factor + 2 * R * sin theta)).
  { rewrite E. unfold centre. rewrite HX. pose proof (sin2_cos2 theta) as Hsc.
    unfold Rsqr in Hsc. revert Hh Hu. generalize (frame_pos f). subst Y.
    generalize (Yaxis (frame_rot f)). intros [x y z] [p q r].
    unfold horizontal, unit_vector; vec_unfold; scalar_unfold; simpl.
    intros -> Hu. nsatz. }
  split; [| split; [exact El |]].
  - rewrite E. unfold on_arc, centre. rewrite Mrot_Vertical, HX. revert Hh.
    generalize (frame_pos f). subst Y. generalize (Yaxis (frame_rot f)).
    intros [x y z] [p q r]. unfold horizontal. cbn. intros ->. vsolve.
  - rewrite El. split; [intros Hz; apply Rmult_integral; lra |].
    intros [-> | ->]; ring.
Qed.

(** The sine of a small angle is at least five sixths of the angle. *)
Lemma sin_small (x : R) : 0 <= x <= 1 -> 5 / 6 * x <= sin x.
Proof.
  intros Hx. destruct (pre_sin_bound x 0) as [Hl _]; [lra | lra |].
  unfold sin_approx, sum_f_R0, sin_term in Hl. simpl in Hl.
  assert (0 <= x * (1 - x * x)) by nra. lra.
Qed.

Lemma turn_forward (R theta : R) :
  Rabs theta <= 1 -> 0 <= R * theta -> 5 / 6 * (R * theta) <= R * sin theta.
Proof.
  intros Ht Hr. apply Rabs_le_inv in Ht.
  destruct (Rtotal_order theta 0) as [Hn | [-> | Hp]].
  - pose proof (sin_small (- theta) ltac:(lra)) as Hs. rewrite sin_neg in Hs.
    assert (R <= 0) by nra. nra.
  - rewrite sin_0. lra.
  - pose proof (sin_small theta ltac:(lra)). assert (0 <= R) by nra. nra.
Qed.

(** The sentinel jumps when the steering angle leaves zero.  However
    small the steering angle is, as long as it is not zero (and the
    turn within the preview time is at most one radian), the sentinel is
    further ahead of the vehicle than the sentinel of the same controller
    with a zero steering angle, by at least five sixths of the distance
    [u * m_Tp] the vehicle covers in the preview time. *)
Theorem SR_sentinel_jump c c0 vehicle :
  m_delta c <> 0 -> m_delta c0 = 0 ->
  m_umin c0 = m_umin c -> m_Tp c0 = m_Tp c ->
  let f := GetFrame_REF_to_abs vehicle in
  let X := Xaxis (frame_rot f) in
  let Y := Yaxis (frame_rot f) in
  horizontal Y -> unit_vector Y -> X = mkV (vy Y) (- vx Y) 0 ->
  let u := GetSpeed vehicle in
  let R := (m_L c + CH_C_DEG_TO_RAD * m_Kug c * u * u / (981 / 100)) / m_delta c in
  R <> 0 -> Rabs (u * m_Tp c / R) <= 1 -> 0 <= u * m_Tp c ->
  5 / 6 * (u * m_Tp c) <=
  Vdot (Vsub (SR_sentinel c vehicle) (SR_sentinel c0 vehicle)) X.
Proof.
  intros Hd H0 Eu Et f X Y Hh Hu HX u R HR Hth Hpos.
  pose proof (SR_sentinel_turning c vehicle Hd Hh Hu HX) as E.
  cbv zeta in E. fold f X Y u R in E.
  rewrite E, (SR_sentinel_zero_delta c0 vehicle H0), Eu, Et. fold f X u.
  pose proof (turn_forward R (u * m_Tp c / R) Hth) as Hf.
  replace (R * (u * m_Tp c / R)) with (u * m_Tp c) in Hf by (field; exact HR).
  specialize (Hf Hpos). revert Hf.
  generalize (sin (u * m_Tp c / R)), (cos (u * m_Tp c / R)),
    (Rmax u (m_umin c) * m_Tp c). intros sn cs factor Hf.
  rewrite HX. revert Hh Hu. generalize (frame_pos f). subst Y.
  generalize (Yaxis (frame_rot f)). intros [x y z] [p q r].
  unfold horizontal, unit_vector; vec_unfold; scalar_unfold; simpl.
  intros -> Hu. nra.
Qed.

(** For a horizontal unit segment direction the lateral error is
    the signed distance of the sentinel from the line of the segment: its
    square and the square of the projection on the direction add up to
    the square of the horizontal distance from the segment start. *)
Theorem SR_error_pythagoras c (sentinel : ChVector R) (idx : nat) :
  unit_vector (nth idx (R_lu c) VNULL) ->
  horizontal (nth idx (R_lu c) VNULL) ->
  let Pt := Vsub sentinel (nth idx (S_l c) VNULL) in
  SR_error c sentinel idx * SR_error c sentinel idx +
  Vdot Pt (nth idx (R_lu c) VNULL) * Vdot Pt (nth idx (R_lu c) VNULL) =
  Length2 (Project Pt).
Proof.
  unfold SR_error. cbv zeta.
  generalize (Vsub sentinel (nth idx (S_l c) VNULL)) as Pt.
  generalize (nth idx (R_lu c) VNULL) as ru.
  intros [rx ry rz] [px py pz]. vec_unfold; scalar_unfold; simpl.
  intros Hu Hz. subst rz. nsatz.
Qed.

End Geometry.

(** ** Progress along an open path *)

Section Tracking.
Local Open Scope R_scope.
Implicit Types (c : ChPathSteeringControllerSR R) (vehicle : ChVehicle R).

(** The segment at which a step on an open path stops: the current one
    when it accepts the sentinel, the next one otherwise, whether that
    one accepts the sentinel or not. *)
Definition SR_open_index c (sentinel : ChVector R) : nat :=
  if SR_accepts c sentinel (m_idx_curr c) then m_idx_curr c
  else SR_next_index c (m_idx_curr c).

Lemma SR_next_index_open c (idx : nat) :
  m_isClosedPath c = false -> (idx < List.length (S_l c))%nat ->
  (idx <= SR_next_index c idx <= S idx)%nat.
Proof.
  intros Hopen Hi. unfold SR_next_index. rewrite Hopen.
  destruct (Nat.eqb_spec (S idx) (List.length (S_l c))); lia.
Qed.

(** What a step on an open path leaves in the controller. *)
Lemma SR_Advance_open_state (fuel : nat) c vehicle step :
  SR_inv c -> m_isClosedPath c = false ->
  let s := SR_sentinel c vehicle in
  let idx := SR_open_index c s in
  exists c' out,
    SR_Advance (S fuel) c vehicle step = Ok (c', out) /\
    m_idx_curr c' = idx /\ (idx < List.length (S_l c))%nat /\
    m_sentinel (sr_base c') = s /\
    m_target (sr_base c') = SR_target c s idx /\
    m_err (sr_base c') = SR_error c s idx.
Proof.
  intros Hinv Hopen s idx. pose proof Hinv as ((Hb & Hl & Hu & Hi) & _).
  pose proof (SR_scan_open c s (m_idx_curr c) fuel (proj1 Hinv) Hopen Hi) as Es.
  assert (Hidx : (idx < List.length (S_l c))%nat)
    by (unfold idx, SR_open_index; destruct (SR_accepts _ _ _);
        auto using SR_next_index_lt).
  destruct (SR_Advance_found (S fuel) c vehicle step idx (proj1 Hinv) Hidx Es)
    as (b & Eb & _ & E).
  destruct (log_row_ok
    (set_target (set_sentinel (sr_base c) s) (SR_target c s idx)) vehicle)
    as (b' & Eb' & _ & Hs & Ht & _); [apply wf_set_target, wf_set_sentinel, Hb |].
  fold s in Eb. rewrite Eb in Eb'. injection Eb' as <-.
  eexists _, _. split; [exact E |]. repeat split; try assumption.
Qed.

(** C24: On an open path the index never moves back and moves by one segment
    at most in a step, and it stays where it is when the current segment
    accepts the sentinel; the target is measured on the segment the
    index ends at, by the magnitude of the projection of the sentinel. *)
Theorem SR_open_tracking (fuel : nat) c vehicle step :
  SR_inv c -> m_isClosedPath c = false ->
  exists c' out,
    SR_Advance (S fuel) c vehicle step = Ok (c', out) /\
    (m_idx_curr c <= m_idx_curr c' <= S (m_idx_curr c))%nat /\
    (m_idx_curr c' < List.length (S_l c))%nat /\
    (SR_accepts c (SR_sentinel c vehicle) (m_idx_curr c) = true ->
     m_idx_curr c' = m_idx_curr c) /\
    m_target (sr_base c') =
      SR_target c (SR_sentinel c vehicle) (m_idx_curr c').
Proof.
  intros Hinv Hopen.
  destruct (SR_Advance_open_state fuel c vehicle step Hinv Hopen)
    as (c' & out & E & Ei & Hi & _ & Et & _).
  exists c', out. rewrite Ei. split; [exact E |].
  pose proof (SR_next_index_open c (m_idx_curr c) Hopen
                (proj2 (proj2 (proj2 (proj1 Hinv))))) as Hn.
  unfold SR_open_index in *.
  destruct (SR_accepts c (SR_sentinel c vehicle) (m_idx_curr c));
    repeat split; try assumption; try lia; discriminate.
Qed.

(** The step does not look further than the next segment: when neither
    the current segment nor the next one accepts the sentinel, the step
    returns at the next one with the projection still longer than the
    segment, so the target it stores lies beyond the end of the segment. *)
Theorem SR_open_lag (fuel : nat) c vehicle step :
  SR_inv c -> m_isClosedPath c = false ->
  let s := SR_sentinel c vehicle in
  let next := SR_next_index c (m_idx_curr c) in
  SR_accepts c s (m_idx_curr c) = false -> SR_accepts c s next = false ->
  exists c' out,
    SR_Advance (S fuel) c vehicle step = Ok (c', out) /\
    m_idx_curr c' = next /\
    m_target (sr_base c') = SR_target c s next /\
    Length (nth next (R_l c) VNULL) <
      Rabs (Vdot (Vsub s (nth next (S_l c) VNULL)) (nth next (R_lu c) VNULL)).
Proof.
  intros Hinv Hopen s next Hcur Hnext.
  destruct (SR_Advance_open_state fuel c vehicle step Hinv Hopen)
    as (c' & out & E & Ei & _ & _ & Et & _).
  fold s in Ei, Et. unfold SR_open_index in Ei, Et. rewrite Hcur in Ei, Et.
  exists c', out. repeat split; try assumption.
  unfold SR_accepts, SR_probe_at in Hnext. cbv zeta in Hnext.
  scalar_unfold. fold next in Hnext. apply negb_false_iff in Hnext.
  destruct (Rltb_spec (Length (nth next (R_l c) VNULL))
              (Rabs (Vdot (Vsub s (nth next (S_l c) VNULL))
                          (nth next (R_lu c) VNULL)))); [assumption | discriminate].
Qed.

(** The target is measured by the magnitude of the projection: for a
    sentinel behind the start of a segment (its projection [p] on the
    direction of the segment is negative) the target is the point at
    [- p] in front of the start, [2 |p|] away from the foot of the
    sentinel on the line of the segment. *)
Theorem SR_target_mirrored c (sentinel : ChVector R) (idx : nat) :
  let start := nth idx (S_l c) VNULL in
  let ru := nth idx (R_lu c) VNULL in
  let p := Vdot (Vsub sentinel start) ru in
  let foot := Vadd start (Vmul ru p) in
  unit_vector ru -> p < 0 ->
  SR_target c sentinel idx = Vadd start (Vmul ru (- p)) /\
  Vdot (Vsub (SR_target c sentinel idx) start) ru = - p /\
  Length (Vsub (SR_target c sentinel idx) foot) = 2 * - p.
Proof.
  intros start ru p foot Hu Hp.
  assert (Et : SR_target c sentinel idx = Vadd start (Vmul ru (- p)))
    by (unfold SR_target; fold start ru p; rewrite Rabs_left by assumption;
        reflexivity).
  rewrite Et. split; [reflexivity |]. unfold unit_vector in Hu. split.
  - rewrite Vadd_Vsub_cancel, Vdot_Vmul_l. fold (Length2 ru). rewrite Hu. ring.
  - apply Length_eq_of_sqr; [lra |].
    unfold foot. revert Hu. generalize p. intros q. destruct start, ru. vsolve.
Qed.

(** The index is part of what the scan returns. *)
Lemma SR_at_index c (sentinel : ChVector R) (idx : nat) :
  fst (fst (fst (SR_at c sentinel idx))) = idx.
Proof. unfold SR_at. destruct (SR_probe_at _ _ _) as [[? ?] ?]. reflexivity. Qed.

(** On an open path a scan that returns, whatever its fuel, stops at the
    index it started at or at the next one. *)
Lemma SR_scan_open_index c (sentinel : ChVector R) (fuel idx idx' : nat) :
  SR_wf c -> m_isClosedPath c = false -> (idx < List.length (S_l c))%nat ->
  SR_scan_from fuel c sentinel idx = Ok (SR_at c sentinel idx') ->
  (idx <= idx' <= S idx)%nat.
Proof.
  intros Hwf Hopen Hi E.
  pose proof (SR_next_index_open c idx Hopen Hi) as Hn.
  apply (f_equal (res_map (fun r => fst (fst (fst r))))) in E.
  destruct fuel as [| fuel];
    [destruct (SR_accepts c sentinel idx) eqn:Ea;
       [rewrite SR_scan_accept in E by assumption
       | rewrite SR_scan_out_of_fuel in E by assumption; discriminate]
    | rewrite SR_scan_open in E by assumption];
    cbn [res_map res_bind] in E; rewrite !SR_at_index in E; injection E as <-;
    try destruct (SR_accepts c sentinel idx); lia.
Qed.

(** No call moves the index of an open path back, turns the path into a
    closed one or changes its points; [Reset] leaves the index where it
    is. *)
Lemma SR_apply_open_progress c (o : SROp R) c' :
  SR_inv c -> m_isClosedPath c = false -> SR_apply c o = Ok c' ->
  m_isClosedPath c' = false /\ S_l c' = S_l c /\
  (m_idx_curr c <= m_idx_curr c' <= S (m_idx_curr c))%nat.
Proof.
  intros Hinv Hopen.
  destruct o as [v | fuel v step | Klat Kug | Tp | |]; cbn [SR_apply];
    try (intros E; injection E as <-; cbn; auto with arith).
  destruct (SR_Advance_cases fuel c v step Hinv)
    as [(c1 & idx & b & Hi & Hb & -> & Es & ->) | ->]; [| discriminate].
  intros E; injection E as <-. cbn [SR_after m_isClosedPath S_l m_idx_curr].
  repeat apply conj; try assumption; try reflexivity;
    eapply SR_scan_open_index; try eassumption; apply Hinv.
Qed.

(** C25: on an open path the segment index never goes back, whatever the
    program calls.  In every state reachable from a controller of the
    invariant by [Reset], [Advance] with any fuel, [SetGains],
    [SetPreviewTime] and the data collection calls, the path is still
    open, its points are those of the start, and the index is at least
    the index of the start and inside the vectors: [Reset] does not
    rewind it, so a segment the controller has left is never tracked
    again. *)
Theorem SR_open_never_returns c0 c :
  SR_inv c0 -> m_isClosedPath c0 = false -> SR_reachable c0 c ->
  SR_inv c /\ m_isClosedPath c = false /\ S_l c = S_l c0 /\
  (m_idx_curr c0 <= m_idx_curr c < List.length (S_l c0))%nat.
Proof.
  intros Hinv Hopen Hr. induction Hr as [| c o c' _ IH E].
  - refine (conj Hinv (conj Hopen (conj eq_refl (conj (le_n _) _)))).
    apply Hinv.
  - destruct IH as (Hc & Ho & Hs & Hi).
    pose proof (SR_apply_inv c o c' Hc E) as Hc'.
    destruct (SR_apply_open_progress c o c' Hc Ho E) as (Ho' & Hs' & Hi').
    refine (conj Hc' (conj Ho' (conj _ (conj _ _)))); [congruence | lia |].
    rewrite <- Hs, <- Hs'. apply Hc'.
Qed.

End Tracking.

(** ** Construction: the polygon of the path *)

Section ConstructionProperties.
Local Open Scope nat_scope.
Context {A : Type} `{Scalar A}.
Implicit Types (pts : list (ChVector A)).

(** C6: the constructor succeeds on every path with at least two points
    (one on a closed path), and the three vectors it fills are the points,
    the polygon of their consecutive differences closed by the last
    segment, and the normalized polygon; the controller starts at segment
    0 in a well-formed state. *)
Theorem SR_new_polygon (b : bool) pts (dmax L : A) :
  (Z.of_nat (List.length pts) < 2 ^ 64)%Z ->
  (if b then 1 else 2) <= List.length pts ->
  exists c,
    ChPathSteeringControllerSR_new (mkCurve pts) b dmax L = Ok c /\
    S_l c = pts /\ R_l c = polygon b pts /\
    R_lu c = map Normalize (polygon b pts) /\
    m_idx_curr c = 0 /\ SR_wf c.
Proof.
  intros Hmax Hlen.
  destruct (ChPathSteeringControllerSR_new (mkCurve pts) b dmax L)
    as [c | e] eqn:E.
  - destruct (SR_wf_new b pts dmax L c Hmax E) as (Hwf & _ & _ & _ & Hs & Hl & Hu).
    exists c. repeat split; try assumption; try apply Hwf.
    revert E. unfold ChPathSteeringControllerSR_new.
    rewrite SR_CalcPathPoints_ok by assumption.
    intros E; injection E as <-. reflexivity.
  - revert E. unfold ChPathSteeringControllerSR_new.
    rewrite SR_CalcPathPoints_ok by assumption. discriminate.
Qed.

(** C36: both constructors fault on a degenerate path.  For an empty
    path the loop bound [np - 1] wraps to [2^64 - 1] and the first
    iteration reads [S_l[1]]; for an open path of one point the last
    segment reads [S_l[np - 2]], again a wrapped index. *)
Theorem SR_new_degenerate (b : bool) pts (dmax L : A) raw (d : Document A) :
  List.length pts < (if b then 1 else 2) ->
  ChPathSteeringControllerSR_new (mkCurve pts) b dmax L = Err OutOfRange /\
  ChPathSteeringControllerSR_file raw d (mkCurve pts) b dmax L = Err OutOfRange.
Proof.
  intros Hd.
  unfold ChPathSteeringControllerSR_new, ChPathSteeringControllerSR_file.
  rewrite SR_CalcPathPoints_degenerate by assumption. split; reflexivity.
Qed.

End ConstructionProperties.

(** ** A two-point path along +X *)

Section Example.
Local Open Scope R_scope.

Definition sr_points : list (ChVector R) := [mkV 0 0 0; mkV 1 0 0].

(** The controller the constructor builds for the path from the origin
    to [(1, 0, 0)], with steering limit 1 and wheelbase 1. *)
Definition sr_line (closed : bool) : ChPathSteeringControllerSR R :=
  mkSR ChSteeringController_default (mkCurve sr_points) closed
    0 0 (lit 5 10) 1 0 1 2 0%nat
    sr_points (polygon closed sr_points)
    (map Normalize (polygon closed sr_points)).

Lemma sr_line_new (closed : bool) :
  ChPathSteeringControllerSR_new (mkCurve sr_points) closed 1 1 =
  Ok (sr_line closed).
Proof.
  unfold ChPathSteeringControllerSR_new.
  rewrite SR_CalcPathPoints_ok; [reflexivity | reflexivity |].
  destruct closed; simpl; lia.
Qed.

Lemma sr_line_inv (closed : bool) : SR_inv (sr_line closed).
Proof.
  repeat split; try apply wf_default; cbn; try lia; try lra.
  rewrite Rabs_R0. lra.
Qed.

(** The same controller on the open path, steering to the left by 0.1. *)
Definition sr_steering : ChPathSteeringControllerSR R :=
  mkSR ChSteeringController_default (mkCurve sr_points) false
    0 0 (5 / 10) 1 (1 / 10) 1 2 0%nat
    sr_points (polygon false sr_points)
    (map Normalize (polygon false sr_points)).

Lemma sr_steering_delta : m_delta sr_steering <> 0.
Proof. cbn. lra. Qed.

Lemma sr_steering_left : unit_vector (Yaxis (@Midentity R _)).
Proof. unfold unit_vector. vsolve. Qed.

Lemma sr_steering_forward :
  Xaxis (@Midentity R _) =
  mkV (vy (Yaxis (@Midentity R _))) (- vx (Yaxis (@Midentity R _))) 0.
Proof. vsolve. Qed.

Lemma sr_line_polygon (closed : bool) :
  polygon closed sr_points =
  [mkV 1 0 0; if closed then mkV (-1) 0 0 else mkV 1 0 0].
Proof. destruct closed; unfold polygon; cbn; repeat f_equal; vsolve. Qed.

Lemma Normalize_axis (s : R) :
  s * s = 1 -> Normalize (mkV s 0 0) = mkV s 0 0.
Proof. intros Hs. apply Normalize_of_unit. vsolve. Qed.

Lemma sr_line_directions (closed : bool) :
  map Normalize (polygon closed sr_points) =
  [mkV 1 0 0; if closed then mkV (-1) 0 0 else mkV 1 0 0].
Proof.
  rewrite sr_line_polygon. destruct closed; cbn [map];
    rewrite !Normalize_axis by lra; reflexivity.
Qed.

Lemma sr_line_sentinel (closed : bool) (vel : ChVector R) (time : R) :
  SR_sentinel (sr_line closed) (vehicle_at_origin vel 10 time) = mkV 5 0 0.
Proof.
  rewrite SR_sentinel_zero_delta by reflexivity.
  cbn. rewrite Rmax_left by lra. vsolve.
Qed.

Lemma sr_line_length (closed : bool) (idx : nat) :
  (idx < 2)%nat -> Length (nth idx (R_l (sr_line closed)) VNULL) = 1.
Proof.
  intros Hi. cbn [R_l sr_line]. rewrite sr_line_polygon.
  destruct idx as [| [|]], closed; try lia; cbn [nth];
    apply Length_eq_of_sqr; vsolve.
Qed.

(** Every segment of the path, closed or open, rejects a sentinel five
    units ahead. *)
Lemma sr_line_rejects (closed : bool) (idx : nat) :
  (idx < 2)%nat -> SR_accepts (sr_line closed) (mkV 5 0 0) idx = false.
Proof.
  intros Hi. unfold SR_accepts, SR_probe_at. cbv zeta.
  rewrite sr_line_length by assumption.
  cbn [R_lu S_l sr_line]. rewrite sr_line_directions.
  destruct closed, idx as [| [|]]; try lia; cbn [nth sr_points];
    vec_unfold; scalar_unfold; cbn [vx vy vz];
    rewrite Rltb_true; try reflexivity;
    unfold Rabs; destruct (Rcase_abs _); lra.
Qed.

(** A vehicle six units behind the start of the path, heading along it. *)
Definition vehicle_behind (speed time : R) : ChVehicle R :=
  mkVehicle (mkFrame (mkV (-6) 0 0) Midentity) (mkV (-6) 0 0) (mkV speed 0 0)
    speed time.

Lemma sr_line_sentinel_behind (time : R) :
  SR_sentinel (sr_line false) (vehicle_behind 10 time) = mkV (-1) 0 0.
Proof.
  rewrite SR_sentinel_zero_delta by reflexivity.
  cbn. rewrite Rmax_left by lra. vsolve.
Qed.

(** The first segment accepts a sentinel one unit behind its start. *)
Lemma sr_line_accepts_behind :
  SR_accepts (sr_line false) (mkV (-1) 0 0) 0 = true.
Proof.
  unfold SR_accepts, SR_probe_at. cbv zeta.
  rewrite sr_line_length by lia.
  cbn [R_lu S_l sr_line]. rewrite sr_line_directions.
  cbn [nth sr_points]. vec_unfold; scalar_unfold; cbn [vx vy vz].
  rewrite Rltb_false; [reflexivity |].
  unfold Rabs; destruct (Rcase_abs _); lra.
Qed.

(** A sentinel behind the path: the vehicle approaches the start of the
    open path from six units behind it, the sentinel is one unit short of
    the start, and the step stores as target the end of the first
    segment, one unit past the start. *)
Theorem SR_Advance_mirrors (fuel : nat) (time step : R) :
  exists c' out,
    SR_Advance (S fuel) (sr_line false) (vehicle_behind 10 time) step =
      Ok (c', out) /\
    m_idx_curr c' = 0%nat /\
    m_sentinel (sr_base c') = mkV (-1) 0 0 /\
    m_target (sr_base c') = mkV 1 0 0.
Proof.
  pose proof (SR_Advance_open_state fuel (sr_line false)
                (vehicle_behind 10 time) step (sr_line_inv false) eq_refl) as Hs.
  cbv zeta in Hs. rewrite sr_line_sentinel_behind in Hs.
  unfold SR_open_index in Hs.
  change (m_idx_curr (sr_line false)) with 0%nat in Hs.
  rewrite sr_line_accepts_behind in Hs.
  destruct Hs as (c' & out & E & Ei & _ & Es & Et & _).
  exists c', out. repeat split; try assumption.
  rewrite Et. unfold SR_target. cbn [m_idx_curr sr_line R_lu S_l].
  rewrite sr_line_directions. cbn [nth sr_points].
  replace (Rabs _) with 1; [vsolve |].
  vec_unfold; scalar_unfold; cbn [vx vy vz].
  unfold Rabs; destruct (Rcase_abs _); lra.
Qed.

(** C22: the scan of a closed path need not terminate.  The controller
    the constructor builds for the closed path through [(0,0,0)] and
    [(1,0,0)], on a vehicle at the origin heading along +X at speed 10,
    places the sentinel five units ahead; the projection exceeds the
    length of both segments, the index wraps around for ever, and the step
    does not return for any amount of fuel. *)
Theorem SR_closed_scan_diverges :
  exists c,
    ChPathSteeringControllerSR_new (mkCurve sr_points) true 1 1 = Ok c /\
    forall (fuel : nat) vel time step,
      SR_Advance fuel c (vehicle_at_origin vel 10 time) step = Err OutOfFuel.
Proof.
  exists (sr_line true). split; [apply sr_line_new |].
  intros fuel vel time step.
  rewrite SR_Advance_scan, sr_line_sentinel by apply sr_line_inv.
  rewrite (SR_scan_all_reject (sr_line true));
    auto using sr_line_rejects; apply sr_line_inv.
Qed.

End Example.

(** ** The theorems at the two-point path *)

Section Witnesses.
Local Open Scope R_scope.

Lemma SR_Advance_bounded_witness :
  match SR_Advance 1 (sr_line false) (vehicle_at_origin VNULL 10 0) 1 with
  | Ok (c', out) => -1 <= out <= 1 /\ SR_inv c' /\ out = m_delta c' / m_delta_max c'
  | Err e => e = OutOfFuel
  end.
Proof. exact (SR_Advance_bounded 1 _ _ 1 (sr_line_inv false)). Defined.

Lemma SR_open_tracking_witness :
  exists c' out,
    SR_Advance 1 (sr_line false) (vehicle_at_origin VNULL 10 0) 1 = Ok (c', out) /\
    (m_idx_curr (sr_line false) <= m_idx_curr c'
     <= S (m_idx_curr (sr_line false)))%nat /\
    (m_idx_curr c' < List.length (S_l (sr_line false)))%nat /\
    (SR_accepts (sr_line false)
       (SR_sentinel (sr_line false) (vehicle_at_origin VNULL 10 0))
       (m_idx_curr (sr_line false)) = true ->
     m_idx_curr c' = m_idx_curr (sr_line false)) /\
    m_target (sr_base c') =
      SR_target (sr_line false)
        (SR_sentinel (sr_line false) (vehicle_at_origin VNULL 10 0))
        (m_idx_curr c').
Proof.
  apply (SR_open_tracking 0 (sr_line false) (vehicle_at_origin VNULL 10 0) 1);
    [apply sr_line_inv | reflexivity].
Defined.

Lemma SR_open_lag_witness :
  exists c' out,
    SR_Advance 1 (sr_line false) (vehicle_at_origin VNULL 10 0) 1 = Ok (c', out) /\
    m_idx_curr c' = 1%nat /\
    m_target (sr_base c') =
      SR_target (sr_line false)
        (SR_sentinel (sr_line false) (vehicle_at_origin VNULL 10 0)) 1 /\
    Length (nth 1 (R_l (sr_line false)) VNULL) <
      Rabs (Vdot (Vsub (SR_sentinel (sr_line false) (vehicle_at_origin VNULL 10 0))
                       (nth 1 (S_l (sr_line false)) VNULL))
                 (nth 1 (R_lu (sr_line false)) VNULL)).
Proof.
  apply (SR_open_lag 0 (sr_line false) (vehicle_at_origin VNULL 10 0) 1);
    [apply sr_line_inv | reflexivity | |];
    rewrite sr_line_sentinel; apply sr_line_rejects; cbn; lia.
Defined.

Lemma SR_target_mirrored_witness :
  SR_target (sr_line false) (mkV (-1) 0 0) 0 = Vadd VNULL (Vmul (mkV 1 0 0) (- -1)).
Proof.
  pose proof (SR_target_mirrored (sr_line false) (mkV (-1) 0 0) 0) as Hm.
  cbv zeta in Hm. cbn [sr_line R_lu S_l] in Hm.
  rewrite sr_line_directions in Hm. cbn [nth sr_points] in Hm.
  replace (Vdot (Vsub (mkV (-1) 0 0) (mkV 0 0 0)) (mkV 1 0 0)) with (-1) in Hm
    by vsolve.
  apply Hm; [unfold unit_vector; vsolve | lra].
Defined.

Lemma SR_open_never_returns_witness :
  let c := SR_Reset (sr_line false) (vehicle_at_origin VNULL 10 0) in
  SR_inv c /\ m_isClosedPath c = false /\ S_l c = S_l (sr_line false) /\
  (m_idx_curr (sr_line false) <= m_idx_curr c < List.length (S_l (sr_line false)))%nat.
Proof.
  apply (SR_open_never_returns (sr_line false));
    [apply sr_line_inv | reflexivity |].
  apply SR_reach_step with (c := sr_line false)
    (o := SROpReset (vehicle_at_origin VNULL 10 0));
    [apply SR_reach_init | reflexivity].
Defined.

Lemma SR_reachable_inv_witness :
  SR_inv (SR_SetGains (sr_line true) 1 1) /\
  m_delta_max (SR_SetGains (sr_line true) 1 1) = m_delta_max (sr_line true).
Proof.
  apply (SR_reachable_inv (sr_line true)); [apply sr_line_inv |].
  apply SR_reach_step with (c := sr_line true) (o := SROpSetGains 1 1);
    [apply SR_reach_init | reflexivity].
Defined.

Lemma SR_Advance_open_total_witness :
  exists c' out,
    SR_Advance 1 (sr_line false) (vehicle_at_origin VNULL 10 0) 1 = Ok (c', out) /\
    m_idx_curr c' =
      (if SR_accepts (sr_line false)
            (SR_sentinel (sr_line false) (vehicle_at_origin VNULL 10 0)) 0
       then 0%nat else Nat.min 1 (2 - 1)).
Proof.
  exact (SR_Advance_open_total 0 (sr_line false) (vehicle_at_origin VNULL 10 0) 1
           (sr_line_inv false) eq_refl).
Defined.

Lemma SR_scan_terminates_iff_witness :
  (exists fuel r, SR_scan_from fuel (sr_line true) (mkV 5 0 0) 0 = Ok r) <->
  (exists k, SR_accepts (sr_line true) (mkV 5 0 0) (SR_walk (sr_line true) k 0) = true).
Proof.
  apply SR_scan_terminates_iff;
    [apply sr_line_inv | reflexivity | cbn; lia].
Defined.

Lemma SR_sentinel_straight_witness :
  let c := sr_line true in
  let vehicle := vehicle_at_origin VNULL 10 0 in
  let ahead d := Vadd VNULL (Vmul (Xaxis Midentity) d) in
  (m_umin c <= 10 -> SR_sentinel c vehicle = ahead (10 * m_Tp c)) /\
  (10 < m_umin c -> SR_sentinel c vehicle = ahead (m_umin c * m_Tp c)).
Proof.
  exact (SR_sentinel_straight (sr_line true) (vehicle_at_origin VNULL 10 0) eq_refl).
Defined.

Lemma SR_sentinel_arc_witness :
  let c := sr_steering in
  let R := (1 + CH_C_DEG_TO_RAD * 0 * 10 * 10 / (981 / 100)) / (1 / 10) in
  let theta := 10 * (5 / 10) / R in
  let factor := Rmax 10 2 * (5 / 10) in
  Length2 (Vsub (SR_sentinel c (vehicle_at_origin VNULL 10 0))
                (Vadd VNULL (Vmul (mkV 0 1 0) R))) =
  R * R + factor * (factor + 2 * R * sin theta).
Proof.
  exact (proj1 (proj2
    (SR_sentinel_arc sr_steering (vehicle_at_origin VNULL 10 0)
       sr_steering_delta eq_refl sr_steering_left sr_steering_forward))).
Defined.

Lemma SR_sentinel_jump_witness :
  5 / 6 * (1 * (5 / 10)) <=
  Vdot (Vsub (SR_sentinel sr_steering (vehicle_at_origin VNULL 1 0))
             (SR_sentinel (sr_line false) (vehicle_at_origin VNULL 1 0)))
       (mkV 1 0 0).
Proof.
  apply (SR_sentinel_jump sr_steering (sr_line false) (vehicle_at_origin VNULL 1 0)
           sr_steering_delta eq_refl eq_refl eq_refl eq_refl sr_steering_left
           sr_steering_forward);
    cbn [m_L m_Kug m_delta m_Tp sr_steering GetSpeed vehicle_at_origin];
    replace ((1 + CH_C_DEG_TO_RAD * 0 * 1 * 1 / (981 / 100)) / (1 / 10)) with 10
      by (field; lra).
  - lra.
  - rewrite Rabs_pos_eq; lra.
  - lra.
Defined.

Lemma SR_Reset_inert_witness :
  match SR_Advance 1 (SR_Reset (sr_line false) (vehicle_at_origin VNULL 0 0))
          (vehicle_at_origin VNULL 10 0) 1 with
  | Ok (c', out) => m_delta c' = 0 /\ out = 0 / 1
  | Err e => e = OutOfFuel
  end.
Proof. exact (SR_Reset_inert 1 (sr_line false) _ _ 1 (sr_line_inv false)). Defined.

Lemma SR_error_pythagoras_witness :
  let c := sr_line false in
  let Pt := Vsub (mkV 5 3 0) (nth 0 (S_l c) VNULL) in
  SR_error c (mkV 5 3 0) 0 * SR_error c (mkV 5 3 0) 0 +
  Vdot Pt (nth 0 (R_lu c) VNULL) * Vdot Pt (nth 0 (R_lu c) VNULL) =
  Length2 (Project Pt).
Proof.
  apply (SR_error_pythagoras (sr_line false) (mkV 5 3 0) 0).
  - apply Normalize_unit.
  - apply Normalize_horizontal. cbn. vsolve.
Defined.

Lemma SR_new_polygon_witness :
  exists c,
    ChPathSteeringControllerSR_new (mkCurve sr_points) true 1 1 = Ok c /\
    S_l c = sr_points /\ R_l c = polygon true sr_points /\
    R_lu c = map Normalize (polygon true sr_points) /\
    m_idx_curr c = 0%nat /\ SR_wf c.
Proof.
  apply (SR_new_polygon true sr_points 1 1); [reflexivity | cbn; lia].
Defined.

Lemma SR_new_degenerate_witness :
  ChPathSteeringControllerSR_new (mkCurve [mkV 0 0 0]) false 1 1 = Err OutOfRange /\
  ChPathSteeringControllerSR_file (sr_line false) JNull (mkCurve [mkV 0 0 0])
    false 1 1 = Err OutOfRange.
Proof.
  apply (SR_new_degenerate false [mkV 0 0 0] 1 1 (sr_line false) JNull).
  cbn; lia.
Defined.

End Witnesses.
