(* ===== verification/SteeringXT.v ===== *)
(** * SteeringXT: [ChPathSteeringControllerXT]

    The "XT" controller blends three channels: the lateral deviation
    (through a PDT1 controller), the heading error and the Ackermann angle
    (each through a PT1 lag), and clamps the sum according to the bend of
    the path.  The tracker and the two kinds of filter are the interfaces
    of [Interfaces]; the filters are configured by the first [Advance],
    which is the first call that knows the step size.

    The theorems hold for every tracker and every filter: the bound on
    the command comes from the final clamp alone. *)

From Stdlib Require Import Reals Lra Psatz ZArith Lia List Bool String.
From Stdlib Require PrimFloat.
From S2P Require Import Prelude ChMath ChVector Interfaces SteeringBase.
Import ListNotations.

Local Open Scope scalar_scope.

(** The data members of [ChPathSteeringControllerXT], after those of the
    base class.  [T] is the tracker, [F1] the PT1 filter, [F2] the PDT1
    filter.  The class declares a gain [m_Kp] of its own, which hides the
    one of the base class. *)
Record ChPathSteeringControllerXT (A T F1 F2 : Type) : Type := mkXT {
  xt_base : ChSteeringController A;
  m_path : ChBezierCurve A;
  m_tracker : T;
  m_R_threshold : A;
  m_max_wheel_turn_angle : A;
  m_ptangent : ChVector A;
  m_pnormal : ChVector A;
  m_pbinormal : ChVector A;
  m_pcurvature : A;
  m_filters_initialized : bool;
  m_HeadErrDelay : F1;
  m_AckermannAngleDelay : F1;
  m_PathErrCtl : F2;
  m_T1_delay : A;
  m_Kp : A;
  m_Wy : A;
  m_Wh : A;
  m_Wa : A;
  m_res : A;
  m_vel : ChVector A
}.
Arguments mkXT {A T F1 F2}.
Arguments xt_base {A T F1 F2} _.
Arguments m_path {A T F1 F2} _.
Arguments m_tracker {A T F1 F2} _.
Arguments m_R_threshold {A T F1 F2} _.
Arguments m_max_wheel_turn_angle {A T F1 F2} _.
Arguments m_ptangent {A T F1 F2} _.
Arguments m_pnormal {A T F1 F2} _.
Arguments m_pbinormal {A T F1 F2} _.
Arguments m_pcurvature {A T F1 F2} _.
Arguments m_filters_initialized {A T F1 F2} _.
Arguments m_HeadErrDelay {A T F1 F2} _.
Arguments m_AckermannAngleDelay {A T F1 F2} _.
Arguments m_PathErrCtl {A T F1 F2} _.
Arguments m_T1_delay {A T F1 F2} _.
Arguments m_Kp {A T F1 F2} _.
Arguments m_Wy {A T F1 F2} _.
Arguments m_Wh {A T F1 F2} _.
Arguments m_Wa {A T F1 F2} _.
Arguments m_res {A T F1 F2} _.
Arguments m_vel {A T F1 F2} _.

Section XT.
Context {A T F1 F2 : Type} `{Scalar A} `{Trig A}
  `{CurveTracker A T} `{FilterPT1 A F1} `{FilterPDT1 A F2}.
Implicit Types (c : ChPathSteeringControllerXT A T F1 F2) (vehicle : ChVehicle A).

(** ** Constructors *)

(** [ChPathSteeringControllerXT(path, isClosedPath, max_wheel_turn_angle)].
    The wheel angle is 25 degrees unless the argument is positive.  The
    curvature [m_pcurvature] is not initialised: it holds [raw] until the
    first [CalcTargetLocation] assigns it. *)
Definition ChPathSteeringControllerXT_new (raw : A) (path : ChBezierCurve A)
  (isClosedPath : bool) (max_wheel_turn_angle : A)
  : ChPathSteeringControllerXT A T F1 F2 :=
  mkXT ChSteeringController_default path (trk_new path isClosedPath)
    (lit 100000 1)
    (if max_wheel_turn_angle >? #0 then max_wheel_turn_angle
     else #25 * CH_C_DEG_TO_RAD)
    VNULL VNULL VNULL raw false pt1_default pt1_default pdt1_default
    (#30 / #1000) (lit 4 10) #1 #1 #1 #0 VNULL.

(** [ChPathSteeringControllerXT(filename, path, ...)]: the same members,
    then the gains, weights and look-ahead distance of the document unless
    it is null. *)
Definition ChPathSteeringControllerXT_file (raw : A) (d : Document A)
  (path : ChBezierCurve A) (isClosedPath : bool) (max_wheel_turn_angle : A)
  : res (ChPathSteeringControllerXT A T F1 F2) :=
  let c := ChPathSteeringControllerXT_new raw path isClosedPath
             max_wheel_turn_angle in
  if IsNull d then Ok c
  else
    (Kp <- GetDouble2 d "Gains" "Kp" ;;
     Wy <- GetDouble2 d "Gains" "Wy" ;;
     Wh <- GetDouble2 d "Gains" "Wh" ;;
     Wa <- GetDouble2 d "Gains" "Wa" ;;
     dist <- GetDouble1 d "Lookahead Distance" ;;
     Ok (mkXT (set_dist (xt_base c) dist) (m_path c) (m_tracker c)
           (m_R_threshold c) (m_max_wheel_turn_angle c)
           (m_ptangent c) (m_pnormal c) (m_pbinormal c) (m_pcurvature c)
           (m_filters_initialized c) (m_HeadErrDelay c)
           (m_AckermannAngleDelay c) (m_PathErrCtl c) (m_T1_delay c)
           Kp Wy Wh Wa (m_res c) (m_vel c)))%res.

(** ** CalcTargetLocation and Reset *)

(** [m_tracker->calcClosestPoint(m_sentinel, tnb, m_pcurvature)], then the
    target and the three axes of the curve frame. *)
Definition XT_CalcTargetLocation c : ChPathSteeringControllerXT A T F1 F2 :=
  let '(t, (tnb, curvature)) :=
    trk_calcClosestPointTNB (m_tracker c) (m_sentinel (xt_base c)) in
  mkXT (set_target (xt_base c) (frame_pos tnb)) (m_path c) t
    (m_R_threshold c) (m_max_wheel_turn_angle c)
    (Xaxis (frame_rot tnb)) (Yaxis (frame_rot tnb)) (Zaxis (frame_rot tnb))
    curvature
    (m_filters_initialized c) (m_HeadErrDelay c) (m_AckermannAngleDelay c)
    (m_PathErrCtl c) (m_T1_delay c) (m_Kp c) (m_Wy c) (m_Wh c) (m_Wa c)
    (m_res c) (m_vel c).

Definition XT_Reset c vehicle : ChPathSteeringControllerXT A T F1 F2 :=
  let b := Reset (xt_base c) vehicle in
  mkXT b (m_path c) (trk_reset (m_tracker c) (m_sentinel b))
    (m_R_threshold c) (m_max_wheel_turn_angle c)
    (m_ptangent c) (m_pnormal c) (m_pbinormal c) (m_pcurvature c)
    (m_filters_initialized c) (m_HeadErrDelay c) (m_AckermannAngleDelay c)
    (m_PathErrCtl c) (m_T1_delay c) (m_Kp c) (m_Wy c) (m_Wh c) (m_Wa c)
    (m_res c) (m_vel c).

(** ** The three channels *)

(** The first half of [CalcHeadingError(a, b)]: the member [m_vel] is
    projected and normalized in place, and the two vectors to compare are
    chosen by the test [speed < 1]: the chassis axis and the tangent for a
    standing vehicle, the velocity and the tangent otherwise.  The result
    is the new [m_vel] and the two vectors. *)
Definition XT_heading_vectors (vel a b : ChVector A)
  : ChVector A * ChVector A * ChVector A :=
  let vel := Normalize (Project vel) in
  let speed := Length vel in
  if speed <? #1
  then (vel, Normalize (Project a), Normalize (Project b))
  else (vel, vel, Normalize (Project b)).

(** [CalcHeadingError(a, b)]: the new [m_vel] and the angle.  The
    arguments are references to locals of [Advance] that are not read
    again. *)
Definition XT_CalcHeadingError (vel a b : ChVector A) : ChVector A * A :=
  let '(vel, a, b) := XT_heading_vectors vel a b in
  let ab := Vsub a b in
  let ltest := Length ab in
  let vpc := if ltest <? #1 then Vcross a b else Vcross a (Vneg b) in
  (vel, sc_asin (Height vpc)).

(** [CalcCurvatureCode(a, b)]: 0 on a straight line, 1 in a left bend,
    -1 in a right bend. *)
Definition XT_CalcCurvatureCode (pcurvature R_threshold : A)
  (a b : ChVector A) : Z :=
  let a := Normalize (Project a) in
  let b := Normalize (Project b) in
  let ab := Vsub a b in
  let ltest := Length ab in
  if pcurvature <=? #1 / R_threshold then 0%Z
  else if ltest <? #1 then 1%Z
  else (-1)%Z.

(** [CalcAckermannAngle()]. *)
Definition XT_CalcAckermannAngle c : A :=
  sc_sin (m_res c * m_max_wheel_turn_angle c).

(** The lateral error, computed as in the base class. *)
Definition XT_lateral_error (sentinel target pos : ChVector A) : A :=
  let err_vec := Project (Vsub target sentinel) in
  let sentinel_vec := Project (Vsub sentinel pos) in
  let target_vec := Project (Vsub target pos) in
  let temp := Vdot (Vcross sentinel_vec target_vec) Vertical in
  #(ChSignum temp) * Length err_vec.

(** The counter-steer constraint: [switch (crvcode)]. *)
Definition XT_constrain (crvcode : Z) (res : A) : A :=
  if (crvcode =? 1)%Z then ChClamp res #0 #1
  else if (crvcode =? -1)%Z then ChClamp res (- #1) #0
  else ChClamp res (- #1) #1.

(** ** Advance *)

(** The filters as [Advance] uses them: configured on the first call. *)
Definition XT_filters c (step : A) : F1 * F1 * F2 :=
  if m_filters_initialized c
  then (m_HeadErrDelay c, m_AckermannAngleDelay c, m_PathErrCtl c)
  else (pt1_config step (m_T1_delay c), pt1_config step (m_T1_delay c),
        pdt1_config step (lit 3 10) (lit 15 100) (m_Kp c)).

(** [ChPathSteeringControllerXT::Advance(vehicle, step)]. *)
Definition XT_Advance c vehicle (step : A)
  : res (ChPathSteeringControllerXT A T F1 F2 * A) :=
  let chassis_rot := frame_rot (GetFrame_REF_to_abs vehicle) in
  let sentinel := sentinel_location vehicle (m_dist (xt_base c)) in
  let vel := GetPointVelocity vehicle in
  let '(head, ack, ctl) := XT_filters c step in
  let c1 := XT_CalcTargetLocation
    (mkXT (set_sentinel (xt_base c) sentinel) (m_path c) (m_tracker c)
       (m_R_threshold c) (m_max_wheel_turn_angle c)
       (m_ptangent c) (m_pnormal c) (m_pbinormal c) (m_pcurvature c)
       true head ack ctl (m_T1_delay c) (m_Kp c) (m_Wy c) (m_Wh c) (m_Wa c)
       (m_res c) vel) in
  (b <- log_row (xt_base c1) vehicle ;;
   let y_err := XT_lateral_error (m_sentinel b) (m_target b) (GetPos vehicle) in
   let '(ctl, y_err_out) := pdt1_filter ctl y_err in
   let '(vel, h_err) :=
     XT_CalcHeadingError vel (Xaxis chassis_rot) (m_ptangent c1) in
   let '(head, h_err_out) := pt1_filter head h_err in
   let a_err := XT_CalcAckermannAngle c1 in
   let '(ack, a_err_out) := pt1_filter ack a_err in
   let res := m_Wy c1 * y_err_out + m_Wh c1 * h_err_out + m_Wa c1 * a_err_out in
   let crvcode := XT_CalcCurvatureCode (m_pcurvature c1) (m_R_threshold c1)
                    (Yaxis chassis_rot) (m_pnormal c1) in
   let out := XT_constrain crvcode res in
   Ok (mkXT b (m_path c1) (m_tracker c1) (m_R_threshold c1)
         (m_max_wheel_turn_angle c1) (m_ptangent c1) (m_pnormal c1)
         (m_pbinormal c1) (m_pcurvature c1) true head ack ctl
         (m_T1_delay c1) (m_Kp c1) (m_Wy c1) (m_Wh c1) (m_Wa c1) out vel,
       out))%res.

End XT.

(** ** Specification of a step *)

Section Spec.
Context {A T F1 F2 : Type} `{Scalar A} `{Trig A}
  `{CurveTracker A T} `{FilterPT1 A F1} `{FilterPDT1 A F2}.
Implicit Types (c : ChPathSteeringControllerXT A T F1 F2) (vehicle : ChVehicle A).

(** The answer of the tracker in a step: the curve frame and the
    curvature at the point closest to the sentinel. *)
Definition XT_tnb c vehicle : ChFrame A * A :=
  snd (trk_calcClosestPointTNB (m_tracker c)
         (sentinel_location vehicle (m_dist (xt_base c)))).

(** The curvature code of a step. *)
Definition XT_crvcode c vehicle : Z :=
  XT_CalcCurvatureCode (snd (XT_tnb c vehicle)) (m_R_threshold c)
    (Yaxis (frame_rot (GetFrame_REF_to_abs vehicle)))
    (Yaxis (frame_rot (fst (XT_tnb c vehicle)))).

(** A member function of the base class called on the derived object. *)
Definition XT_on_base c (f : ChSteeringController A -> ChSteeringController A)
  : ChPathSteeringControllerXT A T F1 F2 :=
  mkXT (f (xt_base c)) (m_path c) (m_tracker c) (m_R_threshold c)
    (m_max_wheel_turn_angle c) (m_ptangent c) (m_pnormal c) (m_pbinormal c)
    (m_pcurvature c) (m_filters_initialized c) (m_HeadErrDelay c)
    (m_AckermannAngleDelay c) (m_PathErrCtl c) (m_T1_delay c) (m_Kp c)
    (m_Wy c) (m_Wh c) (m_Wa c) (m_res c) (m_vel c).

(** The calls a program makes on a controller. *)
Inductive XTOp : Type :=
| XTOpReset (vehicle : ChVehicle A)
| XTOpAdvance (vehicle : ChVehicle A) (step : A)
| XTOpSetLookAheadDistance (dist : A)
| XTOpStartDataCollection
| XTOpStopDataCollection.

Definition XT_apply c (o : XTOp) : res (ChPathSteeringControllerXT A T F1 F2) :=
  match o with
  | XTOpReset vehicle => Ok (XT_Reset c vehicle)
  | XTOpAdvance vehicle step => res_map fst (XT_Advance c vehicle step)
  | XTOpSetLookAheadDistance dist =>
      Ok (XT_on_base c (fun b => SetLookAheadDistance b dist))
  | XTOpStartDataCollection => Ok (XT_on_base c StartDataCollection)
  | XTOpStopDataCollection => Ok (XT_on_base c StopDataCollection)
  end.

(** The states a program can bring a controller to, from either
    constructor. *)
Inductive XT_reachable : ChPathSteeringControllerXT A T F1 F2 -> Prop :=
| XT_reach_new raw path isClosedPath max_wheel_turn_angle :
    XT_reachable
      (ChPathSteeringControllerXT_new raw path isClosedPath max_wheel_turn_angle)
| XT_reach_file raw d path isClosedPath max_wheel_turn_angle c :
    ChPathSteeringControllerXT_file raw d path isClosedPath
      max_wheel_turn_angle = Ok c ->
    XT_reachable c
| XT_reach_step c o c' :
    XT_reachable c -> XT_apply c o = Ok c' -> XT_reachable c'.

(** A step that returns has appended one row to the log while
    collection is on, and none otherwise: the time of the snapshot, then
    the target and the sentinel it leaves in the controller. *)
Lemma XT_Advance_logged c vehicle step c' out :
  XT_Advance c vehicle step = Ok (c', out) ->
  m_collect (xt_base c') = m_collect (xt_base c) /\
  logged (xt_base c') =
    logged (xt_base c) ++
    (if m_collect (xt_base c)
     then [mkRow (GetChTime vehicle) (m_target (xt_base c'))
             (m_sentinel (xt_base c'))]
     else []).
Proof.
  unfold XT_Advance, XT_CalcTargetLocation. cbv zeta.
  destruct (XT_filters c step) as [[head ack] ctl]. cbn [xt_base m_tracker].
  destruct (trk_calcClosestPointTNB _ _) as [t [tnb curvature]].
  cbn [xt_base]. destruct (log_row _ vehicle) as [b |] eqn:Eb; [| discriminate].
  cbn [res_bind]. destruct (pdt1_filter ctl _) as [ctl' y].
  destruct (XT_CalcHeadingError _ _ _) as [vel h].
  destruct (pt1_filter head h) as [head' ho]. destruct (pt1_filter ack _) as [ack' ao].
  intros E; injection E as <- _. exact (log_row_logged _ _ _ Eb).
Qed.

End Spec.

Arguments XTOp A : clear implicits.

(** ** The clamp and the two geometric tests *)

Section Channels.
Local Open Scope R_scope.

Lemma XT_constrain_bounds (crvcode : Z) (res : R) :
  -1 <= XT_constrain crvcode res <= 1.
Proof.
  unfold XT_constrain. scalar_unfold.
  destruct (crvcode =? 1)%Z; [| destruct (crvcode =? -1)%Z].
  - destruct (ChClamp_bounds res 0 1 ltac:(lra)); split; lra.
  - destruct (ChClamp_bounds res (- (1)) 0 ltac:(lra)); split; lra.
  - auto with chrono.
Qed.

Lemma XT_constrain_left (res : R) : 0 <= XT_constrain 1 res <= 1.
Proof. unfold XT_constrain. scalar_unfold. cbn [Z.eqb Pos.eqb]. auto with chrono. Qed.

Lemma XT_constrain_right (res : R) : -1 <= XT_constrain (-1) res <= 0.
Proof. unfold XT_constrain. scalar_unfold. cbn [Z.eqb Pos.eqb]. auto with chrono. Qed.

(** The distance test on two normalized vectors is a test on their dot
    product: below 1 exactly when the angle between them is below 60
    degrees. *)
Lemma normalized_distance_test (a b : ChVector R) :
  Rltb (Length (Vsub (Normalize a) (Normalize b))) 1 =
  Rltb (1 / 2) (Vdot (Normalize a) (Normalize b)).
Proof.
  pose proof (unit_distance_test _ _ (Normalize_unit a) (Normalize_unit b)) as E.
  destruct E as [E1 E2].
  rcase; try reflexivity; exfalso;
    [pose proof (E1 ltac:(assumption)) | pose proof (E2 ltac:(assumption))]; lra.
Qed.

(** On the real numbers the vectors compared are always the velocity
    and the tangent. *)
Lemma XT_heading_vectors_eq (vel a b : ChVector R) :
  XT_heading_vectors vel a b =
  (Normalize (Project vel), Normalize (Project vel), Normalize (Project b)).
Proof.
  unfold XT_heading_vectors. cbv zeta. scalar_unfold.
  rewrite Normalize_Length, Rltb_false by lra. reflexivity.
Qed.

(** The speed test of [CalcHeadingError] reads the length of a vector
    that was just normalized, which is 1: the branch for a standing
    vehicle is never taken, and the chassis axis [a] is never used. *)
Lemma XT_CalcHeadingError_eq (vel a b : ChVector R) :
  XT_CalcHeadingError vel a b =
  let va := Normalize (Project vel) in
  let pb := Normalize (Project b) in
  (va, asin (Height (Vcross va
                       (if Rltb (1 / 2) (Vdot va pb) then pb else Vneg pb)))).
Proof.
  unfold XT_CalcHeadingError. rewrite XT_heading_vectors_eq. cbv zeta.
  scalar_unfold. rewrite normalized_distance_test.
  destruct (Rltb (1 / 2) _); reflexivity.
Qed.

Lemma XT_CalcCurvatureCode_eq (k Rth : R) (a b : ChVector R) :
  XT_CalcCurvatureCode k Rth a b =
  if Rleb k (1 / Rth) then 0%Z
  else if Rltb (1 / 2) (Vdot (Normalize (Project a)) (Normalize (Project b)))
       then 1%Z else (-1)%Z.
Proof.
  unfold XT_CalcCurvatureCode. cbv zeta. scalar_unfold.
  rewrite normalized_distance_test. reflexivity.
Qed.

End Channels.

(** ** The step on the real numbers *)

Section Step.
Local Open Scope R_scope.
Context {T F1 F2 : Type} `{CurveTracker R T} `{FilterPT1 R F1} `{FilterPDT1 R F2}.
Implicit Types (c : ChPathSteeringControllerXT R T F1 F2) (vehicle : ChVehicle R).

(** The invariant of the controller: a well-formed log, a command within
    [[-1, 1]], a positive wheel angle and a positive threshold radius. *)
Definition XT_inv c : Prop :=
  wf (xt_base c) /\ -1 <= m_res c <= 1 /\
  0 < m_max_wheel_turn_angle c /\ 0 < m_R_threshold c.

(** A step on a well-formed log returns: the command is the blended
    signal [res] constrained by the curvature code of the step. *)
Lemma XT_Advance_ok c vehicle step :
  wf (xt_base c) ->
  exists c' res,
    XT_Advance c vehicle step = Ok (c', XT_constrain (XT_crvcode c vehicle) res) /\
    m_res c' = XT_constrain (XT_crvcode c vehicle) res /\
    wf (xt_base c') /\ m_filters_initialized c' = true /\
    m_max_wheel_turn_angle c' = m_max_wheel_turn_angle c /\
    m_R_threshold c' = m_R_threshold c /\
    m_dist (xt_base c') = m_dist (xt_base c) /\
    m_sentinel (xt_base c') = sentinel_location vehicle (m_dist (xt_base c)) /\
    m_target (xt_base c') = frame_pos (fst (XT_tnb c vehicle)).
Proof.
  intros Hwf. unfold XT_Advance, XT_crvcode, XT_tnb, XT_CalcTargetLocation.
  cbv zeta. destruct (XT_filters c step) as [[head ack] ctl].
  cbn [xt_base m_tracker m_sentinel set_sentinel].
  destruct (trk_calcClosestPointTNB (m_tracker c)
              (sentinel_location vehicle (m_dist (xt_base c))))
    as [t [tnb curvature]].
  cbn [xt_base m_ptangent m_pnormal m_pcurvature m_R_threshold m_Wy m_Wh m_Wa
       m_path m_tracker m_max_wheel_turn_angle m_pbinormal m_T1_delay m_Kp
       fst snd].
  destruct (log_row_ok
    (set_target (set_sentinel (xt_base c)
       (sentinel_location vehicle (m_dist (xt_base c)))) (frame_pos tnb)) vehicle)
    as (b & Eb & Hb & Hs & Ht & _ & _ & _ & _ & _ & _ & Hd & _);
    [apply wf_set_target, wf_set_sentinel, Hwf |].
  rewrite Eb. cbn [res_bind].
  destruct (pdt1_filter ctl _) as [ctl' y]. destruct (XT_CalcHeadingError _ _ _) as [vel h].
  destruct (pt1_filter head h) as [head' ho]. destruct (pt1_filter ack _) as [ack' ao].
  eexists _, _. split; [reflexivity |].
  cbn [m_res xt_base m_filters_initialized m_max_wheel_turn_angle m_R_threshold].
  rewrite Hs, Ht, Hd. auto 10.
Qed.

End Step.

(** ** Properties of the step *)

Section Properties.
Local Open Scope R_scope.
Context {T F1 F2 : Type} `{CurveTracker R T} `{FilterPT1 R F1} `{FilterPDT1 R F2}.
Implicit Types (c : ChPathSteeringControllerXT R T F1 F2) (vehicle : ChVehicle R).

(** C3: the command of the XT controller is bounded, whatever the
    tracker and the filters answer: on a well-formed log a step returns,
    its command lies in [[-1, 1]] and is the value kept in [m_res], and
    the counter-steer constraint holds: in a left bend (curvature code 1)
    the command is not negative, in a right bend (code -1) not
    positive. *)
Theorem XT_Advance_bounded c vehicle step :
  wf (xt_base c) ->
  exists c' out,
    XT_Advance c vehicle step = Ok (c', out) /\
    -1 <= out <= 1 /\ m_res c' = out /\ wf (xt_base c') /\
    (XT_crvcode c vehicle = 1%Z -> 0 <= out) /\
    (XT_crvcode c vehicle = (-1)%Z -> out <= 0).
Proof.
  intros Hwf.
  destruct (XT_Advance_ok c vehicle step Hwf) as (c' & res & E & Hr & Hw & _).
  exists c', (XT_constrain (XT_crvcode c vehicle) res).
  repeat split; try assumption; try apply XT_constrain_bounds.
  - intros ->. apply XT_constrain_left.
  - intros ->. apply XT_constrain_right.
Qed.

(** The filters are configured by the first step only.  Once
    [m_filters_initialized] is set the step size plays no part in
    [Advance]: a step with any other step size returns the same command
    and the same state, so the time constants of the filters stay those of
    the first step size. *)
Theorem XT_step_size_ignored c vehicle step step' :
  m_filters_initialized c = true ->
  XT_Advance c vehicle step = XT_Advance c vehicle step'.
Proof.
  intros Hi. unfold XT_Advance, XT_filters. rewrite Hi. reflexivity.
Qed.

End Properties.

Section ChannelProperties.
Local Open Scope R_scope.

(** C34: The curvature code.  With a positive threshold radius a
    curvature of at most [1 / R_threshold] (a straight path in
    particular) gives 0 for every pair of directions; a larger curvature
    gives 1 when the vehicle's left direction and the direction to the
    centre of the curve, both horizontal unit vectors, are less than 60
    degrees apart (dot product above 1/2), and -1 otherwise. *)
Theorem XT_CalcCurvatureCode_spec (k Rth : R) (a b : ChVector R) :
  unit_vector a -> horizontal a -> unit_vector b -> horizontal b ->
  (k <= 1 / Rth -> XT_CalcCurvatureCode k Rth a b = 0%Z) /\
  (1 / Rth < k -> 1 / 2 < Vdot a b -> XT_CalcCurvatureCode k Rth a b = 1%Z) /\
  (1 / Rth < k -> Vdot a b <= 1 / 2 -> XT_CalcCurvatureCode k Rth a b = (-1)%Z).
Proof.
  intros Ha Hha Hb Hhb. rewrite XT_CalcCurvatureCode_eq.
  rewrite !Project_of_horizontal, !Normalize_of_unit by assumption.
  repeat split; intros; rcase; try reflexivity; lra.
Qed.


(** C32: the test [speed < 1] of [CalcHeadingError] is decided by
    rounding.  It reads the length of the velocity after normalization,
    which is exactly 1 on the real numbers, so there the vectors compared
    are always the velocity and the tangent, never the chassis axis.  In
    binary64 the length of a normalized vector is 1 or the double just
    below it: for the velocity (1, 1, 0) the test succeeds and the chassis
    axis is compared, for (2, 3, 0) it fails and the velocity is. *)
Theorem XT_speed_test_rounding :
  (forall vel a b : ChVector R,
     snd (fst (XT_heading_vectors vel a b)) = Normalize (Project vel)) /\
  (let chassis : ChVector PrimFloat.float := mkV #0 #1 #0 in
   let tangent := mkV #1 #0 #0 in
   snd (fst (XT_heading_vectors (mkV #1 #1 #0) chassis tangent)) = chassis /\
   snd (fst (XT_heading_vectors (mkV #2 #3 #0) chassis tangent)) =
     fst (fst (XT_heading_vectors (mkV #2 #3 #0) chassis tangent)))%S.
Proof.
  split; [intros vel a b; rewrite XT_heading_vectors_eq; reflexivity |].
  vm_compute. split; reflexivity.
Qed.

End ChannelProperties.

(** ** The invariant *)

Section Invariant.
Local Open Scope R_scope.
Context {T F1 F2 : Type} `{CurveTracker R T} `{FilterPT1 R F1} `{FilterPDT1 R F2}.
Implicit Types (c : ChPathSteeringControllerXT R T F1 F2) (vehicle : ChVehicle R).

Lemma XT_inv_new raw path isClosedPath max_wheel_turn_angle :
  XT_inv (ChPathSteeringControllerXT_new raw path isClosedPath max_wheel_turn_angle
            : ChPathSteeringControllerXT R T F1 F2).
Proof.
  unfold XT_inv, ChPathSteeringControllerXT_new; cbn [xt_base m_res
    m_max_wheel_turn_angle m_R_threshold].
  pose proof PI_RGT_0. math_unfold. scalar_unfold.
  repeat split; try apply wf_default; rcase; lra.
Qed.

Lemma XT_inv_file raw d path isClosedPath max_wheel_turn_angle c :
  ChPathSteeringControllerXT_file raw d path isClosedPath max_wheel_turn_angle
    = Ok c -> XT_inv c.
Proof.
  pose proof (XT_inv_new raw path isClosedPath max_wheel_turn_angle)
    as (Hw & Hr & Hm & Ht).
  unfold ChPathSteeringControllerXT_file. cbv zeta. destruct (IsNull d).
  - intros E; injection E as <-. exact (conj Hw (conj Hr (conj Hm Ht))).
  - intros E.
    repeat (apply res_bind_ok in E; destruct E as (? & _ & E)).
    injection E as <-. exact (conj Hw (conj Hr (conj Hm Ht))).
Qed.

Lemma XT_inv_on_base c f :
  (wf (xt_base c) -> wf (f (xt_base c))) -> XT_inv c -> XT_inv (XT_on_base c f).
Proof. intros Hf (Hw & Hr & Hm & Ht). exact (conj (Hf Hw) (conj Hr (conj Hm Ht))). Qed.

Lemma XT_apply_inv c (o : XTOp R) c' :
  XT_inv c -> XT_apply c o = Ok c' -> XT_inv c'.
Proof.
  intros (Hw & Hr & Hm & Ht).
  destruct o as [v | v step | dist | |]; cbn [XT_apply];
    try (intros E; injection E as <-).
  - exact (conj (wf_Reset _ v Hw) (conj Hr (conj Hm Ht))).
  - destruct (XT_Advance_ok c v step Hw)
      as (c1 & res & -> & Er & Hw1 & _ & Em & Eth & _).
    intros E; injection E as <-. unfold XT_inv. rewrite Er, Em, Eth.
    auto using XT_constrain_bounds.
  - apply XT_inv_on_base; [apply wf_SetLookAheadDistance | unfold XT_inv; auto].
  - apply XT_inv_on_base; [apply wf_StartDataCollection | unfold XT_inv; auto].
  - apply XT_inv_on_base; [intros _; apply wf_StopDataCollection | unfold XT_inv; auto].
Qed.

(** The invariant of the XT controller holds in every state a
    program can reach from either constructor: the log is well formed, the
    command kept in [m_res] lies in [[-1, 1]], the wheel angle is positive
    (the argument of the constructor if it is positive, 25 degrees
    otherwise) and the threshold radius is positive.  So no step of a
    reachable controller faults. *)
Theorem XT_reachable_inv c vehicle step :
  XT_reachable c ->
  XT_inv c /\ exists c' out, XT_Advance c vehicle step = Ok (c', out).
Proof.
  intros Hr.
  assert (Hinv : XT_inv c).
  { induction Hr as [| raw d path b m c E | c o c' _ IH Ho].
    - apply XT_inv_new.
    - eapply XT_inv_file, E.
    - eapply XT_apply_inv; eassumption. }
  split; [exact Hinv |].
  destruct (XT_Advance_ok c vehicle step (proj1 Hinv)) as (c' & res & E & _).
  eauto.
Qed.

End Invariant.

(** ** The theorems on a straight path *)

Section Witnesses.
Local Open Scope R_scope.

(** The controller for the path along +X, with the straight-line tracker
    and the lag filters of [Interfaces]. *)
Definition xt_line : ChPathSteeringControllerXT R (LineTracker R) (PT1 R) (PDT1 R) :=
  ChPathSteeringControllerXT_new 0 (mkCurve [mkV 0 0 0; mkV 1 0 0]) false 0.

Lemma XT_Advance_bounded_witness :
  exists c' out,
    XT_Advance xt_line (vehicle_at_origin VNULL 10 0) 1 = Ok (c', out) /\
    -1 <= out <= 1 /\ m_res c' = out /\ wf (xt_base c') /\
    (XT_crvcode xt_line (vehicle_at_origin VNULL 10 0) = 1%Z -> 0 <= out) /\
    (XT_crvcode xt_line (vehicle_at_origin VNULL 10 0) = (-1)%Z -> out <= 0).
Proof.
  apply (XT_Advance_bounded xt_line (vehicle_at_origin VNULL 10 0) 1).
  apply wf_default.
Defined.

Lemma XT_step_size_ignored_witness :
  let c := XT_on_base xt_line (fun b => b) in
  let c1 := mkXT (xt_base c) (m_path c) (m_tracker c) (m_R_threshold c)
              (m_max_wheel_turn_angle c) (m_ptangent c) (m_pnormal c)
              (m_pbinormal c) (m_pcurvature c) true (m_HeadErrDelay c)
              (m_AckermannAngleDelay c) (m_PathErrCtl c) (m_T1_delay c)
              (m_Kp c) (m_Wy c) (m_Wh c) (m_Wa c) (m_res c) (m_vel c) in
  XT_Advance c1 (vehicle_at_origin VNULL 10 0) 1 =
  XT_Advance c1 (vehicle_at_origin VNULL 10 0) 2.
Proof.
  intros c c1.
  exact (XT_step_size_ignored c1 (vehicle_at_origin VNULL 10 0) 1 2 eq_refl).
Defined.

Lemma XT_CalcCurvatureCode_spec_witness :
  (0 <= 1 / 100000 -> XT_CalcCurvatureCode 0 100000 (mkV 0 1 0) (mkV 0 1 0) = 0%Z) /\
  (1 / 100000 < 0 -> 1 / 2 < Vdot (mkV 0 1 0) (mkV 0 1 0) ->
   XT_CalcCurvatureCode 0 100000 (mkV 0 1 0) (mkV 0 1 0) = 1%Z) /\
  (1 / 100000 < 0 -> Vdot (mkV 0 1 0) (mkV 0 1 0) <= 1 / 2 ->
   XT_CalcCurvatureCode 0 100000 (mkV 0 1 0) (mkV 0 1 0) = (-1)%Z).
Proof.
  apply (XT_CalcCurvatureCode_spec 0 100000 (mkV 0 1 0) (mkV 0 1 0));
    vsolve.
Defined.

Lemma XT_reachable_inv_witness :
  XT_inv xt_line /\
  exists c' out, XT_Advance xt_line (vehicle_at_origin VNULL 10 0) 1 = Ok (c', out).
Proof.
  apply (XT_reachable_inv xt_line (vehicle_at_origin VNULL 10 0) 1).
  apply XT_reach_new.
Defined.

End Witnesses.
