(* ===== verification/SteeringStanley.v ===== *)
(** * SteeringStanley: [ChPathSteeringControllerStanley]

    The Stanley controller adds the heading error to the arctangent of the
    lateral error scaled by the speed, with a dead zone on the lateral
    error, an integral term that a countdown is meant to reset, and a
    first-order lag on the clamped command that stands for the reaction
    time of the driver.  The lag is allocated by the first [Advance]; until
    then [m_delayFilter] is null, an [option] here. *)

From Stdlib Require Import Reals Lra Psatz ZArith Lia List Bool String.
From Stdlib Require PrimFloat.
From S2P Require Import Prelude ChMath ChVector Interfaces SteeringBase.
Import ListNotations.

Local Open Scope scalar_scope.

(** The data members of [ChPathSteeringControllerStanley], after those of
    the base class.  [T] is the tracker and [F] the PT1 filter. *)
Record ChPathSteeringControllerStanley (A T F : Type) : Type := mkStanley {
  st_base : ChSteeringController A;
  m_delayFilter : option F;
  m_path : ChBezierCurve A;
  m_isClosedPath : bool;
  m_tracker : T;
  m_delta : A;
  m_delta_max : A;
  m_umin : A;
  m_Treset : A;
  m_deadZone : A;
  m_Tdelay : A;
  m_ptangent : ChVector A;
  m_pcurvature : A
}.
Arguments mkStanley {A T F}.
Arguments st_base {A T F} _.
Arguments m_delayFilter {A T F} _.
Arguments m_path {A T F} _.
Arguments m_isClosedPath {A T F} _.
Arguments m_tracker {A T F} _.
Arguments m_delta {A T F} _.
Arguments m_delta_max {A T F} _.
Arguments m_umin {A T F} _.
Arguments m_Treset {A T F} _.
Arguments m_deadZone {A T F} _.
Arguments m_Tdelay {A T F} _.
Arguments m_ptangent {A T F} _.
Arguments m_pcurvature {A T F} _.

Section Stanley.
Context {A T F : Type} `{Scalar A} `{CurveTracker A T} `{FilterPT1 A F}.
Implicit Types (c : ChPathSteeringControllerStanley A T F) (vehicle : ChVehicle A).

(** A member function of the base class, or an assignment to its
    members, on the derived object. *)
Definition Stanley_on_base c (f : ChSteeringController A -> ChSteeringController A)
  : ChPathSteeringControllerStanley A T F :=
  mkStanley (f (st_base c)) (m_delayFilter c) (m_path c) (m_isClosedPath c)
    (m_tracker c) (m_delta c) (m_delta_max c) (m_umin c) (m_Treset c)
    (m_deadZone c) (m_Tdelay c) (m_ptangent c) (m_pcurvature c).

(** ** SetGains and the constructors *)

(** [SetGains(Kp, Ki, Kd)] of this class: the magnitudes of its
    arguments. *)
Definition Stanley_SetGains c (Kp Ki Kd : A)
  : ChPathSteeringControllerStanley A T F :=
  Stanley_on_base c (fun b => SetGains b (sc_abs Kp) (sc_abs Ki) (sc_abs Kd)).

(** [ChPathSteeringControllerStanley(path, isClosedPath,
    max_wheel_turn_angle)].  [m_pcurvature] is not initialised: it holds
    [raw] until the first [CalcTargetLocation]. *)
Definition ChPathSteeringControllerStanley_new (raw : A) (path : ChBezierCurve A)
  (isClosedPath : bool) (max_wheel_turn_angle : A)
  : ChPathSteeringControllerStanley A T F :=
  let c := mkStanley ChSteeringController_default None path isClosedPath
             (trk_new path isClosedPath) #0 max_wheel_turn_angle #1 #30 #0
             (lit 4 10) VNULL raw in
  let c := Stanley_SetGains c #0 #0 #0 in
  mkStanley (st_base c) (m_delayFilter c) (m_path c) (m_isClosedPath c)
    (trk_new path isClosedPath) (m_delta c) (m_delta_max c) (m_umin c)
    (m_Treset c) (m_deadZone c) (m_Tdelay c) (m_ptangent c) (m_pcurvature c).

(** An optional number of the document: [if (d.HasMember(key)) x =
    d[key].GetDouble()]. *)
Definition optional_double (d : Document A) (key : string) (default : A)
  : res A :=
  (has <- HasMember d key ;;
   if has then GetDouble1 d key else Ok default)%res.

(** [ChPathSteeringControllerStanley(filename, path, ...)]: the gains of
    the document are stored as they are; the look-ahead distance and the
    dead zone are optional. *)
Definition ChPathSteeringControllerStanley_file (raw : A) (d : Document A)
  (path : ChBezierCurve A) (isClosedPath : bool) (max_wheel_turn_angle : A)
  : res (ChPathSteeringControllerStanley A T F) :=
  let c := ChPathSteeringControllerStanley_new raw path isClosedPath
             max_wheel_turn_angle in
  if IsNull d then Ok c
  else
    (Kp <- GetDouble2 d "Gains" "Kp" ;;
     Kd <- GetDouble2 d "Gains" "Kd" ;;
     Ki <- GetDouble2 d "Gains" "Ki" ;;
     dist <- optional_double d "Lookahead Distance" (m_dist (st_base c)) ;;
     deadZone <- optional_double d "Dead Zone" (m_deadZone c) ;;
     Ok (mkStanley (set_dist (SetGains (st_base c) Kp Ki Kd) dist)
           (m_delayFilter c) (m_path c) (m_isClosedPath c) (m_tracker c)
           (m_delta c) (m_delta_max c) (m_umin c) (m_Treset c) deadZone
           (m_Tdelay c) (m_ptangent c) (m_pcurvature c)))%res.

(** ** Reset, CalcTargetLocation, CalcHeadingError *)

(** [Reset(vehicle)]: the base class only; the tracker is not reset. *)
Definition Stanley_Reset c vehicle : ChPathSteeringControllerStanley A T F :=
  Stanley_on_base c (fun b => Reset b vehicle).

Definition Stanley_CalcTargetLocation c : ChPathSteeringControllerStanley A T F :=
  let '(t, (tnb, curvature)) :=
    trk_calcClosestPointTNB (m_tracker c) (m_sentinel (st_base c)) in
  mkStanley (set_target (st_base c) (frame_pos tnb)) (m_delayFilter c)
    (m_path c) (m_isClosedPath c) t (m_delta c) (m_delta_max c) (m_umin c)
    (m_Treset c) (m_deadZone c) (m_Tdelay c) (Xaxis (frame_rot tnb)) curvature.

Definition Stanley_CalcHeadingError `{Trig A} (a b : ChVector A) : A :=
  let a := Normalize (Project a) in
  let b := Normalize (Project b) in
  let vpc := Vcross a b in
  sc_asin (Height vpc).

(** ** Advance *)

(** The weight of the dead zone on a lateral error. *)
Definition Stanley_weight `{Trig A} (deadZone err : A) : A :=
  if deadZone >? #0
  then ChSineStep (sc_abs err) deadZone #0 (#2 * deadZone) #1
  else #1.

(** The lateral error of a step: signed as in the base class, then
    weighted by the dead zone. *)
Definition Stanley_error `{Trig A} (deadZone : A) (sentinel target pos : ChVector A)
  : A :=
  let err_vec := Project (Vsub target sentinel) in
  let sentinel_vec := Project (Vsub sentinel pos) in
  let target_vec := Project (Vsub target pos) in
  let temp := Vdot (Vcross sentinel_vec target_vec) Vertical in
  let err := #(ChSignum temp) * Length err_vec in
  err * Stanley_weight deadZone err.

(** The control law: heading error, arctangent of the scaled lateral
    error, and the derivative and integral terms. *)
Definition Stanley_law `{Trig A} (Kp Ki Kd umin u err erri h_err : A) : A :=
  let err_dot := - u * sc_sin (sc_atan (Kp * err / ChClamp u umin u)) in
  h_err + sc_atan (Kp * err / ChClamp u umin u) + Kd * err_dot + Ki * erri.

(** The command before the lag. *)
Definition Stanley_steer (delta delta_max : A) : A :=
  ChClamp (delta / delta_max) (- #1) #1.

(** The countdown: [m_Treset -= step], and on expiry the timer restarts
    and [m_err] is cleared.  The result is the new timer and the new
    [m_err]. *)
Definition Stanley_countdown (Treset step err : A) : A * A :=
  let Treset := Treset - step in
  if Treset <=? #0 then (#30, #0) else (Treset, err).

(** [ChPathSteeringControllerStanley::Advance(vehicle, step)]. *)
Definition Stanley_Advance `{Trig A} c vehicle (step : A)
  : res (ChPathSteeringControllerStanley A T F * A) :=
  let filter :=
    match m_delayFilter c with
    | None => pt1_config step (m_Tdelay c)
    | Some f => f
    end in
  let chassis_rot := frame_rot (GetFrame_REF_to_abs vehicle) in
  let u := GetSpeed vehicle in
  let sentinel := sentinel_location vehicle (m_dist (st_base c)) in
  let c1 := Stanley_CalcTargetLocation
              (Stanley_on_base c (fun b => set_sentinel b sentinel)) in
  (b <- log_row (st_base c1) vehicle ;;
   let err := Stanley_error (m_deadZone c1) (m_sentinel b) (m_target b)
                (GetPos vehicle) in
   let erri := m_erri b + (err + m_err b) * step / #2 in
   let h_err := Stanley_CalcHeadingError (Xaxis chassis_rot) (m_ptangent c1) in
   let delta := Stanley_law (m_Kp b) (m_Ki b) (m_Kd b) (m_umin c1) u err erri h_err in
   let steer := Stanley_steer delta (m_delta_max c1) in
   let '(Treset, err) := Stanley_countdown (m_Treset c1) step err in
   let '(filter, out) := pt1_filter filter steer in
   Ok (mkStanley (set_errors b err (m_errd b) erri) (Some filter) (m_path c1)
         (m_isClosedPath c1) (m_tracker c1) delta (m_delta_max c1) (m_umin c1)
         Treset (m_deadZone c1) (m_Tdelay c1) (m_ptangent c1) (m_pcurvature c1),
       out))%res.

End Stanley.

(** ** Specification of a step *)

Section Spec.
Context {A T F : Type} `{Scalar A} `{Trig A} `{CurveTracker A T} `{FilterPT1 A F}.
Implicit Types (c : ChPathSteeringControllerStanley A T F) (vehicle : ChVehicle A).

(** The sentinel, the answer of the tracker and the weighted lateral
    error of a step. *)
Definition Stanley_sentinel c vehicle : ChVector A :=
  sentinel_location vehicle (m_dist (st_base c)).

Definition Stanley_tnb c vehicle : ChFrame A * A :=
  snd (trk_calcClosestPointTNB (m_tracker c) (Stanley_sentinel c vehicle)).

Definition Stanley_step_error c vehicle : A :=
  Stanley_error (m_deadZone c) (Stanley_sentinel c vehicle)
    (frame_pos (fst (Stanley_tnb c vehicle))) (GetPos vehicle).

(** The calls a program makes on a controller. *)
Inductive StanleyOp : Type :=
| StOpReset (vehicle : ChVehicle A)
| StOpAdvance (vehicle : ChVehicle A) (step : A)
| StOpSetGains (Kp Ki Kd : A)
| StOpSetLookAheadDistance (dist : A)
| StOpStartDataCollection
| StOpStopDataCollection.

Definition Stanley_apply c (o : StanleyOp)
  : res (ChPathSteeringControllerStanley A T F) :=
  match o with
  | StOpReset vehicle => Ok (Stanley_Reset c vehicle)
  | StOpAdvance vehicle step => res_map fst (Stanley_Advance c vehicle step)
  | StOpSetGains Kp Ki Kd => Ok (Stanley_SetGains c Kp Ki Kd)
  | StOpSetLookAheadDistance dist =>
      Ok (Stanley_on_base c (fun b => SetLookAheadDistance b dist))
  | StOpStartDataCollection => Ok (Stanley_on_base c StartDataCollection)
  | StOpStopDataCollection => Ok (Stanley_on_base c StopDataCollection)
  end.

(** The step size of an operation, when it has one. *)
Definition op_step (o : StanleyOp) : option A :=
  match o with StOpAdvance _ step => Some step | _ => None end.

(** A step that returns has appended one row to the log while
    collection is on, and none otherwise: the time of the snapshot, then
    the target and the sentinel it leaves in the controller. *)
Lemma Stanley_Advance_logged c vehicle step c' out :
  Stanley_Advance c vehicle step = Ok (c', out) ->
  m_collect (st_base c') = m_collect (st_base c) /\
  logged (st_base c') =
    logged (st_base c) ++
    (if m_collect (st_base c)
     then [mkRow (GetChTime vehicle) (m_target (st_base c'))
             (m_sentinel (st_base c'))]
     else []).
Proof.
  unfold Stanley_Advance, Stanley_CalcTargetLocation. cbv zeta.
  cbn [Stanley_on_base st_base m_tracker].
  destruct (trk_calcClosestPointTNB _ _) as [t [tnb curvature]].
  cbn [st_base]. destruct (log_row _ vehicle) as [b |] eqn:Eb; [| discriminate].
  cbn [res_bind]. destruct (Stanley_countdown _ _ _) as [Treset err].
  destruct (pt1_filter _ _) as [filter o].
  intros E; injection E as <- _. exact (log_row_logged _ _ _ Eb).
Qed.

End Spec.

Arguments StanleyOp A : clear implicits.

(** ** The step on the real numbers *)

Section Step.
Local Open Scope R_scope.
Context {T F : Type} `{CurveTracker R T} `{FilterPT1 R F}.
Implicit Types (c : ChPathSteeringControllerStanley R T F) (vehicle : ChVehicle R).

(** The lag a step uses: the one allocated earlier, or a new one for
    this step size. *)
Definition Stanley_filter c (step : R) : F :=
  match m_delayFilter c with
  | None => pt1_config step (m_Tdelay c)
  | Some f => f
  end.

(** The states a program can bring a controller to, when every step has
    a positive step size. *)
Inductive Stanley_reachable : ChPathSteeringControllerStanley R T F -> Prop :=
| St_reach_new raw path isClosedPath max_wheel_turn_angle :
    Stanley_reachable
      (ChPathSteeringControllerStanley_new raw path isClosedPath
         max_wheel_turn_angle)
| St_reach_file raw d path isClosedPath max_wheel_turn_angle c :
    ChPathSteeringControllerStanley_file raw d path isClosedPath
      max_wheel_turn_angle = Ok c ->
    Stanley_reachable c
| St_reach_step c o c' :
    Stanley_reachable c ->
    (forall step, op_step o = Some step -> 0 < step) ->
    Stanley_apply c o = Ok c' -> Stanley_reachable c'.

Lemma Stanley_steer_bounds (delta delta_max : R) :
  -1 <= Stanley_steer delta delta_max <= 1.
Proof. unfold Stanley_steer. scalar_unfold. auto with chrono. Qed.

(** A step on a well-formed log returns, and its result is the state
    and the command described field by field. *)
Lemma Stanley_Advance_run c vehicle step :
  wf (st_base c) ->
  exists c' out,
    Stanley_Advance c vehicle step = Ok (c', out) /\
    wf (st_base c') /\ m_Tdelay c' = m_Tdelay c /\
    m_delayFilter c' =
      Some (fst (pt1_filter (Stanley_filter c step)
                   (Stanley_steer (m_delta c') (m_delta_max c)))) /\
    out = snd (pt1_filter (Stanley_filter c step)
                 (Stanley_steer (m_delta c') (m_delta_max c))) /\
    m_delta c' =
      Stanley_law (m_Kp (st_base c)) (m_Ki (st_base c)) (m_Kd (st_base c))
        (m_umin c) (GetSpeed vehicle) (Stanley_step_error c vehicle)
        (m_erri (st_base c'))
        (Stanley_CalcHeadingError
           (Xaxis (frame_rot (GetFrame_REF_to_abs vehicle)))
           (Xaxis (frame_rot (fst (Stanley_tnb c vehicle))))) /\
    m_erri (st_base c') =
      m_erri (st_base c) +
      (Stanley_step_error c vehicle + m_err (st_base c)) * step / 2 /\
    (m_Treset c', m_err (st_base c')) =
      Stanley_countdown (m_Treset c) step (Stanley_step_error c vehicle).
Proof.
  intros Hw.
  unfold Stanley_Advance, Stanley_step_error, Stanley_tnb, Stanley_sentinel,
    Stanley_CalcTargetLocation, Stanley_filter. cbv zeta.
  cbn [Stanley_on_base st_base m_tracker m_sentinel set_sentinel].
  destruct (trk_calcClosestPointTNB (m_tracker c)
              (sentinel_location vehicle (m_dist (st_base c))))
    as [t [tnb curvature]].
  cbn [st_base m_ptangent m_deadZone m_umin m_delta_max m_Treset m_Tdelay
       m_path m_isClosedPath m_tracker m_pcurvature m_delayFilter fst snd].
  destruct (log_row_ok
    (set_target (set_sentinel (st_base c)
       (sentinel_location vehicle (m_dist (st_base c)))) (frame_pos tnb)) vehicle)
    as (b & Eb & Hb & Hs & Htg & He & Hi & _ & Hp & Hki & Hkd & _);
    [apply wf_set_target, wf_set_sentinel, Hw |].
  rewrite Eb. cbn [res_bind]. rewrite Hs, Htg, He, Hi, Hp, Hki, Hkd.
  cbn [m_sentinel m_target m_err m_erri m_Kp m_Ki m_Kd set_target set_sentinel].
  destruct (Stanley_countdown _ _ _) as [Treset err].
  match goal with |- context [pt1_filter ?f ?u] =>
    rewrite (surjective_pairing (pt1_filter f u)) end.
  cbv beta iota. eexists _, _. split; [reflexivity |].
  cbn [st_base m_Tdelay m_delayFilter m_delta m_erri m_err m_Treset set_errors].
  auto 10.
Qed.

End Step.

(** ** Bounded filters *)

Section Bounded.
Local Open Scope R_scope.
Context {T F : Type} `{CurveTracker R T} `{FilterPT1 R F}.
Context (within : F -> R -> Prop) `{!BoundedPT1 within}.
Implicit Types (c : ChPathSteeringControllerStanley R T F) (vehicle : ChVehicle R).

(** The invariant: a well-formed log, a non-negative reaction time, and
    a lag, once allocated, whose state is within 1. *)
Definition Stanley_inv c : Prop :=
  wf (st_base c) /\ 0 <= m_Tdelay c /\
  match m_delayFilter c with Some f => within f 1 | None => True end.

(** The lag a step uses is within 1. *)
Lemma Stanley_filter_within c step :
  Stanley_inv c -> (m_delayFilter c = None -> 0 < step) ->
  within (Stanley_filter c step) 1.
Proof.
  intros (_ & Ht & Hf) Hs. unfold Stanley_filter.
  destruct (m_delayFilter c); [exact Hf |].
  apply pt1_config_within; auto; lra.
Qed.

(** Under the invariant the command is within [[-1, 1]] and the
    invariant holds again. *)
Lemma Stanley_Advance_ok c vehicle step :
  Stanley_inv c -> (m_delayFilter c = None -> 0 < step) ->
  exists c' out,
    Stanley_Advance c vehicle step = Ok (c', out) /\
    -1 <= out <= 1 /\ Stanley_inv c' /\ m_delayFilter c' <> None.
Proof.
  intros Hinv Hstep. pose proof (Stanley_filter_within c step Hinv Hstep) as Hf.
  destruct Hinv as (Hw & Ht & _).
  destruct (Stanley_Advance_run c vehicle step Hw)
    as (c' & out & E & Hw' & Et & Ef & Eo & _).
  destruct (pt1_filter_within (Stanley_filter c step)
              (Stanley_steer (m_delta c') (m_delta_max c)) 1 Hf)
    as [Hf' Ho]; [apply Rabs_le, Stanley_steer_bounds |].
  exists c', out. rewrite Eo. split; [rewrite E, Eo; reflexivity |].
  split; [apply Rabs_le_inv, Ho |].
  unfold Stanley_inv. rewrite Ef, Et. split; [auto | discriminate].
Qed.

End Bounded.

(** ** The invariant along the life of a controller *)

Section Invariant.
Local Open Scope R_scope.
Context {T F : Type} `{CurveTracker R T} `{FilterPT1 R F}.
Context (within : F -> R -> Prop) `{!BoundedPT1 within}.
Implicit Types (c : ChPathSteeringControllerStanley R T F) (vehicle : ChVehicle R).

Lemma Stanley_inv_new raw path isClosedPath max_wheel_turn_angle :
  Stanley_inv within
    (ChPathSteeringControllerStanley_new raw path isClosedPath
       max_wheel_turn_angle).
Proof.
  unfold Stanley_inv, ChPathSteeringControllerStanley_new. cbn.
  repeat split; [discriminate | unfold lit; scalar_unfold; lra].
Qed.

Lemma Stanley_inv_file raw d path isClosedPath max_wheel_turn_angle c :
  ChPathSteeringControllerStanley_file raw d path isClosedPath
    max_wheel_turn_angle = Ok c -> Stanley_inv within c.
Proof.
  pose proof (Stanley_inv_new raw path isClosedPath max_wheel_turn_angle)
    as (Hw & Ht & Hf).
  unfold ChPathSteeringControllerStanley_file. cbv zeta. destruct (IsNull d).
  - intros E; injection E as <-. exact (conj Hw (conj Ht Hf)).
  - intros E.
    repeat (apply res_bind_ok in E; destruct E as (? & _ & E)).
    injection E as <-. exact (conj Hw (conj Ht Hf)).
Qed.

Lemma Stanley_inv_on_base c f :
  (wf (st_base c) -> wf (f (st_base c))) ->
  Stanley_inv within c -> Stanley_inv within (Stanley_on_base c f).
Proof. intros Hf (Hw & Ht & Hd). exact (conj (Hf Hw) (conj Ht Hd)). Qed.

Lemma Stanley_apply_inv c (o : StanleyOp R) c' :
  Stanley_inv within c -> (forall step, op_step o = Some step -> 0 < step) ->
  Stanley_apply c o = Ok c' -> Stanley_inv within c'.
Proof.
  intros Hinv Hstep.
  destruct o as [v | v step | Kp Ki Kd | dist | |]; cbn [Stanley_apply];
    try (intros E; injection E as <-; apply Stanley_inv_on_base;
         auto using wf_Reset, wf_SetGains, wf_SetLookAheadDistance,
           wf_StartDataCollection, wf_StopDataCollection).
  destruct (Stanley_Advance_ok within c v step Hinv)
    as (c1 & out & -> & _ & Hinv1 & _); [intros _; apply Hstep; reflexivity |].
  intros E; injection E as <-. exact Hinv1.
Qed.

Lemma Stanley_reachable_inv c :
  Stanley_reachable c -> Stanley_inv within c.
Proof.
  induction 1 as [| raw d path b m c E | c o c' _ IH Hs Ho].
  - apply Stanley_inv_new.
  - eapply Stanley_inv_file, E.
  - eapply Stanley_apply_inv; eassumption.
Qed.

(** C4: the command of the Stanley controller is bounded and its step
    is safe.  For every lag filter that satisfies the bounded-filter law,
    in every state reachable from either constructor by calls with
    positive step sizes, a step with a positive step size returns a
    command in [[-1, 1]]: the clamp bounds the input of the lag and the lag
    does not overshoot. *)
Theorem Stanley_Advance_bounded c vehicle step :
  Stanley_reachable c -> 0 < step ->
  exists c' out,
    Stanley_Advance c vehicle step = Ok (c', out) /\
    -1 <= out <= 1 /\ Stanley_reachable c' /\ m_delayFilter c' <> None.
Proof.
  intros Hr Hstep.
  destruct (Stanley_Advance_ok within c vehicle step (Stanley_reachable_inv c Hr))
    as (c' & out & E & Hb & _ & Hf); [auto |].
  exists c', out. repeat split; try assumption; try apply Hb.
  apply St_reach_step with (c := c) (o := StOpAdvance vehicle step).
  - exact Hr.
  - intros s Es; injection Es as <-; exact Hstep.
  - cbn [Stanley_apply]. rewrite E. reflexivity.
Qed.

End Invariant.

Lemma unit_direction (alpha : R) :
  unit_vector (mkV (cos alpha) (sin alpha) 0%R).
Proof.
  pose proof (sin2_cos2 alpha) as E. unfold Rsqr in E.
  unfold unit_vector. vec_unfold; scalar_unfold; cbn. lra.
Qed.

(** ** The countdown, the dead zone and the control law *)

Section Law.
Local Open Scope R_scope.
Context {T F : Type} `{CurveTracker R T} `{FilterPT1 R F}.
Implicit Types (c : ChPathSteeringControllerStanley R T F) (vehicle : ChVehicle R).

(** C8: the countdown does not reset the integral.  In a step in which
    the timer expires ([m_Treset - step <= 0]) the timer restarts at 30
    and the cached error [m_err] is cleared, but the accumulated integral
    [m_erri] keeps growing by the trapezoidal rule as in every other
    step. *)
Theorem Stanley_countdown_keeps_integral c vehicle step :
  wf (st_base c) -> m_Treset c - step <= 0 ->
  exists c' out,
    Stanley_Advance c vehicle step = Ok (c', out) /\
    m_Treset c' = 30 /\ m_err (st_base c') = 0 /\
    m_erri (st_base c') =
      m_erri (st_base c) +
      (Stanley_step_error c vehicle + m_err (st_base c)) * step / 2.
Proof.
  intros Hw Hexp.
  destruct (Stanley_Advance_run c vehicle step Hw)
    as (c' & out & E & _ & _ & _ & _ & _ & Ei & Ec).
  exists c', out. unfold Stanley_countdown in Ec. scalar_unfold.
  rewrite Rleb_true in Ec by exact Hexp. injection Ec as -> ->. auto.
Qed.

End Law.

Section Channels.
Local Open Scope R_scope.

(** C33: The dead zone of the specification.  With a positive dead zone
    [dz] the weight of a lateral error is 0 up to [dz] in magnitude, 1
    from [2 dz] on, strictly between 0 and 1 in between and exactly 1/2
    at [1.5 dz]; without a dead zone the weight is 1. *)
Theorem Stanley_dead_zone (dz err : R) :
  (dz <= 0 -> Stanley_weight dz err = 1) /\
  (0 < dz ->
   (Rabs err <= dz -> Stanley_weight dz err = 0) /\
   (2 * dz <= Rabs err -> Stanley_weight dz err = 1) /\
   (Rabs err = 3 / 2 * dz -> Stanley_weight dz err = 1 / 2) /\
   0 <= Stanley_weight dz err <= 1).
Proof.
  unfold Stanley_weight. scalar_unfold. split; intros Hdz.
  - rewrite Rltb_false by lra. reflexivity.
  - rewrite Rltb_true by lra. repeat split.
    + intros He. apply ChSineStep_below, He.
    + intros He. apply ChSineStep_above; lra.
    + intros ->. rewrite ChSineStep_between by lra.
      replace ((3 / 2 * dz - dz) / (2 * dz - dz)) with (1 / 2) by (field; lra).
      replace (2 * PI * (1 / 2)) with PI by field. rewrite sin_PI. field.
      pose proof PI_RGT_0; lra.
    + apply (ChSineStep_bounds (Rabs err) dz 0 (2 * dz) 1); lra.
    + apply (ChSineStep_bounds (Rabs err) dz 0 (2 * dz) 1); lra.
Qed.

(** C35: the control law in closed form.  With [k = Kp * err / max(u,
    umin)] the steering angle is [h_err + atan k - Kd * u * k / sqrt (1 +
    k^2) + Ki * erri]: the speed is replaced by the minimum speed below
    it, so a positive [umin] rules out the division by zero, and the
    derivative term is the analytic derivative of the lateral error. *)
Theorem Stanley_law_closed_form (Kp Ki Kd umin u err erri h_err : R) :
  let k := Kp * err / Rmax u umin in
  Stanley_law Kp Ki Kd umin u err erri h_err =
  h_err + atan k - Kd * (u * (k / sqrt (1 + k * k))) + Ki * erri.
Proof.
  intros k. unfold Stanley_law. cbv zeta. scalar_unfold.
  rewrite ChClamp_self_max. fold k. rewrite sin_atan. unfold Rsqr. ring.
Qed.

(** The heading error is the angle from the vehicle heading to the
    path tangent.  For horizontal directions at the angles [alpha] and
    [beta] from the X axis, at most a quarter turn apart, it is
    [beta - alpha]; it is positive when the path turns left of the
    heading. *)
Theorem Stanley_heading_angle (alpha beta : R) :
  - (PI / 2) <= beta - alpha <= PI / 2 ->
  Stanley_CalcHeadingError (mkV (cos alpha) (sin alpha) 0)
    (mkV (cos beta) (sin beta) 0) = beta - alpha.
Proof.
  intros Hab. unfold Stanley_CalcHeadingError. cbv zeta. scalar_unfold.
  rewrite !Project_of_horizontal by reflexivity.
  rewrite !Normalize_of_unit by apply unit_direction.
  rewrite Height_Vcross. cbn [vx vy].
  replace (cos alpha * sin beta - sin alpha * cos beta)
    with (sin (beta - alpha)) by (rewrite sin_minus; ring).
  apply asin_sin, Hab.
Qed.

(** The clamp of the command does not stop a NaN.  On the real
    numbers the command before the lag is always in [[-1, 1]]; in binary64
    a zero steering limit [m_delta_max] with a zero angle gives [0 / 0],
    both comparisons of the clamp are false, and the command is NaN.  The
    constructors store [max_wheel_turn_angle] unchecked. *)
Theorem Stanley_steer_nan :
  (forall delta delta_max : R, -1 <= Stanley_steer delta delta_max <= 1) /\
  PrimFloat.is_nan (Stanley_steer #0 #0)%S = true.
Proof. split; [apply Stanley_steer_bounds | vm_compute; reflexivity]. Qed.

End Channels.

(** ** Gains *)

Section Gains.
Local Open Scope R_scope.
Context {T F : Type} `{CurveTracker R T} `{FilterPT1 R F}.
Implicit Types (c : ChPathSteeringControllerStanley R T F).

(** A configuration file with a negative proportional gain. *)
Definition negative_gain_document : Document R :=
  JObject [("Gains"%string,
            JObject [("Kp"%string, JNumber (-1)); ("Kd"%string, JNumber 0);
                     ("Ki"%string, JNumber 0)])].

(** [SetGains] stores the magnitudes of its arguments, so the gains
    it leaves are never negative; the constructor from a file stores the
    gains of the document as they are, negative ones included, and leaves
    the look-ahead distance and the dead zone at their defaults when the
    document does not name them. *)
Theorem Stanley_gains_magnitude :
  (forall c Kp Ki Kd,
     let b := st_base (Stanley_SetGains c Kp Ki Kd) in
     m_Kp b = Rabs Kp /\ m_Ki b = Rabs Ki /\ m_Kd b = Rabs Kd /\
     0 <= m_Kp b /\ 0 <= m_Ki b /\ 0 <= m_Kd b) /\
  (forall raw path isClosedPath max_wheel_turn_angle,
     exists c,
       ChPathSteeringControllerStanley_file raw negative_gain_document path
         isClosedPath max_wheel_turn_angle = Ok c /\
       m_Kp (st_base c) = -1 /\ m_dist (st_base c) = 0 /\ m_deadZone c = 0).
Proof.
  split.
  - intros c Kp Ki Kd b. unfold b. cbn. scalar_unfold.
    repeat split; try reflexivity; apply Rabs_pos.
  - intros raw path isClosedPath max_wheel_turn_angle.
    eexists. split; [reflexivity |]. cbn. auto.
Qed.

End Gains.

(** ** The theorems on a straight path *)

Section Witnesses.
Local Open Scope R_scope.

(** The controller for the path along +X with steering limit 1, the
    straight-line tracker and the backward-Euler lag. *)
Definition st_line : ChPathSteeringControllerStanley R (LineTracker R) (PT1 R) :=
  ChPathSteeringControllerStanley_new 0 (mkCurve [mkV 0 0 0; mkV 1 0 0]) false 1.

Lemma Stanley_Advance_bounded_witness :
  exists c' out,
    Stanley_Advance st_line (vehicle_at_origin VNULL 10 0) 1 = Ok (c', out) /\
    -1 <= out <= 1 /\ Stanley_reachable c' /\ m_delayFilter c' <> None.
Proof.
  apply (Stanley_Advance_bounded PT1_within st_line (vehicle_at_origin VNULL 10 0) 1);
    [apply St_reach_new | lra].
Defined.

Lemma Stanley_countdown_keeps_integral_witness :
  exists c' out,
    Stanley_Advance st_line (vehicle_at_origin VNULL 10 0) 30 = Ok (c', out) /\
    m_Treset c' = 30 /\ m_err (st_base c') = 0 /\
    m_erri (st_base c') =
      m_erri (st_base st_line) +
      (Stanley_step_error st_line (vehicle_at_origin VNULL 10 0) +
       m_err (st_base st_line)) * 30 / 2.
Proof.
  apply (Stanley_countdown_keeps_integral st_line (vehicle_at_origin VNULL 10 0) 30);
    [apply wf_default | cbn; lra].
Defined.

Lemma Stanley_heading_angle_witness :
  Stanley_CalcHeadingError (mkV (cos 0) (sin 0) 0) (mkV (cos 0) (sin 0) 0) = 0 - 0.
Proof.
  apply (Stanley_heading_angle 0 0). pose proof PI_RGT_0. lra.
Defined.

End Witnesses.
