(* ===== verification/Driver.v ===== *)
(** * Driver: the four controllers behind one interface

    A driver model owns one steering controller and calls [Reset] once
    and then [Advance] once per simulation step; which of the four
    variants it owns is fixed at construction, and the calls go through
    the virtual functions of [ChSteeringController].  This file states
    that interface ([SteeringController]), the contract the specification
    gives for it ([BoundedController]: every [Advance] returns a command
    in [[-1, 1]]), and the loop of the caller ([drive], [simulate]).

    The theorems on the loop are proved against the contract.  The XT, the
    SR (on an open path) and the Stanley controller discharge it with the
    invariants of their files; the PID controller implements the
    interface and cannot satisfy the contract.  What the variants inherit
    from the base class is a second interface ([LoggingController]), which
    all four discharge: the log of a loop holds one row per frame
    ([drive_log], [simulate_logs]). *)

From Stdlib Require Import Reals Lra Psatz ZArith Lia List Bool.
From S2P Require Import Prelude ChMath ChVector Interfaces SteeringBase.
From S2P Require Import SteeringSR SteeringXT SteeringStanley.
Import ListNotations.

Local Open Scope scalar_scope.

(** ** The interface *)

(** The virtual functions of [ChSteeringController] a driver calls. *)
Class SteeringController (A C : Type) : Type := {
  ctl_Reset : C -> ChVehicle A -> C;
  ctl_Advance : C -> ChVehicle A -> A -> res (C * A)
}.

(** The contract of the interface, for the states [inv] a driver keeps
    its controller in: [Reset] keeps them, and [Advance] with a positive
    step returns, keeps them and answers a command in [[-1, 1]]. *)
Class BoundedController {C : Type} `{SteeringController R C} (inv : C -> Prop)
  : Prop := {
  ctl_Reset_inv : forall c vehicle, inv c -> inv (ctl_Reset c vehicle);
  ctl_Advance_bounded :
    forall c vehicle step, inv c -> (0 < step)%R ->
      exists c' out,
        ctl_Advance c vehicle step = Ok (c', out) /\
        (-1 <= out <= 1)%R /\ inv c'
}.

(** What every variant inherits from the base class, seen through the
    interface: [base] is the base-class part of the object; [Reset]
    leaves the log and the collection flag alone, and an [Advance] that
    returns has appended one row while collection is on and none
    otherwise: the time of the snapshot, then the target and the
    sentinel the call leaves. *)
Class LoggingController {A C : Type} `{SteeringController A C}
  (base : C -> ChSteeringController A) : Prop := {
  ctl_Reset_log : forall c vehicle,
    m_collect (base (ctl_Reset c vehicle)) = m_collect (base c) /\
    logged (base (ctl_Reset c vehicle)) = logged (base c);
  ctl_Advance_log : forall c vehicle step c' out,
    ctl_Advance c vehicle step = Ok (c', out) ->
    m_collect (base c') = m_collect (base c) /\
    logged (base c') =
      logged (base c) ++
      (if m_collect (base c)
       then [mkRow (GetChTime vehicle) (m_target (base c')) (m_sentinel (base c'))]
       else [])
}.

(** ** The four implementations *)

Section Implementations.
Context {A T F1 F2 : Type} `{Scalar A} `{Trig A}
  `{CurveTracker A T} `{FilterPT1 A F1} `{FilterPDT1 A F2}.

#[export] Instance Path_SteeringController
  : SteeringController A (ChPathSteeringController A T) := {|
  ctl_Reset := Path_Reset;
  ctl_Advance := Path_Advance
|}.

#[export] Instance XT_SteeringController
  : SteeringController A (ChPathSteeringControllerXT A T F1 F2) := {|
  ctl_Reset := XT_Reset;
  ctl_Advance := XT_Advance
|}.

(** The scan of the SR controller is given one unit of fuel per
    segment: on an open path it needs one, on a closed path a scan that
    has walked every segment without stopping never stops. *)
#[export] Instance SR_SteeringController
  : SteeringController A (ChPathSteeringControllerSR A) := {|
  ctl_Reset := SR_Reset;
  ctl_Advance := fun c => SR_Advance (List.length (S_l c)) c
|}.

#[export] Instance Stanley_SteeringController
  : SteeringController A (ChPathSteeringControllerStanley A T F1) := {|
  ctl_Reset := Stanley_Reset;
  ctl_Advance := Stanley_Advance
|}.

#[export] Instance Path_Logging : LoggingController (C := ChPathSteeringController A T) path_base.
Proof. split; [split; reflexivity | exact Path_Advance_logged]. Qed.

#[export] Instance XT_Logging
  : LoggingController (C := ChPathSteeringControllerXT A T F1 F2) xt_base.
Proof. split; [split; reflexivity | exact XT_Advance_logged]. Qed.

#[export] Instance SR_Logging : LoggingController (C := ChPathSteeringControllerSR A) sr_base.
Proof.
  split; [split; reflexivity |].
  intros c vehicle step. apply SR_Advance_logged.
Qed.

#[export] Instance Stanley_Logging
  : LoggingController (C := ChPathSteeringControllerStanley A T F1) st_base.
Proof. split; [split; reflexivity | exact Stanley_Advance_logged]. Qed.

End Implementations.

(** ** The loop of the caller *)

Section Loop.
Context {A C : Type} `{SteeringController A C}.

(** One [Advance] per frame of the simulation, each with the snapshot of
    the vehicle and the step size of the frame; the commands in the order
    they were returned.  A call that faults ends the run. *)
Fixpoint drive (c : C) (frames : list (ChVehicle A * A)) : res (C * list A) :=
  match frames with
  | [] => Ok (c, [])
  | (vehicle, step) :: frames =>
      ('(c, out) <- ctl_Advance c vehicle step ;;
       '(c, outs) <- drive c frames ;;
       Ok (c, out :: outs))%res
  end.

(** A simulation: [Reset] at the initial state of the vehicle, then the
    loop. *)
Definition simulate (c : C) (start : ChVehicle A)
  (frames : list (ChVehicle A * A)) : res (C * list A) :=
  drive (ctl_Reset c start) frames.

End Loop.

(** ** The log of the loop *)

Section LogClient.
Context {A C : Type} `{SteeringController A C}.
Context (base : C -> ChSteeringController A) `{!LoggingController base}.

(** The times of the snapshots of the frames, in order. *)
Definition frame_times (frames : list (ChVehicle A * A)) : list A :=
  map (fun f => GetChTime (fst f)) frames.

(** A loop that returns leaves the collection flag as it was and, when
    it is on, has appended one row per frame, in the order of the frames
    and with their times. *)
Lemma drive_log (frames : list (ChVehicle A * A)) : forall (c c' : C) outs,
  drive c frames = Ok (c', outs) ->
  m_collect (base c') = m_collect (base c) /\
  map row_time (logged (base c')) =
    map row_time (logged (base c)) ++
    (if m_collect (base c) then frame_times frames else []).
Proof.
  induction frames as [| [vehicle step] frames IH]; intros c c' outs; cbn [drive].
  - intros E; injection E as <- _. split; [reflexivity |].
    destruct (m_collect (base c)); cbn; rewrite app_nil_r; reflexivity.
  - intros E. apply res_bind_ok in E. destruct E as ([c1 out] & E1 & E).
    apply res_bind_ok in E. destruct E as ([c2 outs'] & E2 & E).
    injection E as <- _.
    destruct (ctl_Advance_log c vehicle step c1 out E1) as (Hc & Hl).
    destruct (IH c1 c2 outs' E2) as (Hc' & Hl').
    rewrite Hc', Hl', Hl, Hc, map_app, <- app_assoc. split; [reflexivity |].
    destruct (m_collect (base c)); reflexivity.
Qed.

End LogClient.

(** ** The loop against the contract *)

Section Client.
Local Open Scope R_scope.
Context {C : Type} `{SteeringController R C}.
Context (inv : C -> Prop) `{!BoundedController inv}.

(** The loop returns one command per frame, each within [[-1, 1]]. *)
Lemma drive_run (c : C) (frames : list (ChVehicle R * R)) :
  inv c -> Forall (fun f => 0 < snd f) frames ->
  exists c' outs,
    drive c frames = Ok (c', outs) /\
    List.length outs = List.length frames /\
    Forall (fun out => -1 <= out <= 1) outs /\ inv c'.
Proof.
  intros Hc Hf. revert c Hc.
  induction Hf as [| [vehicle step] frames Hs _ IH]; intros c Hc.
  - exists c, []. cbn. auto.
  - destruct (ctl_Advance_bounded c vehicle step Hc Hs) as (c1 & out & E & Ho & H1).
    destruct (IH c1 H1) as (c' & outs & E' & Hl & Hb & H').
    exists c', (out :: outs). cbn [drive]. rewrite E. cbn [res_bind]. rewrite E'.
    cbn [res_bind List.length]. auto.
Qed.


(** With a controller that keeps both contracts and is collecting, a
    simulation returns and has appended exactly one row per frame to the
    log, in the order of the frames and carrying their times; [Reset]
    adds none. *)
Theorem simulate_logs (base : C -> ChSteeringController R)
  `{!LoggingController base} (c : C) (start : ChVehicle R)
  (frames : list (ChVehicle R * R)) :
  inv c -> Forall (fun f => 0 < snd f) frames ->
  m_collect (base c) = true ->
  exists c' outs,
    simulate c start frames = Ok (c', outs) /\
    map row_time (logged (base c')) =
      map row_time (logged (base c)) ++ frame_times frames.
Proof.
  intros Hc Hf Hon.
  destruct (drive_run (ctl_Reset c start) frames (ctl_Reset_inv c start Hc) Hf)
    as (c' & outs & E & _).
  destruct (ctl_Reset_log c start) as (Hcol & Hlog).
  destruct (drive_log base frames _ _ _ E) as (_ & Hl).
  exists c', outs. split; [exact E |].
  rewrite Hl, Hcol, Hlog, Hon. reflexivity.
Qed.

End Client.

(** ** The implementations that keep the contract *)

Section Contracts.
Local Open Scope R_scope.
Context {T F1 F2 : Type} `{CurveTracker R T} `{FilterPT1 R F1} `{FilterPDT1 R F2}.
Context (within : F1 -> R -> Prop) `{!BoundedPT1 within}.

#[export] Instance XT_Bounded
  : BoundedController (C := ChPathSteeringControllerXT R T F1 F2) XT_inv.
Proof.
  split.
  - intros c vehicle Hc. exact (XT_apply_inv c (XTOpReset vehicle) _ Hc eq_refl).
  - intros c vehicle step Hc _.
    destruct (XT_Advance_ok c vehicle step (proj1 Hc)) as (c' & res & E & _).
    exists c', (XT_constrain (XT_crvcode c vehicle) res).
    split; [exact E | split; [apply XT_constrain_bounds |]].
    apply (XT_apply_inv c (XTOpAdvance vehicle step) c' Hc).
    cbn [XT_apply]. rewrite E. reflexivity.
Qed.

#[export] Instance Stanley_Bounded
  : BoundedController (C := ChPathSteeringControllerStanley R T F1)
      (Stanley_inv within).
Proof.
  split.
  - intros c vehicle Hc.
    apply (Stanley_apply_inv within c (StOpReset vehicle) _ Hc);
      [discriminate | reflexivity].
  - intros c vehicle step Hc Hs.
    destruct (Stanley_Advance_ok within c vehicle step Hc (fun _ => Hs))
      as (c' & out & E & Ho & Hc' & _).
    exists c', out. auto.
Qed.

(** The states of the SR controller on an open path. *)
Definition SR_open_inv (c : ChPathSteeringControllerSR R) : Prop :=
  SR_inv c /\ SteeringSR.m_isClosedPath c = false.

#[export] Instance SR_open_Bounded : BoundedController SR_open_inv.
Proof.
  split.
  - intros c vehicle [Hc Ho]. split; [apply SR_inv_Reset, Hc | exact Ho].
  - intros c vehicle step [Hc Ho] _. cbn [ctl_Advance SR_SteeringController].
    destruct (List.length (S_l c)) as [| fuel] eqn:El;
      [destruct Hc as ((_ & _ & _ & Hi) & _); lia |].
    destruct (SR_Advance_open_bounded fuel c vehicle step Hc Ho)
      as (c' & out & E & Hb & Hc' & Ho').
    exists c', out. unfold SR_open_inv. auto.
Qed.

End Contracts.

(** ** The PID controller does not keep the contract *)

Section Unbounded.
Local Open Scope R_scope.

(** The step of the interface is the step of the class. *)
Lemma Path_ctl_Advance {T : Type} `{CurveTracker R T}
  (p : ChPathSteeringController R T) (vehicle : ChVehicle R) (step : R) :
  ctl_Advance p vehicle step = Path_Advance p vehicle step.
Proof. reflexivity. Qed.

(** No set of states that holds the controllers a program can build
    makes the PID controller keep the contract: on a path two units to
    the left, with the gain [Kp = 1], its first command is 2. *)
Theorem Path_not_bounded (inv : ChPathSteeringController R (LineTracker R) -> Prop) :
  (forall p, Path_reachable p -> inv p) -> ~ BoundedController inv.
Proof.
  intros Hr [_ Hb].
  destruct (Hb (line_controller 2 1 1 0 0 1 false) (vehicle_at_origin VNULL 0 0) 1)
    as (c' & out & E & Ho & _); [apply Hr, line_controller_reachable | lra |].
  destruct (line_controller_step 2 1 1 0 0 1 false VNULL 0 0 1) as (p' & E' & _);
    [lra |].
  rewrite Path_ctl_Advance, E' in E.
  rewrite lateral_error_offset in E by lra. injection E as _ <-. lra.
Qed.

End Unbounded.

(** ** Witnesses *)

Local Open Scope R_scope.


Lemma simulate_logs_witness :
  exists c' outs,
    simulate (XT_on_base xt_line StartDataCollection) (vehicle_at_origin VNULL 10 0)
      [(vehicle_at_origin VNULL 10 0, 1); (vehicle_at_origin VNULL 10 1, 1 / 2)]
    = Ok (c', outs) /\
    map row_time (logged (xt_base c')) = [0; 1].
Proof.
  apply (simulate_logs XT_inv xt_base (XT_on_base xt_line StartDataCollection)
           (vehicle_at_origin VNULL 10 0)
           [(vehicle_at_origin VNULL 10 0, 1); (vehicle_at_origin VNULL 10 1, 1 / 2)]).
  - apply (XT_apply_inv xt_line XTOpStartDataCollection); [apply XT_inv_new | reflexivity].
  - repeat constructor; cbn; lra.
  - reflexivity.
Defined.

Lemma Path_not_bounded_witness :
  ~ BoundedController (C := ChPathSteeringController R (LineTracker R))
      Path_reachable.
Proof. exact (Path_not_bounded Path_reachable (fun p Hp => Hp)). Defined.
