(* ===== verification/TrackAssembly.v ===== *)
(** * TrackAssembly: [ChTrackAssembly]

    A track assembly owns a sprocket, an idler, a brake, road-wheel
    assemblies (suspensions), rollers and track shoes, and its member
    functions are loops over them.  The parts themselves are defined in
    other files of the library: here a part is a record of the state that
    the calls of this file change (where it was initialised, its mass, its
    visualization type, its output flag), and a shoe also carries its
    neighbour in the track and its force accumulators.  What a concrete
    track fixes (where the parts sit, how the shoes are laid out) is the
    interface [TrackLayout]. *)

From Stdlib Require Import Reals Lra Psatz ZArith Lia List Bool String.
From Stdlib Require PrimFloat.
From S2P Require Import Prelude ChMath ChVector Interfaces.
Import ListNotations.

Local Open Scope scalar_scope.

(** ** Parts *)

Inductive VehicleSide : Type := LEFT | RIGHT.

Inductive VisualizationType : Type := VIS_NONE | VIS_PRIMITIVES | VIS_MESH.

(** What this file reads and writes of a [ChPart]. *)
Record ChPart (A : Type) : Type := mkPart {
  part_name : string;
  part_mass : A;
  part_location : option (ChVector A);   (* set by Initialize *)
  part_vis : VisualizationType;
  part_output : bool
}.
Arguments mkPart {A}.
Arguments part_name {A} _.
Arguments part_mass {A} _.
Arguments part_location {A} _.
Arguments part_vis {A} _.
Arguments part_output {A} _.

(** [BodyState]: position, orientation, linear and angular velocity. *)
Record BodyState (A : Type) : Type := mkBodyState {
  pos : ChVector A;
  rot : ChMatrix33 A;
  lin_vel : ChVector A;
  ang_vel : ChVector A
}.
Arguments mkBodyState {A}.
Arguments pos {A} _.
Arguments rot {A} _.
Arguments lin_vel {A} _.
Arguments ang_vel {A} _.

(** The force, application point and moment of the terrain on a shoe. *)
Record TerrainForce (A : Type) : Type := mkTerrainForce {
  force : ChVector A;
  point : ChVector A;
  moment : ChVector A
}.
Arguments mkTerrainForce {A}.
Arguments force {A} _.
Arguments point {A} _.
Arguments moment {A} _.

(** A track shoe: its part, its pitch, its body state, the neighbour it
    was connected to (an index into the shoes, with the winding
    direction), and the loads accumulated on its body since the
    accumulators were last emptied. *)
Record ChTrackShoe (A : Type) : Type := mkShoe {
  shoe_part : ChPart A;
  shoe_pitch : A;
  shoe_state : BodyState A;
  shoe_next : option (nat * bool);
  shoe_forces : list (ChVector A * ChVector A);
  shoe_torques : list (ChVector A)
}.
Arguments mkShoe {A}.
Arguments shoe_part {A} _.
Arguments shoe_pitch {A} _.
Arguments shoe_state {A} _.
Arguments shoe_next {A} _.
Arguments shoe_forces {A} _.
Arguments shoe_torques {A} _.

(** A sprocket with the torque applied to its axle; a brake with its
    input; a road-wheel assembly with its road wheel. *)
Record ChSprocket (A : Type) : Type := mkSprocket {
  sprocket_part : ChPart A;
  axle_torque : A
}.
Arguments mkSprocket {A}.
Arguments sprocket_part {A} _.
Arguments axle_torque {A} _.

Record ChTrackBrake (A : Type) : Type := mkBrake {
  brake_part : ChPart A;
  brake_input : A
}.
Arguments mkBrake {A}.
Arguments brake_part {A} _.
Arguments brake_input {A} _.

Record ChRoadWheelAssembly (A : Type) : Type := mkSuspension {
  suspension_part : ChPart A;
  road_wheel : ChPart A
}.
Arguments mkSuspension {A}.
Arguments suspension_part {A} _.
Arguments road_wheel {A} _.

(** The data members of [ChTrackAssembly]; [ta_part] holds those of the
    base class [ChPart] (name, [m_mass], [m_output], visualization type),
    [m_parent] the chassis the assembly was attached to, and [m_xform],
    [m_com] and [m_inertia] the frame, the centre of mass and the inertia
    tensor that [ChPart] keeps for the assembly. *)
Record ChTrackAssembly (A : Type) : Type := mkTrack {
  ta_part : ChPart A;
  m_side : VehicleSide;
  m_idler_as_cylinder : bool;
  m_roller_as_cylinder : bool;
  m_roadwheel_as_cylinder : bool;
  m_sprocket : ChSprocket A;
  m_idler : ChPart A;
  m_brake : ChTrackBrake A;
  m_suspensions : list (ChRoadWheelAssembly A);
  m_rollers : list (ChPart A);
  m_shoes : list (ChTrackShoe A);
  m_parent : option string;
  m_rel_loc : ChVector A;
  m_xform : ChFrame A;
  m_com : ChFrame A;
  m_inertia : ChMatrix33 A
}.
Arguments mkTrack {A}.
Arguments ta_part {A} _.
Arguments m_side {A} _.
Arguments m_idler_as_cylinder {A} _.
Arguments m_roller_as_cylinder {A} _.
Arguments m_roadwheel_as_cylinder {A} _.
Arguments m_sprocket {A} _.
Arguments m_idler {A} _.
Arguments m_brake {A} _.
Arguments m_suspensions {A} _.
Arguments m_rollers {A} _.
Arguments m_shoes {A} _.
Arguments m_parent {A} _.
Arguments m_rel_loc {A} _.
Arguments m_xform {A} _.
Arguments m_com {A} _.
Arguments m_inertia {A} _.

(** What a concrete track assembly defines: the locations of its parts
    relative to the assembly and the layout of its shoes ([Assemble]
    positions the shoes and tells whether the track winds
    counter-clockwise). *)
Class TrackLayout (A : Type) : Type := {
  GetSprocketLocation : ChVector A;
  GetIdlerLocation : ChVector A;
  GetRoadWhelAssemblyLocation : nat -> ChVector A;
  GetRollerLocation : nat -> ChVector A;
  Assemble : list (ChTrackShoe A) -> list (ChTrackShoe A) * bool
}.

Section Parts.
Context {A : Type} `{Scalar A}.

(** The calls on a part that this file makes. *)
Definition part_Initialize (p : ChPart A) (loc : ChVector A) : ChPart A :=
  mkPart (part_name p) (part_mass p) (Some loc) (part_vis p) (part_output p).

Definition part_SetVisualizationType (p : ChPart A) (vis : VisualizationType)
  : ChPart A :=
  mkPart (part_name p) (part_mass p) (part_location p) vis (part_output p).

Definition part_SetOutput (p : ChPart A) (state : bool) : ChPart A :=
  mkPart (part_name p) (part_mass p) (part_location p) (part_vis p) state.

Definition part_AddMass (p : ChPart A) (mass : A) : A := mass + part_mass p.

Definition on_shoe_part (s : ChTrackShoe A) (f : ChPart A -> ChPart A)
  : ChTrackShoe A :=
  mkShoe (f (shoe_part s)) (shoe_pitch s) (shoe_state s) (shoe_next s)
    (shoe_forces s) (shoe_torques s).

Definition on_suspension_part (s : ChRoadWheelAssembly A)
  (f : ChPart A -> ChPart A) : ChRoadWheelAssembly A :=
  mkSuspension (f (suspension_part s)) (road_wheel s).

Definition on_road_wheel (s : ChRoadWheelAssembly A)
  (f : ChPart A -> ChPart A) : ChRoadWheelAssembly A :=
  mkSuspension (suspension_part s) (f (road_wheel s)).

Definition on_sprocket_part (s : ChSprocket A) (f : ChPart A -> ChPart A)
  : ChSprocket A :=
  mkSprocket (f (sprocket_part s)) (axle_torque s).

Definition on_brake_part (b : ChTrackBrake A) (f : ChPart A -> ChPart A)
  : ChTrackBrake A :=
  mkBrake (f (brake_part b)) (brake_input b).

(** [shoe->Connect(next, ...)]. *)
Definition Connect (s : ChTrackShoe A) (next : nat) (ccw : bool) : ChTrackShoe A :=
  mkShoe (shoe_part s) (shoe_pitch s) (shoe_state s) (Some (next, ccw))
    (shoe_forces s) (shoe_torques s).

(** The three calls of [Synchronize] on the body of a shoe. *)
Definition shoe_load (s : ChTrackShoe A) (f : TerrainForce A) : ChTrackShoe A :=
  mkShoe (shoe_part s) (shoe_pitch s) (shoe_state s) (shoe_next s)
    ([] ++ [(force f, point f)]) ([] ++ [moment f]).

End Parts.

Section TrackAssembly.
Context {A : Type} `{Scalar A} `{TrackLayout A}.
Implicit Types (t : ChTrackAssembly A).

Definition set_shoes t (shoes : list (ChTrackShoe A)) : ChTrackAssembly A :=
  mkTrack (ta_part t) (m_side t) (m_idler_as_cylinder t)
    (m_roller_as_cylinder t) (m_roadwheel_as_cylinder t) (m_sprocket t)
    (m_idler t) (m_brake t) (m_suspensions t) (m_rollers t) shoes
    (m_parent t) (m_rel_loc t)
    (m_xform t) (m_com t) (m_inertia t).

Definition set_suspensions t (l : list (ChRoadWheelAssembly A)) :=
  mkTrack (ta_part t) (m_side t) (m_idler_as_cylinder t)
    (m_roller_as_cylinder t) (m_roadwheel_as_cylinder t) (m_sprocket t)
    (m_idler t) (m_brake t) l (m_rollers t) (m_shoes t)
    (m_parent t) (m_rel_loc t)
    (m_xform t) (m_com t) (m_inertia t).

Definition set_rollers t (l : list (ChPart A)) :=
  mkTrack (ta_part t) (m_side t) (m_idler_as_cylinder t)
    (m_roller_as_cylinder t) (m_roadwheel_as_cylinder t) (m_sprocket t)
    (m_idler t) (m_brake t) (m_suspensions t) l (m_shoes t)
    (m_parent t) (m_rel_loc t)
    (m_xform t) (m_com t) (m_inertia t).

Definition set_sprocket t (s : ChSprocket A) :=
  mkTrack (ta_part t) (m_side t) (m_idler_as_cylinder t)
    (m_roller_as_cylinder t) (m_roadwheel_as_cylinder t) s
    (m_idler t) (m_brake t) (m_suspensions t) (m_rollers t) (m_shoes t)
    (m_parent t) (m_rel_loc t)
    (m_xform t) (m_com t) (m_inertia t).

Definition set_idler t (p : ChPart A) :=
  mkTrack (ta_part t) (m_side t) (m_idler_as_cylinder t)
    (m_roller_as_cylinder t) (m_roadwheel_as_cylinder t) (m_sprocket t)
    p (m_brake t) (m_suspensions t) (m_rollers t) (m_shoes t)
    (m_parent t) (m_rel_loc t)
    (m_xform t) (m_com t) (m_inertia t).

Definition set_brake t (b : ChTrackBrake A) :=
  mkTrack (ta_part t) (m_side t) (m_idler_as_cylinder t)
    (m_roller_as_cylinder t) (m_roadwheel_as_cylinder t) (m_sprocket t)
    (m_idler t) b (m_suspensions t) (m_rollers t) (m_shoes t)
    (m_parent t) (m_rel_loc t)
    (m_xform t) (m_com t) (m_inertia t).

Definition set_ta_part t (p : ChPart A) :=
  mkTrack p (m_side t) (m_idler_as_cylinder t)
    (m_roller_as_cylinder t) (m_roadwheel_as_cylinder t) (m_sprocket t)
    (m_idler t) (m_brake t) (m_suspensions t) (m_rollers t) (m_shoes t)
    (m_parent t) (m_rel_loc t)
    (m_xform t) (m_com t) (m_inertia t).

(** [map] with the index of each element, from [i] on: the body of a
    loop [for (i = 0; i < v.size(); ++i) v[i]->f(i)]. *)
Fixpoint mapi {X Y} (f : nat -> X -> Y) (i : nat) (l : list X) : list Y :=
  match l with
  | [] => []
  | x :: rest => f i x :: mapi f (S i) rest
  end.

(** [ChTrackAssembly(name, side)]: the parts are created by the derived
    class and given here. *)
Definition ChTrackAssembly_new (name : string) (side : VehicleSide)
  (sprocket : ChSprocket A) (idler : ChPart A) (brake : ChTrackBrake A)
  (suspensions : list (ChRoadWheelAssembly A)) (rollers : list (ChPart A))
  (shoes : list (ChTrackShoe A)) : ChTrackAssembly A :=
  mkTrack (mkPart name #0 None VIS_NONE true) side true true true
    sprocket idler brake suspensions rollers shoes None VNULL
    (mkFrame VNULL Midentity) (mkFrame VNULL Midentity) Mzero.

Definition GetNumTrackShoes t : nat := List.length (m_shoes t).

Definition GetTrackShoe t (id : nat) : res (ChTrackShoe A) :=
  vec_at (m_shoes t) id.

(** [GetTrackShoeState(id)]. *)
Definition GetTrackShoeState t (id : nat) : res (BodyState A) :=
  (s <- GetTrackShoe t id ;;
   Ok (mkBodyState (pos (shoe_state s)) (rot (shoe_state s))
         (lin_vel (shoe_state s)) (ang_vel (shoe_state s))))%res.

(** The loop of [GetTrackShoeStates]: [states[i] = GetTrackShoeState(i)]
    for [i] from [i] up to [i + k]. *)
Fixpoint states_loop t (k i : nat) (states : list (BodyState A))
  : res (list (BodyState A)) :=
  match k with
  | O => Ok states
  | S k =>
      (st <- GetTrackShoeState t i ;;
       states <- vec_set_z states (Z.of_nat i) st ;;
       states_loop t k (S i) states)%res
  end.

(** [GetTrackShoeStates(states)], with its assertion. *)
Definition GetTrackShoeStates t (states : list (BodyState A))
  : res (list (BodyState A)) :=
  let num_shoes := GetNumTrackShoes t in
  if Nat.eqb (List.length states) num_shoes
  then states_loop t num_shoes 0 states
  else Err AssertFail.

(** The loop of [Initialize] that connects every shoe to its neighbour,
    the last one to the first. *)
Fixpoint connect_loop (k i num_shoes : nat) (ccw : bool)
  (shoes : list (ChTrackShoe A)) : res (list (ChTrackShoe A)) :=
  match k with
  | O => Ok shoes
  | S k =>
      let next := if Nat.eqb i (num_shoes - 1) then 0 else i + 1 in
      (_ <- vec_at shoes next ;;
       s <- vec_at shoes i ;;
       shoes <- vec_set_z shoes (Z.of_nat i) (Connect s next ccw) ;;
       connect_loop k (S i) num_shoes ccw shoes)%res
  end%nat.

(** [Initialize(chassis, location, create_shoes)]. *)
Definition TA_Initialize t (chassis : string) (location : ChVector A)
  (create_shoes : bool) : res (ChTrackAssembly A) :=
  let t := mkTrack (ta_part t) (m_side t) (m_idler_as_cylinder t)
             (m_roller_as_cylinder t) (m_roadwheel_as_cylinder t)
             (on_sprocket_part (m_sprocket t)
                (fun p => part_Initialize p (Vadd location GetSprocketLocation)))
             (part_Initialize (m_idler t) (Vadd location GetIdlerLocation))
             (on_brake_part (m_brake t)
                (fun p => part_Initialize p (Vadd location GetSprocketLocation)))
             (mapi (fun i s => on_suspension_part s (fun p =>
                      part_Initialize p
                        (Vadd location (GetRoadWhelAssemblyLocation i))))
                   0 (m_suspensions t))
             (mapi (fun i p => part_Initialize p
                                 (Vadd location (GetRollerLocation i)))
                   0 (m_rollers t))
             (m_shoes t) (Some chassis) location
             (m_xform t) (m_com t) (m_inertia t) in
  if negb create_shoes then Ok (set_shoes t [])
  else
    let '(shoes, ccw) := Assemble (m_shoes t) in
    let num_shoes := List.length shoes in
    (shoes <- connect_loop num_shoes 0 num_shoes ccw shoes ;;
     Ok (set_shoes t shoes))%res.

(** [InitializeInertiaProperties()]: the mass is accumulated part by
    part. *)
Definition InitializeInertiaProperties t : ChTrackAssembly A :=
  let m := #0 in
  let m := part_AddMass (sprocket_part (m_sprocket t)) m in
  let m := part_AddMass (m_idler t) m in
  let m := fold_left (fun m s => part_AddMass (suspension_part s) m)
             (m_suspensions t) m in
  let m := fold_left (fun m r => part_AddMass r m) (m_rollers t) m in
  let m := fold_left (fun m s => part_AddMass (shoe_part s) m) (m_shoes t) m in
  set_ta_part t (mkPart (part_name (ta_part t)) m (part_location (ta_part t))
                   (part_vis (ta_part t)) (part_output (ta_part t))).

(** [ReportTrackLength()]: the pitch of shoe 0 times the number of shoes.
    The shoes of the model are objects, never null pointers, so the
    [return 0] of the source for a null [GetTrackShoe(0)] has no
    counterpart; on an assembly without shoes the source indexes the empty
    [m_shoes], which is the fault reported here. *)
Definition ReportTrackLength t : res A :=
  (s <- GetTrackShoe t 0 ;;
   Ok (shoe_pitch s * #(Z.of_nat (GetNumTrackShoes t))))%res.

(** ** Visualization and collision settings *)

Definition SetSprocketVisualizationType t (vis : VisualizationType) :=
  set_sprocket t (on_sprocket_part (m_sprocket t)
                    (fun p => part_SetVisualizationType p vis)).

Definition SetIdlerVisualizationType t (vis : VisualizationType) :=
  set_idler t (part_SetVisualizationType (m_idler t) vis).

Definition SetRoadWheelAssemblyVisualizationType t (vis : VisualizationType) :=
  set_suspensions t
    (map (fun s => on_suspension_part s (fun p => part_SetVisualizationType p vis))
         (m_suspensions t)).

Definition SetRoadWheelVisualizationType t (vis : VisualizationType) :=
  set_suspensions t
    (map (fun s => on_road_wheel s (fun p => part_SetVisualizationType p vis))
         (m_suspensions t)).

Definition SetRollerVisualizationType t (vis : VisualizationType) :=
  set_rollers t (map (fun p => part_SetVisualizationType p vis) (m_rollers t)).

Definition SetTrackShoeVisualizationType t (vis : VisualizationType) :=
  let t := set_ta_part t (part_SetVisualizationType (ta_part t) vis) in
  set_shoes t
    (map (fun s => on_shoe_part s (fun p => part_SetVisualizationType p vis))
         (m_shoes t)).

Definition SetWheelCollisionType t
  (roadwheel_as_cylinder idler_as_cylinder roller_as_cylinder : bool) :=
  mkTrack (ta_part t) (m_side t) idler_as_cylinder roller_as_cylinder
    roadwheel_as_cylinder (m_sprocket t) (m_idler t) (m_brake t)
    (m_suspensions t) (m_rollers t) (m_shoes t) (m_parent t) (m_rel_loc t)
    (m_xform t) (m_com t) (m_inertia t).

(** ** Synchronize *)

(** The loop of [Synchronize]: the accumulators of shoe [i] are emptied
    and loaded with [shoe_forces[i]]. *)
Fixpoint sync_loop (i : nat) (shoes : list (ChTrackShoe A))
  (shoe_forces : list (TerrainForce A)) : res (list (ChTrackShoe A)) :=
  match shoes with
  | [] => Ok []
  | s :: rest =>
      (f <- vec_at shoe_forces i ;;
       rest <- sync_loop (S i) rest shoe_forces ;;
       Ok (shoe_load s f :: rest))%res
  end.

(** [Synchronize(time, braking, shoe_forces)]. *)
Definition Synchronize t (time braking : A) (shoe_forces : list (TerrainForce A))
  : res (ChTrackAssembly A) :=
  let t := set_sprocket t (mkSprocket (sprocket_part (m_sprocket t)) #0) in
  (shoes <- sync_loop 0 (m_shoes t) shoe_forces ;;
   let t := set_shoes t shoes in
   Ok (set_brake t (mkBrake (brake_part (m_brake t)) braking)))%res.

(** ** Output *)

(** [SetOutput(state)]: the flag of the assembly and of every part, but
    of the first shoe only. *)
Definition SetOutput t (state : bool) : ChTrackAssembly A :=
  let t := set_ta_part t (part_SetOutput (ta_part t) state) in
  let t := set_sprocket t (on_sprocket_part (m_sprocket t)
                             (fun p => part_SetOutput p state)) in
  let t := set_brake t (on_brake_part (m_brake t)
                          (fun p => part_SetOutput p state)) in
  let t := set_idler t (part_SetOutput (m_idler t) state) in
  let t := set_suspensions t
    (map (fun s => on_suspension_part s (fun p => part_SetOutput p state))
         (m_suspensions t)) in
  let t := set_rollers t (map (fun p => part_SetOutput p state) (m_rollers t)) in
  match m_shoes t with
  | [] => t
  | s :: rest =>
      set_shoes t (on_shoe_part s (fun p => part_SetOutput p state) :: rest)
  end.

(** [Output(database)]: the names of the sections written, in order. *)
Definition Output t : list string :=
  if negb (part_output (ta_part t)) then []
  else
    [part_name (sprocket_part (m_sprocket t)); part_name (brake_part (m_brake t));
     part_name (m_idler t)]
    ++ flat_map (fun s => [part_name (suspension_part s);
                           part_name (road_wheel s)]) (m_suspensions t)
    ++ map part_name (m_rollers t)
    ++ match m_shoes t with
       | [] => []
       | s :: _ => [part_name (shoe_part s)]
       end.

(** [ExportComponentList(jsonDocument)]: the members added to the
    document after those of the base class, in order, with the number of
    elements of the two arrays. *)
Definition ExportComponentList t : list (string * nat) :=
  [("number shoes"%string, GetNumTrackShoes t); ("sprocket"%string, 1);
   ("brake"%string, 1); ("idler"%string, 1);
   ("suspensions"%string, List.length (m_suspensions t));
   ("rollers"%string, List.length (m_rollers t))]
  ++ if Nat.ltb 0 (GetNumTrackShoes t) then [("shoe 0"%string, 1)] else [].

End TrackAssembly.

(** ** The loops *)

Section Loops.
Local Open Scope nat_scope.
Context {A : Type} `{Scalar A} `{TrackLayout A}.
Implicit Types (t : ChTrackAssembly A).

(** The neighbour of shoe [i] in a track of [n] shoes. *)
Definition next_shoe (n i : nat) : nat := if Nat.eqb i (n - 1) then 0 else i + 1.

(** The shoes connected in a ring. *)
Definition ring (ccw : bool) (shoes : list (ChTrackShoe A)) : list (ChTrackShoe A) :=
  mapi (fun i s => Connect s (next_shoe (List.length shoes) i) ccw) 0 shoes.

Lemma mapi_length {X Y} (f : nat -> X -> Y) (l : list X) : forall i,
  List.length (mapi f i l) = List.length l.
Proof. induction l as [| x l IH]; intros i; simpl; [| rewrite IH]; reflexivity. Qed.

Lemma mapi_nth_error {X Y} (f : nat -> X -> Y) (l : list X) : forall i j,
  nth_error (mapi f i l) j = option_map (f (i + j)) (nth_error l j).
Proof.
  induction l as [| x l IH]; intros i [| j]; simpl; try reflexivity.
  - rewrite Nat.add_0_r. reflexivity.
  - rewrite IH. do 2 f_equal. lia.
Qed.

Lemma next_shoe_lt (n i : nat) : i < n -> next_shoe n i < n.
Proof. unfold next_shoe. destruct (Nat.eqb_spec i (n - 1)); lia. Qed.

Lemma next_shoe_mod (n i : nat) : i < n -> next_shoe n i = (i + 1) mod n.
Proof.
  intros Hi. unfold next_shoe. destruct (Nat.eqb_spec i (n - 1)) as [-> | Hne].
  - replace (n - 1 + 1) with n by lia. rewrite Nat.Div0.mod_same. reflexivity.
  - rewrite Nat.mod_small by lia. reflexivity.
Qed.

(** The connecting loop, from shoe [i] on. *)
Lemma connect_loop_run (ccw : bool) (post : list (ChTrackShoe A)) :
  forall (pre : list (ChTrackShoe A)) (n : nat),
    n = List.length pre + List.length post ->
    connect_loop (List.length post) (List.length pre) n ccw (pre ++ post) =
    Ok (pre ++ mapi (fun i s => Connect s (next_shoe n i) ccw)
                 (List.length pre) post).
Proof.
  induction post as [| s post IH]; intros pre n Hn; [reflexivity |].
  cbn [connect_loop List.length mapi]. fold (next_shoe n (List.length pre)).
  destruct (vec_at_ok (pre ++ s :: post) (next_shoe n (List.length pre)))
    as (x & -> & _).
  { replace (List.length (pre ++ s :: post)) with n
      by (rewrite length_app; exact Hn).
    apply next_shoe_lt. simpl in Hn. lia. }
  cbn [res_bind]. rewrite vec_at_middle. cbn [res_bind].
  rewrite vec_set_z_middle. cbn [res_bind].
  rewrite app_cons_snoc.
  match goal with |- context [(pre ++ [?x]) ++ post] =>
    replace (S (List.length pre)) with (List.length (pre ++ [x]))
      by (rewrite length_app; simpl; lia) end.
  rewrite IH by (rewrite length_app; simpl in *; lia).
  rewrite <- app_assoc, length_app. cbn [List.length app].
  replace (List.length pre + 1) with (S (List.length pre)) by lia.
  reflexivity.
Qed.

Lemma connect_loop_ring (ccw : bool) (shoes : list (ChTrackShoe A)) :
  connect_loop (List.length shoes) 0 (List.length shoes) ccw shoes =
  Ok (ring ccw shoes).
Proof. apply (connect_loop_run ccw shoes []). reflexivity. Qed.

(** The loop of [GetTrackShoeStates], from shoe [i] on. *)
Lemma states_loop_run t (post : list (BodyState A)) :
  forall (pre : list (BodyState A)) (done shoes : list (ChTrackShoe A)),
    m_shoes t = done ++ shoes ->
    List.length done = List.length pre ->
    List.length shoes = List.length post ->
    states_loop t (List.length post) (List.length pre) (pre ++ post) =
    Ok (pre ++ map shoe_state shoes).
Proof.
  induction post as [| st post IH]; intros pre done shoes Hs Hd Hl.
  - destruct shoes; [reflexivity | discriminate].
  - destruct shoes as [| s shoes]; [discriminate |].
    cbn [states_loop List.length map]. unfold GetTrackShoeState, GetTrackShoe.
    rewrite Hs, <- Hd, vec_at_middle. cbn [res_bind].
    rewrite Hd, vec_set_z_middle. cbn [res_bind].
    replace (mkBodyState _ _ _ _) with (shoe_state s)
      by (destruct (shoe_state s); reflexivity).
    rewrite app_cons_snoc.
    replace (S (List.length pre)) with (List.length (pre ++ [shoe_state s]))
      by (rewrite length_app; simpl; lia).
    rewrite (IH _ (done ++ [s]) shoes).
    + rewrite <- app_assoc. reflexivity.
    + rewrite Hs. apply app_cons_snoc.
    + rewrite !length_app. simpl. lia.
    + simpl in Hl. lia.
Qed.

End Loops.

(** ** Properties *)

Section Properties.
Local Open Scope nat_scope.
Context {A : Type} `{Scalar A} `{TrackLayout A}.
Implicit Types (t : ChTrackAssembly A).

(** C7: [Initialize] closes the track into a ring.  With shoes it
    always returns; the shoes are those laid out by [Assemble], in the
    same number, and shoe [i] is connected to shoe [(i + 1) mod n] with the
    winding direction that [Assemble] answered: each shoe to the next and
    the last to the first.  An assembly without shoes returns unchanged
    shoes and needs no case of its own. *)
Theorem Initialize_ring t (chassis : string) (location : ChVector A) :
  let shoes := fst (Assemble (m_shoes t)) in
  let ccw := snd (Assemble (m_shoes t)) in
  exists t',
    TA_Initialize t chassis location true = Ok t' /\
    m_parent t' = Some chassis /\ m_rel_loc t' = location /\
    List.length (m_shoes t') = List.length shoes /\
    forall i s, nth_error shoes i = Some s ->
      nth_error (m_shoes t') i =
        Some (Connect s ((i + 1) mod List.length shoes) ccw).
Proof.
  intros shoes ccw. unfold TA_Initialize. cbv zeta. cbn [negb m_shoes].
  subst shoes ccw. destruct (Assemble (m_shoes t)) as [shoes ccw].
  cbn [fst snd]. rewrite connect_loop_ring. cbn [res_bind].
  eexists. split; [reflexivity |].
  cbn [set_shoes m_shoes m_parent m_rel_loc]. unfold ring.
  repeat split; [apply mapi_length |].
  intros i s Hi. rewrite mapi_nth_error, Hi. cbn [option_map Nat.add].
  rewrite next_shoe_mod by (apply nth_error_Some; rewrite Hi; discriminate).
  reflexivity.
Qed.

(** [GetTrackShoeStates] fills the vector it is given with the
    state of every shoe, in order, and asserts that the vector has one
    slot per shoe: with any other size the assertion fails. *)
Theorem GetTrackShoeStates_spec t (states : list (BodyState A)) :
  GetTrackShoeStates t states =
  if Nat.eqb (List.length states) (List.length (m_shoes t))
  then Ok (map shoe_state (m_shoes t))
  else Err AssertFail.
Proof.
  unfold GetTrackShoeStates, GetNumTrackShoes.
  destruct (Nat.eqb_spec (List.length states) (List.length (m_shoes t)))
    as [E |]; [| reflexivity].
  rewrite <- E.
  apply (states_loop_run t states [] [] (m_shoes t)); auto.
Qed.

(** The loop of [Synchronize] succeeds exactly when there is a force for
    every shoe, and then loads every shoe with its own force. *)
Lemma sync_loop_spec (shoes : list (ChTrackShoe A))
  (shoe_forces : list (TerrainForce A)) : forall i,
  sync_loop i shoes shoe_forces =
  if Nat.leb (i + List.length shoes) (List.length shoe_forces)
  then Ok (map (fun '(s, f) => shoe_load s f)
             (combine shoes (skipn i shoe_forces)))
  else if Nat.eqb (List.length shoes) 0 then Ok [] else Err OutOfRange.
Proof.
  induction shoes as [| s shoes IH]; intros i; cbn [sync_loop List.length].
  - destruct (Nat.leb _ _); reflexivity.
  - rewrite IH. cbn [Nat.eqb].
    destruct (Nat.leb_spec (i + S (List.length shoes)) (List.length shoe_forces))
      as [Hle | Hgt].
    + destruct (vec_at_ok shoe_forces i) as (f & Ef & Hf); [lia |].
      rewrite Ef. cbn [res_bind].
      destruct (Nat.leb_spec (S i + List.length shoes) (List.length shoe_forces));
        [| lia].
      cbn [res_bind]. do 2 f_equal.
      rewrite (skipn_nth_cons shoe_forces i f Hf). reflexivity.
    + destruct (Nat.lt_ge_cases i (List.length shoe_forces)) as [Hi | Hi].
      * destruct (vec_at_ok shoe_forces i Hi) as (f & -> & _). cbn [res_bind].
        destruct (Nat.leb_spec (S i + List.length shoes) (List.length shoe_forces));
          [lia |].
        destruct (Nat.eqb_spec (List.length shoes) 0); [lia | reflexivity].
      * rewrite vec_at_err by lia. reflexivity.
Qed.

End Properties.

Section MoreProperties.
Context {A : Type} `{Scalar A} `{TrackLayout A}.
Implicit Types (t : ChTrackAssembly A).

(** C10: [Synchronize] needs a terrain force for every shoe.  It returns
    exactly when [shoe_forces] has at least as many entries as there are
    shoes, and reads past the end of [shoe_forces] otherwise.  When it
    returns, the torque applied to the sprocket axle is zero, the brake
    holds the braking input, and the accumulators of every shoe hold the
    force, application point and moment of its own entry and nothing
    else; no other member changes. *)
Theorem Synchronize_spec t (time braking : A) (shoe_forces : list (TerrainForce A)) :
  Synchronize t time braking shoe_forces =
  if Nat.leb (List.length (m_shoes t)) (List.length shoe_forces)
  then Ok (mkTrack (ta_part t) (m_side t) (m_idler_as_cylinder t)
             (m_roller_as_cylinder t) (m_roadwheel_as_cylinder t)
             (mkSprocket (sprocket_part (m_sprocket t)) #0) (m_idler t)
             (mkBrake (brake_part (m_brake t)) braking)
             (m_suspensions t) (m_rollers t)
             (map (fun '(s, f) =>
                     mkShoe (shoe_part s) (shoe_pitch s) (shoe_state s)
                       (shoe_next s) [(force f, point f)] [moment f])
                  (combine (m_shoes t) shoe_forces))
             (m_parent t) (m_rel_loc t)
    (m_xform t) (m_com t) (m_inertia t))
  else Err OutOfRange.
Proof.
  unfold Synchronize. cbv zeta. cbn [set_sprocket m_shoes].
  rewrite sync_loop_spec. cbn [Nat.add skipn].
  destruct (Nat.leb_spec (List.length (m_shoes t)) (List.length shoe_forces))
    as [Hle | Hgt]; [reflexivity |].
  destruct (Nat.eqb_spec (List.length (m_shoes t)) 0); [lia | reflexivity].
Qed.

(** [SetOutput] and [Output].  After [SetOutput(false)] nothing is
    written.  After [SetOutput(true)] the sections are the sprocket, the
    brake, the idler, every suspension followed by its road wheel, every
    roller and the first shoe, in this order.  [SetOutput] changes the
    flag of the first shoe only: the other shoes keep theirs. *)
Theorem SetOutput_Output t :
  Output (SetOutput t false) = [] /\
  Output (SetOutput t true) =
    [part_name (sprocket_part (m_sprocket t)); part_name (brake_part (m_brake t));
     part_name (m_idler t)]
    ++ flat_map (fun s => [part_name (suspension_part s);
                           part_name (road_wheel s)]) (m_suspensions t)
    ++ map part_name (m_rollers t)
    ++ map (fun s => part_name (shoe_part s)) (firstn 1 (m_shoes t)) /\
  forall state, tl (m_shoes (SetOutput t state)) = tl (m_shoes t).
Proof.
  assert (Hs : forall state l,
    flat_map (fun s : ChRoadWheelAssembly A =>
                [part_name (suspension_part s); part_name (road_wheel s)])
      (map (fun s => on_suspension_part s (fun p => part_SetOutput p state)) l) =
    flat_map (fun s => [part_name (suspension_part s); part_name (road_wheel s)]) l)
    by (intros state l; induction l as [| s l IH]; simpl; [| rewrite IH]; reflexivity).
  unfold SetOutput, Output. cbv zeta.
  cbn. destruct (m_shoes t) as [| s shoes] eqn:Es; cbn;
    rewrite ?Es, ?Hs, ?map_map; repeat split; reflexivity.
Qed.

End MoreProperties.

(** ** The mass of the assembly *)

Section Mass.
Local Open Scope R_scope.
Context `{TrackLayout R}.
Implicit Types (t : ChTrackAssembly R).

(** The sum of a list of masses. *)
Definition sum_mass (l : list R) : R := fold_right Rplus 0 l.

(** The masses of the parts of an assembly. *)
Definition part_masses t : list R :=
  part_mass (sprocket_part (m_sprocket t)) :: part_mass (m_idler t)
  :: map (fun s => part_mass (suspension_part s)) (m_suspensions t)
  ++ map part_mass (m_rollers t)
  ++ map (fun s => part_mass (shoe_part s)) (m_shoes t).

Lemma fold_left_AddMass {X} (g : X -> ChPart R) (l : list X) : forall m,
  fold_left (fun m x => part_AddMass (g x) m) l m =
  m + sum_mass (map (fun x => part_mass (g x)) l).
Proof.
  induction l as [| x l IH]; intros m; simpl; [lra |].
  rewrite IH. unfold part_AddMass. scalar_unfold. lra.
Qed.

Lemma fold_left_AddMass_parts (l : list (ChPart R)) (m : R) :
  fold_left (fun m r => part_AddMass r m) l m = m + sum_mass (map part_mass l).
Proof. apply (fold_left_AddMass (fun r => r)). Qed.

Lemma sum_mass_app (l1 l2 : list R) :
  sum_mass (l1 ++ l2) = sum_mass l1 + sum_mass l2.
Proof. induction l1 as [| x l1 IH]; simpl; [lra | rewrite IH; lra]. Qed.

Lemma sum_mass_nonneg (l : list R) : Forall (fun m => 0 <= m) l -> 0 <= sum_mass l.
Proof. induction 1; simpl; lra. Qed.

(** The mass [InitializeInertiaProperties] stores. *)
Lemma InitializeInertiaProperties_sum t :
  part_mass (ta_part (InitializeInertiaProperties t)) = sum_mass (part_masses t).
Proof.
  unfold InitializeInertiaProperties, part_masses.
  cbv zeta. cbn [set_ta_part ta_part part_mass].
  rewrite fold_left_AddMass_parts, !fold_left_AddMass.
  unfold part_AddMass. scalar_unfold.
  cbn [sum_mass fold_right]. fold sum_mass. rewrite !sum_mass_app. lra.
Qed.

(** [InitializeInertiaProperties] computes the total mass.  The
    mass it stores is the sum of the masses of the sprocket, the idler,
    the suspensions, the rollers and the shoes, whatever the mass stored
    before; it is not negative when no part has a negative mass; and the
    call is idempotent. *)
Theorem InitializeInertiaProperties_mass t :
  let t' := InitializeInertiaProperties t in
  part_mass (ta_part t') = sum_mass (part_masses t) /\
  (Forall (fun m => 0 <= m) (part_masses t) -> 0 <= part_mass (ta_part t')) /\
  InitializeInertiaProperties t' = t'.
Proof.
  intros t'. split; [apply InitializeInertiaProperties_sum | split].
  - intros Hpos. unfold t'. rewrite InitializeInertiaProperties_sum.
    apply sum_mass_nonneg, Hpos.
  - reflexivity.
Qed.

End Mass.

(** ** A track of three shoes, run in binary64 *)

Section Demo.

(** A layout that keeps the shoes where they are and winds
    counter-clockwise. *)
#[local] Instance demo_layout : TrackLayout PrimFloat.float := {|
  GetSprocketLocation := mkV #1 #0 #0;
  GetIdlerLocation := mkV (- #1) #0 #0;
  GetRoadWhelAssemblyLocation := fun i => mkV #(Z.of_nat i) #0 (- #1);
  GetRollerLocation := fun i => mkV #(Z.of_nat i) #0 #1;
  Assemble := fun shoes => (shoes, true)
|}.

Definition demo_part (name : string) (mass : Z) : ChPart PrimFloat.float :=
  mkPart name #mass None VIS_NONE false.

Definition demo_shoe (name : string) : ChTrackShoe PrimFloat.float :=
  mkShoe (demo_part name 2) (lit 15 100)
    (mkBodyState VNULL Midentity VNULL VNULL) None [] [].

Definition demo_track : ChTrackAssembly PrimFloat.float :=
  ChTrackAssembly_new "track" LEFT
    (mkSprocket (demo_part "sprocket" 30) #0) (demo_part "idler" 20)
    (mkBrake (demo_part "brake" 0) #0) [] []
    [demo_shoe "shoe 0"; demo_shoe "shoe 1"; demo_shoe "shoe 2"].

(** The three shoes are connected 0 -> 1 -> 2 -> 0, the mass is
    30 + 20 + 3 * 2, and one force too few makes [Synchronize] fault. *)
Example demo_track_run :
  res_map (fun t => map shoe_next (m_shoes t))
    (TA_Initialize demo_track "chassis" VNULL true) =
    Ok [Some (1, true); Some (2, true); Some (0, true)] /\
  part_mass (ta_part (InitializeInertiaProperties demo_track)) = #56 /\
  Synchronize demo_track #0 #0
    [mkTerrainForce VNULL VNULL VNULL; mkTerrainForce VNULL VNULL VNULL] =
    Err OutOfRange.
Proof. vm_compute. repeat split; reflexivity. Qed.

End Demo.
