(* ===== verification/TrackReports.v ===== *)
(** * TrackReports: inertia, suspension forces and constraint log of
      [ChTrackAssembly]

    The three member functions of [ChTrackAssembly] that report on the
    parts: [UpdateInertiaProperties] (the frame, the centre of mass and the
    inertia tensor of the assembly from those of its parts),
    [ReportSuspensionForce] and [LogConstraintViolations].  What a part
    answers when asked ([PartReports]) belongs to the classes of the parts,
    which are not in the excerpt; [ChPart::AddInertiaProperties] and
    [utils::CompositeInertia::InertiaShiftMatrix] follow their documented
    behaviour. *)

From Stdlib Require Import Reals Lra Psatz RNsatz ZArith Lia List Bool String.
From Stdlib Require PrimFloat.
From S2P Require Import Prelude ChMath ChVector Interfaces TrackAssembly.
Import ListNotations.

Local Open Scope scalar_scope.

(** What the parts answer: for a part, its frame, its centre-of-mass
    frame relative to it and its inertia tensor relative to the latter, as
    its own [UpdateInertiaProperties] leaves them; for a suspension, the
    forces it reports. *)
Class PartReports (A FT : Type) : Type := {
  part_xform : ChPart A -> ChFrame A;
  part_com : ChPart A -> ChFrame A;
  part_inertia : ChPart A -> ChMatrix33 A;
  suspension_force : ChRoadWheelAssembly A -> FT
}.

(** One entry of the log of constraint violations: a heading written by
    the assembly, or the report of the part of that name. *)
Inductive LogItem : Type :=
| LogHeading (kind : string) (index : option nat)
| LogViolations (part : string).

Section Reports.
Context {A FT : Type} `{Scalar A} `{PartReports A FT}.
Implicit Types (t : ChTrackAssembly A).

(** [utils::CompositeInertia::InertiaShiftMatrix(v)]. *)
Definition InertiaShiftMatrix (v : ChVector A) : ChMatrix33 A :=
  mkM (mkV (vy v * vy v + vz v * vz v) (- vx v * vy v) (- vx v * vz v))
      (mkV (- vx v * vy v) (vx v * vx v + vz v * vz v) (- vy v * vz v))
      (mkV (- vx v * vz v) (- vy v * vz v) (vx v * vx v + vy v * vy v)).

(** What a part adds to the inertia: its tensor turned into the global
    frame and shifted from its centre of mass to the origin. *)
Definition part_inertia_abs (p : ChPart A) : ChMatrix33 A :=
  let com_abs := TransformLocalToParent (part_xform p) (part_com p) in
  Madd (MMmul (MMmul (frame_rot com_abs) (part_inertia p))
              (Mtranspose (frame_rot com_abs)))
       (Mscale (InertiaShiftMatrix (frame_pos com_abs)) (part_mass p)).

(** [part->AddInertiaProperties(com, inertia)]. *)
Definition part_AddInertiaProperties (p : ChPart A)
  (acc : ChVector A * ChMatrix33 A) : ChVector A * ChMatrix33 A :=
  let com_abs := TransformLocalToParent (part_xform p) (part_com p) in
  (Vadd (fst acc) (Vmul (frame_pos com_abs) (part_mass p)),
   Madd (snd acc) (part_inertia_abs p)).

Definition set_inertia t (xform com : ChFrame A) (inertia : ChMatrix33 A)
  : ChTrackAssembly A :=
  mkTrack (ta_part t) (m_side t) (m_idler_as_cylinder t)
    (m_roller_as_cylinder t) (m_roadwheel_as_cylinder t) (m_sprocket t)
    (m_idler t) (m_brake t) (m_suspensions t) (m_rollers t) (m_shoes t)
    (m_parent t) (m_rel_loc t) xform com inertia.

(** [UpdateInertiaProperties()]; [parent] is the transform of the
    chassis when the call is made. *)
Definition UpdateInertiaProperties t (parent : ChFrame A)
  : res (ChTrackAssembly A) :=
  match m_parent t with
  | None => Err NullDeref
  | Some _ =>
      let xform := TransformLocalToParent parent
                     (mkFrame (m_rel_loc t) Midentity) in
      let acc := (VNULL, Mzero) in
      let acc := part_AddInertiaProperties (sprocket_part (m_sprocket t)) acc in
      let acc := part_AddInertiaProperties (m_idler t) acc in
      let acc := fold_left (fun acc s =>
                   part_AddInertiaProperties (suspension_part s) acc)
                   (m_suspensions t) acc in
      let acc := fold_left (fun acc r => part_AddInertiaProperties r acc)
                   (m_rollers t) acc in
      let acc := fold_left (fun acc s =>
                   part_AddInertiaProperties (shoe_part s) acc)
                   (m_shoes t) acc in
      let '(com, inertia) := acc in
      let m_com := mkFrame
        (TransformPointParentToLocal xform (Vdiv com (part_mass (ta_part t))))
        (frame_rot xform) in
      let a := frame_rot xform in
      Ok (set_inertia t xform m_com
            (MMmul (MMmul (Mtranspose a)
                          (Msub inertia (InertiaShiftMatrix com))) a))
  end.

(** [ReportSuspensionForce(id)]. *)
Definition ReportSuspensionForce t (id : nat) : res FT :=
  (s <- vec_at (m_suspensions t) id ;; Ok (suspension_force s))%res.

(** [LogConstraintViolations()]: what is written to the log, in order. *)
Definition LogConstraintViolations t : list LogItem :=
  [LogHeading "SPROCKET" None;
   LogViolations (part_name (sprocket_part (m_sprocket t)));
   LogHeading "IDLER" None; LogViolations (part_name (m_idler t))]
  ++ List.concat (mapi (fun i s => [LogHeading "SUSPENSION" (Some i);
                               LogViolations (part_name (suspension_part s))])
                  0 (m_suspensions t))
  ++ List.concat (mapi (fun i r => [LogHeading "ROLLER" (Some i);
                               LogViolations (part_name r)])
                  0 (m_rollers t)).

End Reports.

(** ** The inertia of the assembly *)

Section Inertia.
Local Open Scope R_scope.
Context {FT : Type} `{PartReports R FT}.
Implicit Types (t : ChTrackAssembly R) (p : ChPart R).

(** The parts that contribute, in the order of the loops. *)
Definition parts_of t : list (ChPart R) :=
  sprocket_part (m_sprocket t) :: m_idler t
  :: map suspension_part (m_suspensions t)
  ++ m_rollers t
  ++ map shoe_part (m_shoes t).

(** The centre of mass of a part in the global frame. *)
Definition part_com_abs p : ChVector R :=
  frame_pos (TransformLocalToParent (part_xform p) (part_com p)).

(** The first moment of mass and the inertia about the global origin of
    a list of parts. *)
Definition moment_sum (l : list (ChPart R)) : ChVector R :=
  fold_right (fun p v => Vadd (Vmul (part_com_abs p) (part_mass p)) v) VNULL l.

Definition inertia_sum (l : list (ChPart R)) : ChMatrix33 R :=
  fold_right (fun p m => Madd (part_inertia_abs p) m) Mzero l.

Lemma moment_sum_app (l1 l2 : list (ChPart R)) :
  moment_sum (l1 ++ l2) = Vadd (moment_sum l1) (moment_sum l2).
Proof.
  induction l1 as [| p l1 IH]; simpl; [symmetry; apply Vadd_VNULL_l |].
  rewrite IH. symmetry. apply Vadd_assoc.
Qed.

Lemma inertia_sum_app (l1 l2 : list (ChPart R)) :
  inertia_sum (l1 ++ l2) = Madd (inertia_sum l1) (inertia_sum l2).
Proof.
  induction l1 as [| p l1 IH]; simpl; [symmetry; apply Madd_Mzero_l |].
  rewrite IH. symmetry. apply Madd_assoc.
Qed.

Lemma AddInertia_unfold p (acc : ChVector R * ChMatrix33 R) :
  part_AddInertiaProperties p acc =
  (Vadd (fst acc) (Vmul (part_com_abs p) (part_mass p)),
   Madd (snd acc) (part_inertia_abs p)).
Proof. reflexivity. Qed.

(** A loop of [AddInertiaProperties] adds the sums of its parts. *)
Lemma fold_left_AddInertia {X} (g : X -> ChPart R) (l : list X) :
  forall acc : ChVector R * ChMatrix33 R,
  fold_left (fun acc x => part_AddInertiaProperties (g x) acc) l acc =
  (Vadd (fst acc) (moment_sum (map g l)),
   Madd (snd acc) (inertia_sum (map g l))).
Proof.
  induction l as [| x l IH]; intros [c i]; simpl.
  - rewrite Vadd_VNULL_r, Madd_Mzero_r. reflexivity.
  - rewrite IH, AddInertia_unfold. cbn [fst snd].
    rewrite Vadd_assoc, Madd_assoc. reflexivity.
Qed.

(** The shift matrix is quadratic in its argument. *)
Lemma InertiaShiftMatrix_scale (c : ChVector R) (m : R) :
  InertiaShiftMatrix (Vmul c m) = Mscale (InertiaShiftMatrix c) (m * m).
Proof.
  destruct c as [x y z]. unfold InertiaShiftMatrix.
  vec_unfold; scalar_unfold; simpl. f_equal; f_equal; ring.
Qed.

Lemma Vmul_Vdiv (v : ChVector R) (m : R) : m <> 0 -> Vmul (Vdiv v m) m = v.
Proof.
  intros Hm. destruct v as [x y z]. vec_unfold; scalar_unfold; simpl.
  f_equal; field; exact Hm.
Qed.

(** [UpdateInertiaProperties], run: the frame of the assembly is the
    frame of the chassis moved by [m_rel_loc]; the accumulators hold the
    sums over the parts. *)
Lemma UpdateInertiaProperties_run t (parent : ChFrame R) (chassis : string) :
  m_parent t = Some chassis ->
  let xform := TransformLocalToParent parent (mkFrame (m_rel_loc t) Midentity) in
  let com := moment_sum (parts_of t) in
  UpdateInertiaProperties t parent =
  Ok (set_inertia t xform
        (mkFrame (TransformPointParentToLocal xform
                    (Vdiv com (part_mass (ta_part t))))
                 (frame_rot xform))
        (MMmul (MMmul (Mtranspose (frame_rot xform))
                      (Msub (inertia_sum (parts_of t)) (InertiaShiftMatrix com)))
               (frame_rot xform))).
Proof.
  intros Ep xform com. unfold UpdateInertiaProperties. rewrite Ep. cbv zeta.
  rewrite !fold_left_AddInertia, !AddInertia_unfold. cbn [fst snd].
  rewrite !map_id.
  assert (Ec : Vadd (Vadd (Vadd (Vadd (Vadd VNULL
                 (Vmul (part_com_abs (sprocket_part (m_sprocket t)))
                       (part_mass (sprocket_part (m_sprocket t)))))
                 (Vmul (part_com_abs (m_idler t)) (part_mass (m_idler t))))
                 (moment_sum (map suspension_part (m_suspensions t))))
                 (moment_sum (m_rollers t)))
                 (moment_sum (map shoe_part (m_shoes t))) = com).
  { unfold com, parts_of. cbn [moment_sum fold_right]. fold moment_sum.
    rewrite !moment_sum_app, Vadd_VNULL_l, !Vadd_assoc. reflexivity. }
  assert (Ei : Madd (Madd (Madd (Madd (Madd Mzero
                 (part_inertia_abs (sprocket_part (m_sprocket t))))
                 (part_inertia_abs (m_idler t)))
                 (inertia_sum (map suspension_part (m_suspensions t))))
                 (inertia_sum (m_rollers t)))
                 (inertia_sum (map shoe_part (m_shoes t))) =
               inertia_sum (parts_of t)).
  { unfold parts_of. cbn [inertia_sum fold_right]. fold inertia_sum.
    rewrite !inertia_sum_app, Madd_Mzero_l, !Madd_assoc. reflexivity. }
  rewrite Ec, Ei. reflexivity.
Qed.

Lemma xform_orthonormal (parent : ChFrame R) (loc : ChVector R) :
  orthonormal (frame_rot parent) ->
  orthonormal (frame_rot (TransformLocalToParent parent (mkFrame loc Midentity))).
Proof.
  intros Ho. unfold TransformLocalToParent. cbn [frame_rot].
  rewrite MMmul_identity_r. exact Ho.
Qed.

(** [UpdateInertiaProperties] places the centre of mass at the
    mass-weighted mean of the centres of mass of the parts.  Called on an
    assembly that was attached to a chassis and whose mass is not zero, it
    returns; the frame of the assembly is [m_rel_loc] seen from the
    chassis; the centre of mass, taken back to the global frame and
    multiplied by the mass of the assembly, is the first moment of mass of
    the sprocket, the idler, the suspensions, the rollers and the shoes;
    the orientation stored in [m_com] is the global orientation of the
    assembly; and no other member changes. *)
Theorem UpdateInertiaProperties_com t (parent : ChFrame R) (chassis : string) :
  m_parent t = Some chassis -> orthonormal (frame_rot parent) ->
  part_mass (ta_part t) <> 0 ->
  exists t',
    UpdateInertiaProperties t parent = Ok t' /\
    m_xform t' = mkFrame (TransformPointLocalToParent parent (m_rel_loc t))
                         (frame_rot parent) /\
    Vmul (TransformPointLocalToParent (m_xform t') (frame_pos (m_com t')))
         (part_mass (ta_part t)) = moment_sum (parts_of t) /\
    frame_rot (m_com t') = frame_rot (m_xform t') /\
    t' = set_inertia t (m_xform t') (m_com t') (m_inertia t').
Proof.
  intros Ep Ho Hm. rewrite (UpdateInertiaProperties_run t parent chassis Ep).
  eexists. split; [reflexivity |].
  cbn [set_inertia m_xform m_com m_inertia frame_pos frame_rot].
  rewrite Transform_roundtrip by (apply xform_orthonormal, Ho).
  rewrite Vmul_Vdiv by exact Hm.
  unfold TransformLocalToParent. cbn [frame_pos frame_rot].
  rewrite MMmul_identity_r. repeat split; reflexivity.
Qed.

(** C28: the inertia tensor is shifted by the square of the mass.  The
    tensor [UpdateInertiaProperties] stores is the inertia of the parts
    about the global origin minus the shift matrix of the first moment of
    mass, which is [M * M] times the shift matrix of the centre of mass
    [c], turned into the frame of the assembly; the parallel-axis theorem
    takes [M] times that matrix. *)
Theorem UpdateInertiaProperties_shift t (parent : ChFrame R) (chassis : string) :
  m_parent t = Some chassis ->
  let M := part_mass (ta_part t) in
  let c := Vdiv (moment_sum (parts_of t)) M in
  let a := frame_rot (TransformLocalToParent parent
                        (mkFrame (m_rel_loc t) Midentity)) in
  M <> 0 ->
  exists t',
    UpdateInertiaProperties t parent = Ok t' /\
    m_inertia t' =
      MMmul (MMmul (Mtranspose a)
                   (Msub (inertia_sum (parts_of t))
                         (Mscale (InertiaShiftMatrix c) (M * M))))
            a.
Proof.
  intros Ep M c a Hm. rewrite (UpdateInertiaProperties_run t parent chassis Ep).
  eexists. split; [reflexivity |]. cbn [set_inertia m_inertia].
  rewrite <- InertiaShiftMatrix_scale. unfold c. rewrite Vmul_Vdiv by exact Hm.
  reflexivity.
Qed.

(** [UpdateInertiaProperties] dereferences [m_parent]: it returns
    exactly when the assembly was attached to a chassis, and faults on the
    null pointer before [Initialize]. *)
Theorem UpdateInertiaProperties_needs_parent t (parent : ChFrame R) :
  UpdateInertiaProperties t parent = Err NullDeref <-> m_parent t = None.
Proof.
  split.
  - destruct (m_parent t) as [chassis |] eqn:Ep; [| reflexivity].
    rewrite (UpdateInertiaProperties_run t parent chassis Ep). discriminate.
  - intros Ep. unfold UpdateInertiaProperties. rewrite Ep. reflexivity.
Qed.

End Inertia.

(** ** Reports *)

Section ReportProperties.
Local Open Scope nat_scope.
Context {A FT : Type} `{Scalar A} `{PartReports A FT}.
Implicit Types (t : ChTrackAssembly A).

(** The names of the parts whose violations are logged, in order. *)
Definition logged_parts (log : list LogItem) : list string :=
  flat_map (fun e => match e with LogViolations n => [n] | LogHeading _ _ => [] end) log.

(** The headings, in order. *)
Definition log_headings (log : list LogItem) : list (string * option nat) :=
  flat_map (fun e => match e with LogHeading k i => [(k, i)] | LogViolations _ => [] end) log.

Lemma logged_parts_app (l1 l2 : list LogItem) :
  logged_parts (l1 ++ l2) = logged_parts l1 ++ logged_parts l2.
Proof. apply flat_map_app. Qed.

Lemma log_headings_app (l1 l2 : list LogItem) :
  log_headings (l1 ++ l2) = log_headings l1 ++ log_headings l2.
Proof. apply flat_map_app. Qed.

(** A numbered loop over a list of parts logs every part once, under the
    heading of its index. *)
Lemma log_loop {X} (kind : string) (name : X -> string) (l : list X) : forall i,
  let log := List.concat (mapi (fun i x => [LogHeading kind (Some i);
                                            LogViolations (name x)]) i l) in
  logged_parts log = map name l /\
  log_headings log = map (fun j => (kind, Some j)) (seq i (List.length l)).
Proof.
  induction l as [| x l IH]; intros i; simpl; [split; reflexivity |].
  destruct (IH (S i)) as [-> ->]. split; reflexivity.
Qed.

(** [ReportSuspensionForce] indexes [m_suspensions] without a
    check: it answers the report of suspension [id] when [id] is less
    than the number of suspensions and reads past the end of the vector
    otherwise. *)
Theorem ReportSuspensionForce_spec t (id : nat) :
  ReportSuspensionForce t id =
  match nth_error (m_suspensions t) id with
  | Some s => Ok (suspension_force s)
  | None => Err OutOfRange
  end /\
  ((exists ft, ReportSuspensionForce t id = Ok ft) <->
   id < List.length (m_suspensions t)).
Proof.
  unfold ReportSuspensionForce, vec_at.
  destruct (nth_error (m_suspensions t) id) as [s |] eqn:E; split; try reflexivity.
  - split; [intros _; apply nth_error_Some; congruence |].
    intros _. eexists. reflexivity.
  - split; [intros (ft & Hft); discriminate |].
    intros Hlt. apply nth_error_Some in Hlt. contradiction.
Qed.

(** [LogConstraintViolations] reports the sprocket, the idler,
    every suspension and every roller, each once, in that order and each
    under its heading, the suspensions and the rollers numbered from 0;
    the brake, the road wheels and the track shoes are not reported. *)
Theorem LogConstraintViolations_spec t :
  let log := LogConstraintViolations t in
  logged_parts log =
    part_name (sprocket_part (m_sprocket t)) :: part_name (m_idler t)
    :: map (fun s => part_name (suspension_part s)) (m_suspensions t)
    ++ map part_name (m_rollers t) /\
  log_headings log =
    ("SPROCKET"%string, None) :: ("IDLER"%string, None)
    :: map (fun j => ("SUSPENSION"%string, Some j))
           (seq 0 (List.length (m_suspensions t)))
    ++ map (fun j => ("ROLLER"%string, Some j))
           (seq 0 (List.length (m_rollers t))) /\
  List.length log =
    4 + 2 * List.length (m_suspensions t) + 2 * List.length (m_rollers t).
Proof.
  unfold LogConstraintViolations. cbv zeta.
  rewrite !logged_parts_app, !log_headings_app.
  destruct (log_loop "SUSPENSION" (fun s => part_name (suspension_part s))
              (m_suspensions t) 0) as [-> ->].
  destruct (log_loop "ROLLER" (@part_name A) (m_rollers t) 0) as [-> ->].
  repeat split.
  rewrite !length_app. cbn [List.length].
  assert (El : forall {X} (f : nat -> X -> list LogItem) (l : list X) i,
             (forall j x, List.length (f j x) = 2) ->
             List.length (List.concat (mapi f i l)) = 2 * List.length l).
  { intros X f l. induction l as [| x l IH]; intros i Hf; simpl; [reflexivity |].
    rewrite length_app, Hf, IH by exact Hf. lia. }
  rewrite !El by reflexivity. lia.
Qed.

End ReportProperties.

(** ** The assembly as a state machine *)

Inductive VisTarget : Type :=
| VisSprocket | VisIdler | VisRoadWheelAssembly | VisRoadWheel | VisRoller
| VisTrackShoe.

(** The calls that change an assembly. *)
Inductive TAOp (A : Type) : Type :=
| OpInitialize (chassis : string) (location : ChVector A) (create_shoes : bool)
| OpInitializeInertiaProperties
| OpUpdateInertiaProperties (parent : ChFrame A)
| OpSetVisualizationType (target : VisTarget) (vis : VisualizationType)
| OpSetWheelCollisionType (roadwheel idler roller : bool)
| OpSynchronize (time braking : A) (shoe_forces : list (TerrainForce A))
| OpSetOutput (state : bool).
Arguments OpInitialize {A} chassis location create_shoes.
Arguments OpInitializeInertiaProperties {A}.
Arguments OpUpdateInertiaProperties {A} parent.
Arguments OpSetVisualizationType {A} target vis.
Arguments OpSetWheelCollisionType {A} roadwheel idler roller.
Arguments OpSynchronize {A} time braking shoe_forces.
Arguments OpSetOutput {A} state.

Section Machine.
Local Open Scope nat_scope.
Context {A FT : Type} `{Scalar A} `{TrackLayout A} `{PartReports A FT}.
Implicit Types (t : ChTrackAssembly A) (s : ChTrackShoe A).

Definition TA_SetVisualizationType t (target : VisTarget)
  (vis : VisualizationType) : ChTrackAssembly A :=
  match target with
  | VisSprocket => SetSprocketVisualizationType t vis
  | VisIdler => SetIdlerVisualizationType t vis
  | VisRoadWheelAssembly => SetRoadWheelAssemblyVisualizationType t vis
  | VisRoadWheel => SetRoadWheelVisualizationType t vis
  | VisRoller => SetRollerVisualizationType t vis
  | VisTrackShoe => SetTrackShoeVisualizationType t vis
  end.

Definition TA_apply t (o : TAOp A) : res (ChTrackAssembly A) :=
  match o with
  | OpInitialize chassis location create_shoes =>
      TA_Initialize t chassis location create_shoes
  | OpInitializeInertiaProperties => Ok (InitializeInertiaProperties t)
  | OpUpdateInertiaProperties parent => UpdateInertiaProperties t parent
  | OpSetVisualizationType target vis => Ok (TA_SetVisualizationType t target vis)
  | OpSetWheelCollisionType roadwheel idler roller =>
      Ok (SetWheelCollisionType t roadwheel idler roller)
  | OpSynchronize time braking shoe_forces =>
      Synchronize t time braking shoe_forces
  | OpSetOutput state => Ok (SetOutput t state)
  end.

(** A shoe is well connected in a track of [n] shoes when its neighbour,
    if it has one, is a shoe of the track; an assembly is well formed when
    all its shoes are. *)
Definition shoe_wfb (n : nat) s : bool :=
  match shoe_next s with
  | Some (j, _) => j <? n
  | None => true
  end.

Definition TA_wfb t : bool :=
  forallb (shoe_wfb (List.length (m_shoes t))) (m_shoes t).

Definition TA_wf t : Prop := TA_wfb t = true.

(** The states of a program: an assembly is constructed with shoes that
    are not connected yet, and then called. *)
Inductive TA_reachable : ChTrackAssembly A -> Prop :=
| ta_new name side sprocket idler brake suspensions rollers shoes :
    Forall (fun s => shoe_next s = None) shoes ->
    TA_reachable (ChTrackAssembly_new name side sprocket idler brake
                    suspensions rollers shoes)
| ta_step t o t' :
    TA_reachable t -> TA_apply t o = Ok t' -> TA_reachable t'.

(** *** Preservation *)

Lemma TA_wf_Forall t :
  TA_wf t <-> Forall (fun s => shoe_wfb (List.length (m_shoes t)) s = true) (m_shoes t).
Proof. unfold TA_wf, TA_wfb. rewrite forallb_forall, Forall_forall. reflexivity. Qed.

(** Shoes that keep their number and their neighbours keep the
    invariant. *)
Lemma forallb_same_neighbours (n : nat) (l : list (ChTrackShoe A)) :
  forall l', map shoe_next l' = map shoe_next l ->
  forallb (shoe_wfb n) l = true -> forallb (shoe_wfb n) l' = true.
Proof.
  induction l as [| s l IH]; intros [| s' l'] E; try discriminate; [reflexivity |].
  injection E as Es El. cbn [forallb]. unfold shoe_wfb at 1 3. rewrite Es.
  intros Hw. apply andb_prop in Hw. destruct Hw as [-> Hw]. apply (IH l' El Hw).
Qed.

Lemma wf_same_neighbours t t' :
  map shoe_next (m_shoes t') = map shoe_next (m_shoes t) -> TA_wf t -> TA_wf t'.
Proof.
  intros E. unfold TA_wf, TA_wfb.
  replace (List.length (m_shoes t')) with (List.length (m_shoes t))
    by (rewrite <- (length_map shoe_next), <- E; apply length_map).
  apply forallb_same_neighbours, E.
Qed.

Lemma wf_ring (ccw : bool) (shoes : list (ChTrackShoe A)) t :
  m_shoes t = ring ccw shoes -> TA_wf t.
Proof.
  intros E. apply TA_wf_Forall. rewrite E. unfold ring.
  rewrite mapi_length. apply Forall_forall. intros s Hs.
  apply In_nth_error in Hs. destruct Hs as (i & Hi).
  rewrite mapi_nth_error in Hi.
  destruct (nth_error shoes i) as [x |] eqn:Ex; [| discriminate].
  injection Hi as <-. unfold shoe_wfb. cbn [Connect shoe_next Nat.add].
  apply Nat.ltb_lt, next_shoe_lt, nth_error_Some. congruence.
Qed.

Lemma TA_Initialize_shoes t (chassis : string) (location : ChVector A)
  (create_shoes : bool) :
  exists t', TA_Initialize t chassis location create_shoes = Ok t' /\
    m_shoes t' = if create_shoes
                 then ring (snd (Assemble (m_shoes t))) (fst (Assemble (m_shoes t)))
                 else [].
Proof.
  unfold TA_Initialize. cbv zeta. cbn [m_shoes].
  destruct create_shoes; cbn [negb]; [| eexists; split; reflexivity].
  destruct (Assemble (m_shoes t)) as [shoes ccw]. rewrite connect_loop_ring.
  eexists. split; reflexivity.
Qed.

Lemma shoe_load_neighbours (l : list (ChTrackShoe A)) :
  forall fs : list (TerrainForce A), List.length l <= List.length fs ->
  map shoe_next (map (fun '(s, f) => shoe_load s f) (combine l fs)) =
  map shoe_next l.
Proof.
  induction l as [| s l IH]; intros [| f fs] Hl; simpl in Hl; try lia;
    [reflexivity | reflexivity |].
  cbn [combine map]. f_equal. apply IH. lia.
Qed.

Lemma Synchronize_neighbours t (time braking : A)
  (shoe_forces : list (TerrainForce A)) t' :
  Synchronize t time braking shoe_forces = Ok t' ->
  map shoe_next (m_shoes t') = map shoe_next (m_shoes t).
Proof.
  unfold Synchronize. cbv zeta. cbn [set_sprocket m_shoes].
  rewrite sync_loop_spec. cbn [Nat.add skipn].
  destruct (Nat.leb_spec (List.length (m_shoes t)) (List.length shoe_forces)) as [Hl | Hl].
  - cbn [res_bind]. intros E. injection E as <-. cbn [set_brake set_shoes m_shoes].
    apply shoe_load_neighbours, Hl.
  - destruct (m_shoes t) as [| s l]; [| discriminate].
    cbn [List.length Nat.eqb res_bind]. intros E. injection E as <-. reflexivity.
Qed.

Lemma UpdateInertiaProperties_shoes t (parent : ChFrame A) t' :
  UpdateInertiaProperties t parent = Ok t' -> m_shoes t' = m_shoes t.
Proof.
  unfold UpdateInertiaProperties. destruct (m_parent t); [| discriminate].
  cbv zeta. destruct (fold_left _ (m_shoes t) _) as [com inertia].
  intros E. injection E as <-. reflexivity.
Qed.

(** Every call but [Initialize] leaves the neighbours of the shoes as
    they are. *)
Lemma TA_apply_neighbours t (o : TAOp A) t' :
  (forall chassis location create_shoes,
     o <> OpInitialize chassis location create_shoes) ->
  TA_apply t o = Ok t' ->
  map shoe_next (m_shoes t') = map shoe_next (m_shoes t).
Proof.
  intros Hne.
  destruct o as [c l cs | | parent | target vis | rw idl rl | time br fs | state];
    cbn [TA_apply]; try (intros E; injection E as <-).
  - destruct (Hne c l cs eq_refl).
  - reflexivity.
  - intros E. apply UpdateInertiaProperties_shoes in E. rewrite E. reflexivity.
  - destruct target; try reflexivity.
    cbn [TA_SetVisualizationType SetTrackShoeVisualizationType set_shoes m_shoes].
    cbn. rewrite map_map. reflexivity.
  - reflexivity.
  - apply Synchronize_neighbours.
  - unfold SetOutput. cbv zeta. cbn.
    destruct (m_shoes t) eqn:Es; cbn; rewrite ?Es; reflexivity.
Qed.

Lemma TA_apply_keeps_wf t (o : TAOp A) t' :
  TA_wf t -> TA_apply t o = Ok t' -> TA_wf t'.
Proof.
  intros Hw E.
  destruct o as [c l cs | | parent | target vis | rw idl rl | time br fs | state];
    try (apply (wf_same_neighbours t); [| exact Hw];
         eapply TA_apply_neighbours; [| exact E]; intros; discriminate).
  cbn [TA_apply] in E. destruct (TA_Initialize_shoes t c l cs) as (u & Eu & Es).
  rewrite Eu in E. injection E as <-.
  destruct cs; [apply (wf_ring _ _ _ Es) |].
  unfold TA_wf, TA_wfb. rewrite Es. reflexivity.
Qed.

Lemma TA_wf_new name side sprocket idler brake suspensions rollers
  (shoes : list (ChTrackShoe A)) :
  Forall (fun s => shoe_next s = None) shoes ->
  TA_wf (ChTrackAssembly_new name side sprocket idler brake suspensions
           rollers shoes).
Proof.
  intros Hs. apply TA_wf_Forall. cbn [ChTrackAssembly_new m_shoes].
  eapply Forall_impl; [| exact Hs]. intros s Es. unfold shoe_wfb. rewrite Es.
  reflexivity.
Qed.


End Machine.

(** ** From construction to the inertia properties *)

Section Lifecycle.
Local Open Scope R_scope.
Context {FT : Type} `{TrackLayout R} `{PartReports R FT}.
Implicit Types (t : ChTrackAssembly R).

(** What [Initialize] stores for the calls that follow. *)
Lemma TA_Initialize_parent t (chassis : string) (location : ChVector R)
  (create_shoes : bool) :
  exists t', TA_Initialize t chassis location create_shoes = Ok t' /\
    m_parent t' = Some chassis /\ m_rel_loc t' = location.
Proof.
  unfold TA_Initialize. cbv zeta. cbn [m_shoes].
  destruct create_shoes; cbn [negb]; [| eexists; repeat split; reflexivity].
  destruct (Assemble (m_shoes t)) as [shoes ccw]. rewrite connect_loop_ring.
  eexists. repeat split; reflexivity.
Qed.

(** C13: the three calls that set up the inertia of an assembly, in the
    order a vehicle makes them.  [Initialize] returns and records the chassis;
    [InitializeInertiaProperties] stores the total mass [M] of the parts;
    and then, when [M] is not zero, [UpdateInertiaProperties] returns: the
    frame of the assembly is at [location] in the frame of the chassis,
    the centre of mass it stores is, in the global frame, the first
    moment of mass of the parts divided by [M], its frame is turned as
    the chassis is, and the shoes connected by [Initialize] are
    untouched. *)
Theorem TA_lifecycle t (chassis : string) (location : ChVector R)
  (parent : ChFrame R) :
  orthonormal (frame_rot parent) ->
  exists t1,
    TA_Initialize t chassis location true = Ok t1 /\
    let t2 := InitializeInertiaProperties t1 in
    let M := sum_mass (part_masses t1) in
    part_mass (ta_part t2) = M /\
    (M <> 0 ->
     exists t3,
       UpdateInertiaProperties t2 parent = Ok t3 /\
       m_xform t3 = mkFrame (TransformPointLocalToParent parent location)
                            (frame_rot parent) /\
       TransformPointLocalToParent (m_xform t3) (frame_pos (m_com t3)) =
         Vdiv (moment_sum (parts_of t1)) M /\
       frame_rot (m_com t3) = frame_rot parent /\
       m_shoes t3 = m_shoes t1).
Proof.
  intros Ho.
  destruct (TA_Initialize_parent t chassis location true) as (t1 & E & Ep & El).
  exists t1. split; [exact E |]. cbv zeta.
  split; [apply InitializeInertiaProperties_sum |]. intros HM.
  rewrite (UpdateInertiaProperties_run (InitializeInertiaProperties t1) parent
             chassis Ep).
  eexists. split; [reflexivity |].
  cbn [set_inertia m_xform m_com m_shoes frame_pos frame_rot].
  rewrite Transform_roundtrip by (apply xform_orthonormal, Ho).
  rewrite InitializeInertiaProperties_sum.
  change (m_rel_loc (InitializeInertiaProperties t1)) with (m_rel_loc t1).
  rewrite El. unfold TransformLocalToParent. cbn [frame_pos frame_rot].
  rewrite MMmul_identity_r. repeat split; reflexivity.
Qed.

End Lifecycle.

(** ** Two point masses *)

(** Parts that are point masses at the location they were initialized
    at; a layout with the sprocket at [(1,0,0)] and the idler at
    [(3,0,0)]. *)
#[local] Instance point_parts {A : Type} `{Scalar A} : PartReports A unit := {|
  part_xform p := mkFrame (match part_location p with Some l => l | None => VNULL end)
                          Midentity;
  part_com p := mkFrame VNULL Midentity;
  part_inertia p := Mzero;
  suspension_force s := tt
|}.

#[local] Instance line_layout {A : Type} `{Scalar A} : TrackLayout A := {|
  GetSprocketLocation := mkV #1 #0 #0;
  GetIdlerLocation := mkV #3 #0 #0;
  GetRoadWhelAssemblyLocation := fun _ => VNULL;
  GetRollerLocation := fun _ => VNULL;
  Assemble := fun shoes => (shoes, true)
|}.

Section Example.

Definition unit_part {A : Type} `{Scalar A} (name : string) : ChPart A :=
  mkPart name #1 None VIS_NONE false.

(** An assembly of a sprocket and an idler of mass 1 each, attached to a
    chassis, before and after its mass is computed. *)
Definition attached {A : Type} `{Scalar A} : res (ChTrackAssembly A) :=
  TA_Initialize
    (ChTrackAssembly_new "track" LEFT (mkSprocket (unit_part "sprocket") #0)
       (unit_part "idler") (mkBrake (unit_part "brake") #0) [] [] [])
    "chassis" VNULL true.

Definition two_masses {A : Type} `{Scalar A} : res (ChTrackAssembly A) :=
  res_map InitializeInertiaProperties attached.

Definition identity_frame {A : Type} `{Scalar A} : ChFrame A :=
  mkFrame VNULL Midentity.

Local Open Scope R_scope.

Lemma two_masses_run :
  exists t : ChTrackAssembly R,
    two_masses = Ok t /\ m_parent t = Some "chassis"%string /\
    part_mass (ta_part t) = 0 + 1 + 1 /\
    m_rel_loc t = VNULL /\
    parts_of t = [mkPart "sprocket" 1 (Some (Vadd VNULL (mkV 1 0 0))) VIS_NONE false;
                  mkPart "idler" 1 (Some (Vadd VNULL (mkV 3 0 0))) VIS_NONE false].
Proof. eexists. rcbv. repeat split; reflexivity. Qed.

Lemma identity_orthonormal : orthonormal (frame_rot (@identity_frame R _)).
Proof. unfold orthonormal. cbn. vec_unfold; scalar_unfold; simpl. repeat split; ring. Qed.

(** The centre of mass of the two unit masses at [x = 1] and [x = 3] is
    at [x = 2]. *)
Lemma UpdateInertiaProperties_com_witness :
  exists t t' : ChTrackAssembly R,
    two_masses = Ok t /\
    UpdateInertiaProperties t identity_frame = Ok t' /\
    Vmul (TransformPointLocalToParent (m_xform t') (frame_pos (m_com t'))) 2 =
    mkV 4 0 0.
Proof.
  destruct two_masses_run as (t & Et & Ep & Em & El & Eparts).
  destruct (UpdateInertiaProperties_com t identity_frame "chassis" Ep
              identity_orthonormal) as (t' & E & _ & Ec & _).
  { rewrite Em. lra. }
  exists t, t'. repeat split; try assumption.
  rewrite Em in Ec. replace (0 + 1 + 1) with 2 in Ec by ring. rewrite Ec, Eparts.
  rcbv. f_equal; ring.
Defined.

(** The moment of inertia about the Y axis through their centre of mass
    is 2; the tensor that is stored holds -6. *)
Lemma UpdateInertiaProperties_shift_witness :
  exists t t' : ChTrackAssembly R,
    two_masses = Ok t /\
    UpdateInertiaProperties t identity_frame = Ok t' /\
    vy (Yaxis (m_inertia t')) = - 6.
Proof.
  destruct two_masses_run as (t & Et & Ep & Em & El & Eparts).
  destruct (UpdateInertiaProperties_shift t identity_frame "chassis" Ep)
    as (t' & E & Ei).
  { rewrite Em. lra. }
  exists t, t'. repeat split; try assumption.
  rewrite Ei, Eparts, Em, El. rcbv. field.
Defined.

(** The two unit masses again, from the constructor on. *)
Lemma TA_lifecycle_witness :
  exists t1 : ChTrackAssembly R,
    attached = Ok t1 /\
    part_mass (ta_part (InitializeInertiaProperties t1)) =
    sum_mass (part_masses t1).
Proof.
  destruct (TA_lifecycle (FT := unit)
              (ChTrackAssembly_new "track" LEFT (mkSprocket (unit_part "sprocket") 0)
                 (unit_part "idler") (mkBrake (unit_part "brake") 0) [] [] [])
              "chassis" VNULL identity_frame identity_orthonormal)
    as (t1 & E & Em & _).
  exists t1. split; [exact E | exact Em].
Defined.


End Example.

(** ** The order of the two inertia calls, in binary64 *)

Section FloatExample.

(** [UpdateInertiaProperties] divides by the mass that
    [InitializeInertiaProperties] computes.  Called first, it divides the
    first moment of mass by the zero mass of the constructor and the
    centre of mass is not a number.  Called second, it is at [x = 2]. *)
Example UpdateInertiaProperties_order :
  let com_x (r : res (ChTrackAssembly PrimFloat.float)) :=
    res_map (fun t => vx (frame_pos (m_com t)))
      (t <- r ;; UpdateInertiaProperties t identity_frame)%res in
  res_map PrimFloat.is_nan (com_x attached) = Ok true /\
  com_x two_masses = Ok #2.
Proof. vm_compute. split; reflexivity. Qed.

End FloatExample.
