(* ===== verification/SedanChassis.v ===== *)
(** * SedanChassis: [Sedan_Chassis] and [ChEllipsoid]

    Two small data classes of the library.  [Sedan_Chassis] fills the
    inertia tensor and the geometry of the chassis of the sedan from
    constants; what it stores of [ChVehicleGeometry] is the record
    [ChVehicleGeometry] here.  [ChEllipsoid] is a geometric primitive that
    holds its semi-axes. *)

From Stdlib Require Import Reals Lra Psatz ZArith Lia List Bool String.
From S2P Require Import Prelude ChMath ChVector.
Import ListNotations.

Local Open Scope scalar_scope.

(** ** The chassis of the sedan *)

Inductive CollisionType : Type := NONE | PRIMITIVES | HULLS | MESH.

Inductive ChContactMethod : Type := NSC | SMC.

(** [ChVehicleGeometry::BoxShape]: position, dimensions and the index of
    its contact material (-1 when none was assigned). *)
Record BoxShape (A : Type) : Type := mkBox {
  box_pos : ChVector A;
  box_dims : ChVector A;
  m_matID : Z
}.
Arguments mkBox {A}.
Arguments box_pos {A} _.
Arguments box_dims {A} _.
Arguments m_matID {A} _.

(** [ChVehicleGeometry::ConvexHullsShape]: file name and material. *)
Record ConvexHullsShape : Type := mkHulls {
  hulls_filename : string;
  hulls_matID : Z
}.

(** The members of [ChVehicleGeometry] that the constructor assigns. *)
Record ChVehicleGeometry (A : Type) : Type := mkGeometry {
  m_has_primitives : bool;
  m_vis_boxes : list (BoxShape A);
  m_has_obj : bool;
  m_vis_mesh_file : string;
  m_has_collision : bool;
  m_coll_boxes : list (BoxShape A);
  m_coll_hulls : list ConvexHullsShape;
  m_materials : list ChContactMethod
}.
Arguments mkGeometry {A}.
Arguments m_has_primitives {A} _.
Arguments m_vis_boxes {A} _.
Arguments m_has_obj {A} _.
Arguments m_vis_mesh_file {A} _.
Arguments m_has_collision {A} _.
Arguments m_coll_boxes {A} _.
Arguments m_coll_hulls {A} _.
Arguments m_materials {A} _.

(** [Sedan_Chassis]: name and fixed flag of [ChRigidChassis], the inertia
    tensor by rows, and the geometry. *)
Record Sedan_Chassis (A : Type) : Type := mkSedan {
  chassis_name : string;
  chassis_fixed : bool;
  m_body_inertia : ChMatrix33 A;
  m_geometry : ChVehicleGeometry A
}.
Arguments mkSedan {A}.
Arguments chassis_name {A} _.
Arguments chassis_fixed {A} _.
Arguments m_body_inertia {A} _.
Arguments m_geometry {A} _.

Section Sedan.
Context {A : Type} `{Scalar A}.

(** The static constants. *)
Definition m_body_mass : A := #1250.
Definition m_body_inertiaXX : ChVector A :=
  mkV (lit 2228 10) (lit 9441 10) (lit 10535 10).
Definition m_body_inertiaXY : ChVector A := mkV #0 #0 #0.
Definition m_body_COM_loc : ChVector A := mkV #0 #0 (lit 2 10).
Definition m_connector_rear_loc : ChVector A := mkV (- lit 25 10) #0 (- lit 1 10).
Definition m_driverCsys : ChVector A * ChMatrix33 A :=
  (mkV #0 (lit 5 10) (lit 12 10), Midentity).

(** The geometry before the constructor body runs. *)
Definition ChVehicleGeometry_default : ChVehicleGeometry A :=
  mkGeometry false [] false EmptyString false [] [] [].

(** [Sedan_Chassis(name, fixed, chassis_collision_type)].  The tensor is
    filled entry by entry (here by columns); the box is copied into the
    visualization shapes before its material index is assigned. *)
Definition Sedan_Chassis_new (name : string) (fixed : bool)
  (chassis_collision_type : CollisionType) : Sedan_Chassis A :=
  let XX := m_body_inertiaXX in
  let XY := m_body_inertiaXY in
  let inertia :=
    mkM (mkV (vx XX) (vx XY) (vy XY))
        (mkV (vx XY) (vy XX) (vz XY))
        (mkV (vy XY) (vz XY) (vz XX)) in
  let box1 := mkBox (mkV #0 #0 (lit 1 10)) (mkV #1 (lit 5 10) (lit 2 10)) (-1) in
  let has_collision :=
    match chassis_collision_type with NONE => false | _ => true end in
  let '(boxes, hulls) :=
    match chassis_collision_type with
    | PRIMITIVES => ([mkBox (box_pos box1) (box_dims box1) 0], [])
    | HULLS => ([], [mkHulls "sedan/sedan_chassis_col.obj" 0])
    | _ => ([], [])
    end in
  mkSedan name fixed inertia
    (mkGeometry true [box1] true "sedan/sedan_chassis_vis.obj" has_collision
       boxes hulls []).

(** [CreateContactMaterials(contact_method)]: one more material. *)
Definition CreateContactMaterials (c : Sedan_Chassis A)
  (contact_method : ChContactMethod) : Sedan_Chassis A :=
  let g := m_geometry c in
  mkSedan (chassis_name c) (chassis_fixed c) (m_body_inertia c)
    (mkGeometry (m_has_primitives g) (m_vis_boxes g) (m_has_obj g)
       (m_vis_mesh_file g) (m_has_collision g) (m_coll_boxes g)
       (m_coll_hulls g) (m_materials g ++ [contact_method])).

End Sedan.

(** ** The ellipsoid *)

Inductive GeometryType : Type :=
| GT_NONE | GT_SPHERE | GT_ELLIPSOID | GT_BOX | GT_CYLINDER | GT_OTHER.

(** [ChEllipsoid]: its semi-axes. *)
Record ChEllipsoid (A : Type) : Type := mkEllipsoid {
  rad : ChVector A
}.
Arguments mkEllipsoid {A}.
Arguments rad {A} _.

Section Ellipsoid.
Context {A : Type} `{Scalar A}.

(** [ChEllipsoid()]. *)
Definition ChEllipsoid_default : ChEllipsoid A := mkEllipsoid (mkV #0 #0 #0).

(** [ChEllipsoid(mc, mrad)]: the centre [mc] is not stored. *)
Definition ChEllipsoid_new (mc mrad : ChVector A) : ChEllipsoid A :=
  mkEllipsoid mrad.

(** [GetClassType()]. *)
Definition GetClassType (e : ChEllipsoid A) : GeometryType := GT_SPHERE.

(** [Baricenter()]. *)
Definition Baricenter (e : ChEllipsoid A) : ChVector A := mkV #0 #0 #0.

(** [GetManifoldDimension()]. *)
Definition GetManifoldDimension (e : ChEllipsoid A) : Z := 3.

End Ellipsoid.

(** ** Properties *)

Section Properties.
Local Open Scope R_scope.

(** The number of collision shapes of a geometry. *)
Definition collision_shapes (g : ChVehicleGeometry R) : nat :=
  List.length (m_coll_boxes g) + List.length (m_coll_hulls g).

(** The inertia tensor of the sedan chassis is one of a rigid body:
    it is symmetric, its products of inertia are zero, its principal
    moments are positive and satisfy the triangle inequalities (no moment
    exceeds the sum of the other two), whatever the arguments of the
    constructor. *)
Theorem Sedan_inertia_physical (name : string) (fixed : bool)
  (ct : CollisionType) :
  let J := m_body_inertia (Sedan_Chassis_new name fixed ct : Sedan_Chassis R) in
  let Ixx := vx (Xaxis J) in
  let Iyy := vy (Yaxis J) in
  let Izz := vz (Zaxis J) in
  vy (Xaxis J) = vx (Yaxis J) /\ vz (Xaxis J) = vx (Zaxis J) /\
  vz (Yaxis J) = vy (Zaxis J) /\
  vy (Xaxis J) = 0 /\ vz (Xaxis J) = 0 /\ vz (Yaxis J) = 0 /\
  0 < Ixx /\ 0 < Iyy /\ 0 < Izz /\
  Izz <= Ixx + Iyy /\ Iyy <= Ixx + Izz /\ Ixx <= Iyy + Izz.
Proof.
  unfold Sedan_Chassis_new, m_body_inertiaXX, m_body_inertiaXY. cbv zeta.
  destruct ct; cbn [m_body_inertia Xaxis Yaxis Zaxis vx vy vz];
    scalar_unfold; repeat split; lra.
Qed.


(** [ChEllipsoid] does not keep its centre and reports itself as a
    sphere: the constructor gives the same object for every centre, with
    the semi-axes it was given, the class type is that of the sphere and
    not that of the ellipsoid, and the barycentre is the origin. *)
Theorem Ellipsoid_centre_ignored (mc mc' mrad : ChVector R) :
  ChEllipsoid_new mc mrad = ChEllipsoid_new mc' mrad /\
  rad (ChEllipsoid_new mc mrad) = mrad /\
  GetClassType (ChEllipsoid_new mc mrad) = GT_SPHERE /\
  GetClassType (ChEllipsoid_new mc mrad) <> GT_ELLIPSOID /\
  Baricenter (ChEllipsoid_new mc mrad) = VNULL.
Proof.
  repeat split; try reflexivity. discriminate.
Qed.

End Properties.
