(* ===== verification/UJointDemo.v ===== *)
(** * UJointDemo: the universal joint demo

    [demo_IRR_ujoint.cpp] builds a scene of three bodies (the ground and
    two shafts that meet at an angle), three joints (a rotational motor, a
    cylindrical joint and a universal joint), a visualization window, and
    then steps the physics engine while the window is open, printing the
    angular velocities of the shafts every 20 frames.

    The bodies and the joints are shared objects: the program adds a body
    to the system and then configures it through its own pointer, and adds
    two of the joints to the system before it initializes them.  The model
    keeps them in a store ([World]) and the system holds handles into it.

    The classes of the physics engine ([ChBody], [ChQuaternion], the
    links, the visual system) are not part of the excerpt: their records
    and setters follow their documented behaviour.  The solver is an
    interface ([Solver]); the window ([vis->Run()]) is an input, the number
    of frames for which it stays open. *)

From Stdlib Require Import Reals Lra Psatz RNsatz ZArith ZifyNat List Bool String.
From S2P Require Import Prelude ChMath ChVector.
Import ListNotations.

Local Open Scope scalar_scope.

(** ** The engine's data *)

Record ChQuaternion (A : Type) : Type := mkQ { e0 : A; e1 : A; e2 : A; e3 : A }.
Arguments mkQ {A} e0 e1 e2 e3.
Arguments e0 {A} _.
Arguments e1 {A} _.
Arguments e2 {A} _.
Arguments e3 {A} _.

Record ChColor (A : Type) : Type := mkColor { col_R : A; col_G : A; col_B : A }.
Arguments mkColor {A} col_R col_G col_B.

(** A visual shape with the members the demo sets; [None] is the default
    colour. *)
Inductive ChVisualShape (A : Type) : Type :=
| ChCylinderShape (p1 p2 : ChVector A) (rad : A) (color : option (ChColor A))
| ChBoxShape (Size : ChVector A) (color : option (ChColor A)).
Arguments ChCylinderShape {A} p1 p2 rad color.
Arguments ChBoxShape {A} Size color.

Record ChBody (A : Type) : Type := mkBody {
  body_identifier : Z;
  body_fixed : bool;
  body_collide : bool;
  body_mass : A;
  body_inertiaXX : ChVector A;
  body_pos : ChVector A;
  body_rot : ChQuaternion A;
  body_Wvel_loc : ChVector A;
  body_shapes : list (ChVisualShape A)
}.
Arguments mkBody {A} _ _ _ _ _ _ _ _ _.
Arguments body_identifier {A} _.
Arguments body_fixed {A} _.
Arguments body_collide {A} _.
Arguments body_mass {A} _.
Arguments body_inertiaXX {A} _.
Arguments body_pos {A} _.
Arguments body_rot {A} _.
Arguments body_Wvel_loc {A} _.
Arguments body_shapes {A} _.

(** The function that drives a motor. *)
Inductive ChFunction (A : Type) : Type :=
| ChFunction_Const (c : A)
| ChFunction_Ramp (y0 ang : A).
Arguments ChFunction_Const {A} _.
Arguments ChFunction_Ramp {A} y0 ang.

Inductive LinkKind (A : Type) : Type :=
| LinkMotorRotationAngle (f : ChFunction A)
| LinkLockCylindrical
| LinkUniversal.
Arguments LinkMotorRotationAngle {A} f.
Arguments LinkLockCylindrical {A}.
Arguments LinkUniversal {A}.

(** A joint: the two bodies it connects (handles, [None] before
    [Initialize]) and the joint frame expressed in each of them. *)
Record ChLink (A : Type) : Type := mkLink {
  link_kind : LinkKind A;
  link_body1 : option nat;
  link_body2 : option nat;
  link_frame1 : ChFrame A;
  link_frame2 : ChFrame A
}.
Arguments mkLink {A} _ _ _ _ _.
Arguments link_kind {A} _.
Arguments link_body1 {A} _.
Arguments link_body2 {A} _.
Arguments link_frame1 {A} _.
Arguments link_frame2 {A} _.

Record ChVisualSystemIrrlicht (A : Type) : Type := mkVis {
  vis_window_size : Z * Z;
  vis_window_title : string;
  vis_initialized : bool;
  vis_logo : bool;
  vis_skybox : bool;
  vis_cameras : list (ChVector A);
  vis_lights : bool
}.
Arguments mkVis {A} _ _ _ _ _ _ _.
Arguments vis_window_size {A} _.
Arguments vis_window_title {A} _.
Arguments vis_initialized {A} _.
Arguments vis_logo {A} _.
Arguments vis_skybox {A} _.
Arguments vis_cameras {A} _.
Arguments vis_lights {A} _.

(** The store of shared objects and the system: [w_bodylist] and
    [w_linklist] are the handles the system holds, in the order of
    [AddBody] and [AddLink]. *)
Record World (A : Type) : Type := mkWorld {
  w_bodies : list (ChBody A);
  w_links : list (ChLink A);
  w_G_acc : ChVector A;
  w_ChTime : A;
  w_bodylist : list nat;
  w_linklist : list nat;
  w_vis : option (ChVisualSystemIrrlicht A)
}.
Arguments mkWorld {A} _ _ _ _ _ _ _.
Arguments w_bodies {A} _.
Arguments w_links {A} _.
Arguments w_G_acc {A} _.
Arguments w_ChTime {A} _.
Arguments w_bodylist {A} _.
Arguments w_linklist {A} _.
Arguments w_vis {A} _.

(** What the program prints. *)
Inductive LogEntry (A : Type) : Type :=
| LogBanner
| LogState (time omega_1 omega_2 : A).
Arguments LogBanner {A}.
Arguments LogState {A} time omega_1 omega_2.

(** [sys.DoStepDynamics(step)]: the solver of the engine. *)
Class Solver (A : Type) : Type := {
  DoStepDynamics : World A -> A -> World A
}.

(** Replace element [i] of a list by its image under [f]; nothing changes
    when [i] is past the end. *)
Fixpoint list_upd {T} (l : list T) (i : nat) (f : T -> T) : list T :=
  match l, i with
  | [], _ => []
  | x :: l, O => f x :: l
  | x :: l, S i => x :: list_upd l i f
  end.

Section Engine.
Context {A : Type} `{Scalar A}.

Definition QUNIT : ChQuaternion A := mkQ #1 #0 #0 #0.

(** [Q_from_AngAxis(angle, axis)] and [Q_from_AngX(angle)]. *)
Definition Q_from_AngAxis `{Trig A} (angle : A) (axis : ChVector A)
  : ChQuaternion A :=
  let halfang := angle * lit 1 2 in
  let sinhalf := sc_sin halfang in
  mkQ (sc_cos halfang) (vx axis * sinhalf) (vy axis * sinhalf)
      (vz axis * sinhalf).

Definition Q_from_AngX `{Trig A} (angle : A) : ChQuaternion A :=
  Q_from_AngAxis angle (mkV #1 #0 #0).

(** [ChMatrix33(q)]: the rotation matrix of a quaternion. *)
Definition Mquaternion (q : ChQuaternion A) : ChMatrix33 A :=
  mkM (mkV ((e0 q * e0 q + e1 q * e1 q) * #2 - #1)
           ((e1 q * e2 q + e0 q * e3 q) * #2)
           ((e1 q * e3 q - e0 q * e2 q) * #2))
      (mkV ((e1 q * e2 q - e0 q * e3 q) * #2)
           ((e0 q * e0 q + e2 q * e2 q) * #2 - #1)
           ((e2 q * e3 q + e0 q * e1 q) * #2))
      (mkV ((e1 q * e3 q + e0 q * e2 q) * #2)
           ((e2 q * e3 q - e0 q * e1 q) * #2)
           ((e0 q * e0 q + e3 q * e3 q) * #2 - #1)).

(** [ChFrame<>(pos, rot)] and [ChCoordsys<>(pos, rot)]. *)
Definition ChFrame_new (pos : ChVector A) (rot : ChQuaternion A) : ChFrame A :=
  mkFrame pos (Mquaternion rot).

(** *** Bodies *)

(** [ChBody()]: unit mass and inertia, at the origin, at rest, free, not
    colliding. *)
Definition ChBody_new : ChBody A :=
  mkBody 0 false false #1 (mkV #1 #1 #1) VNULL QUNIT VNULL [].

Definition SetIdentifier (b : ChBody A) (id : Z) : ChBody A :=
  mkBody id (body_fixed b) (body_collide b) (body_mass b) (body_inertiaXX b)
    (body_pos b) (body_rot b) (body_Wvel_loc b) (body_shapes b).

Definition SetBodyFixed (b : ChBody A) (state : bool) : ChBody A :=
  mkBody (body_identifier b) state (body_collide b) (body_mass b)
    (body_inertiaXX b) (body_pos b) (body_rot b) (body_Wvel_loc b)
    (body_shapes b).

Definition SetCollide (b : ChBody A) (state : bool) : ChBody A :=
  mkBody (body_identifier b) (body_fixed b) state (body_mass b)
    (body_inertiaXX b) (body_pos b) (body_rot b) (body_Wvel_loc b)
    (body_shapes b).

Definition SetMass (b : ChBody A) (m : A) : ChBody A :=
  mkBody (body_identifier b) (body_fixed b) (body_collide b) m
    (body_inertiaXX b) (body_pos b) (body_rot b) (body_Wvel_loc b)
    (body_shapes b).

Definition SetInertiaXX (b : ChBody A) (i : ChVector A) : ChBody A :=
  mkBody (body_identifier b) (body_fixed b) (body_collide b) (body_mass b)
    i (body_pos b) (body_rot b) (body_Wvel_loc b) (body_shapes b).

Definition SetPos (b : ChBody A) (p : ChVector A) : ChBody A :=
  mkBody (body_identifier b) (body_fixed b) (body_collide b) (body_mass b)
    (body_inertiaXX b) p (body_rot b) (body_Wvel_loc b) (body_shapes b).

Definition SetRot (b : ChBody A) (q : ChQuaternion A) : ChBody A :=
  mkBody (body_identifier b) (body_fixed b) (body_collide b) (body_mass b)
    (body_inertiaXX b) (body_pos b) q (body_Wvel_loc b) (body_shapes b).

Definition AddVisualShape (b : ChBody A) (s : ChVisualShape A) : ChBody A :=
  mkBody (body_identifier b) (body_fixed b) (body_collide b) (body_mass b)
    (body_inertiaXX b) (body_pos b) (body_rot b) (body_Wvel_loc b)
    (body_shapes b ++ [s]).

(** The frame of a body in the absolute frame. *)
Definition body_frame (b : ChBody A) : ChFrame A :=
  ChFrame_new (body_pos b) (body_rot b).

(** *** The store and the system *)

(** [ChSystemNSC sys]: no bodies, no links, gravity along -Y, time 0. *)
Definition ChSystemNSC_new : World A :=
  mkWorld [] [] (mkV #0 (- lit 98 10) #0) #0 [] [] None.

Definition set_bodies (w : World A) (bodies : list (ChBody A)) : World A :=
  mkWorld bodies (w_links w) (w_G_acc w) (w_ChTime w) (w_bodylist w)
    (w_linklist w) (w_vis w).

Definition set_links (w : World A) (links : list (ChLink A)) : World A :=
  mkWorld (w_bodies w) links (w_G_acc w) (w_ChTime w) (w_bodylist w)
    (w_linklist w) (w_vis w).

Definition Set_G_acc (w : World A) (g : ChVector A) : World A :=
  mkWorld (w_bodies w) (w_links w) g (w_ChTime w) (w_bodylist w)
    (w_linklist w) (w_vis w).

(** [chrono_types::make_shared<ChBody>()]: a new object in the store and
    the pointer to it. *)
Definition make_shared_ChBody (w : World A) : World A * nat :=
  (set_bodies w (w_bodies w ++ [ChBody_new]), List.length (w_bodies w)).

(** [body->f(...)] through the pointer [h]. *)
Definition on_body (w : World A) (h : nat) (f : ChBody A -> ChBody A) : World A :=
  set_bodies w (list_upd (w_bodies w) h f).

(** The object the pointer [h] points to. *)
Definition body_at (w : World A) (h : nat) : ChBody A :=
  nth h (w_bodies w) ChBody_new.

Definition AddBody (w : World A) (h : nat) : World A :=
  mkWorld (w_bodies w) (w_links w) (w_G_acc w) (w_ChTime w)
    (w_bodylist w ++ [h]) (w_linklist w) (w_vis w).

(** [make_shared<ChLink...>()]: a joint that connects nothing yet. *)
Definition ChLink_new (k : LinkKind A) : ChLink A :=
  mkLink k None None (mkFrame VNULL Midentity) (mkFrame VNULL Midentity).

Definition make_shared_ChLink (w : World A) (k : LinkKind A) : World A * nat :=
  (set_links w (w_links w ++ [ChLink_new k]), List.length (w_links w)).

Definition link_at (w : World A) (h : nat) : ChLink A :=
  nth h (w_links w) (ChLink_new LinkLockCylindrical).

Definition AddLink (w : World A) (h : nat) : World A :=
  mkWorld (w_bodies w) (w_links w) (w_G_acc w) (w_ChTime w)
    (w_bodylist w) (w_linklist w ++ [h]) (w_vis w).

(** [link->Initialize(body1, body2, absframe)]: the joint frame, given in
    the absolute frame, is stored in the coordinates of each body as the
    body is placed at the time of the call. *)
Definition Initialize (w : World A) (l body1 body2 : nat) (absframe : ChFrame A)
  : World A :=
  set_links w
    (list_upd (w_links w) l (fun k =>
       mkLink (link_kind k) (Some body1) (Some body2)
         (TransformParentToLocal (body_frame (body_at w body1)) absframe)
         (TransformParentToLocal (body_frame (body_at w body2)) absframe))).

(** [motor->SetAngleFunction(f)]. *)
Definition SetAngleFunction (w : World A) (l : nat) (f : ChFunction A) : World A :=
  set_links w
    (list_upd (w_links w) l (fun k =>
       match link_kind k with
       | LinkMotorRotationAngle _ =>
           mkLink (LinkMotorRotationAngle f) (link_body1 k) (link_body2 k)
             (link_frame1 k) (link_frame2 k)
       | _ => k
       end)).

(** *** The window *)

Definition ChVisualSystemIrrlicht_new : ChVisualSystemIrrlicht A :=
  mkVis (640%Z, 480%Z) EmptyString false false false [] false.

Definition SetVisualSystem (w : World A) (v : ChVisualSystemIrrlicht A) : World A :=
  mkWorld (w_bodies w) (w_links w) (w_G_acc w) (w_ChTime w)
    (w_bodylist w) (w_linklist w) (Some v).

(** [vis->f(...)]: the system shares the window with the program. *)
Definition on_vis (w : World A)
  (f : ChVisualSystemIrrlicht A -> ChVisualSystemIrrlicht A) : World A :=
  mkWorld (w_bodies w) (w_links w) (w_G_acc w) (w_ChTime w)
    (w_bodylist w) (w_linklist w) (option_map f (w_vis w)).

End Engine.

(** ** The program *)

Section Demo.
Context {A : Type} `{Scalar A} `{Trig A} `{Solver A}.

(** The half-length of the two shafts and the bend angle between them. *)
Definition hl : A := #2.
Definition angle : A := CH_C_PI / #6.
Definition cosa : A := sc_cos angle.
Definition sina : A := sc_sin angle.
Definition rot : ChQuaternion A := Q_from_AngX angle.

(** The two cylinders drawn on the ground, where the shafts are held. *)
Definition ground_cyl_1 : ChVisualShape A :=
  ChCylinderShape (mkV #0 #0 (- hl - lit 2 10)) (mkV #0 #0 (- hl + lit 2 10))
    (lit 3 10) None.

Definition ground_cyl_2 : ChVisualShape A :=
  ChCylinderShape
    (mkV #0 (- (hl - lit 2 10) * sina) ((hl - lit 2 10) * cosa))
    (mkV #0 (- (hl + lit 2 10) * sina) ((hl + lit 2 10) * cosa))
    (lit 3 10) None.

(** The box and the arm of the cross drawn on each shaft. *)
Definition shaft_1_box : ChVisualShape A :=
  ChBoxShape (mkV (lit 15 100) (lit 15 100) (lit 9 10 * hl))
    (Some (mkColor (lit 6 10) #0 #0)).

Definition shaft_1_arm : ChVisualShape A :=
  ChCylinderShape (mkV (- lit 2 10) #0 hl) (mkV (lit 2 10) #0 hl)
    (lit 5 100) (Some (mkColor (lit 6 10) #0 #0)).

Definition shaft_2_box : ChVisualShape A :=
  ChBoxShape (mkV (lit 15 100) (lit 15 100) (lit 9 10 * hl))
    (Some (mkColor #0 #0 (lit 6 10))).

Definition shaft_2_arm : ChVisualShape A :=
  ChCylinderShape (mkV #0 (- lit 2 10) (- hl)) (mkV #0 (lit 2 10) (- hl))
    (lit 5 100) (Some (mkColor #0 #0 (lit 6 10))).

(** The frames at which the three joints are initialized. *)
Definition motor_frame : ChFrame A :=
  ChFrame_new (mkV #0 #0 (- hl)) (mkQ #1 #0 #0 #0).

Definition cyljoint_frame : ChFrame A :=
  ChFrame_new (mkV #0 (- hl * sina) (hl * cosa)) rot.

Definition ujoint_frame : ChFrame A := ChFrame_new (mkV #0 #0 #0) rot.

(** The ground body. *)
Definition demo_ground (w : World A) : World A * nat :=
  let '(w, ground) := make_shared_ChBody w in
  let w := AddBody w ground in
  let w := on_body w ground (fun b => SetIdentifier b (-1)) in
  let w := on_body w ground (fun b => SetBodyFixed b true) in
  let w := on_body w ground (fun b => SetCollide b false) in
  let w := on_body w ground (fun b => AddVisualShape b ground_cyl_1) in
  let w := on_body w ground (fun b => AddVisualShape b ground_cyl_2) in
  (w, ground).

(** The first shaft, along the global Z axis, ending at the origin. *)
Definition demo_shaft_1 (w : World A) : World A * nat :=
  let '(w, shaft_1) := make_shared_ChBody w in
  let w := AddBody w shaft_1 in
  let w := on_body w shaft_1 (fun b => SetIdentifier b 1) in
  let w := on_body w shaft_1 (fun b => SetBodyFixed b false) in
  let w := on_body w shaft_1 (fun b => SetCollide b false) in
  let w := on_body w shaft_1 (fun b => SetMass b #1) in
  let w := on_body w shaft_1 (fun b => SetInertiaXX b (mkV #1 #1 (lit 2 10))) in
  let w := on_body w shaft_1 (fun b => SetPos b (mkV #0 #0 (- hl))) in
  let w := on_body w shaft_1 (fun b => SetRot b (mkQ #1 #0 #0 #0)) in
  let w := on_body w shaft_1 (fun b => AddVisualShape b shaft_1_box) in
  let w := on_body w shaft_1 (fun b => AddVisualShape b shaft_1_arm) in
  (w, shaft_1).

(** The second shaft, bent by [angle] about the global X axis. *)
Definition demo_shaft_2 (w : World A) : World A * nat :=
  let '(w, shaft_2) := make_shared_ChBody w in
  let w := AddBody w shaft_2 in
  let w := on_body w shaft_2 (fun b => SetIdentifier b 1) in
  let w := on_body w shaft_2 (fun b => SetBodyFixed b false) in
  let w := on_body w shaft_2 (fun b => SetCollide b false) in
  let w := on_body w shaft_2 (fun b => SetMass b #1) in
  let w := on_body w shaft_2 (fun b => SetInertiaXX b (mkV #1 #1 (lit 2 10))) in
  let w := on_body w shaft_2 (fun b => SetPos b (mkV #0 (- hl * sina) (hl * cosa))) in
  let w := on_body w shaft_2 (fun b => SetRot b rot) in
  let w := on_body w shaft_2 (fun b => AddVisualShape b shaft_2_box) in
  let w := on_body w shaft_2 (fun b => AddVisualShape b shaft_2_arm) in
  (w, shaft_2).

(** The motor between the ground and the first shaft, driven by the ramp
    [t |-> t]. *)
Definition demo_motor (w : World A) (ground shaft_1 : nat) : World A * nat :=
  let '(w, motor) := make_shared_ChLink w (LinkMotorRotationAngle (ChFunction_Const #0)) in
  let w := Initialize w motor ground shaft_1 motor_frame in
  let w := SetAngleFunction w motor (ChFunction_Ramp #0 #1) in
  let w := AddLink w motor in
  (w, motor).

(** The cylindrical joint between the ground and the second shaft. *)
Definition demo_cyljoint (w : World A) (ground shaft_2 : nat) : World A * nat :=
  let '(w, cyljoint) := make_shared_ChLink w LinkLockCylindrical in
  let w := AddLink w cyljoint in
  let w := Initialize w cyljoint ground shaft_2 cyljoint_frame in
  (w, cyljoint).

(** The universal joint between the two shafts. *)
Definition demo_ujoint (w : World A) (shaft_1 shaft_2 : nat) : World A * nat :=
  let '(w, ujoint) := make_shared_ChLink w LinkUniversal in
  let w := AddLink w ujoint in
  let w := Initialize w ujoint shaft_1 shaft_2 ujoint_frame in
  (w, ujoint).

(** The window. *)
Definition demo_vis (w : World A) : World A :=
  let w := SetVisualSystem w ChVisualSystemIrrlicht_new in
  let w := on_vis w (fun v =>
             mkVis (800%Z, 600%Z) (vis_window_title v) (vis_initialized v)
               (vis_logo v) (vis_skybox v) (vis_cameras v) (vis_lights v)) in
  let w := on_vis w (fun v =>
             mkVis (vis_window_size v) "Universal joint" (vis_initialized v)
               (vis_logo v) (vis_skybox v) (vis_cameras v) (vis_lights v)) in
  let w := on_vis w (fun v =>
             mkVis (vis_window_size v) (vis_window_title v) true
               (vis_logo v) (vis_skybox v) (vis_cameras v) (vis_lights v)) in
  let w := on_vis w (fun v =>
             mkVis (vis_window_size v) (vis_window_title v) (vis_initialized v)
               true (vis_skybox v) (vis_cameras v) (vis_lights v)) in
  let w := on_vis w (fun v =>
             mkVis (vis_window_size v) (vis_window_title v) (vis_initialized v)
               (vis_logo v) true (vis_cameras v) (vis_lights v)) in
  let w := on_vis w (fun v =>
             mkVis (vis_window_size v) (vis_window_title v) (vis_initialized v)
               (vis_logo v) (vis_skybox v)
               (vis_cameras v ++ [mkV #3 #1 (- lit 15 10)]) (vis_lights v)) in
  on_vis w (fun v =>
    mkVis (vis_window_size v) (vis_window_title v) (vis_initialized v)
      (vis_logo v) (vis_skybox v) (vis_cameras v) true).

(** Everything [main] does before the simulation loop: the scene and the
    pointers to the two shafts. *)
Definition demo_scene : World A * nat * nat :=
  let w := ChSystemNSC_new in
  let w := Set_G_acc w (mkV #0 #0 #0) in
  let '(w, ground) := demo_ground w in
  let '(w, shaft_1) := demo_shaft_1 w in
  let '(w, shaft_2) := demo_shaft_2 w in
  let '(w, motor) := demo_motor w ground shaft_1 in
  let '(w, cyljoint) := demo_cyljoint w ground shaft_2 in
  let '(w, ujoint) := demo_ujoint w shaft_1 shaft_2 in
  (demo_vis w, shaft_1, shaft_2).

(** *** The simulation loop *)

Definition INT_MAX : Z := 2147483647.
Definition timestep : A := lit 5 1000.

(** One line of output: the time and the angular velocity of each shaft
    about its own axis. *)
Definition demo_report (w : World A) (shaft_1 shaft_2 : nat) : LogEntry A :=
  let omega_1 := vz (body_Wvel_loc (body_at w shaft_1)) in
  let omega_2 := vz (body_Wvel_loc (body_at w shaft_2)) in
  LogState (w_ChTime w) omega_1 omega_2.

(** The loop, for a window that stays open for [runs] frames:
    [vis->Run()] answers [true] that many times and then [false].  The
    frame counter is an [int]. *)
Fixpoint demo_loop (runs : nat) (frame : Z) (w : World A)
  (shaft_1 shaft_2 : nat) (log : list (LogEntry A))
  : res (World A * Z * list (LogEntry A)) :=
  match runs with
  | O => Ok (w, frame, log)
  | S runs =>
      let log := if (Z.rem frame 20 =? 0)%Z
                 then log ++ [demo_report w shaft_1 shaft_2] else log in
      let w := DoStepDynamics w timestep in
      if (frame =? INT_MAX)%Z then Err IntOverflow
      else demo_loop runs (frame + 1)%Z w shaft_1 shaft_2 log
  end.

(** [main]: the exit code and what was printed, for a window that stays
    open for [runs] frames. *)
Definition main (runs : nat) : res (Z * list (LogEntry A)) :=
  let log := [LogBanner] in
  let '(w, shaft_1, shaft_2) := demo_scene in
  ('(_, _, log) <- demo_loop runs 0 w shaft_1 shaft_2 log ;;
   Ok (0%Z, log))%res.

End Demo.

(** ** Rotations *)

Section Rotations.
Local Open Scope R_scope.

(** The rotation by [a] about the X axis, by columns. *)
Definition Mrot_X (a : R) : ChMatrix33 R :=
  mkM (mkV 1 0 0) (mkV 0 (cos a) (sin a)) (mkV 0 (- sin a) (cos a)).

Definition unit_quaternion (q : ChQuaternion R) : Prop :=
  e0 q * e0 q + e1 q * e1 q + e2 q * e2 q + e3 q * e3 q = 1.

Lemma Mquaternion_QUNIT : Mquaternion (mkQ 1 0 0 0) = Midentity.
Proof. unfold Mquaternion, Midentity; scalar_unfold; simpl. f_equal; f_equal; ring. Qed.

(** The matrix of the quaternion of an angle and an axis is the matrix
    the engine builds from the angle and the axis directly. *)
Lemma Mquaternion_AngAxis (a : R) (axis : ChVector R) :
  Mquaternion (Q_from_AngAxis a axis) = Mrot_angle_axis a axis.
Proof.
  unfold Mquaternion, Q_from_AngAxis, Mrot_angle_axis; scalar_unfold; simpl.
  replace (a * (1 / 2)) with (a / 2) by field. reflexivity.
Qed.

Lemma Mquaternion_orthonormal (q : ChQuaternion R) :
  unit_quaternion q -> orthonormal (Mquaternion q).
Proof.
  destruct q as [a b c d]. unfold unit_quaternion, Mquaternion, orthonormal.
  vec_unfold; scalar_unfold; simpl. intros Hq. repeat split; nsatz.
Qed.

Lemma Q_from_AngX_unit (a : R) : unit_quaternion (Q_from_AngX a).
Proof.
  destruct (half_angle a) as (_ & _ & Hsc).
  unfold unit_quaternion, Q_from_AngX, Q_from_AngAxis; scalar_unfold; simpl.
  replace (a * (1 / 2)) with (a / 2) by field. nsatz.
Qed.

Lemma Mquaternion_AngX (a : R) : Mquaternion (Q_from_AngX a) = Mrot_X a.
Proof.
  destruct (half_angle a) as (Hc & Hs & Hsc).
  unfold Mrot_X, Mquaternion, Q_from_AngX, Q_from_AngAxis; scalar_unfold; simpl.
  replace (a * (1 / 2)) with (a / 2) by field. rewrite Hc, Hs.
  f_equal; f_equal; nsatz.
Qed.

Lemma Mrot_X_orthonormal (a : R) : orthonormal (Mrot_X a).
Proof. rewrite <- Mquaternion_AngX. apply Mquaternion_orthonormal, Q_from_AngX_unit. Qed.

(** A point at [z] on the axis of a body that is bent by [a] about X and
    placed at [(0, - l sin a, l cos a)] lies at distance [l + z] from the
    origin along the bent axis. *)
Lemma bent_axis_point (a l z : R) :
  TransformPointLocalToParent
    (mkFrame (mkV 0 (- l * sin a) (l * cos a)) (Mrot_X a)) (mkV 0 0 z) =
  mkV 0 (- (l + z) * sin a) ((l + z) * cos a).
Proof. unfold Mrot_X. vec_unfold; scalar_unfold; simpl. f_equal; ring. Qed.

(** The origin seen from that body is the point at [- l] on its axis. *)
Lemma bent_axis_origin (a l : R) :
  TransformPointParentToLocal
    (mkFrame (mkV 0 (- l * sin a) (l * cos a)) (Mrot_X a)) (mkV 0 0 0) =
  mkV 0 0 (- l).
Proof.
  pose proof (sin2_cos2 a) as Hsc. unfold Rsqr in Hsc.
  unfold Mrot_X. vec_unfold; scalar_unfold; simpl. f_equal; nsatz.
Qed.

End Rotations.

(** ** The scene that [main] builds *)

Section Scene.
Local Open Scope R_scope.
Context `{Solver R}.

Definition scene : World R := fst (fst demo_scene).

(** The handles, in the order of creation: bodies [ground], [shaft_1],
    [shaft_2]; links [motor], [cyljoint], [ujoint]. *)
Definition h_ground : nat := 0.
Definition h_shaft_1 : nat := 1.
Definition h_shaft_2 : nat := 2.
Definition h_motor : nat := 0.
Definition h_cyljoint : nat := 1.
Definition h_ujoint : nat := 2.

(** Where the second shaft is placed. *)
Definition shaft_2_pos : ChVector R := mkV 0 (- hl * sina) (hl * cosa).

(** Every handle the system holds points into the store, no object was
    added twice, and every joint of the system connects two different
    bodies of the store. *)
Definition link_wf (n : nat) (k : ChLink R) : Prop :=
  match link_body1 k, link_body2 k with
  | Some a, Some b => (a < n)%nat /\ (b < n)%nat /\ a <> b
  | _, _ => False
  end.

Definition World_wf (w : World R) : Prop :=
  Forall (fun h => (h < List.length (w_bodies w))%nat) (w_bodylist w) /\
  NoDup (w_bodylist w) /\
  Forall (fun h => (h < List.length (w_links w))%nat /\
                   link_wf (List.length (w_bodies w)) (link_at w h))
         (w_linklist w) /\
  NoDup (w_linklist w).

Lemma demo_scene_handles : demo_scene = (scene, h_shaft_1, h_shaft_2).
Proof. rcbv. reflexivity. Qed.

Lemma scene_system :
  w_bodylist scene = [h_ground; h_shaft_1; h_shaft_2] /\
  w_linklist scene = [h_motor; h_cyljoint; h_ujoint] /\
  w_G_acc scene = VNULL /\ w_ChTime scene = 0 /\
  List.length (w_bodies scene) = 3%nat /\ List.length (w_links scene) = 3%nat.
Proof. repeat split; rcbv; reflexivity. Qed.

(** The three bodies as the program leaves them. *)
Lemma scene_bodies :
  w_bodies scene =
  [ mkBody (-1) true false 1 (mkV 1 1 1) VNULL QUNIT VNULL
      [ground_cyl_1; ground_cyl_2];
    mkBody 1 false false 1 (mkV 1 1 (2 / 10)) (mkV 0 0 (- hl)) (mkQ 1 0 0 0) VNULL
      [shaft_1_box; shaft_1_arm];
    mkBody 1 false false 1 (mkV 1 1 (2 / 10)) shaft_2_pos rot VNULL
      [shaft_2_box; shaft_2_arm] ].
Proof. rcbv. reflexivity. Qed.

(** The frames of the three bodies. *)
Lemma scene_frames :
  body_frame (body_at scene h_ground) = mkFrame VNULL Midentity /\
  body_frame (body_at scene h_shaft_1) = mkFrame (mkV 0 0 (- hl)) Midentity /\
  body_frame (body_at scene h_shaft_2) = mkFrame shaft_2_pos (Mrot_X angle).
Proof.
  unfold body_at. rewrite scene_bodies. unfold body_frame, ChFrame_new.
  cbn [nth h_ground h_shaft_1 h_shaft_2 body_pos body_rot].
  change (@QUNIT R _) with (mkQ 1 0 0 0). unfold rot.
  rewrite Mquaternion_QUNIT, Mquaternion_AngX. repeat split; reflexivity.
Qed.

(** The joints as [Initialize] leaves them, in terms of the frames of the
    bodies at that time. *)
Lemma scene_links_raw :
  w_links scene =
  [ mkLink (LinkMotorRotationAngle (ChFunction_Ramp 0 1))
      (Some h_ground) (Some h_shaft_1)
      (TransformParentToLocal (body_frame (body_at scene h_ground)) motor_frame)
      (TransformParentToLocal (body_frame (body_at scene h_shaft_1)) motor_frame);
    mkLink LinkLockCylindrical (Some h_ground) (Some h_shaft_2)
      (TransformParentToLocal (body_frame (body_at scene h_ground)) cyljoint_frame)
      (TransformParentToLocal (body_frame (body_at scene h_shaft_2)) cyljoint_frame);
    mkLink LinkUniversal (Some h_shaft_1) (Some h_shaft_2)
      (TransformParentToLocal (body_frame (body_at scene h_shaft_1)) ujoint_frame)
      (TransformParentToLocal (body_frame (body_at scene h_shaft_2)) ujoint_frame) ].
Proof. rcbv. reflexivity. Qed.

(** The joints of the scene, each frame in the coordinates of the body
    it is attached to. *)
Lemma scene_links :
  w_links scene =
  [ mkLink (LinkMotorRotationAngle (ChFunction_Ramp 0 1))
      (Some h_ground) (Some h_shaft_1)
      (mkFrame (mkV 0 0 (- hl)) Midentity) (mkFrame VNULL Midentity);
    mkLink LinkLockCylindrical (Some h_ground) (Some h_shaft_2)
      (mkFrame shaft_2_pos (Mrot_X angle)) (mkFrame VNULL Midentity);
    mkLink LinkUniversal (Some h_shaft_1) (Some h_shaft_2)
      (mkFrame (mkV 0 0 hl) (Mrot_X angle))
      (mkFrame (mkV 0 0 (- hl)) Midentity) ].
Proof.
  rewrite scene_links_raw. destruct scene_frames as (-> & -> & ->).
  unfold motor_frame, cyljoint_frame, ujoint_frame, ChFrame_new, rot.
  scalar_unfold. change (mkV 0 (- hl * sina) (hl * cosa)) with shaft_2_pos. rewrite Mquaternion_QUNIT, Mquaternion_AngX.
  rewrite !TransformParentToLocal_translated.
  rewrite !TransformParentToLocal_self by apply Mrot_X_orthonormal.
  unfold TransformParentToLocal at 1. cbn [frame_pos frame_rot].
  rewrite orthonormal_inverse by apply Mrot_X_orthonormal.
  unfold shaft_2_pos, sina, cosa. rewrite bent_axis_origin.
  repeat (f_equal; try solve [vsolve]).
Qed.

(** The cylinder drawn along [axis] through the origin of the frame [f],
    reaching [half] to each side, as a shape of the body that [f] is
    attached to. *)
Definition cylinder_along (f : ChFrame R) (axis : ChVector R) (half rad : R)
  (color : option (ChColor R)) : ChVisualShape R :=
  ChCylinderShape (TransformPointLocalToParent f (Vmul axis (- half)))
                  (TransformPointLocalToParent f (Vmul axis half)) rad color.

(** The scene is well formed when the loop starts: the system holds
    the three bodies and the three joints, each once, and every joint
    connects two different bodies of the system, although two of the
    joints were added to the system before they were initialized. *)
Theorem demo_scene_wf : World_wf scene.
Proof.
  destruct scene_system as (Eb & El & _ & _ & Hb & Hl).
  unfold World_wf, link_at. rewrite Eb, El, Hb, Hl, scene_links.
  unfold link_wf, h_ground, h_shaft_1, h_shaft_2, h_motor, h_cyljoint, h_ujoint.
  repeat split; repeat constructor; simpl; try lia; intuition (try lia).
Qed.

(** C16: the universal joint sits at the ends of the two shafts.  In the
    coordinates of the first shaft the joint frame is at [(0, 0, hl)], in
    those of the second at [(0, 0, -hl)], and both are the global origin;
    the arm drawn on the first shaft is the X axis of the joint frame on
    that shaft and the arm drawn on the second is the Y axis of the joint
    frame on that one, which are the two axes of the cross the joint keeps
    perpendicular; they are perpendicular in the initial configuration. *)
Theorem demo_ujoint_cross :
  let uj := link_at scene h_ujoint in
  let s1 := body_at scene h_shaft_1 in
  let s2 := body_at scene h_shaft_2 in
  link_body1 uj = Some h_shaft_1 /\ link_body2 uj = Some h_shaft_2 /\
  frame_pos (link_frame1 uj) = mkV 0 0 hl /\
  frame_pos (link_frame2 uj) = mkV 0 0 (- hl) /\
  TransformPointLocalToParent (body_frame s1) (frame_pos (link_frame1 uj)) = VNULL /\
  TransformPointLocalToParent (body_frame s2) (frame_pos (link_frame2 uj)) = VNULL /\
  body_shapes s1 = [shaft_1_box; shaft_1_arm] /\
  body_shapes s2 = [shaft_2_box; shaft_2_arm] /\
  shaft_1_arm =
    cylinder_along (link_frame1 uj) (mkV 1 0 0) (2 / 10) (5 / 100)
      (Some (mkColor (6 / 10) 0 0)) /\
  shaft_2_arm =
    cylinder_along (link_frame2 uj) (mkV 0 1 0) (2 / 10) (5 / 100)
      (Some (mkColor 0 0 (6 / 10))) /\
  Vdot (Mmul (frame_rot (body_frame s1)) (Xaxis (frame_rot (link_frame1 uj))))
       (Mmul (frame_rot (body_frame s2)) (Yaxis (frame_rot (link_frame2 uj)))) = 0.
Proof.
  intros uj s1 s2. subst uj s1 s2.
  destruct scene_frames as (_ & -> & ->).
  unfold link_at, body_at. rewrite scene_links, scene_bodies.
  cbn [nth h_ujoint h_shaft_1 h_shaft_2 link_body1 link_body2 link_frame1
       link_frame2 frame_pos frame_rot body_shapes].
  unfold cylinder_along, shaft_1_arm, shaft_2_arm, shaft_2_pos, sina, cosa.
  rewrite bent_axis_point. unfold Mrot_X.
  repeat split; vec_unfold; scalar_unfold; simpl;
    try reflexivity; try (f_equal; lra); try lra; f_equal; f_equal; ring.
Qed.

(** The two joints to the ground hold the shafts at their origins
    and along their axes: the motor frame on the first shaft and the
    frame of the cylindrical joint on the second are the identity frame,
    and the two cylinders drawn on the ground lie along the Z axes of
    those joints, reaching 0.2 to each side. *)
Theorem demo_supports :
  let motor := link_at scene h_motor in
  let cyl := link_at scene h_cyljoint in
  let g := body_at scene h_ground in
  link_kind motor = LinkMotorRotationAngle (ChFunction_Ramp 0 1) /\
  link_body1 motor = Some h_ground /\ link_body2 motor = Some h_shaft_1 /\
  link_frame2 motor = mkFrame VNULL Midentity /\
  link_body1 cyl = Some h_ground /\ link_body2 cyl = Some h_shaft_2 /\
  link_frame2 cyl = mkFrame VNULL Midentity /\
  body_shapes g = [ground_cyl_1; ground_cyl_2] /\
  ground_cyl_1 =
    cylinder_along (link_frame1 motor) (mkV 0 0 1) (2 / 10) (3 / 10) None /\
  ground_cyl_2 =
    cylinder_along (link_frame1 cyl) (mkV 0 0 1) (2 / 10) (3 / 10) None.
Proof.
  intros motor cyl g. subst motor cyl g.
  unfold link_at, body_at. rewrite scene_links, scene_bodies.
  cbn [nth h_motor h_cyljoint h_ground link_kind link_body1 link_body2
       link_frame1 link_frame2 body_shapes].
  unfold cylinder_along, ground_cyl_1, ground_cyl_2, shaft_2_pos, sina, cosa.
  replace (Vmul (mkV 0 0 1) (- (2 / 10))) with (mkV 0 0 (- (2 / 10))) by vsolve.
  replace (Vmul (mkV 0 0 1) (2 / 10)) with (mkV 0 0 (2 / 10)) by vsolve.
  rewrite !bent_axis_point.
  repeat split; vec_unfold; scalar_unfold; simpl; f_equal; f_equal; lra.
Qed.

(** ** What the joint transmits *)

(** A body turned by [theta] about its own Z axis, which for the two
    shafts is the axis of the shaft. *)
Definition spin (f : ChFrame R) (theta : R) : ChFrame R :=
  mkFrame (frame_pos f) (MMmul (frame_rot f) (Mrot_angle_axis theta Vertical)).

(** The constraint of the universal joint on the directions: the scalar
    product of the X axis of its frame on the first body and the Y axis of
    its frame on the second, which the joint keeps at zero; here with the
    first shaft turned by [theta_1] and the second by [theta_2]. *)
Definition cross_violation (theta_1 theta_2 : R) : R :=
  let uj := link_at scene h_ujoint in
  let f1 := spin (body_frame (body_at scene h_shaft_1)) theta_1 in
  let f2 := spin (body_frame (body_at scene h_shaft_2)) theta_2 in
  Vdot (Mmul (frame_rot f1) (Xaxis (frame_rot (link_frame1 uj))))
       (Mmul (frame_rot f2) (Yaxis (frame_rot (link_frame2 uj)))).

(** The joint does not transmit the rotation uniformly.  However the two
    shafts are turned about their axes, the two ends the joint connects
    stay at the origin; and the arms of the cross stay perpendicular
    exactly when [cos theta_1 sin theta_2 = cos angle sin theta_1 cos
    theta_2], that is when [tan theta_2 = cos angle * tan theta_1]: the
    second shaft follows the first through the cosine of the bend. *)
Theorem ujoint_transmission (theta_1 theta_2 : R) :
  let uj := link_at scene h_ujoint in
  let f1 := spin (body_frame (body_at scene h_shaft_1)) theta_1 in
  let f2 := spin (body_frame (body_at scene h_shaft_2)) theta_2 in
  TransformPointLocalToParent f1 (frame_pos (link_frame1 uj)) = VNULL /\
  TransformPointLocalToParent f2 (frame_pos (link_frame2 uj)) = VNULL /\
  cross_violation theta_1 theta_2 =
    cos angle * sin theta_1 * cos theta_2 - cos theta_1 * sin theta_2 /\
  (cos theta_1 <> 0 -> cos theta_2 <> 0 ->
   (cross_violation theta_1 theta_2 = 0 <->
    tan theta_2 = cos angle * tan theta_1)).
Proof.
  intros uj f1 f2.
  assert (Ev : cross_violation theta_1 theta_2 =
               cos angle * sin theta_1 * cos theta_2 - cos theta_1 * sin theta_2).
  { unfold cross_violation, spin. destruct scene_frames as (_ & -> & ->).
    unfold link_at. rewrite scene_links.
    cbn [nth h_ujoint link_frame1 link_frame2 frame_pos frame_rot].
    rewrite !Mmul_MMmul, !Mrot_Vertical. unfold Mrot_X.
    vec_unfold; scalar_unfold; simpl. ring. }
  subst uj f1 f2. unfold spin. destruct scene_frames as (_ & -> & ->).
  unfold link_at. rewrite scene_links.
  cbn [nth h_ujoint link_frame1 link_frame2 frame_pos frame_rot].
  split; [| split; [| split; [exact Ev |]]].
  - unfold TransformPointLocalToParent. cbn [frame_pos frame_rot].
    rewrite Mmul_MMmul, Mrot_Vertical. vec_unfold; scalar_unfold; simpl.
    f_equal; ring.
  - unfold TransformPointLocalToParent, shaft_2_pos, sina, cosa.
    cbn [frame_pos frame_rot]. rewrite Mmul_MMmul, Mrot_Vertical. unfold Mrot_X.
    vec_unfold; scalar_unfold; simpl. f_equal; ring.
  - intros H1 H2. rewrite Ev.
    set (v := cos angle * sin theta_1 * cos theta_2 - cos theta_1 * sin theta_2).
    assert (Et : tan theta_2 - cos angle * tan theta_1 =
                 - v / (cos theta_1 * cos theta_2))
      by (unfold v, tan; field; split; assumption).
    assert (Eb : v = - (- v / (cos theta_1 * cos theta_2)) *
                     (cos theta_1 * cos theta_2))
      by (field; split; assumption).
    split; intros E.
    + apply Rminus_diag_uniq. rewrite Et, E. field. split; assumption.
    + apply Rminus_diag_eq in E. rewrite Et in E. rewrite Eb, E. ring.
Qed.

(** The identifiers of the bodies are not unique: the second shaft
    is given the identifier of the first. *)
Theorem demo_identifiers_clash :
  body_identifier (body_at scene h_shaft_1) = 1%Z /\
  body_identifier (body_at scene h_shaft_2) = 1%Z /\
  ~ NoDup (map (fun h => body_identifier (body_at scene h)) (w_bodylist scene)).
Proof.
  destruct scene_system as (Eb & _). unfold body_at. rewrite Eb, scene_bodies.
  cbn [map nth h_ground h_shaft_1 h_shaft_2 body_identifier].
  repeat split. intros Hd. inversion Hd as [| ? ? _ Hd']. inversion Hd' as [| ? ? Hn _].
  apply Hn. left. reflexivity.
Qed.

(** With the bend angle of the program, pi/6, the second shaft is centred
    at [(0, -1, sqrt 3)]. *)
Lemma shaft_2_pos_value : shaft_2_pos = mkV 0 (- 1) (sqrt 3).
Proof.
  unfold shaft_2_pos, sina, cosa, angle, hl, CH_C_PI; scalar_unfold.
  rewrite sin_PI6, cos_PI6. f_equal; field.
Qed.

End Scene.

(** ** The simulation loop *)

(** The one fact about the solver that the output depends on: a step
    advances the clock of the system by the step size. *)
Class SolverClock (S : Solver R) : Prop := {
  step_time : forall (w : World R) (h : R),
    w_ChTime (DoStepDynamics w h) = (w_ChTime w + h)%R
}.

Section Loop.
Context `{Solver R}.

Ltac Zify.zify_post_hook ::= Z.to_euclidean_division_equations.

(** The system after [n] steps of the loop. *)
Fixpoint steps (n : nat) (w : World R) : World R :=
  match n with
  | O => w
  | S n => steps n (DoStepDynamics w timestep)
  end.

(** The frames in which a line is printed, among [runs] frames from
    frame [frame] on. *)
Definition report_frames (frame runs : nat) : list nat :=
  filter (fun k => (k mod 20 =? 0)%nat) (seq frame runs).

Lemma rem_20 (f : nat) : (Z.rem (Z.of_nat f) 20 =? 0)%Z = (f mod 20 =? 0)%nat.
Proof.
  destruct (Nat.eqb_spec (f mod 20) 0) as [E | E];
    [apply Z.eqb_eq | apply Z.eqb_neq]; lia.
Qed.

Lemma steps_succ (n : nat) (w : World R) :
  steps (S n) w = DoStepDynamics (steps n w) timestep.
Proof. revert w; induction n as [| n IH]; intros w; [reflexivity |]. apply (IH _). Qed.

Lemma steps_time `{!SolverClock _} (n : nat) (w : World R) :
  w_ChTime (steps n w) = (w_ChTime w + INR n * timestep)%R.
Proof.
  induction n as [| n IH]; [simpl; ring |].
  rewrite steps_succ, step_time, IH, S_INR. ring.
Qed.

(** Every twentieth frame, from frame 0 on. *)
Lemma report_frames_every_20 (runs : nat) :
  report_frames 0 runs = map (fun j => 20 * j)%nat (seq 0 ((runs + 19) / 20)).
Proof.
  unfold report_frames. induction runs as [| n IH]; [reflexivity |].
  rewrite seq_S, filter_app, IH. change (0 + n)%nat with n. cbn [filter].
  destruct (Nat.eqb_spec (n mod 20) 0) as [E | E].
  - replace ((S n + 19) / 20)%nat with (S ((n + 19) / 20)) by lia.
    rewrite seq_S, map_app. cbn [map]. do 2 f_equal. lia.
  - replace ((S n + 19) / 20)%nat with ((n + 19) / 20)%nat by lia.
    apply app_nil_r.
Qed.

(** The loop, run: when the counter does not overflow it returns the
    system after [runs] steps, the counter advanced by [runs], and one
    line for every frame whose number is a multiple of 20, taken before
    the step of that frame. *)
Lemma demo_loop_run (runs : nat) : forall (f : nat) (w : World R)
  (s1 s2 : nat) (log : list (LogEntry R)),
  (Z.of_nat f + Z.of_nat runs <= INT_MAX)%Z ->
  demo_loop runs (Z.of_nat f) w s1 s2 log =
  Ok (steps runs w, Z.of_nat (f + runs),
      log ++ map (fun k => demo_report (steps (k - f) w) s1 s2)
                 (report_frames f runs)).
Proof.
  unfold report_frames.
  induction runs as [| n IH]; intros f w s1 s2 log Hb.
  - cbn [demo_loop seq filter map steps]. rewrite app_nil_r, Nat.add_0_r. reflexivity.
  - cbn [demo_loop seq filter steps]. rewrite rem_20.
    replace (Z.of_nat f =? INT_MAX)%Z with false by (symmetry; apply Z.eqb_neq; lia).
    replace (Z.of_nat f + 1)%Z with (Z.of_nat (S f)) by lia.
    rewrite IH by lia. do 2 f_equal; [f_equal; lia |].
    assert (Et : map (fun k => demo_report (steps (k - S f) (DoStepDynamics w timestep)) s1 s2)
                     (filter (fun k => (k mod 20 =? 0)%nat) (seq (S f) n)) =
                 map (fun k => demo_report (steps (k - f) w) s1 s2)
                     (filter (fun k => (k mod 20 =? 0)%nat) (seq (S f) n))).
    { apply map_ext_in. intros k Hk. apply filter_In in Hk. destruct Hk as [Hk _].
      apply in_seq in Hk. replace (k - f)%nat with (S (k - S f)) by lia. reflexivity. }
    rewrite Et. destruct (f mod 20 =? 0)%nat; [| reflexivity].
    cbn [map]. rewrite Nat.sub_diag, <- app_assoc. reflexivity.
Qed.

(** The increment of the counter at [INT_MAX] is the one fault of the
    loop. *)
Lemma demo_loop_overflow (runs : nat) : forall (frame : Z) (w : World R)
  (s1 s2 : nat) (log : list (LogEntry R)),
  (frame <= INT_MAX < frame + Z.of_nat runs)%Z ->
  demo_loop runs frame w s1 s2 log = Err IntOverflow.
Proof.
  induction runs as [| n IH]; intros frame w s1 s2 log Hb; [lia |].
  cbn [demo_loop]. destruct (Z.eqb_spec frame INT_MAX) as [E | E]; [reflexivity |].
  apply IH. lia.
Qed.

(** The angular velocity a line reports for the body [h]. *)
Definition omega (w : World R) (h : nat) : R := vz (body_Wvel_loc (body_at w h)).

(** C14: what [main] prints.  When the window is closed after [runs]
    frames, [main] returns 0 and has printed the banner and then one line
    for every twentieth frame, frames 0, 20, 40, ...: there are
    [ceil(runs / 20)] lines, and line [j] shows the time [j / 10] and the
    angular velocities of the two shafts about their axes after [20 j]
    steps of the solver. *)
Theorem main_log `{!SolverClock _} (runs : nat) :
  (Z.of_nat runs <= INT_MAX)%Z ->
  main runs =
  Ok (0%Z,
      LogBanner ::
      map (fun j => LogState (INR j / 10)%R
                      (omega (steps (20 * j) scene) h_shaft_1)
                      (omega (steps (20 * j) scene) h_shaft_2))
          (seq 0 ((runs + 19) / 20))).
Proof.
  intros Hb. unfold main. rewrite demo_scene_handles.
  rewrite (demo_loop_run runs 0) by (cbn [Z.of_nat]; lia).
  cbn [res_bind app]. rewrite report_frames_every_20, map_map. do 3 f_equal.
  apply map_ext. intros j. rewrite Nat.sub_0_r. unfold demo_report, omega.
  f_equal. rewrite steps_time. destruct scene_system as (_ & _ & _ & -> & _).
  rewrite mult_INR. unfold timestep; scalar_unfold. simpl INR. field.
Qed.

(** The frame counter is an [int]: [main] returns exactly when the
    window is closed within [INT_MAX] frames; a window that stays open
    longer makes the increment of the counter overflow. *)
Theorem main_overflow (runs : nat) :
  main runs = Err IntOverflow <-> (INT_MAX < Z.of_nat runs)%Z.
Proof.
  unfold main. rewrite demo_scene_handles. split.
  - intros E. destruct (Z.le_gt_cases (Z.of_nat runs) INT_MAX) as [Hle | Hgt];
      [| exact Hgt].
    rewrite (demo_loop_run runs 0) in E by (cbn [Z.of_nat]; lia). discriminate.
  - intros Hgt. rewrite demo_loop_overflow; [reflexivity |].
    unfold INT_MAX in *. lia.
Qed.

End Loop.

(** ** A solver that only keeps the clock, and the witnesses *)

Section Witnesses.
Local Open Scope R_scope.

(** The least solver: it advances the clock and moves nothing. *)
#[local] Instance clock_solver : Solver R := {|
  DoStepDynamics w h :=
    mkWorld (w_bodies w) (w_links w) (w_G_acc w) (w_ChTime w + h)
      (w_bodylist w) (w_linklist w) (w_vis w)
|}.

#[local] Instance clock_solver_clock : SolverClock clock_solver.
Proof. constructor. reflexivity. Qed.

Lemma main_log_witness :
  main 41 =
  Ok (0%Z,
      LogBanner ::
      map (fun j => LogState (INR j / 10)
                      (omega (steps (20 * j) scene) h_shaft_1)
                      (omega (steps (20 * j) scene) h_shaft_2))
          (seq 0 ((41 + 19) / 20)%nat)).
Proof. apply (main_log 41). unfold INT_MAX. lia. Defined.

End Witnesses.

(** ** The clock in binary64 *)

Section FloatClock.

(** The same solver on [double]. *)
#[local] Instance float_clock_solver : Solver PrimFloat.float := {|
  DoStepDynamics w h :=
    mkWorld (w_bodies w) (w_links w) (w_G_acc w) (w_ChTime w + h)
      (w_bodylist w) (w_linklist w) (w_vis w)
|}.

(** The times of the lines that the loop prints in 41 frames. *)
Definition float_times : list PrimFloat.float :=
  match demo_loop 41 0 ChSystemNSC_new 0 0 [] with
  | Ok (_, _, log) =>
      map (fun e => match e with LogState t _ _ => t | LogBanner => #0 end) log
  | Err _ => []
  end.

(** On [double] the clock accumulates the rounding of [0.005]: the second
    and the third line do not show [0.1] and [0.2] but the doubles just
    above them. *)
Example float_clock_drift :
  map (fun '(t, d) => (t =? d, d <? t)) (combine float_times [#0; lit 1 10; lit 2 10]) =
  [(true, false); (false, true); (false, true)].
Proof. vm_compute. reflexivity. Qed.

End FloatClock.
