(* ===== verification/DemosCMake.v ===== *)
(** * DemosCMake: the configuration script of the demo programs

    The text that follows the demo program in [demo_IRR_ujoint.cpp] (from
    line 213) is the CMake script of the [demos] directory.  It fixes the
    run-time search path of the installed programs, and then decides, for
    the base demos and for every optional module, whether the directory
    of its demos is configured: the directory [irrlicht], which holds the
    universal joint demo, is one of them.

    The script is a sequence of commands on the state of a configure run:
    the variables of the directory, the cache that survives from one run
    to the next, the cache entries marked as advanced, the directories
    added and the messages printed.  Each command is a function on that
    state, following the documentation of CMake: [option] defines a cache
    entry unless the variable is already set, [if(<variable>)] holds when
    the variable is defined to a value that is not a false constant,
    [mark_as_advanced] does nothing without a cache entry, a quoted
    argument of [if] is a string.  The scripts of the directories that
    are added are not part of the excerpt: adding a directory records its
    name. *)

From stdpp Require Import gmap strings list pretty.
From Stdlib Require Import Ascii String.

Local Open Scope string_scope.

(** ** The state of a configure run *)

Record CMake : Type := mkCMake {
  cm_vars : gmap string string;     (* variables of the directory scope *)
  cm_cache : gmap string string;    (* cache entries *)
  cm_advanced : gset string;        (* cache entries marked as advanced *)
  cm_subdirs : list string;         (* add_subdirectory, in order *)
  cm_messages : list string         (* message(STATUS ...), in order *)
}.

#[export] Instance CMake_eq_dec : EqDecision CMake.
Proof. solve_decision. Defined.

(** ** The commands *)

(** The value of [VAR] as [${VAR}] and [if(VAR)] see it: the variable of
    the scope hides the cache entry. *)
Definition cm_lookup (st : CMake) (var : string) : option string :=
  match cm_vars st !! var with
  | Some v => Some v
  | None => cm_cache st !! var
  end.

(** [${VAR}]: the empty string when [VAR] is not defined. *)
Definition cm_ref (st : CMake) (var : string) : string :=
  match cm_lookup st var with
  | Some v => v
  | None => ""
  end.

Definition to_upper (c : ascii) : ascii :=
  let n := nat_of_ascii c in
  if (97 <=? n)%nat && (n <=? 122)%nat then ascii_of_nat (n - 32) else c.

Fixpoint upper (s : string) : string :=
  match s with
  | EmptyString => EmptyString
  | String c s => String (to_upper c) (upper s)
  end.

Definition ends_with (suffix s : string) : bool :=
  let n := String.length s in
  let k := String.length suffix in
  (k <=? n)%nat && String.eqb (substring (n - k) k s) suffix.

(** The false constants: [0], [OFF], [NO], [FALSE], [N], [IGNORE],
    [NOTFOUND], the empty string and what ends in [-NOTFOUND]; the named
    ones in any case. *)
Definition cm_is_off (v : string) : bool :=
  let u := upper v in
  String.eqb v "" || String.eqb u "0" || String.eqb u "OFF" || String.eqb u "NO"
  || String.eqb u "FALSE" || String.eqb u "N" || String.eqb u "IGNORE"
  || String.eqb u "NOTFOUND" || ends_with "-NOTFOUND" v.

(** [if(VAR)]. *)
Definition cm_if (st : CMake) (var : string) : bool :=
  match cm_lookup st var with
  | Some v => negb (cm_is_off v)
  | None => false
  end.

(** [set(VAR value)]. *)
Definition cm_set (st : CMake) (var value : string) : CMake :=
  mkCMake (<[var := value]> (cm_vars st)) (cm_cache st) (cm_advanced st)
    (cm_subdirs st) (cm_messages st).

(** [option(VAR "help" value)]. *)
Definition cm_option (st : CMake) (var help value : string) : CMake :=
  match cm_lookup st var with
  | Some _ => st
  | None =>
      mkCMake (cm_vars st) (<[var := value]> (cm_cache st)) (cm_advanced st)
        (cm_subdirs st) (cm_messages st)
  end.

(** [mark_as_advanced(FORCE VAR)]. *)
Definition cm_mark_as_advanced_FORCE (st : CMake) (var : string) : CMake :=
  match cm_cache st !! var with
  | Some _ =>
      mkCMake (cm_vars st) (cm_cache st) ({[var]} ∪ cm_advanced st)
        (cm_subdirs st) (cm_messages st)
  | None => st
  end.

(** [add_subdirectory(dir)]. *)
Definition cm_add_subdirectory (st : CMake) (dir : string) : CMake :=
  mkCMake (cm_vars st) (cm_cache st) (cm_advanced st)
    (cm_subdirs st ++ [dir]) (cm_messages st).

(** [message(STATUS "text")]. *)
Definition cm_message_STATUS (st : CMake) (text : string) : CMake :=
  mkCMake (cm_vars st) (cm_cache st) (cm_advanced st)
    (cm_subdirs st) (cm_messages st ++ [text]).

(** The elements of a list value: the parts between the semicolons, none
    for the empty string. *)
Fixpoint cm_split (acc s : string) : list string :=
  match s with
  | EmptyString => [acc]
  | String ";" s => acc :: cm_split "" s
  | String c s => cm_split (acc ++ String c "") s
  end.

Definition cm_elements (v : string) : list string :=
  if String.eqb v "" then [] else cm_split "" v.

Fixpoint cm_index (x : string) (l : list string) (i : nat) : option nat :=
  match l with
  | [] => None
  | y :: l => if String.eqb x y then Some i else cm_index x l (S i)
  end.

(** [list(FIND LIST value OUT)]: the index of the first element equal to
    [value], or [-1]. *)
Definition cm_list_FIND (st : CMake) (lst value out : string) : CMake :=
  cm_set st out
    match cm_index value (cm_elements (cm_ref st lst)) 0 with
    | Some i => pretty i
    | None => "-1"
    end.

(** ** The script *)

(** The run-time search path. *)
Definition rpath_settings (st : CMake) : CMake :=
  let st := cm_set st "CMAKE_SKIP_BUILD_RPATH" "FALSE" in
  let st := cm_set st "CMAKE_BUILD_WITH_INSTALL_RPATH" "FALSE" in
  let st := cm_set st "CMAKE_INSTALL_RPATH"
              (cm_ref st "CMAKE_INSTALL_PREFIX" ++ "/lib") in
  let st := cm_set st "CMAKE_INSTALL_RPATH_USE_LINK_PATH" "TRUE" in
  let st := cm_list_FIND st "CMAKE_PLATFORM_IMPLICIT_LINK_DIRECTORIES"
              (cm_ref st "CMAKE_INSTALL_PREFIX" ++ "/lib") "isSystemDir" in
  if String.eqb (cm_ref st "isSystemDir") "-1"
  then cm_set st "CMAKE_INSTALL_RPATH"
         (cm_ref st "CMAKE_INSTALL_PREFIX" ++ "/lib")
  else st.

(** Application bundles on macOS. *)
Definition macosx_bundle (st : CMake) : CMake :=
  if cm_if st "APPLE" then
    let st := cm_set st "CMAKE_MACOSX_BUNDLE" "ON" in
    cm_set st "MACOSX_BUNDLE_INFO_PLIST"
      (cm_ref st "PROJECT_SOURCE_DIR" ++ "/cmake/MacOSXBundleInfo.plist.in")
  else st.

Definition demos_banner (st : CMake) : CMake :=
  let st := cm_message_STATUS st "" in
  let st := cm_message_STATUS st "==== Demo programs ====" in
  cm_message_STATUS st "".

(** The four lines every group of demos has: the option, advanced, and
    the directory when the option holds. *)
Definition demos_block (opt help value dir : string) (st : CMake) : CMake :=
  let st := cm_option st opt help value in
  let st := cm_mark_as_advanced_FORCE st opt in
  if cm_if st opt then cm_add_subdirectory st dir else st.

(** The group of an optional module: nothing happens, the option is not
    even defined, unless the module is enabled. *)
Definition module_block (module : string) (body : CMake -> CMake)
  (st : CMake) : CMake :=
  if cm_if st module then body st else st.

Definition demos_base : CMake -> CMake :=
  demos_block "BUILD_DEMOS_BASE" "Build demo programs for base Chrono module"
    "TRUE" "core".

Definition demos_fea : CMake -> CMake :=
  demos_block "BUILD_DEMOS_FEA" "Build demo programs for FEA" "TRUE" "fea".

Definition demos_robot : CMake -> CMake :=
  demos_block "BUILD_DEMOS_ROBOT" "Build robot demo programs" "ON" "robot".

Definition demos_cosimulation : CMake -> CMake :=
  module_block "ENABLE_MODULE_COSIMULATION"
    (demos_block "BUILD_DEMOS_COSIMULATION"
       "Build demo programs for Cosimulation module" "TRUE" "cosimulation").

Definition demos_irrlicht : CMake -> CMake :=
  module_block "ENABLE_MODULE_IRRLICHT"
    (demos_block "BUILD_DEMOS_IRRLICHT"
       "Build demo programs for Irrlicht module" "TRUE" "irrlicht").

Definition demos_matlab : CMake -> CMake :=
  module_block "ENABLE_MODULE_MATLAB"
    (demos_block "BUILD_DEMOS_MATLAB"
       "Build demo programs for Matlab module" "TRUE" "matlab").

Definition demos_mumps : CMake -> CMake :=
  module_block "ENABLE_MODULE_MUMPS"
    (demos_block "BUILD_DEMOS_MUMPS"
       "Build demo programs for MUMPS module" "TRUE" "mumps").

Definition demos_cascade : CMake -> CMake :=
  module_block "ENABLE_MODULE_CASCADE"
    (demos_block "BUILD_DEMOS_CASCADE"
       "Build demo programs for Cascade module" "TRUE" "cascade").

Definition demos_python : CMake -> CMake :=
  module_block "ENABLE_MODULE_PYTHON"
    (demos_block "BUILD_DEMOS_PYTHON"
       "Build demo programs for Python module" "TRUE" "pyparser").

Definition demos_gpu : CMake -> CMake :=
  module_block "ENABLE_MODULE_GPU"
    (demos_block "BUILD_DEMOS_GPU"
       "Build demo programs for Gpu module" "TRUE" "gpu").

Definition demos_postprocess : CMake -> CMake :=
  module_block "ENABLE_MODULE_POSTPROCESS"
    (demos_block "BUILD_DEMOS_POSTPROCESS"
       "Build demo programs for Postprocess module" "TRUE" "postprocess").

Definition demos_multicore : CMake -> CMake :=
  module_block "ENABLE_MODULE_MULTICORE"
    (demos_block "BUILD_DEMOS_MULTICORE"
       "Build demo programs for Multicore module" "TRUE" "multicore").

Definition demos_opengl : CMake -> CMake :=
  module_block "ENABLE_MODULE_OPENGL"
    (demos_block "BUILD_DEMOS_OPENGL"
       "Build demo programs for OpenGL module" "TRUE" "opengl").

Definition demos_vehicle : CMake -> CMake :=
  module_block "ENABLE_MODULE_VEHICLE"
    (demos_block "BUILD_DEMOS_VEHICLE"
       "Build demo programs for Vehicle module" "TRUE" "vehicle").

Definition demos_fsi : CMake -> CMake :=
  module_block "ENABLE_MODULE_FSI"
    (demos_block "BUILD_DEMOS_FSI"
       "Build demo programs for FSI module" "TRUE" "fsi").

Definition demos_distributed : CMake -> CMake :=
  module_block "ENABLE_MODULE_DISTRIBUTED"
    (demos_block "BUILD_DEMOS_DISTRIBUTED"
       "Build demo programs for Distributed module" "TRUE" "distributed").

Definition demos_sensor : CMake -> CMake :=
  module_block "ENABLE_MODULE_SENSOR"
    (demos_block "BUILD_DEMOS_SENSOR"
       "Build demo programs for Sensor module" "TRUE" "sensor").

Definition demos_synchrono : CMake -> CMake :=
  module_block "ENABLE_MODULE_SYNCHRONO"
    (demos_block "BUILD_DEMOS_SYNCHRONO"
       "Build demo programs for SynChrono module" "TRUE" "synchrono").

Definition demos_modal : CMake -> CMake :=
  module_block "ENABLE_MODULE_MODAL"
    (demos_block "BUILD_DEMOS_MODAL"
       "Build demo programs for Modal module" "TRUE" "modal").

(** The groups, in the order of the script. *)
Definition demos_groups : list (CMake -> CMake) :=
  [demos_base; demos_fea; demos_robot; demos_cosimulation; demos_irrlicht;
   demos_matlab; demos_mumps; demos_cascade; demos_python; demos_gpu;
   demos_postprocess; demos_multicore; demos_opengl; demos_vehicle;
   demos_fsi; demos_distributed; demos_sensor; demos_synchrono; demos_modal].

(** The whole script. *)
Definition demos_CMakeLists (st : CMake) : CMake :=
  let st := rpath_settings st in
  let st := macosx_bundle st in
  let st := demos_banner st in
  foldl (fun st group => group st) st demos_groups.

(** A configure run: the cache and its advanced marks are those of the
    run before (or of the command line), everything else is fresh. *)
Definition configure (cache : gmap string string) (advanced : gset string)
  : CMake :=
  demos_CMakeLists (mkCMake ∅ cache advanced [] []).

(** ** The script as a table *)

(** A group of demos: the module that must be enabled (none for the
    groups of the base library), the option that selects the group with
    its help text and its default, and the directory. *)
Record DemoGroup : Type := mkGroup {
  g_module : option string;
  g_option : string;
  g_help : string;
  g_default : string;
  g_dir : string
}.

#[export] Instance DemoGroup_eq_dec : EqDecision DemoGroup.
Proof. solve_decision. Defined.

Definition run_group (g : DemoGroup) : CMake -> CMake :=
  let body := demos_block (g_option g) (g_help g) (g_default g) (g_dir g) in
  match g_module g with
  | None => body
  | Some module => module_block module body
  end.

Definition module_group (name title dir : string) : DemoGroup :=
  mkGroup (Some ("ENABLE_MODULE_" ++ name)) ("BUILD_DEMOS_" ++ name)
    ("Build demo programs for " ++ title ++ " module") "TRUE" dir.

Definition demo_table : list DemoGroup :=
  [mkGroup None "BUILD_DEMOS_BASE" "Build demo programs for base Chrono module"
     "TRUE" "core";
   mkGroup None "BUILD_DEMOS_FEA" "Build demo programs for FEA" "TRUE" "fea";
   mkGroup None "BUILD_DEMOS_ROBOT" "Build robot demo programs" "ON" "robot";
   module_group "COSIMULATION" "Cosimulation" "cosimulation";
   module_group "IRRLICHT" "Irrlicht" "irrlicht";
   module_group "MATLAB" "Matlab" "matlab";
   module_group "MUMPS" "MUMPS" "mumps";
   module_group "CASCADE" "Cascade" "cascade";
   module_group "PYTHON" "Python" "pyparser";
   module_group "GPU" "Gpu" "gpu";
   module_group "POSTPROCESS" "Postprocess" "postprocess";
   module_group "MULTICORE" "Multicore" "multicore";
   module_group "OPENGL" "OpenGL" "opengl";
   module_group "VEHICLE" "Vehicle" "vehicle";
   module_group "FSI" "FSI" "fsi";
   module_group "DISTRIBUTED" "Distributed" "distributed";
   module_group "SENSOR" "Sensor" "sensor";
   module_group "SYNCHRONO" "SynChrono" "synchrono";
   module_group "MODAL" "Modal" "modal"].

(** What a group does depends on two readings of the state before it:
    whether its module is enabled, and the value its option has once
    [option] has run. *)
Definition mod_on (st : CMake) (g : DemoGroup) : bool :=
  match g_module g with
  | None => true
  | Some module => cm_if st module
  end.

Definition opt_val (st : CMake) (g : DemoGroup) : string :=
  match cm_lookup st (g_option g) with
  | Some v => v
  | None => g_default g
  end.

Definition built (st : CMake) (g : DemoGroup) : bool :=
  mod_on st g && negb (cm_is_off (opt_val st g)).

(** The cache entry [option] creates, if it creates one. *)
Definition new_entry (st : CMake) (g : DemoGroup) : gmap string string :=
  if mod_on st g then
    match cm_lookup st (g_option g) with
    | None => {[g_option g := g_default g]}
    | Some _ => ∅
    end
  else ∅.

(** The mark [mark_as_advanced] sets, if it sets one. *)
Definition new_mark (st : CMake) (g : DemoGroup) : gset string :=
  if mod_on st g then
    match cm_vars st !! g_option g, cm_cache st !! g_option g with
    | Some _, None => ∅
    | _, _ => {[g_option g]}
    end
  else ∅.

(** ** One group *)

Lemma demos_groups_table : demos_groups = map run_group demo_table.
Proof. reflexivity. Qed.

(** A group in closed form. *)
Lemma demos_block_eq (opt help value dir : string) (st : CMake) :
  let g := mkGroup None opt help value dir in
  demos_block opt help value dir st =
  mkCMake (cm_vars st)
    (cm_cache st ∪ match cm_lookup st opt with
                   | None => {[opt := value]}
                   | Some _ => ∅
                   end)
    (match cm_vars st !! opt, cm_cache st !! opt with
     | Some _, None => ∅
     | _, _ => {[opt]}
     end ∪ cm_advanced st)
    (cm_subdirs st ++ if negb (cm_is_off (opt_val st g)) then [dir] else [])
    (cm_messages st).
Proof.
  destruct st as [vars cache adv dirs msgs].
  unfold demos_block, opt_val, cm_option, cm_mark_as_advanced_FORCE, cm_if,
    cm_add_subdirectory, cm_lookup.
  cbn [cm_vars cm_cache cm_advanced cm_subdirs cm_messages g_option g_default].
  destruct (vars !! opt) as [v |] eqn:Ev;
    cbn [cm_vars cm_cache cm_advanced cm_subdirs cm_messages]; rewrite ?Ev.
  - destruct (cache !! opt) as [w |] eqn:Ec;
      cbn [cm_vars cm_cache cm_advanced cm_subdirs cm_messages];
      rewrite ?Ev, ?(right_id_L ∅ (∪)), ?(left_id_L ∅ (∪));
      destruct (cm_is_off v); cbn [negb]; rewrite ?app_nil_r; reflexivity.
  - destruct (cache !! opt) as [w |] eqn:Ec;
      cbn [cm_vars cm_cache cm_advanced cm_subdirs cm_messages];
      rewrite ?Ev, ?Ec, ?lookup_insert_eq, ?(right_id_L ∅ (∪));
      cbn [cm_vars cm_cache cm_advanced cm_subdirs cm_messages];
      rewrite ?Ev, ?Ec, ?lookup_insert_eq, <- ?insert_union_singleton_r by done;
      match goal with |- context [cm_is_off ?x] => destruct (cm_is_off x) end;
      cbn [negb]; rewrite ?app_nil_r; reflexivity.
Qed.

Lemma run_group_eq (g : DemoGroup) (st : CMake) :
  run_group g st =
  mkCMake (cm_vars st) (cm_cache st ∪ new_entry st g)
    (new_mark st g ∪ cm_advanced st)
    (cm_subdirs st ++ if built st g then [g_dir g] else [])
    (cm_messages st).
Proof.
  assert (Hid : st = mkCMake (cm_vars st) (cm_cache st ∪ ∅) (∅ ∪ cm_advanced st)
                       (cm_subdirs st ++ []) (cm_messages st))
    by (rewrite (right_id_L ∅ (∪)), (left_id_L ∅ (∪)), app_nil_r;
        destruct st; reflexivity).
  destruct g as [[module |] opt help value dir];
    unfold run_group, built, new_entry, new_mark, mod_on, module_block;
    cbn [g_module g_option g_help g_default g_dir andb];
    [destruct (cm_if st module); cbn [andb]; [| exact Hid] |];
    apply demos_block_eq.
Qed.

(** ** The groups one after the other *)

Definition run_groups (tbl : list DemoGroup) (st : CMake) : CMake :=
  foldl (fun st g => run_group g st) st tbl.

(** What a group reads of the state. *)
Definition reads (st : CMake) (g : DemoGroup)
  : bool * option string * option string :=
  (mod_on st g, cm_vars st !! g_option g, cm_cache st !! g_option g).

(** The names of a table are _separate_ when no option is declared twice
    and no option is the switch of a module. *)
Definition separate (tbl : list DemoGroup) : Prop :=
  NoDup (g_option <$> tbl) /\
  Forall (fun g => Forall (fun g' => g_module g' ≠ Some (g_option g)) tbl) tbl.

#[export] Instance separate_dec tbl : Decision (separate tbl).
Proof. unfold separate. apply _. Defined.

Lemma foldl_groups (tbl : list DemoGroup) (st : CMake) :
  foldl (fun st group => group st) st (map run_group tbl) = run_groups tbl st.
Proof. revert st. induction tbl as [| g tbl IH]; intros st; [done | apply IH]. Qed.

Lemma effect_reads (st st' : CMake) (g : DemoGroup) :
  reads st g = reads st' g ->
  new_entry st g = new_entry st' g /\ new_mark st g = new_mark st' g /\
  built st g = built st' g.
Proof.
  unfold reads, new_entry, new_mark, built, opt_val, cm_lookup.
  intros [= -> -> ->]. done.
Qed.

Lemma new_entry_lookup_ne (st : CMake) (g : DemoGroup) (x : string) :
  x ≠ g_option g -> new_entry st g !! x = None.
Proof.
  intros Hx. unfold new_entry.
  destruct (mod_on st g); [| done].
  destruct (cm_lookup st (g_option g)); [done |].
  by apply lookup_singleton_ne.
Qed.

Lemma lookup_run_group (g : DemoGroup) (st : CMake) (x : string) :
  x ≠ g_option g ->
  cm_cache (run_group g st) !! x = cm_cache st !! x /\
  cm_lookup (run_group g st) x = cm_lookup st x.
Proof.
  intros Hx. rewrite run_group_eq. unfold cm_lookup. cbn [cm_vars cm_cache].
  by rewrite lookup_union_l by apply new_entry_lookup_ne, Hx.
Qed.

(** A group does not change what a group with other names reads. *)
Lemma reads_run_group (g g' : DemoGroup) (st : CMake) :
  g_option g' ≠ g_option g -> g_module g' ≠ Some (g_option g) ->
  reads (run_group g st) g' = reads st g'.
Proof.
  intros Ho Hm. unfold reads.
  destruct (lookup_run_group g st (g_option g') Ho) as [-> _].
  assert (cm_vars (run_group g st) = cm_vars st) as ->
    by (rewrite run_group_eq; done).
  do 2 f_equal. unfold mod_on, cm_if.
  destruct (g_module g') as [module |]; [| done].
  destruct (lookup_run_group g st module) as [_ ->]; [congruence | done].
Qed.

(** The groups of a table with separate names, in closed form: every
    group acts as if it were the first. *)
Lemma run_groups_eq (tbl : list DemoGroup) : separate tbl -> forall st,
  run_groups tbl st =
  mkCMake (cm_vars st) (cm_cache st ∪ ⋃ (new_entry st <$> tbl))
    (⋃ (new_mark st <$> tbl) ∪ cm_advanced st)
    (cm_subdirs st ++ (g_dir <$> List.filter (built st) tbl))
    (cm_messages st).
Proof.
  induction tbl as [| g tbl IH]; intros [Hnd Hsep] st.
  - cbn. rewrite (right_id_L ∅ (∪)), (left_id_L ∅ (∪)), app_nil_r.
    by destruct st.
  - cbn [fmap list_fmap] in Hnd. apply NoDup_cons in Hnd as [Hg Hnd].
    apply Forall_cons in Hsep as [Hg' Hsep]. apply Forall_cons in Hg' as [_ Hg'].
    assert (Hsep' : separate tbl).
    { split; [done |]. eapply Forall_impl; [exact Hsep |].
      intros g' H'. by apply Forall_cons in H' as [_ H']. }
    assert (Hr : Forall (fun g' => reads (run_group g st) g' = reads st g') tbl).
    { apply Forall_forall. intros g' Hin. apply reads_run_group.
      - intros E. apply Hg. rewrite <- E. by apply list_elem_of_fmap_2.
      - by eapply Forall_forall in Hg'. }
    change (run_groups (g :: tbl) st) with (run_groups tbl (run_group g st)).
    rewrite (IH Hsep' (run_group g st)).
    assert (new_entry (run_group g st) <$> tbl = new_entry st <$> tbl) as ->
      by (apply Forall_fmap_ext_1; eapply Forall_impl; [exact Hr |];
          intros g' E; apply (effect_reads _ _ _ E)).
    assert (new_mark (run_group g st) <$> tbl = new_mark st <$> tbl) as ->
      by (apply Forall_fmap_ext_1; eapply Forall_impl; [exact Hr |];
          intros g' E; apply (effect_reads _ _ _ E)).
    assert (List.filter (built (run_group g st)) tbl = List.filter (built st) tbl)
      as ->.
    { clear -Hr. induction Hr as [| g' tbl E _ IH]; [done |]. cbn.
      destruct (effect_reads _ _ _ E) as (_ & _ & ->). by rewrite IH. }
    rewrite run_group_eq.
    cbn [cm_vars cm_cache cm_advanced cm_subdirs cm_messages fmap list_fmap
         union_list foldr List.filter].
    f_equal.
    + by rewrite map_union_assoc.
    + by rewrite (assoc_L (∪)), (comm_L (∪) (⋃ _)).
    + rewrite <- app_assoc. f_equal. by destruct (built st g).
Qed.

(** ** Before the groups *)

Definition prelude (st : CMake) : CMake :=
  demos_banner (macosx_bundle (rpath_settings st)).

(** The variables the script sets before the groups. *)
Definition prelude_names : list string :=
  ["CMAKE_SKIP_BUILD_RPATH"; "CMAKE_BUILD_WITH_INSTALL_RPATH";
   "CMAKE_INSTALL_RPATH"; "CMAKE_INSTALL_RPATH_USE_LINK_PATH"; "isSystemDir";
   "CMAKE_MACOSX_BUNDLE"; "MACOSX_BUNDLE_INFO_PLIST"].

(** The variables it reads. *)
Definition prelude_inputs : list string :=
  ["CMAKE_INSTALL_PREFIX"; "CMAKE_PLATFORM_IMPLICIT_LINK_DIRECTORIES"; "APPLE";
   "PROJECT_SOURCE_DIR"].

Lemma demos_CMakeLists_eq (st : CMake) :
  demos_CMakeLists st = run_groups demo_table (prelude st).
Proof.
  unfold demos_CMakeLists, prelude. cbv zeta.
  rewrite demos_groups_table. apply foldl_groups.
Qed.

Ltac split_names H :=
  repeat (apply not_elem_of_cons in H; destruct H as [? H]).

(** [set] changes one variable of the scope and nothing else. *)
Lemma cm_set_frame (st : CMake) (x v : string) :
  cm_cache (cm_set st x v) = cm_cache st /\
  cm_advanced (cm_set st x v) = cm_advanced st /\
  cm_subdirs (cm_set st x v) = cm_subdirs st /\
  cm_messages (cm_set st x v) = cm_messages st /\
  forall y, y ≠ x -> cm_vars (cm_set st x v) !! y = cm_vars st !! y.
Proof. repeat split. intros y Hy. by apply lookup_insert_ne. Qed.

Lemma cm_set_vars (st : CMake) (x v y : string) :
  y ≠ x -> cm_vars (cm_set st x v) !! y = cm_vars st !! y.
Proof. apply cm_set_frame. Qed.

Lemma rpath_settings_frame (st : CMake) :
  cm_cache (rpath_settings st) = cm_cache st /\
  cm_advanced (rpath_settings st) = cm_advanced st /\
  cm_subdirs (rpath_settings st) = cm_subdirs st /\
  cm_messages (rpath_settings st) = cm_messages st /\
  forall x, x ∉ prelude_names ->
    cm_vars (rpath_settings st) !! x = cm_vars st !! x.
Proof.
  unfold rpath_settings, cm_list_FIND. cbv zeta.
  destruct (String.eqb _ _); repeat split; try reflexivity;
    intros x Hx; split_names Hx; by rewrite !cm_set_vars.
Qed.

Lemma macosx_bundle_frame (st : CMake) :
  cm_cache (macosx_bundle st) = cm_cache st /\
  cm_advanced (macosx_bundle st) = cm_advanced st /\
  cm_subdirs (macosx_bundle st) = cm_subdirs st /\
  cm_messages (macosx_bundle st) = cm_messages st /\
  forall x, x ∉ prelude_names ->
    cm_vars (macosx_bundle st) !! x = cm_vars st !! x.
Proof.
  unfold macosx_bundle. cbv zeta.
  destruct (cm_if st "APPLE"); repeat split; try reflexivity.
  intros x Hx; split_names Hx; by rewrite !cm_set_vars.
Qed.

(** The commands before the groups touch the variables of the scope
    only, and only those of [prelude_names]. *)
Lemma prelude_frame (st : CMake) :
  cm_cache (prelude st) = cm_cache st /\
  cm_advanced (prelude st) = cm_advanced st /\
  cm_subdirs (prelude st) = cm_subdirs st /\
  cm_messages (prelude st) =
    (cm_messages st ++ [""; "==== Demo programs ===="; ""])%list /\
  forall x, x ∉ prelude_names -> cm_vars (prelude st) !! x = cm_vars st !! x.
Proof.
  destruct (rpath_settings_frame st) as (Ec & Ea & Ed & Em & Ev).
  destruct (macosx_bundle_frame (rpath_settings st))
    as (Ec' & Ea' & Ed' & Em' & Ev').
  unfold prelude, demos_banner, cm_message_STATUS. cbv zeta.
  cbn [cm_vars cm_cache cm_advanced cm_subdirs cm_messages].
  rewrite Ec', Ea', Ed', Em', Ec, Ea, Ed, Em, <- !app_assoc.
  repeat split. intros x Hx. by rewrite Ev', Ev.
Qed.

(** What the groups read is what they would read at the start of the
    script. *)
Lemma reads_prelude (st : CMake) (g : DemoGroup) :
  g_option g ∉ prelude_names ->
  (forall module, g_module g = Some module -> module ∉ prelude_names) ->
  reads (prelude st) g = reads st g.
Proof.
  intros Ho Hm. destruct (prelude_frame st) as (Ec & _ & _ & _ & Ev).
  unfold reads, mod_on, cm_if, cm_lookup. rewrite Ec, (Ev _ Ho).
  destruct (g_module g) as [module |]; [| done].
  by rewrite (Ev module (Hm module eq_refl)).
Qed.

(** The names of the table are separate, and apart from those of the
    commands before. *)
Ltac decide_by_computation := apply (bool_decide_unpack _); vm_compute; exact I.

Lemma demo_table_separate : separate demo_table.
Proof. decide_by_computation. Qed.

Lemma demo_table_apart :
  Forall (fun g => (g_option g ∉ prelude_names) /\
                   forall module, g_module g = Some module ->
                                  (module ∉ prelude_names)) demo_table.
Proof.
  repeat constructor; try decide_by_computation;
    intros module [= <-]; decide_by_computation.
Qed.

(** ** The run-time search path *)

Lemma cm_lookup_set_eq (st : CMake) (x v : string) :
  cm_lookup (cm_set st x v) x = Some v.
Proof. unfold cm_lookup, cm_set. cbn [cm_vars]. by rewrite lookup_insert_eq. Qed.

Lemma cm_lookup_set_ne (st : CMake) (x v y : string) :
  y ≠ x -> cm_lookup (cm_set st x v) y = cm_lookup st y.
Proof.
  intros Hy. unfold cm_lookup. rewrite cm_set_vars by done. reflexivity.
Qed.

Lemma cm_ref_set_ne (st : CMake) (x v y : string) :
  y ≠ x -> cm_ref (cm_set st x v) y = cm_ref st y.
Proof. intros Hy. unfold cm_ref. by rewrite cm_lookup_set_ne. Qed.

Lemma cm_set_same (st : CMake) (x v : string) :
  cm_vars st !! x = Some v -> cm_set st x v = st.
Proof.
  intros Hv. unfold cm_set. rewrite insert_id by done. by destruct st.
Qed.

(** The state before the test of [isSystemDir]. *)
Definition rpath_before_test (st : CMake) : CMake :=
  let lib := cm_ref st "CMAKE_INSTALL_PREFIX" ++ "/lib" in
  let st1 := cm_set st "CMAKE_SKIP_BUILD_RPATH" "FALSE" in
  let st2 := cm_set st1 "CMAKE_BUILD_WITH_INSTALL_RPATH" "FALSE" in
  let st3 := cm_set st2 "CMAKE_INSTALL_RPATH" lib in
  let st4 := cm_set st3 "CMAKE_INSTALL_RPATH_USE_LINK_PATH" "TRUE" in
  cm_list_FIND st4 "CMAKE_PLATFORM_IMPLICIT_LINK_DIRECTORIES" lib "isSystemDir".

Ltac names_differ :=
  let E := fresh "E" in intros E; vm_compute in E; discriminate E.

(** The state after the commands on the install search path, with the
    value they leave in it. *)
Lemma rpath_settings_eq (st : CMake) :
  rpath_settings st = rpath_before_test st /\
  cm_lookup (rpath_settings st) "CMAKE_INSTALL_RPATH" =
    Some (cm_ref st "CMAKE_INSTALL_PREFIX" ++ "/lib").
Proof.
  assert (El : cm_lookup (rpath_before_test st) "CMAKE_INSTALL_RPATH" =
               Some (cm_ref st "CMAKE_INSTALL_PREFIX" ++ "/lib") /\
               cm_vars (rpath_before_test st) !! "CMAKE_INSTALL_RPATH" =
               Some (cm_ref st "CMAKE_INSTALL_PREFIX" ++ "/lib") /\
               cm_ref (rpath_before_test st) "CMAKE_INSTALL_PREFIX" =
               cm_ref st "CMAKE_INSTALL_PREFIX").
  { unfold rpath_before_test, cm_list_FIND. cbv zeta.
    rewrite !cm_ref_set_ne by names_differ.
    rewrite !(cm_lookup_set_ne _ "isSystemDir"),
      !(cm_lookup_set_ne _ "CMAKE_INSTALL_RPATH_USE_LINK_PATH"),
      !(cm_set_vars _ "isSystemDir"),
      !(cm_set_vars _ "CMAKE_INSTALL_RPATH_USE_LINK_PATH") by names_differ.
    rewrite cm_lookup_set_eq. unfold cm_set at 1. cbn [cm_vars].
    by rewrite lookup_insert_eq. }
  destruct El as (El & Ev & Er).
  assert (E : rpath_settings st = rpath_before_test st).
  { unfold rpath_settings. cbv zeta.
    rewrite !(cm_ref_set_ne _ _ _ "CMAKE_INSTALL_PREFIX") by names_differ.
    fold (rpath_before_test st). rewrite Er.
    destruct (String.eqb _ _); [| reflexivity].
    by apply cm_set_same. }
  rewrite E. split; [reflexivity | exact El].
Qed.

(** The test of [isSystemDir] decides nothing.  The install search
    path is set to [${CMAKE_INSTALL_PREFIX}/lib] before the test and to
    the same value inside it, so the state after the commands on the
    search path is the state before the test, and the search path is
    [${CMAKE_INSTALL_PREFIX}/lib] also when that directory is one of the
    implicit link directories of the platform, which is the case the
    comment excludes. *)
Theorem rpath_unconditional (st : CMake) :
  rpath_settings st = rpath_before_test st /\
  cm_lookup (rpath_settings st) "CMAKE_INSTALL_RPATH" =
    Some (cm_ref st "CMAKE_INSTALL_PREFIX" ++ "/lib").
Proof. exact (rpath_settings_eq st). Qed.

(** ** A configure run *)

(** The readings of a run, in terms of the cache it starts with. *)
Definition cache_on (cache : gmap string string) (x : string) : bool :=
  match cache !! x with
  | Some v => negb (cm_is_off v)
  | None => false
  end.

Definition module_enabled (cache : gmap string string) (g : DemoGroup) : bool :=
  match g_module g with
  | None => true
  | Some module => cache_on cache module
  end.

(** A group is selected when its module is enabled and its option, or
    the default of the option when the cache has no entry, is not a false
    constant. *)
Definition selected (cache : gmap string string) (g : DemoGroup) : bool :=
  module_enabled cache g &&
  negb (cm_is_off match cache !! g_option g with
                  | Some v => v
                  | None => g_default g
                  end).

(** The entries a run adds to the cache: the default of the option of
    every enabled module that has none. *)
Definition default_entry (cache : gmap string string) (g : DemoGroup)
  : gmap string string :=
  if module_enabled cache g
  then match cache !! g_option g with
       | None => {[g_option g := g_default g]}
       | Some _ => ∅
       end
  else ∅.

Definition defaults (cache : gmap string string) (tbl : list DemoGroup)
  : gmap string string :=
  ⋃ (default_entry cache <$> tbl).

(** The entries it marks as advanced: the options of the enabled
    modules. *)
Definition mark (cache : gmap string string) (g : DemoGroup) : gset string :=
  if module_enabled cache g then {[g_option g]} else ∅.

Definition marks (cache : gmap string string) (tbl : list DemoGroup)
  : gset string :=
  ⋃ (mark cache <$> tbl).

Lemma effects_ext (tbl : list DemoGroup) (st st' : CMake) :
  Forall (fun g => reads st g = reads st' g) tbl ->
  new_entry st <$> tbl = new_entry st' <$> tbl /\
  new_mark st <$> tbl = new_mark st' <$> tbl /\
  List.filter (built st) tbl = List.filter (built st') tbl.
Proof.
  induction 1 as [| g tbl E _ (IH1 & IH2 & IH3)]; [done |].
  destruct (effect_reads _ _ _ E) as (E1 & E2 & E3).
  cbn. by rewrite E1, E2, E3, IH1, IH2, IH3.
Qed.

(** A run in closed form. *)
Lemma configure_eq (cache : gmap string string) (advanced : gset string) :
  configure cache advanced =
  mkCMake (cm_vars (prelude (mkCMake ∅ cache advanced [] [])))
    (cache ∪ defaults cache demo_table)
    (marks cache demo_table ∪ advanced)
    (g_dir <$> List.filter (selected cache) demo_table)
    [""; "==== Demo programs ===="; ""].
Proof.
  set (st := mkCMake ∅ cache advanced [] []).
  unfold configure. fold st.
  rewrite demos_CMakeLists_eq, (run_groups_eq _ demo_table_separate).
  destruct (prelude_frame st) as (-> & -> & -> & -> & _).
  assert (Hr : Forall (fun g => reads (prelude st) g = reads st g) demo_table).
  { eapply Forall_impl; [exact demo_table_apart |].
    intros g [Ho Hm]. by apply reads_prelude. }
  destruct (effects_ext _ _ _ Hr) as (-> & -> & ->). reflexivity.
Qed.

Lemma cm_if_set_ne (st : CMake) (x v y : string) :
  y ≠ x -> cm_if (cm_set st x v) y = cm_if st y.
Proof. intros Hy. unfold cm_if. by rewrite cm_lookup_set_ne. Qed.

(** The variables set before the groups depend on the four variables
    that are read, and on nothing else of the cache. *)
Lemma prelude_vars_ext (st st' : CMake) :
  cm_vars st = cm_vars st' ->
  Forall (fun x => cm_lookup st x = cm_lookup st' x) prelude_inputs ->
  cm_vars (prelude st) = cm_vars (prelude st').
Proof.
  intros Ev Hin.
  apply Forall_cons in Hin as [E1 Hin]. apply Forall_cons in Hin as [E2 Hin].
  apply Forall_cons in Hin as [E3 Hin]. apply Forall_cons in Hin as [E4 _].
  unfold prelude, demos_banner, cm_message_STATUS, macosx_bundle. cbv zeta.
  cbn [cm_vars].
  rewrite !(proj1 (rpath_settings_eq _)).
  unfold rpath_before_test, cm_list_FIND. cbv zeta.
  rewrite !cm_if_set_ne, !cm_ref_set_ne by names_differ.
  unfold cm_if, cm_ref. rewrite E1, E2, E3, E4.
  destruct (cm_lookup st' "APPLE") as [v |]; [destruct (cm_is_off v) |];
    cbn [negb cm_set cm_vars]; by rewrite Ev.
Qed.

Lemma defaults_lookup_other (cache : gmap string string)
  (tbl : list DemoGroup) (x : string) :
  Forall (fun g => g_option g ≠ x) tbl -> defaults cache tbl !! x = None.
Proof.
  unfold defaults. induction 1 as [| g l Hg _ IH]; [done |].
  cbn [fmap list_fmap union_list foldr]. apply lookup_union_None_2; [| exact IH].
  unfold default_entry. destruct (module_enabled cache g); [| done].
  destruct (cache !! g_option g); [done |]. by apply lookup_singleton_ne.
Qed.

Lemma defaults_lookup (cache : gmap string string) (tbl : list DemoGroup)
  (g : DemoGroup) :
  NoDup (g_option <$> tbl) -> g ∈ tbl ->
  defaults cache tbl !! g_option g =
  if module_enabled cache g
  then match cache !! g_option g with
       | None => Some (g_default g)
       | Some _ => None
       end
  else None.
Proof.
  induction tbl as [| g' l IH]; intros Hnd Hin; [by apply elem_of_nil in Hin |].
  cbn [fmap list_fmap] in Hnd. apply NoDup_cons in Hnd as [Hg' Hnd].
  change (defaults cache (g' :: l)) with
    (default_entry cache g' ∪ defaults cache l).
  unfold default_entry.
  destruct (decide (g_option g' = g_option g)) as [Eo | Ho].
  - assert (g' = g) as ->.
    { apply elem_of_cons in Hin as [-> | Hin]; [done |].
      exfalso. apply Hg'. rewrite Eo. by apply list_elem_of_fmap_2. }
    rewrite lookup_union_l.
    + destruct (module_enabled cache g); [| done].
      destruct (cache !! g_option g); [done |]. apply lookup_singleton_eq.
    + apply defaults_lookup_other. apply Forall_forall. intros h Hh E.
      apply Hg'. rewrite <- E. by apply list_elem_of_fmap_2.
  - apply elem_of_cons in Hin as [-> | Hin]; [done |].
    rewrite lookup_union_r; [by apply IH |].
    destruct (module_enabled cache g'); [| done].
    destruct (cache !! g_option g'); [done |]. by apply lookup_singleton_ne.
Qed.

Section Defaults.
Context (cache : gmap string string) (tbl : list DemoGroup).
Context (Hsep : separate tbl).

(** With the defaults in the cache, every group reads what it read
    before: the modules are those that were enabled and the options hold
    the values that were used. *)
Lemma defaults_module (g : DemoGroup) :
  g ∈ tbl ->
  module_enabled (cache ∪ defaults cache tbl) g = module_enabled cache g.
Proof.
  intros Hin. unfold module_enabled, cache_on.
  destruct (g_module g) as [module |] eqn:Em; [| done].
  rewrite lookup_union_l; [done |]. apply defaults_lookup_other.
  destruct Hsep as [_ Hs]. eapply Forall_impl; [exact Hs |].
  intros h Hh E. eapply Forall_forall in Hh; [| exact Hin]. congruence.
Qed.

Lemma defaults_option (g : DemoGroup) :
  g ∈ tbl ->
  (cache ∪ defaults cache tbl) !! g_option g =
  match cache !! g_option g with
  | Some v => Some v
  | None => if module_enabled cache g then Some (g_default g) else None
  end.
Proof.
  intros Hin. rewrite lookup_union, (defaults_lookup _ _ g (proj1 Hsep) Hin).
  destruct (cache !! g_option g), (module_enabled cache g); done.
Qed.

Lemma defaults_selected (g : DemoGroup) :
  g ∈ tbl -> selected (cache ∪ defaults cache tbl) g = selected cache g.
Proof.
  intros Hin. unfold selected.
  rewrite (defaults_module g Hin), (defaults_option g Hin).
  destruct (cache !! g_option g), (module_enabled cache g); done.
Qed.

Lemma defaults_fixed_on (l : list DemoGroup) :
  Forall (fun g => g ∈ tbl) l ->
  defaults (cache ∪ defaults cache tbl) l = ∅ /\
  marks (cache ∪ defaults cache tbl) l = marks cache l /\
  List.filter (selected (cache ∪ defaults cache tbl)) l =
  List.filter (selected cache) l.
Proof.
  induction 1 as [| g l Hg _ (E1 & E2 & E3)]; [done |].
  change (defaults ?c (g :: l)) with (default_entry c g ∪ defaults c l).
  change (marks ?c (g :: l)) with (mark c g ∪ marks c l).
  cbn [List.filter]. rewrite E1, E2, E3, (defaults_selected g Hg).
  unfold default_entry, mark.
  rewrite (defaults_module g Hg), (defaults_option g Hg).
  repeat split. rewrite (right_id_L ∅ (∪)).
  destruct (module_enabled cache g); [| done]. by destruct (cache !! g_option g).
Qed.

(** The defaults are a fixed point: a cache that holds them gets no
    further entry, the same marks and the same selection. *)
Lemma defaults_fixed :
  defaults (cache ∪ defaults cache tbl) tbl = ∅ /\
  marks (cache ∪ defaults cache tbl) tbl = marks cache tbl /\
  List.filter (selected (cache ∪ defaults cache tbl)) tbl =
  List.filter (selected cache) tbl.
Proof. apply defaults_fixed_on. by apply Forall_forall. Qed.

End Defaults.

(** ** What a run configures *)

Lemma NoDup_fmap_eq {X Y : Type} (f : X -> Y) (l : list X) (x y : X) :
  NoDup (f <$> l) -> x ∈ l -> y ∈ l -> f x = f y -> x = y.
Proof.
  induction l as [| a l IH]; intros Hnd Hx Hy E; [by apply elem_of_nil in Hx |].
  cbn [fmap list_fmap] in Hnd. apply NoDup_cons in Hnd as [Ha Hnd].
  apply elem_of_cons in Hx as [-> | Hx]; apply elem_of_cons in Hy as [-> | Hy];
    [done | | | by apply IH]; exfalso; apply Ha.
  - rewrite E. by apply list_elem_of_fmap_2.
  - rewrite <- E. by apply list_elem_of_fmap_2.
Qed.

(** In a table with distinct directories, a directory is configured
    exactly when its group is selected. *)
Lemma selected_dir (f : DemoGroup -> bool) (tbl : list DemoGroup)
  (g : DemoGroup) :
  NoDup (g_dir <$> tbl) -> g ∈ tbl ->
  g_dir g ∈ g_dir <$> List.filter f tbl <-> f g = true.
Proof.
  intros Hnd Hin. split.
  - intros (g' & Ed & Hg')%list_elem_of_fmap.
    apply list_elem_of_In, List.filter_In in Hg' as [Hg' Hf].
    apply list_elem_of_In in Hg'.
    by rewrite (NoDup_fmap_eq g_dir tbl g g' Hnd Hin Hg' Ed).
  - intros Hf. apply list_elem_of_fmap_2, list_elem_of_In, List.filter_In.
    split; [by apply list_elem_of_In | exact Hf].
Qed.

Lemma demo_table_dirs : NoDup (g_dir <$> demo_table).
Proof. decide_by_computation. Qed.

(** C17: the script configures the directories of the table.  A run
    that starts with a cache adds the directory of every group whose
    module is enabled in the cache (the three groups of the base library
    have none) and whose option is not a false constant, in the order of
    the script; an option without a cache entry counts with its default,
    which is true for every group, and becomes a cache entry when the
    module is enabled; the options of the enabled modules are marked as
    advanced. *)
Theorem demos_selection (cache : gmap string string) (advanced : gset string) :
  let run := configure cache advanced in
  cm_subdirs run = g_dir <$> List.filter (selected cache) demo_table /\
  cm_cache run = cache ∪ defaults cache demo_table /\
  cm_advanced run = marks cache demo_table ∪ advanced /\
  cm_messages run = [""; "==== Demo programs ===="; ""].
Proof. cbv zeta. rewrite configure_eq. done. Qed.

Definition irrlicht_group : DemoGroup :=
  module_group "IRRLICHT" "Irrlicht" "irrlicht".

(** The universal joint demo is configured exactly when the cache
    enables the Irrlicht module and does not switch the Irrlicht demos
    off: the directory [irrlicht] is added when [ENABLE_MODULE_IRRLICHT]
    is set to a value that is not a false constant and
    [BUILD_DEMOS_IRRLICHT] is not set, or set to such a value. *)
Theorem ujoint_demo_configured (cache : gmap string string)
  (advanced : gset string) :
  "irrlicht" ∈ cm_subdirs (configure cache advanced) <->
  cache_on cache "ENABLE_MODULE_IRRLICHT" = true /\
  match cache !! "BUILD_DEMOS_IRRLICHT" with
  | Some v => cm_is_off v = false
  | None => True
  end.
Proof.
  rewrite configure_eq. cbn [cm_subdirs].
  rewrite (selected_dir (selected cache) demo_table irrlicht_group
             demo_table_dirs) by decide_by_computation.
  unfold selected, module_enabled. cbn [irrlicht_group module_group g_module
    g_option g_default].
  change ("ENABLE_MODULE_" ++ "IRRLICHT") with "ENABLE_MODULE_IRRLICHT".
  change ("BUILD_DEMOS_" ++ "IRRLICHT") with "BUILD_DEMOS_IRRLICHT".
  rewrite andb_true_iff, negb_true_iff.
  destruct (cache !! "BUILD_DEMOS_IRRLICHT"); [done |].
  split; [intros [? _]; done | intros [? _]; split; [done | by vm_compute]].
Qed.

Lemma defaults_off_inputs :
  Forall (fun x => Forall (fun g => g_option g ≠ x) demo_table) prelude_inputs.
Proof. decide_by_computation. Qed.

(** C18: a second run changes nothing.  Configuring again with the cache
    and the advanced marks the first run has left gives the same
    variables, the same cache, the same marks, the same directories and
    the same messages: the defaults the first run wrote are the values
    the second run reads. *)
Theorem configure_idempotent (cache : gmap string string)
  (advanced : gset string) :
  let run := configure cache advanced in
  configure (cm_cache run) (cm_advanced run) = run.
Proof.
  cbv zeta. rewrite !configure_eq.
  cbn [cm_cache cm_advanced].
  destruct (defaults_fixed cache demo_table demo_table_separate)
    as (-> & -> & ->).
  rewrite (right_id_L ∅ (∪)), (assoc_L (∪)), (idemp_L (∪)).
  f_equal. apply prelude_vars_ext; [done |].
  eapply Forall_impl; [exact defaults_off_inputs |].
  intros x Hx. unfold cm_lookup. cbn [cm_vars cm_cache].
  rewrite !lookup_empty. apply lookup_union_l, defaults_lookup_other, Hx.
Qed.

(** ** The script in a directory that has variables *)

(** Whatever the variables and the cache it starts with, the script adds
    the directories of the groups that are built in the state it starts
    with, in the order of the table. *)
Lemma demos_subdirs (st : CMake) :
  cm_subdirs (demos_CMakeLists st) =
  (cm_subdirs st ++ (g_dir <$> List.filter (built st) demo_table))%list.
Proof.
  rewrite demos_CMakeLists_eq, (run_groups_eq _ demo_table_separate).
  destruct (prelude_frame st) as (_ & _ & -> & _).
  assert (Hr : Forall (fun g => reads (prelude st) g = reads st g) demo_table).
  { eapply Forall_impl; [exact demo_table_apart |].
    intros g [Ho Hm]. by apply reads_prelude. }
  destruct (effects_ext _ _ _ Hr) as (_ & _ & ->). reflexivity.
Qed.

(** In a directory that has added none yet, the directory of a group is
    configured exactly when the group is built. *)
Lemma demo_configured (st : CMake) (g : DemoGroup) :
  g ∈ demo_table -> cm_subdirs st = [] ->
  g_dir g ∈ cm_subdirs (demos_CMakeLists st) <-> built st g = true.
Proof.
  intros Hg Hs. rewrite demos_subdirs, Hs. cbn [app].
  by apply selected_dir; [apply demo_table_dirs |].
Qed.

(** ** Well-formed states *)

(** Only cache entries are marked as advanced. *)
Definition CMake_wf (st : CMake) : Prop :=
  cm_advanced st ⊆ dom (cm_cache st).

#[export] Instance CMake_wf_dec st : Decision (CMake_wf st).
Proof. unfold CMake_wf. apply _. Defined.

Lemma run_group_wf (g : DemoGroup) (st : CMake) :
  CMake_wf st -> CMake_wf (run_group g st).
Proof.
  unfold CMake_wf. rewrite run_group_eq. cbn [cm_advanced cm_cache].
  rewrite dom_union_L. intros Hwf.
  assert (new_mark st g ⊆ dom (cm_cache st) ∪ dom (new_entry st g));
    [| apply union_least; [done | etrans; [exact Hwf | apply union_subseteq_l]]].
  unfold new_mark, new_entry, cm_lookup.
  destruct (mod_on st g); [| set_solver].
  destruct (cm_vars st !! g_option g), (cm_cache st !! g_option g) eqn:Ec;
    try set_solver.
  - apply elem_of_dom_2 in Ec. set_solver.
  - apply elem_of_dom_2 in Ec. set_solver.
Qed.

(** The script keeps states well formed, whatever the variables and the
    cache it starts with. *)
Theorem demos_CMakeLists_wf (st : CMake) :
  CMake_wf st -> CMake_wf (demos_CMakeLists st).
Proof.
  intros Hwf. rewrite demos_CMakeLists_eq.
  assert (Hp : CMake_wf (prelude st)).
  { unfold CMake_wf. by destruct (prelude_frame st) as (-> & -> & _). }
  revert Hp. generalize (prelude st). unfold run_groups.
  induction demo_table as [| g tbl IH]; intros s Hs; [done |].
  apply IH, run_group_wf, Hs.
Qed.

(** ** Runs *)

(** A build with the Irrlicht and the vehicle module, the FEA demos
    switched off by the user, on a platform whose linker searches
    [/usr/lib]. *)
Definition example_cache : gmap string string :=
  {[ "ENABLE_MODULE_IRRLICHT" := "ON"; "ENABLE_MODULE_VEHICLE" := "TRUE";
     "ENABLE_MODULE_GPU" := "OFF"; "BUILD_DEMOS_FEA" := "off";
     "CMAKE_INSTALL_PREFIX" := "/usr";
     "CMAKE_PLATFORM_IMPLICIT_LINK_DIRECTORIES" := "/lib;/usr/lib" ]}.

Example configure_example :
  let run := configure example_cache ∅ in
  cm_subdirs run = ["core"; "robot"; "irrlicht"; "vehicle"] /\
  cm_vars run !! "isSystemDir" = Some "1" /\
  cm_vars run !! "CMAKE_INSTALL_RPATH" = Some "/usr/lib" /\
  cm_cache run !! "BUILD_DEMOS_IRRLICHT" = Some "TRUE" /\
  cm_cache run !! "BUILD_DEMOS_ROBOT" = Some "ON" /\
  cm_cache run !! "BUILD_DEMOS_FEA" = Some "off" /\
  cm_cache run !! "BUILD_DEMOS_GPU" = None /\
  bool_decide (cm_advanced run =
               {[ "BUILD_DEMOS_BASE"; "BUILD_DEMOS_FEA"; "BUILD_DEMOS_ROBOT";
                  "BUILD_DEMOS_IRRLICHT"; "BUILD_DEMOS_VEHICLE" ]}) = true.
Proof. vm_compute. repeat split. Qed.

(** The false constants are recognized in any case, and so is the
    suffix [-NOTFOUND]; any other value counts as true. *)
Example cm_is_off_examples :
  map cm_is_off ["OFF"; "Off"; "0"; "n"; "False"; "ignore"; ""; "NOTFOUND";
                 "SWIG-NOTFOUND"; "ON"; "TRUE"; "1"; "yes"; "00"; "offf"] =
  [true; true; true; true; true; true; true; true;
   true; false; false; false; false; false; false].
Proof. vm_compute. reflexivity. Qed.
