(* ===== verification/PyparserCMake.v ===== *)
(** * PyparserCMake: the configuration script of the Python parser module

    [chrono_pyparser/CMakeLists.txt] is loaded by the script of the parent
    directory.  It defines the option [ENABLE_MODULE_PYTHON] and returns
    at once unless the module is enabled; otherwise it looks for the
    Python interpreter and libraries, hands three variables to the parent
    directory, and declares the shared library [ChronoEngine_pyparser]
    with its properties and install rules.

    The state of the directory ([Scope]) extends the state of a configure
    run of [DemosCMake] with what this script touches: the variables of
    the parent directory, the targets, the include directories, the
    source groups, the install rules and the messages printed without a
    mode.  A command that stops the configuration with an error returns
    [None].  The find modules of Python are not part of the repository:
    they are the interface [Platform], with the laws [PlatformLaws] that
    say which names a find module may write and what [REQUIRED] means.
    The option this script defines is the variable the script of the demo
    programs tests before it configures the Python demos ([python_demos]
    composes the two). *)

From stdpp Require Import gmap strings list.
From Stdlib Require Import Ascii String.
From S2P Require Import DemosCMake.

Local Open Scope string_scope.

(** ** The state of a directory *)

(** A library target: its type, its source files and the properties the
    script sets. *)
Record Target : Type := mkTarget {
  tg_type : string;
  tg_sources : list string;
  tg_link_flags : option string;          (* LINK_FLAGS *)
  tg_definitions : list string;           (* COMPILE_DEFINITIONS *)
  tg_libraries : list string;             (* LINK_LIBRARIES *)
  tg_dependencies : list string
}.

#[export] Instance Target_eq_dec : EqDecision Target.
Proof. solve_decision. Defined.

Inductive InstallRule : Type :=
| InstallTargets (targets : list string) (runtime library archive : string)
| InstallFiles (files : list string) (destination : string).

#[export] Instance InstallRule_eq_dec : EqDecision InstallRule.
Proof. solve_decision. Defined.

Record Scope : Type := mkScope {
  sc_cm : CMake;                          (* variables, cache, marks, STATUS messages *)
  sc_parent : gmap string string;         (* variables of the parent directory *)
  sc_targets : gmap string Target;
  sc_includes : list string;              (* include directories of the directory *)
  sc_groups : list (string * list string);
  sc_installs : list InstallRule;
  sc_notices : list string                (* message("...") without a mode *)
}.

#[export] Instance Scope_eq_dec : EqDecision Scope.
Proof. solve_decision. Defined.

(** A command on the variables, the cache or the STATUS messages. *)
Definition on_cm (f : CMake -> CMake) (sc : Scope) : Scope :=
  mkScope (f (sc_cm sc)) (sc_parent sc) (sc_targets sc) (sc_includes sc)
    (sc_groups sc) (sc_installs sc) (sc_notices sc).

(** ** The commands *)

(** [mark_as_advanced(CLEAR VAR)]. *)
Definition cm_mark_as_advanced_CLEAR (st : CMake) (var : string) : CMake :=
  match cm_cache st !! var with
  | Some _ =>
      mkCMake (cm_vars st) (cm_cache st) (cm_advanced st ∖ {[var]})
        (cm_subdirs st) (cm_messages st)
  | None => st
  end.

(** [if(DEFINED VAR)]. *)
Definition cm_if_DEFINED (st : CMake) (var : string) : bool :=
  match cm_lookup st var with
  | Some _ => true
  | None => false
  end.

(** The arguments an unquoted [${VAR}] expands to: the elements of the
    value, none when it is empty or not defined. *)
Definition cm_args (st : CMake) (var : string) : list string :=
  cm_elements (cm_ref st var).

(** The value of a list: its elements separated by semicolons. *)
Fixpoint cm_join (l : list string) : string :=
  match l with
  | [] => ""
  | [x] => x
  | x :: l => x ++ ";" ++ cm_join l
  end.

(** [set(VAR a b ...)]. *)
Definition cm_set_list (st : CMake) (var : string) (values : list string)
  : CMake :=
  cm_set st var (cm_join values).

(** The part of a file name before its last slash, if it has one. *)
Fixpoint dir_of (file : string) : option string :=
  match file with
  | EmptyString => None
  | String c file =>
      match dir_of file with
      | Some d => Some (String c d)
      | None => if Ascii.eqb c "/" then Some "" else None
      end
  end.

(** The directory of a file name written with forward slashes: empty
    without a slash, the root for a file of the root. *)
Definition cm_dirname (file : string) : string :=
  match dir_of file with
  | None => ""
  | Some "" => "/"
  | Some d => d
  end.

(** [get_filename_component(VAR file PATH)]. *)
Definition cm_get_filename_component_PATH (st : CMake) (var file : string)
  : CMake :=
  cm_set st var (cm_dirname file).

(** [set(VAR value PARENT_SCOPE)]: the variable of the parent directory;
    the variable of this directory keeps its value. *)
Definition cm_set_PARENT_SCOPE (sc : Scope) (var value : string) : Scope :=
  mkScope (sc_cm sc) (<[var := value]> (sc_parent sc)) (sc_targets sc)
    (sc_includes sc) (sc_groups sc) (sc_installs sc) (sc_notices sc).

(** [message("text")]. *)
Definition cm_message (sc : Scope) (text : string) : Scope :=
  mkScope (sc_cm sc) (sc_parent sc) (sc_targets sc) (sc_includes sc)
    (sc_groups sc) (sc_installs sc) (sc_notices sc ++ [text]).

(** [source_group(name FILES files)]. *)
Definition cm_source_group (sc : Scope) (name : string) (files : list string)
  : Scope :=
  mkScope (sc_cm sc) (sc_parent sc) (sc_targets sc) (sc_includes sc)
    (sc_groups sc ++ [(name, files)]) (sc_installs sc) (sc_notices sc).

(** [include_directories(dirs)]: appended, or prepended when
    [CMAKE_INCLUDE_DIRECTORIES_BEFORE] holds. *)
Definition cm_include_directories (sc : Scope) (dirs : list string) : Scope :=
  mkScope (sc_cm sc) (sc_parent sc) (sc_targets sc)
    (if cm_if (sc_cm sc) "CMAKE_INCLUDE_DIRECTORIES_BEFORE"
     then dirs ++ sc_includes sc else sc_includes sc ++ dirs)
    (sc_groups sc) (sc_installs sc) (sc_notices sc).

Definition set_targets (sc : Scope) (targets : gmap string Target) : Scope :=
  mkScope (sc_cm sc) (sc_parent sc) targets (sc_includes sc)
    (sc_groups sc) (sc_installs sc) (sc_notices sc).

(** [add_library(name type sources)]: an error when a target of this
    name exists. *)
Definition cm_add_library (sc : Scope) (name type : string)
  (sources : list string) : option Scope :=
  match sc_targets sc !! name with
  | Some _ => None
  | None =>
      Some (set_targets sc
              (<[name := mkTarget type sources None [] [] []]> (sc_targets sc)))
  end.

(** A command on a target is an error when the target does not exist. *)
Definition on_target (sc : Scope) (name : string) (f : Target -> Target)
  : option Scope :=
  match sc_targets sc !! name with
  | Some t => Some (set_targets sc (<[name := f t]> (sc_targets sc)))
  | None => None
  end.

(** [set_target_properties(name PROPERTIES LINK_FLAGS value)]. *)
Definition cm_set_target_properties_LINK_FLAGS (sc : Scope)
  (name value : string) : option Scope :=
  on_target sc name (fun t =>
    mkTarget (tg_type t) (tg_sources t) (Some value) (tg_definitions t)
      (tg_libraries t) (tg_dependencies t)).

(** [target_compile_definitions(name PRIVATE definition)]. *)
Definition cm_target_compile_definitions_PRIVATE (sc : Scope)
  (name definition : string) : option Scope :=
  on_target sc name (fun t =>
    mkTarget (tg_type t) (tg_sources t) (tg_link_flags t)
      (tg_definitions t ++ [definition]) (tg_libraries t) (tg_dependencies t)).

(** [target_link_libraries(name items)]. *)
Definition cm_target_link_libraries (sc : Scope) (name : string)
  (items : list string) : option Scope :=
  on_target sc name (fun t =>
    mkTarget (tg_type t) (tg_sources t) (tg_link_flags t) (tg_definitions t)
      (tg_libraries t ++ items) (tg_dependencies t)).

(** [add_dependencies(name targets)]. *)
Definition cm_add_dependencies (sc : Scope) (name : string)
  (targets : list string) : option Scope :=
  on_target sc name (fun t =>
    mkTarget (tg_type t) (tg_sources t) (tg_link_flags t) (tg_definitions t)
      (tg_libraries t) (tg_dependencies t ++ targets)).

(** [install(...)]. *)
Definition cm_install (sc : Scope) (rule : InstallRule) : Scope :=
  mkScope (sc_cm sc) (sc_parent sc) (sc_targets sc) (sc_includes sc)
    (sc_groups sc) (sc_installs sc ++ [rule]) (sc_notices sc).

(** ** The find modules *)

(** [find_package(name args)]: the find module of the platform, which
    stops the configuration or returns with its result variables set. *)
Class Platform : Type := {
  find_package : string -> list string -> CMake -> option CMake
}.

(** The names a find module of Python writes: its result variables
    ([PYTHON_EXECUTABLE], [PythonInterp_FOUND], ...), and the variables
    that by convention are internal to modules or belong to CMake. *)
Definition finder_name (x : string) : bool :=
  String.prefix "_" x || String.prefix "CMAKE_" x
  || String.prefix "PYTHON" (upper x).

(** What the script relies on: a find module writes only variables and
    cache entries of those names, marks only cache entries, adds no
    directory, only adds to the messages; and when a [REQUIRED] package
    is not found it stops the configuration. *)
Class PlatformLaws `{Platform} : Prop := {
  find_vars : forall pkg args st st' x,
    find_package pkg args st = Some st' -> finder_name x = false ->
    cm_vars st' !! x = cm_vars st !! x /\ cm_cache st' !! x = cm_cache st !! x;
  find_wf : forall pkg args st st',
    find_package pkg args st = Some st' -> CMake_wf st -> CMake_wf st';
  find_subdirs : forall pkg args st st',
    find_package pkg args st = Some st' -> cm_subdirs st' = cm_subdirs st;
  find_messages : forall pkg args st st',
    find_package pkg args st = Some st' ->
    cm_messages st `prefix_of` cm_messages st';
  find_required : forall pkg args st st',
    find_package pkg args st = Some st' -> "REQUIRED" ∈ args ->
    cm_if st' (upper pkg ++ "_FOUND") = true
}.

(** ** The script *)

Section Script.
Context `{Platform}.

(** The option of the module. *)
Definition pyparser_option (st : CMake) : CMake :=
  cm_option st "ENABLE_MODULE_PYTHON" "Enable the Chrono Python module" "OFF".

(** What is done before the early return of a disabled module. *)
Definition pyparser_disabled (st : CMake) : CMake :=
  cm_mark_as_advanced_FORCE st "SWIG_EXECUTABLE".

(** The banner, the package name, the override of the install directory
    and the debug switch. *)
Definition pyparser_header (st : CMake) : CMake :=
  let st := cm_message_STATUS st "==== Chrono Pyparser module ====" in
  let st := cm_mark_as_advanced_CLEAR st "SWIG_EXECUTABLE" in
  let st := cm_set st "CHPY_PACKAGENAME" "pychrono" in
  let st :=
    if cm_if_DEFINED st "CH_INSTALL_PYTHON_PACKAGE" then
      let st := cm_message_STATUS st
                  "Override the CH_INSTALL_PYTHON with CH_INSTALL_PYTHON_PACKAGE" in
      cm_set st "CH_INSTALL_PYTHON" (cm_ref st "CH_INSTALL_PYTHON_PACKAGE")
    else st in
  cm_set st "DBG_SCRIPT" "false".

(** The interpreter, then the libraries of exactly its version, and the
    three variables of the script. *)
Definition pyparser_find_python (st : CMake) : option CMake :=
  let st := cm_message_STATUS st "...find Python" in
  let st := cm_set st "Python_ADDITIONAL_VERSIONS" "3.4" in
  st ← find_package "PythonInterp" ["REQUIRED"] st;
  st ← find_package "PythonLibs"
         (cm_args st "PYTHON_VERSION_STRING" ++ ["EXACT"]) st;
  let st := cm_get_filename_component_PATH st "CH_PYTHONDIR"
              (cm_ref st "PYTHON_EXECUTABLE") in
  let st := cm_set st "CH_PYTHONINC" (cm_ref st "PYTHON_INCLUDE_DIR") in
  Some (cm_set st "CH_PYTHONLIB" (cm_ref st "PYTHON_LIBRARIES")).

(** The debug output. *)
Definition pyparser_debug (sc : Scope) : Scope :=
  if cm_if (sc_cm sc) "DBG_SCRIPT" then
    let sc := cm_message sc
                ("CH_PYTHONDIR:   " ++ cm_ref (sc_cm sc) "CH_PYTHONDIR") in
    let sc := cm_message sc
                ("CH_PYTHONINC:   " ++ cm_ref (sc_cm sc) "CH_PYTHONINC") in
    cm_message sc ("CH_PYTHONLIB:   " ++ cm_ref (sc_cm sc) "CH_PYTHONLIB")
  else sc.

(** The variables handed to the parent directory. *)
Definition pyparser_export (sc : Scope) : Scope :=
  let sc := cm_set_PARENT_SCOPE sc "CH_PYTHONDIR"
              (cm_ref (sc_cm sc) "CH_PYTHONDIR") in
  let sc := cm_set_PARENT_SCOPE sc "CH_PYTHONINC"
              (cm_ref (sc_cm sc) "CH_PYTHONINC") in
  cm_set_PARENT_SCOPE sc "CH_PYTHONLIB" (cm_ref (sc_cm sc) "CH_PYTHONLIB").

(** The files of the library. *)
Definition pyparser_files (st : CMake) : CMake :=
  let st := cm_message_STATUS st "...add Chrono PYPARSER library" in
  let st := cm_set_list st "ChronoEngine_PYPARSER_SOURCES" ["ChPython.cpp"] in
  cm_set_list st "ChronoEngine_PYPARSER_HEADERS"
    ["ChApiPyParser.h"; "ChPython.h"; "ChSwigutils.h"].

(** The library target and its properties. *)
Definition pyparser_library (sc : Scope) : option Scope :=
  let files := (cm_args (sc_cm sc) "ChronoEngine_PYPARSER_SOURCES"
                ++ cm_args (sc_cm sc) "ChronoEngine_PYPARSER_HEADERS")%list in
  let sc := cm_source_group sc "" files in
  let sc := cm_include_directories sc (cm_args (sc_cm sc) "CH_PYTHONINC") in
  sc ← cm_add_library sc "ChronoEngine_pyparser" "SHARED" files;
  sc ← cm_set_target_properties_LINK_FLAGS sc "ChronoEngine_pyparser"
         (cm_ref (sc_cm sc) "CH_LINKERFLAG_SHARED");
  sc ← cm_target_compile_definitions_PRIVATE sc "ChronoEngine_pyparser"
         "CH_API_COMPILE_PYPARSER";
  sc ← cm_target_compile_definitions_PRIVATE sc "ChronoEngine_pyparser"
         "CH_IGNORE_DEPRECATED";
  sc ← cm_target_link_libraries sc "ChronoEngine_pyparser"
         (cm_args (sc_cm sc) "CH_PYTHONLIB" ++ ["ChronoEngine"]);
  cm_add_dependencies sc "ChronoEngine_pyparser" ["ChronoEngine"].

(** The install rules. *)
Definition pyparser_install (sc : Scope) : Scope :=
  let sc := cm_install sc
              (InstallTargets ["ChronoEngine_pyparser"] "bin" "lib" "lib") in
  cm_install sc
    (InstallFiles (cm_args (sc_cm sc) "ChronoEngine_PYPARSER_HEADERS")
       "include/chrono_pyparser").

(** The whole script. *)
Definition pyparser_CMakeLists (sc : Scope) : option Scope :=
  let sc := on_cm pyparser_option sc in
  if negb (cm_if (sc_cm sc) "ENABLE_MODULE_PYTHON") then
    Some (on_cm pyparser_disabled sc)
  else
    let sc := on_cm pyparser_header sc in
    st ← pyparser_find_python (sc_cm sc);
    let sc := on_cm (fun _ => st) sc in
    let sc := pyparser_debug sc in
    let sc := pyparser_export sc in
    let sc := on_cm pyparser_files sc in
    sc ← pyparser_library sc;
    Some (pyparser_install sc).

End Script.

(** ** Lists and file names *)

(** Whether the character occurs in the string. *)
Fixpoint occurs (c : ascii) (s : string) : bool :=
  match s with
  | EmptyString => false
  | String d s => Ascii.eqb d c || occurs c s
  end.

Lemma append_nil_r (s : string) : s ++ "" = s.
Proof.
  induction s as [| c s IH]; [done |].
  change (String c s ++ "") with (String c (s ++ "")). by f_equal.
Qed.

Lemma append_snoc (acc : string) (c : ascii) (s : string) :
  (acc ++ String c "") ++ s = acc ++ String c s.
Proof.
  induction acc as [| d acc IH]; [done |].
  change (String d ((acc ++ String c "") ++ s) = String d (acc ++ String c s)).
  by f_equal.
Qed.

Lemma cm_split_app (x : string) : forall acc s,
  occurs ";" x = false -> cm_split acc (x ++ s) = cm_split (acc ++ x) s.
Proof.
  induction x as [| c x IH]; intros acc s Hx; [by rewrite append_nil_r |].
  cbn [occurs] in Hx. apply orb_false_iff in Hx as [Hc Hx].
  change (String c x ++ s) with (String c (x ++ s)). cbn [cm_split].
  rewrite <- (append_snoc acc c x), <- (IH _ _ Hx).
  apply Ascii.eqb_neq in Hc.
  destruct c as [[] [] [] [] [] [] [] []]; try reflexivity. by destruct Hc.
Qed.

Lemma cm_split_join (l : list string) : forall x,
  Forall (fun y => occurs ";" y = false) (x :: l) ->
  cm_split "" (cm_join (x :: l)) = x :: l.
Proof.
  induction l as [| y l IH]; intros x Hl; apply Forall_cons in Hl as [Hx Hl].
  - cbn [cm_join]. rewrite <- (append_nil_r x) at 1.
    by rewrite (cm_split_app x "" "" Hx).
  - change (cm_join (x :: y :: l)) with (x ++ String ";" (cm_join (y :: l))).
    rewrite (cm_split_app x "" _ Hx). cbn [cm_split].
    change ("" ++ x) with x. by rewrite IH.
Qed.

Lemma cm_join_empty (l : list string) :
  Forall (fun y => y ≠ "") l -> cm_join l = "" -> l = [].
Proof.
  destruct 1 as [| x l Hx _]; [done |]. destruct x as [| c x]; [done |].
  cbn [cm_join]. by destruct l.
Qed.

(** A list written with [set] is read back element by element, when no
    element is empty or holds a semicolon. *)
Lemma cm_elements_join (l : list string) :
  Forall (fun y => y ≠ "" /\ occurs ";" y = false) l ->
  cm_elements (cm_join l) = l.
Proof.
  intros Hl. apply Forall_and in Hl as [Hne Hsc]. unfold cm_elements.
  destruct (String.eqb_spec (cm_join l) "") as [E | Hn].
  - symmetry. by apply cm_join_empty.
  - destruct l as [| x l]; [by destruct Hn | by apply cm_split_join].
Qed.

Lemma dir_of_None (name : string) : occurs "/" name = false -> dir_of name = None.
Proof.
  induction name as [| c name IH]; [done |]. cbn [occurs dir_of].
  intros [Hc Hn]%orb_false_iff. by rewrite (IH Hn), Hc.
Qed.

Lemma dir_of_file (dir name : string) :
  occurs "/" name = false -> dir_of (dir ++ String "/" name) = Some dir.
Proof.
  intros Hn. induction dir as [| c dir IH].
  - change ("" ++ String "/" name) with (String "/" name).
    cbn [dir_of]. by rewrite (dir_of_None name Hn).
  - change (String c dir ++ String "/" name)
      with (String c (dir ++ String "/" name)).
    cbn [dir_of]. by rewrite IH.
Qed.

(** The directory of [dir/name] is [dir], and the root when [dir] is
    empty. *)
Lemma cm_dirname_file (dir name : string) :
  occurs "/" name = false ->
  cm_dirname (dir ++ String "/" name) = if String.eqb dir "" then "/" else dir.
Proof.
  intros Hn. unfold cm_dirname. rewrite (dir_of_file dir name Hn).
  by destruct dir.
Qed.

(** ** Reading through the commands *)

Lemma cm_ref_set_eq (st : CMake) (x v : string) : cm_ref (cm_set st x v) x = v.
Proof. unfold cm_ref. by rewrite cm_lookup_set_eq. Qed.

Lemma cm_lookup_CLEAR (st : CMake) (y x : string) :
  cm_lookup (cm_mark_as_advanced_CLEAR st y) x = cm_lookup st x.
Proof. unfold cm_mark_as_advanced_CLEAR. by destruct (cm_cache st !! y). Qed.

Lemma cm_lookup_FORCE (st : CMake) (y x : string) :
  cm_lookup (cm_mark_as_advanced_FORCE st y) x = cm_lookup st x.
Proof. unfold cm_mark_as_advanced_FORCE. by destruct (cm_cache st !! y). Qed.

(** [option] leaves every other name alone, and a name that was defined
    as well. *)
Lemma cm_lookup_option_ne (st : CMake) (x help v y : string) :
  y ≠ x -> cm_lookup (cm_option st x help v) y = cm_lookup st y.
Proof.
  intros Hy. unfold cm_option. destruct (cm_lookup st x); [done |].
  unfold cm_lookup. cbn [cm_vars cm_cache]. by rewrite lookup_insert_ne.
Qed.

Lemma cm_lookup_option_eq (st : CMake) (x help v : string) :
  cm_lookup (cm_option st x help v) x =
  match cm_lookup st x with
  | Some w => Some w
  | None => Some v
  end.
Proof.
  unfold cm_option. destruct (cm_lookup st x) as [w |] eqn:E; [done |].
  unfold cm_lookup in *. cbn [cm_vars cm_cache].
  destruct (cm_vars st !! x); [done |]. by rewrite lookup_insert_eq.
Qed.

(** The option of the module does not change whether the module is
    enabled: its default is a false constant. *)
Lemma pyparser_option_if (st : CMake) :
  cm_if (pyparser_option st) "ENABLE_MODULE_PYTHON" =
  cm_if st "ENABLE_MODULE_PYTHON".
Proof.
  unfold cm_if, pyparser_option. rewrite cm_lookup_option_eq.
  by destruct (cm_lookup st "ENABLE_MODULE_PYTHON").
Qed.

(** ** A module that is not enabled *)

Section Disabled.
Context `{Platform}.

(** The script of a module that is not enabled, in closed form. *)
Lemma pyparser_disabled_eq (sc : Scope) :
  cm_if (sc_cm sc) "ENABLE_MODULE_PYTHON" = false ->
  pyparser_CMakeLists sc =
  Some (on_cm (fun st => pyparser_disabled (pyparser_option st)) sc).
Proof.
  intros Hoff. unfold pyparser_CMakeLists. cbv zeta. cbn [sc_cm on_cm].
  by rewrite pyparser_option_if, Hoff.
Qed.

(** The script returns before it looks for Python or declares anything
    when the module is not enabled, which is the case when nothing
    defines [ENABLE_MODULE_PYTHON]: the run succeeds on every platform;
    the variables of the directory and of its parent, the targets, the
    include directories, the install rules and the messages are those it
    started with; the cache holds the entry [ENABLE_MODULE_PYTHON], with
    the value [OFF] if it was not defined; and [SWIG_EXECUTABLE] is the
    only entry that can have become advanced. *)
Theorem pyparser_disabled_run (sc : Scope) :
  cm_if (sc_cm sc) "ENABLE_MODULE_PYTHON" = false ->
  exists st',
    pyparser_CMakeLists sc = Some (on_cm (fun _ => st') sc) /\
    cm_vars st' = cm_vars (sc_cm sc) /\
    cm_subdirs st' = cm_subdirs (sc_cm sc) /\
    cm_messages st' = cm_messages (sc_cm sc) /\
    cm_cache st' =
      match cm_lookup (sc_cm sc) "ENABLE_MODULE_PYTHON" with
      | Some _ => cm_cache (sc_cm sc)
      | None => <["ENABLE_MODULE_PYTHON" := "OFF"]> (cm_cache (sc_cm sc))
      end /\
    cm_advanced st' =
      match cm_cache st' !! "SWIG_EXECUTABLE" with
      | Some _ => {["SWIG_EXECUTABLE"]} ∪ cm_advanced (sc_cm sc)
      | None => cm_advanced (sc_cm sc)
      end.
Proof.
  intros Hoff. exists (pyparser_disabled (pyparser_option (sc_cm sc))).
  split; [by apply pyparser_disabled_eq |].
  unfold pyparser_disabled, pyparser_option, cm_mark_as_advanced_FORCE, cm_option.
  destruct (cm_lookup (sc_cm sc) "ENABLE_MODULE_PYTHON");
    cbn [cm_vars cm_cache cm_advanced cm_subdirs cm_messages];
    match goal with |- context [?m !! "SWIG_EXECUTABLE"] =>
      destruct (m !! "SWIG_EXECUTABLE") eqn:E end;
    cbn [cm_vars cm_cache cm_advanced cm_subdirs cm_messages];
    rewrite ?E; done.
Qed.

End Disabled.

(** ** An enabled module *)

(** The names of the three variables handed to the parent. *)
Definition exported : list string :=
  ["CH_PYTHONDIR"; "CH_PYTHONINC"; "CH_PYTHONLIB"].

(** The variables the script sets before it looks for Python. *)
Definition header_names : list string :=
  ["CHPY_PACKAGENAME"; "CH_INSTALL_PYTHON"; "DBG_SCRIPT"].

Lemma pyparser_header_frame (st : CMake) :
  cm_cache (pyparser_header st) = cm_cache st /\
  cm_subdirs (pyparser_header st) = cm_subdirs st /\
  cm_advanced (pyparser_header st) ⊆ cm_advanced st /\
  cm_vars (pyparser_header st) !! "DBG_SCRIPT" = Some "false" /\
  forall x, x ∉ header_names ->
    cm_vars (pyparser_header st) !! x = cm_vars st !! x.
Proof.
  unfold pyparser_header, cm_mark_as_advanced_CLEAR. cbv zeta.
  destruct (cm_if_DEFINED _ _), (cm_cache _ !! "SWIG_EXECUTABLE") eqn:E;
    cbn [cm_set cm_message_STATUS cm_vars cm_cache cm_advanced cm_subdirs];
    (split; [done |]); (split; [done |]);
    (split; [done || by apply subseteq_difference_l |]);
    (split; [by rewrite lookup_insert_eq |]);
    intros x Hx; split_names Hx; by rewrite !lookup_insert_ne.
Qed.

Section Find.
Context `{Platform} `{!PlatformLaws}.

(** What the search leaves behind: the three variables of the script
    hold the directory of the interpreter, the include directory and the
    libraries the find modules reported, and the debug switch is still
    off. *)
Lemma pyparser_find_python_spec (st st' : CMake) :
  cm_vars st !! "DBG_SCRIPT" = Some "false" ->
  pyparser_find_python st = Some st' ->
  cm_if st' "DBG_SCRIPT" = false /\
  cm_ref st' "CH_PYTHONDIR" = cm_dirname (cm_ref st' "PYTHON_EXECUTABLE") /\
  cm_ref st' "CH_PYTHONINC" = cm_ref st' "PYTHON_INCLUDE_DIR" /\
  cm_ref st' "CH_PYTHONLIB" = cm_ref st' "PYTHON_LIBRARIES".
Proof.
  intros Hd. unfold pyparser_find_python, cm_get_filename_component_PATH.
  cbv zeta.
  destruct (find_package "PythonInterp" _ _) as [st1 |] eqn:E1; [| done].
  cbn [mbind option_bind].
  destruct (find_package "PythonLibs" _ _) as [st2 |] eqn:E2; [| done].
  cbn [mbind option_bind]. intros [= <-].
  destruct (find_vars _ _ _ _ "DBG_SCRIPT" E1 eq_refl) as [V1 _].
  destruct (find_vars _ _ _ _ "DBG_SCRIPT" E2 eq_refl) as [V2 _].
  repeat split.
  - unfold cm_if. rewrite !cm_lookup_set_ne by names_differ.
    unfold cm_lookup. rewrite V2, V1, cm_set_vars by names_differ.
    cbn [cm_message_STATUS cm_vars]. by rewrite Hd.
  - rewrite !(cm_ref_set_ne _ _ _ "CH_PYTHONDIR"),
      !(cm_ref_set_ne _ _ _ "PYTHON_EXECUTABLE") by names_differ.
    apply cm_ref_set_eq.
  - rewrite !(cm_ref_set_ne _ _ _ "CH_PYTHONINC"),
      !(cm_ref_set_ne _ _ _ "PYTHON_INCLUDE_DIR") by names_differ.
    apply cm_ref_set_eq.
  - rewrite !(cm_ref_set_ne _ _ _ "PYTHON_LIBRARIES") by names_differ.
    apply cm_ref_set_eq.
Qed.

(** The search changes no name of the project but the three variables:
    every other variable or cache entry a find module does not own is as
    before. *)
Lemma pyparser_find_python_frame (st st' : CMake) (x : string) :
  pyparser_find_python st = Some st' -> finder_name x = false ->
  (x ∉ exported -> cm_vars st' !! x = cm_vars st !! x) /\
  cm_cache st' !! x = cm_cache st !! x.
Proof.
  unfold pyparser_find_python, cm_get_filename_component_PATH. cbv zeta.
  destruct (find_package "PythonInterp" _ _) as [st1 |] eqn:E1; [| done].
  cbn [mbind option_bind].
  destruct (find_package "PythonLibs" _ _) as [st2 |] eqn:E2; [| done].
  cbn [mbind option_bind]. intros [= <-] Hx.
  destruct (find_vars _ _ _ _ x E1 Hx) as [V1 C1].
  destruct (find_vars _ _ _ _ x E2 Hx) as [V2 C2].
  split.
  - intros Hn. split_names Hn. rewrite !cm_set_vars, V2, V1 by done.
    rewrite cm_set_vars by (intros ->; discriminate Hx). done.
  - cbn [cm_set cm_cache]. by rewrite C2, C1.
Qed.

End Find.

(** The files of the library, and its headers. *)
Definition pyparser_sources : list string :=
  ["ChPython.cpp"; "ChApiPyParser.h"; "ChPython.h"; "ChSwigutils.h"].

Definition pyparser_headers : list string :=
  ["ChApiPyParser.h"; "ChPython.h"; "ChSwigutils.h"].

(** The target the script declares, from the state after the search. *)
Definition pyparser_target (st : CMake) : Target :=
  mkTarget "SHARED" pyparser_sources (Some (cm_ref st "CH_LINKERFLAG_SHARED"))
    ["CH_API_COMPILE_PYPARSER"; "CH_IGNORE_DEPRECATED"]
    (cm_args st "PYTHON_LIBRARIES" ++ ["ChronoEngine"]) ["ChronoEngine"].

(** The directory after the script, from the directory [sc] it starts
    with and the state [st] after the search. *)
Definition pyparser_result (sc : Scope) (st : CMake) : Scope :=
  mkScope (pyparser_files st)
    (<["CH_PYTHONLIB" := cm_ref st "PYTHON_LIBRARIES"]>
       (<["CH_PYTHONINC" := cm_ref st "PYTHON_INCLUDE_DIR"]>
          (<["CH_PYTHONDIR" := cm_dirname (cm_ref st "PYTHON_EXECUTABLE")]>
             (sc_parent sc))))
    (<["ChronoEngine_pyparser" := pyparser_target st]> (sc_targets sc))
    (if cm_if st "CMAKE_INCLUDE_DIRECTORIES_BEFORE"
     then cm_args st "PYTHON_INCLUDE_DIR" ++ sc_includes sc
     else sc_includes sc ++ cm_args st "PYTHON_INCLUDE_DIR")
    (sc_groups sc ++ [("", pyparser_sources)])
    (sc_installs sc ++
       [InstallTargets ["ChronoEngine_pyparser"] "bin" "lib" "lib";
        InstallFiles pyparser_headers "include/chrono_pyparser"])
    (sc_notices sc).

Lemma cm_args_set_list (st : CMake) (x : string) (l : list string) :
  Forall (fun y => y ≠ "" /\ occurs ";" y = false) l ->
  cm_args (cm_set_list st x l) x = l.
Proof.
  intros Hl. unfold cm_args, cm_set_list. rewrite cm_ref_set_eq.
  by apply cm_elements_join.
Qed.

Lemma pyparser_files_reads (st : CMake) :
  cm_args (pyparser_files st) "ChronoEngine_PYPARSER_SOURCES" = ["ChPython.cpp"] /\
  cm_args (pyparser_files st) "ChronoEngine_PYPARSER_HEADERS" = pyparser_headers /\
  forall x, x ∉ ["ChronoEngine_PYPARSER_SOURCES"; "ChronoEngine_PYPARSER_HEADERS"] ->
    cm_lookup (pyparser_files st) x = cm_lookup st x.
Proof.
  unfold pyparser_files. cbv zeta. repeat split.
  - unfold cm_args, cm_set_list at 1. rewrite cm_ref_set_ne by names_differ.
    apply cm_args_set_list. repeat constructor; names_differ.
  - apply cm_args_set_list. repeat constructor; names_differ.
  - intros x Hx. split_names Hx. unfold cm_set_list.
    by rewrite !cm_lookup_set_ne.
Qed.

Lemma on_target_insert (sc : Scope) (m : gmap string Target) (name : string)
  (t : Target) (f : Target -> Target) :
  on_target (set_targets sc (<[name := t]> m)) name f =
  Some (set_targets sc (<[name := f t]> m)).
Proof.
  unfold on_target, set_targets. cbn [sc_targets].
  by rewrite lookup_insert_eq, insert_insert_eq.
Qed.

(** The library step in closed form. *)
Lemma pyparser_library_eq (sc : Scope) :
  sc_targets sc !! "ChronoEngine_pyparser" = None ->
  let files := (cm_args (sc_cm sc) "ChronoEngine_PYPARSER_SOURCES"
                ++ cm_args (sc_cm sc) "ChronoEngine_PYPARSER_HEADERS")%list in
  pyparser_library sc =
  Some (mkScope (sc_cm sc) (sc_parent sc)
          (<["ChronoEngine_pyparser" :=
               mkTarget "SHARED" files
                 (Some (cm_ref (sc_cm sc) "CH_LINKERFLAG_SHARED"))
                 ["CH_API_COMPILE_PYPARSER"; "CH_IGNORE_DEPRECATED"]
                 (cm_args (sc_cm sc) "CH_PYTHONLIB" ++ ["ChronoEngine"])
                 ["ChronoEngine"]]> (sc_targets sc))
          (if cm_if (sc_cm sc) "CMAKE_INCLUDE_DIRECTORIES_BEFORE"
           then cm_args (sc_cm sc) "CH_PYTHONINC" ++ sc_includes sc
           else sc_includes sc ++ cm_args (sc_cm sc) "CH_PYTHONINC")
          (sc_groups sc ++ [("", files)]) (sc_installs sc) (sc_notices sc)).
Proof.
  intros Hno files. unfold pyparser_library. cbv zeta. fold files.
  unfold cm_add_library.
  cbn [sc_cm sc_targets cm_source_group cm_include_directories].
  rewrite Hno. cbn [mbind option_bind].
  unfold cm_set_target_properties_LINK_FLAGS,
    cm_target_compile_definitions_PRIVATE, cm_target_link_libraries,
    cm_add_dependencies.
  repeat (rewrite on_target_insert;
          cbn [mbind option_bind tg_type tg_sources tg_link_flags
               tg_definitions tg_libraries tg_dependencies]).
  reflexivity.
Qed.

(** A step that returns is followed by the next one. *)
Lemma option_bind_Some {X Y : Type} (f : X -> option Y) (x : X) :
  Some x ≫= f = f x.
Proof. reflexivity. Qed.

Lemma on_cm_const (st : CMake) (f : CMake -> CMake) (sc : Scope) :
  on_cm (fun _ => st) (on_cm f sc) = on_cm (fun _ => st) sc.
Proof. reflexivity. Qed.

Section Enabled.
Context `{Platform} `{!PlatformLaws}.

(** The steps of an enabled module. *)
Lemma pyparser_enabled_steps (sc : Scope) (st : CMake) :
  cm_if (sc_cm sc) "ENABLE_MODULE_PYTHON" = true ->
  pyparser_find_python (pyparser_header (pyparser_option (sc_cm sc))) = Some st ->
  pyparser_CMakeLists sc =
  sc' ← pyparser_library (on_cm pyparser_files
                            (pyparser_export (on_cm (fun _ => st) sc)));
  Some (pyparser_install sc').
Proof.
  intros Hon Hfind.
  destruct (pyparser_header_frame (pyparser_option (sc_cm sc)))
    as (_ & _ & _ & Hd & _).
  destruct (pyparser_find_python_spec _ _ Hd Hfind) as (Hdbg & _).
  unfold pyparser_CMakeLists. cbv zeta. cbn [sc_cm on_cm].
  rewrite pyparser_option_if, Hon. cbn [negb].
  rewrite Hfind, option_bind_Some. unfold pyparser_debug. cbn [sc_cm on_cm].
  rewrite Hdbg, !on_cm_const. reflexivity.
Qed.

(** The script of an enabled module, in closed form. *)
Lemma pyparser_run_eq (sc : Scope) (st : CMake) :
  cm_if (sc_cm sc) "ENABLE_MODULE_PYTHON" = true ->
  pyparser_find_python (pyparser_header (pyparser_option (sc_cm sc))) = Some st ->
  sc_targets sc !! "ChronoEngine_pyparser" = None ->
  pyparser_CMakeLists sc = Some (pyparser_result sc st).
Proof.
  intros Hon Hfind Hno.
  destruct (pyparser_header_frame (pyparser_option (sc_cm sc)))
    as (_ & _ & _ & Hd & _).
  destruct (pyparser_find_python_spec _ _ Hd Hfind) as (_ & Edir & Einc & Elib).
  destruct (pyparser_files_reads st) as (Es & Eh & Ef).
  assert (Rf : forall x,
    x ∉ ["ChronoEngine_PYPARSER_SOURCES"; "ChronoEngine_PYPARSER_HEADERS"] ->
    cm_ref (pyparser_files st) x = cm_ref st x)
    by (intros x Hx; unfold cm_ref; by rewrite Ef).
  rewrite (pyparser_enabled_steps sc st Hon Hfind), pyparser_library_eq by exact Hno.
  cbv zeta. unfold pyparser_install, cm_install, pyparser_result, pyparser_target.
  cbn [mbind option_bind sc_cm sc_parent sc_targets sc_includes
       sc_groups sc_installs sc_notices on_cm pyparser_export
       cm_set_PARENT_SCOPE].
  rewrite Es, Eh. unfold cm_args, cm_if.
  rewrite !Rf by decide_by_computation.
  rewrite !Ef by decide_by_computation.
  rewrite Edir, Einc, Elib, <- app_assoc. unfold pyparser_sources.
  reflexivity.
Qed.

(** The search that fails stops the configuration. *)
Lemma pyparser_find_None (sc : Scope) :
  cm_if (sc_cm sc) "ENABLE_MODULE_PYTHON" = true ->
  pyparser_find_python (pyparser_header (pyparser_option (sc_cm sc))) = None ->
  pyparser_CMakeLists sc = None.
Proof.
  intros Hon Hfind. unfold pyparser_CMakeLists. cbv zeta. cbn [sc_cm on_cm].
  rewrite pyparser_option_if, Hon. cbn [negb]. by rewrite Hfind.
Qed.

(** A second target of the same name stops it as well. *)
Lemma pyparser_target_exists (sc : Scope) (st : CMake) :
  cm_if (sc_cm sc) "ENABLE_MODULE_PYTHON" = true ->
  pyparser_find_python (pyparser_header (pyparser_option (sc_cm sc))) = Some st ->
  is_Some (sc_targets sc !! "ChronoEngine_pyparser") ->
  pyparser_CMakeLists sc = None.
Proof.
  intros Hon Hfind [t Ht]. rewrite (pyparser_enabled_steps sc st Hon Hfind).
  unfold pyparser_library, cm_add_library. cbv zeta.
  cbn [sc_targets on_cm pyparser_export cm_set_PARENT_SCOPE cm_source_group
       cm_include_directories].
  by rewrite Ht.
Qed.

(** The three ways the script ends. *)
Lemma pyparser_run_cases (sc : Scope) :
  (cm_if (sc_cm sc) "ENABLE_MODULE_PYTHON" = false /\
   pyparser_CMakeLists sc =
   Some (on_cm (fun st => pyparser_disabled (pyparser_option st)) sc)) \/
  (cm_if (sc_cm sc) "ENABLE_MODULE_PYTHON" = true /\
   pyparser_CMakeLists sc = None /\
   (pyparser_find_python (pyparser_header (pyparser_option (sc_cm sc))) = None \/
    is_Some (sc_targets sc !! "ChronoEngine_pyparser"))) \/
  (cm_if (sc_cm sc) "ENABLE_MODULE_PYTHON" = true /\
   sc_targets sc !! "ChronoEngine_pyparser" = None /\
   exists st,
     pyparser_find_python (pyparser_header (pyparser_option (sc_cm sc))) = Some st /\
     pyparser_CMakeLists sc = Some (pyparser_result sc st)).
Proof.
  destruct (cm_if (sc_cm sc) "ENABLE_MODULE_PYTHON") eqn:Hon;
    [right | left; split; [done | by apply pyparser_disabled_eq]].
  destruct (pyparser_find_python _) as [st |] eqn:Hfind;
    [| left; split; [done |]; split; [by apply pyparser_find_None | by left]].
  destruct (sc_targets sc !! "ChronoEngine_pyparser") as [t |] eqn:Ht.
  - left. split; [done |]. split; [| by right].
    apply (pyparser_target_exists sc st Hon Hfind). by rewrite Ht.
  - right. split; [done |]. split; [done |]. exists st. split; [done |].
    by apply pyparser_run_eq.
Qed.

(** C19: an enabled module declares the library from what the find
    modules report.  When [ENABLE_MODULE_PYTHON] holds, the script
    returns exactly when the search for Python returns and no target
    [ChronoEngine_pyparser] exists yet, and then the directory is
    [pyparser_result]: the library is shared, made of the four files,
    linked with the Python libraries and [ChronoEngine], which it also
    depends on; the parent directory receives the directory of the
    interpreter, the include directory and the libraries; the include
    directory is added to those of the directory; the library and its
    three headers are installed; and the three debug messages are not
    printed on any platform, because the switch is set to [false] a few
    lines before it is tested. *)
Theorem pyparser_enabled_run (sc sc' : Scope) :
  cm_if (sc_cm sc) "ENABLE_MODULE_PYTHON" = true ->
  pyparser_CMakeLists sc = Some sc' <->
  exists st,
    pyparser_find_python (pyparser_header (pyparser_option (sc_cm sc))) = Some st /\
    sc_targets sc !! "ChronoEngine_pyparser" = None /\
    sc' = pyparser_result sc st.
Proof.
  intros Hon. split.
  - intros E. destruct (pyparser_run_cases sc)
      as [[Hoff _] | [(_ & E' & _) | (_ & Hno & st & Hfind & E')]];
      [congruence | congruence |].
    exists st. rewrite E' in E. injection E as <-. done.
  - intros (st & Hfind & Hno & ->). by apply pyparser_run_eq.
Qed.

(** The script stops the configuration only in an enabled module,
    and then exactly when the search for Python stops it (the
    interpreter is [REQUIRED]) or a target named [ChronoEngine_pyparser]
    was declared before. *)
Theorem pyparser_fails_iff (sc : Scope) :
  pyparser_CMakeLists sc = None <->
  cm_if (sc_cm sc) "ENABLE_MODULE_PYTHON" = true /\
  (pyparser_find_python (pyparser_header (pyparser_option (sc_cm sc))) = None \/
   is_Some (sc_targets sc !! "ChronoEngine_pyparser")).
Proof.
  destruct (pyparser_run_cases sc)
    as [[Hoff E] | [(Hon & E & Hc) | (Hon & Hno & st & Hfind & E)]];
    rewrite E; split; try done.
  - intros [Hon _]. congruence.
  - intros (_ & [Hf | [t Ht]]); congruence.
Qed.

End Enabled.

(** ** Well-formed directories *)

Definition rule_targets (r : InstallRule) : list string :=
  match r with
  | InstallTargets targets _ _ _ => targets
  | InstallFiles _ _ => []
  end.

(** What the generation of the build system checks at the end of a
    configure run: only cache entries are marked as advanced, every
    target that is installed exists, and so does every target another
    target depends on. *)
Definition Scope_wf (sc : Scope) : Prop :=
  CMake_wf (sc_cm sc) /\
  Forall (fun r => Forall (fun t => is_Some (sc_targets sc !! t))
                     (rule_targets r)) (sc_installs sc) /\
  map_Forall (fun _ t => Forall (fun d => is_Some (sc_targets sc !! d))
                           (tg_dependencies t)) (sc_targets sc).

Lemma pyparser_option_wf (st : CMake) :
  CMake_wf st -> CMake_wf (pyparser_option st).
Proof.
  unfold CMake_wf, pyparser_option, cm_option. intros Hwf.
  destruct (cm_lookup st _); [done |]. cbn [cm_cache cm_advanced].
  rewrite dom_insert_L. etrans; [exact Hwf | apply union_subseteq_r].
Qed.

Lemma pyparser_disabled_wf (st : CMake) :
  CMake_wf st -> CMake_wf (pyparser_disabled st).
Proof.
  unfold CMake_wf, pyparser_disabled, cm_mark_as_advanced_FORCE. intros Hwf.
  destruct (cm_cache st !! _) eqn:E; [| done]. cbn [cm_cache cm_advanced].
  apply union_least; [| done]. apply singleton_subseteq_l.
  by apply elem_of_dom_2 in E.
Qed.

Lemma pyparser_header_wf (st : CMake) :
  CMake_wf st -> CMake_wf (pyparser_header st).
Proof.
  unfold CMake_wf. intros Hwf.
  destruct (pyparser_header_frame st) as (-> & _ & Ha & _). by etrans.
Qed.

Lemma is_Some_insert {X : Type} (m : gmap string X) (i j : string) (x : X) :
  is_Some (m !! j) -> is_Some (<[i := x]> m !! j).
Proof. intros Hj. apply lookup_insert_is_Some'. by right. Qed.

Section Invariant.
Context `{Platform} `{!PlatformLaws}.

Lemma pyparser_find_python_wf (st st' : CMake) :
  pyparser_find_python st = Some st' -> CMake_wf st -> CMake_wf st'.
Proof.
  unfold pyparser_find_python, cm_get_filename_component_PATH. cbv zeta.
  destruct (find_package "PythonInterp" _ _) as [st1 |] eqn:E1; [| done].
  cbn [mbind option_bind].
  destruct (find_package "PythonLibs" _ _) as [st2 |] eqn:E2; [| done].
  cbn [mbind option_bind]. intros [= <-] Hwf.
  apply (find_wf _ _ _ _ E2), (find_wf _ _ _ _ E1), Hwf.
Qed.

(** The library keeps a directory well formed when the target it is
    linked with and depends on exists. *)
Lemma pyparser_result_wf (sc : Scope) (st : CMake) :
  CMake_wf st -> is_Some (sc_targets sc !! "ChronoEngine") ->
  Scope_wf sc -> Scope_wf (pyparser_result sc st).
Proof.
  intros Hst Hce (_ & Hi & Hd). unfold Scope_wf, pyparser_result.
  cbn [sc_cm sc_targets sc_installs]. split; [exact Hst |]. split.
  - apply Forall_app. split.
    + eapply Forall_impl; [exact Hi |]. intros r Hr.
      eapply Forall_impl; [exact Hr |]. intros t. apply is_Some_insert.
    + repeat constructor. by rewrite lookup_insert_eq.
  - apply map_Forall_insert_2.
    + repeat constructor. by apply is_Some_insert.
    + eapply map_Forall_impl; [exact Hd |]. intros i t Ht.
      eapply Forall_impl; [exact Ht |]. intros d. apply is_Some_insert.
Qed.

(** The script keeps a directory well formed: for every platform, when
    the base library [ChronoEngine] was declared before, the directory
    the script leaves has marks on cache entries only, installs targets
    that exist and has dependencies on targets that exist. *)
Theorem pyparser_wf (sc sc' : Scope) :
  Scope_wf sc -> is_Some (sc_targets sc !! "ChronoEngine") ->
  pyparser_CMakeLists sc = Some sc' -> Scope_wf sc'.
Proof.
  intros Hwf Hce E. pose proof Hwf as (Hcm & Hi & Hd).
  destruct (pyparser_run_cases sc)
    as [[_ E'] | [(_ & E' & _) | (_ & _ & st & Hfind & E')]];
    rewrite E' in E; [| done |]; injection E as <-.
  - split; [| done]. by apply pyparser_disabled_wf, pyparser_option_wf.
  - apply pyparser_result_wf; [| done | done].
    by apply (pyparser_find_python_wf _ _ Hfind), pyparser_header_wf,
      pyparser_option_wf.
Qed.

End Invariant.

(** ** The module and its demos *)

(** The state in which the script of the next directory of the parent
    starts: the variables of the parent, the cache and the marks as this
    directory leaves them, no directory added yet. *)
Definition sibling (sc : Scope) : CMake :=
  mkCMake (sc_parent sc) (cm_cache (sc_cm sc)) (cm_advanced (sc_cm sc)) []
    (cm_messages (sc_cm sc)).

(** The group of the Python demos in the script of the demos. *)
Definition python_group : DemoGroup := module_group "PYTHON" "Python" "pyparser".

Section Composition.
Context `{Platform} `{!PlatformLaws}.

(** What the script leaves of the names of the project: the parent keeps
    every variable but the three it is handed, and the cache every entry
    but the option of the module. *)
Lemma pyparser_frame (sc sc' : Scope) (x : string) :
  pyparser_CMakeLists sc = Some sc' -> finder_name x = false ->
  (x ∉ exported -> sc_parent sc' !! x = sc_parent sc !! x) /\
  cm_cache (sc_cm sc') !! x = cm_cache (pyparser_option (sc_cm sc)) !! x.
Proof.
  intros E Hx.
  destruct (pyparser_run_cases sc)
    as [[_ E'] | [(_ & E' & _) | (_ & _ & st & Hfind & E')]];
    rewrite E' in E; [| done |]; injection E as <-.
  - split; [done |]. unfold pyparser_disabled, cm_mark_as_advanced_FORCE.
    cbn [on_cm sc_cm]. by destruct (cm_cache _ !! "SWIG_EXECUTABLE").
  - destruct (pyparser_find_python_frame _ _ x Hfind Hx) as [_ Ec].
    destruct (pyparser_header_frame (pyparser_option (sc_cm sc))) as (Eh & _).
    unfold pyparser_result. cbn [sc_parent sc_cm pyparser_files cm_set_list
      cm_set cm_message_STATUS cm_cache].
    split; [| by rewrite Ec, Eh].
    intros Hn. unfold exported in Hn. split_names Hn.
    by rewrite !lookup_insert_ne.
Qed.

(** The next directory reads the names of the project as this one did
    after the option of the module was defined. *)
Lemma sibling_lookup (sc sc' : Scope) (x : string) :
  cm_vars (sc_cm sc) = sc_parent sc ->
  pyparser_CMakeLists sc = Some sc' -> finder_name x = false -> x ∉ exported ->
  cm_lookup (sibling sc') x = cm_lookup (pyparser_option (sc_cm sc)) x.
Proof.
  intros Ev E Hx Hn. destruct (pyparser_frame sc sc' x E Hx) as [Ep Ec].
  unfold cm_lookup, sibling. cbn [cm_vars cm_cache]. rewrite (Ep Hn), Ec, <- Ev.
  unfold pyparser_option, cm_option.
  by destruct (cm_lookup (sc_cm sc) "ENABLE_MODULE_PYTHON").
Qed.

(** C20: the Python demos follow the module.  When the script of the demo
    programs runs in the directory after the script of the module, it
    configures the directory [pyparser] exactly when the module was
    enabled and the option [BUILD_DEMOS_PYTHON], whose default is
    [TRUE], is not a false constant: the option [ENABLE_MODULE_PYTHON]
    that the module defines with the default [OFF] is the variable the
    demos test, on every platform and whatever the find modules do to
    their own variables. *)
Theorem python_demos (sc sc' : Scope) :
  cm_vars (sc_cm sc) = sc_parent sc ->
  pyparser_CMakeLists sc = Some sc' ->
  "pyparser" ∈ cm_subdirs (demos_CMakeLists (sibling sc')) <->
  cm_if (sc_cm sc) "ENABLE_MODULE_PYTHON" = true /\
  cm_is_off match cm_lookup (sc_cm sc) "BUILD_DEMOS_PYTHON" with
            | Some v => v
            | None => "TRUE"
            end = false.
Proof.
  intros Ev E.
  rewrite (demo_configured (sibling sc') python_group)
    by (done || decide_by_computation).
  unfold built, mod_on, opt_val, cm_if.
  cbn [python_group module_group g_module g_option g_default].
  change ("ENABLE_MODULE_" ++ "PYTHON") with "ENABLE_MODULE_PYTHON".
  change ("BUILD_DEMOS_" ++ "PYTHON") with "BUILD_DEMOS_PYTHON".
  rewrite !(sibling_lookup sc sc') by (done || decide_by_computation).
  fold (cm_if (pyparser_option (sc_cm sc)) "ENABLE_MODULE_PYTHON").
  rewrite pyparser_option_if. unfold pyparser_option.
  rewrite cm_lookup_option_ne by names_differ.
  by rewrite andb_true_iff, negb_true_iff.
Qed.

End Composition.

(** ** What stays inside the directory *)

Section Local.
Context `{Platform} `{!PlatformLaws}.

(** The override of the install directory reaches nobody.  The
    script announces that [CH_INSTALL_PYTHON] is overridden, and sets the
    package name and the debug switch, but these three variables are set
    in the directory of the script only: after any run the parent
    directory and the cache hold for them what they held before, the
    debug messages have not been printed, and the install rules that
    were added are the fixed ones of the library, whatever
    [CH_INSTALL_PYTHON_PACKAGE] was. *)
Theorem pyparser_local_names (sc sc' : Scope) (x : string) :
  pyparser_CMakeLists sc = Some sc' -> x ∈ header_names ->
  sc_parent sc' !! x = sc_parent sc !! x /\
  cm_cache (sc_cm sc') !! x = cm_cache (sc_cm sc) !! x /\
  sc_notices sc' = sc_notices sc /\
  (sc_installs sc' = sc_installs sc \/
   sc_installs sc' =
     (sc_installs sc ++
        [InstallTargets ["ChronoEngine_pyparser"] "bin" "lib" "lib";
         InstallFiles pyparser_headers "include/chrono_pyparser"])%list).
Proof.
  intros Hrun Hx.
  assert (Hf : finder_name x = false /\ (x ∉ exported) /\
               x ≠ "ENABLE_MODULE_PYTHON").
  { unfold header_names in Hx. repeat apply elem_of_cons in Hx as [-> | Hx];
      [| | | by apply elem_of_nil in Hx];
      (split; [by vm_compute |]); (split; [decide_by_computation |]);
      names_differ. }
  destruct Hf as (Hf & Hn & He).
  destruct (pyparser_frame sc sc' x Hrun Hf) as [Ep Ec].
  split; [by apply Ep |]. split.
  - rewrite Ec. unfold pyparser_option, cm_option.
    destruct (cm_lookup (sc_cm sc) _); [done |]. cbn [cm_cache].
    by rewrite lookup_insert_ne.
  - destruct (pyparser_run_cases sc)
      as [[_ E'] | [(_ & E' & _) | (_ & _ & st & _ & E')]];
      rewrite E' in Hrun; [| done |]; injection Hrun as <-.
    + split; [done | by left].
    + split; [done | by right].
Qed.

(** Without the base library the directory the script leaves is not
    well formed: the new target depends on a target that does not
    exist. *)
Lemma pyparser_needs_engine (sc sc' : Scope) :
  cm_if (sc_cm sc) "ENABLE_MODULE_PYTHON" = true ->
  sc_targets sc !! "ChronoEngine" = None ->
  pyparser_CMakeLists sc = Some sc' -> ~ Scope_wf sc'.
Proof.
  intros Hon Hce Hrun (_ & _ & Hd).
  destruct (pyparser_run_cases sc)
    as [[Hoff _] | [(_ & E' & _) | (_ & _ & st & _ & E')]];
    [congruence | congruence |].
  rewrite E' in Hrun. injection Hrun as <-.
  specialize (Hd "ChronoEngine_pyparser" (pyparser_target st)).
  unfold pyparser_result in Hd. cbn [sc_targets] in Hd.
  rewrite lookup_insert_eq in Hd. specialize (Hd eq_refl).
  apply Forall_cons in Hd as [[t Ht] _].
  rewrite lookup_insert_ne, Hce in Ht by names_differ. done.
Qed.

End Local.

(** ** A platform *)

(** A platform with Python 3.4: the find modules report the interpreter
    and the libraries in their documented result variables. *)
#[export] Instance unix_python : Platform := {|
  find_package pkg args st :=
    if String.eqb pkg "PythonInterp" then
      Some (cm_set (cm_set (cm_set st "PYTHON_EXECUTABLE" "/usr/bin/python3")
                      "PYTHON_VERSION_STRING" "3.4.3")
              "PYTHONINTERP_FOUND" "TRUE")
    else if String.eqb pkg "PythonLibs" then
      Some (cm_set (cm_set (cm_set st "PYTHON_INCLUDE_DIR"
                              "/usr/include/python3.4m")
                      "PYTHON_LIBRARIES" "/usr/lib/libpython3.4m.so")
              "PYTHONLIBS_FOUND" "TRUE")
    else None
|}.

Lemma finder_name_ne (x y : string) :
  finder_name x = false -> finder_name y = true -> x ≠ y.
Proof. intros Hx Hy ->. congruence. Qed.

Lemma unix_python_found (pkg : string) (args : list string) (st st' : CMake) :
  find_package pkg args st = Some st' ->
  exists a u b v c w,
    st' = cm_set (cm_set (cm_set st a u) b v) c w /\
    finder_name a = true /\ finder_name b = true /\ finder_name c = true /\
    c = upper pkg ++ "_FOUND" /\ w = "TRUE".
Proof.
  unfold find_package, unix_python.
  destruct (String.eqb_spec pkg "PythonInterp") as [-> | _];
    [| destruct (String.eqb_spec pkg "PythonLibs") as [-> | _]; [| done]];
    intros [= <-]; do 6 eexists; (split; [reflexivity |]); by vm_compute.
Qed.

#[export] Instance unix_python_laws : PlatformLaws.
Proof.
  split; intros pkg args st st';
    [intros x | | | |];
    intros (a & u & b & v & c & w & -> & Ha & Hb & Hc & Ec & Ew)%unix_python_found.
  - intros Hx. split; [| done].
    by rewrite !cm_set_vars by (by apply finder_name_ne).
  - done.
  - done.
  - exists []. by rewrite app_nil_r.
  - intros _. subst c w. unfold cm_if. by rewrite cm_lookup_set_eq.
Qed.

(** ** Runs *)

(** The directory of the module as the parent enters it: the base library
    is declared, the linker flag of shared libraries is set, and the
    cache is what the user has asked for. *)
Definition engine : Target :=
  mkTarget "SHARED" ["core/ChLog.cpp"; "physics/ChSystem.cpp"] None [] [] [].

Definition example_scope (cache : gmap string string) : Scope :=
  let vars : gmap string string := {["CH_LINKERFLAG_SHARED" := "-Wl,-z,defs"]} in
  mkScope (mkCMake vars cache ∅ [] []) vars {["ChronoEngine" := engine]}
    ["/usr/include/eigen3"] [] [] [].

Definition python_on : gmap string string := {["ENABLE_MODULE_PYTHON" := "ON"]}.

(** A first run: the option appears in the cache with [OFF], nothing
    else happens, and the script of the demos that runs next configures
    the base demos only. *)
Example pyparser_first_run :
  match pyparser_CMakeLists (example_scope ∅) with
  | Some sc =>
      bool_decide (cm_cache (sc_cm sc) = {["ENABLE_MODULE_PYTHON" := "OFF"]})
        = true /\
      cm_messages (sc_cm sc) = [] /\
      bool_decide (sc_targets sc = {["ChronoEngine" := engine]}) = true /\
      bool_decide (sc_parent sc = sc_parent (example_scope ∅)) = true /\
      cm_subdirs (demos_CMakeLists (sibling sc)) = ["core"; "fea"; "robot"]
  | None => False
  end.
Proof. vm_compute. repeat apply conj; exact eq_refl. Qed.

(** A run with the module enabled. *)
Example pyparser_enabled_example :
  match pyparser_CMakeLists (example_scope python_on) with
  | Some sc =>
      sc_targets sc !! "ChronoEngine_pyparser" =
        Some (mkTarget "SHARED"
                ["ChPython.cpp"; "ChApiPyParser.h"; "ChPython.h"; "ChSwigutils.h"]
                (Some "-Wl,-z,defs")
                ["CH_API_COMPILE_PYPARSER"; "CH_IGNORE_DEPRECATED"]
                ["/usr/lib/libpython3.4m.so"; "ChronoEngine"] ["ChronoEngine"]) /\
      sc_parent sc !! "CH_PYTHONDIR" = Some "/usr/bin" /\
      sc_parent sc !! "CH_PYTHONINC" = Some "/usr/include/python3.4m" /\
      sc_parent sc !! "CH_PYTHONLIB" = Some "/usr/lib/libpython3.4m.so" /\
      sc_parent sc !! "CH_INSTALL_PYTHON" = None /\
      sc_includes sc = ["/usr/include/eigen3"; "/usr/include/python3.4m"] /\
      sc_notices sc = [] /\
      cm_messages (sc_cm sc) =
        ["==== Chrono Pyparser module ===="; "...find Python";
         "...add Chrono PYPARSER library"] /\
      cm_subdirs (demos_CMakeLists (sibling sc)) =
        ["core"; "fea"; "robot"; "pyparser"]
  | None => False
  end.
Proof. vm_compute. repeat apply conj; exact eq_refl. Qed.

(** A platform with the interpreter and without the libraries: the
    search for the libraries, which is not [REQUIRED], returns without a
    result.  The script goes on: the library is declared and linked with
    [ChronoEngine] only, and the parent is handed empty values. *)
Definition python_without_libs : Platform := {|
  find_package pkg args st :=
    if String.eqb pkg "PythonInterp" then
      Some (cm_set (cm_set (cm_set st "PYTHON_EXECUTABLE" "/usr/bin/python3")
                      "PYTHON_VERSION_STRING" "3.4.3")
              "PYTHONINTERP_FOUND" "TRUE")
    else Some st
|}.

Example pyparser_without_libs :
  match pyparser_CMakeLists (H := python_without_libs)
          (example_scope python_on) with
  | Some sc =>
      tg_libraries <$> sc_targets sc !! "ChronoEngine_pyparser" =
        Some ["ChronoEngine"] /\
      sc_parent sc !! "CH_PYTHONLIB" = Some "" /\
      sc_parent sc !! "CH_PYTHONINC" = Some "" /\
      sc_includes sc = ["/usr/include/eigen3"]
  | None => False
  end.
Proof. vm_compute. repeat apply conj; exact eq_refl. Qed.

(** Directories of file names, and lists written and read back. *)
Example cm_dirname_examples :
  map cm_dirname ["/usr/bin/python3"; "/python3"; "python3"; "bin/python3"; ""] =
  ["/usr/bin"; "/"; ""; "bin"; ""].
Proof. vm_compute. reflexivity. Qed.

(** ** Witnesses *)

Lemma pyparser_disabled_run_witness :
  exists st',
    pyparser_CMakeLists (example_scope ∅) =
      Some (on_cm (fun _ => st') (example_scope ∅)) /\
    cm_vars st' = cm_vars (sc_cm (example_scope ∅)) /\
    cm_subdirs st' = cm_subdirs (sc_cm (example_scope ∅)) /\
    cm_messages st' = cm_messages (sc_cm (example_scope ∅)) /\
    cm_cache st' =
      match cm_lookup (sc_cm (example_scope ∅)) "ENABLE_MODULE_PYTHON" with
      | Some _ => cm_cache (sc_cm (example_scope ∅))
      | None =>
          <["ENABLE_MODULE_PYTHON" := "OFF"]> (cm_cache (sc_cm (example_scope ∅)))
      end /\
    cm_advanced st' =
      match cm_cache st' !! "SWIG_EXECUTABLE" with
      | Some _ => {["SWIG_EXECUTABLE"]} ∪ cm_advanced (sc_cm (example_scope ∅))
      | None => cm_advanced (sc_cm (example_scope ∅))
      end.
Proof. apply (pyparser_disabled_run (example_scope ∅)). reflexivity. Defined.

Lemma pyparser_enabled_run_witness :
  pyparser_CMakeLists (example_scope python_on) = Some (example_scope python_on) <->
  exists st,
    pyparser_find_python
      (pyparser_header (pyparser_option (sc_cm (example_scope python_on)))) =
      Some st /\
    sc_targets (example_scope python_on) !! "ChronoEngine_pyparser" = None /\
    example_scope python_on = pyparser_result (example_scope python_on) st.
Proof.
  apply (pyparser_enabled_run (example_scope python_on)). reflexivity.
Defined.

(** A directory in which a target of the name of the library was
    declared before: the script stops the configuration. *)
Definition clash_scope : Scope :=
  set_targets (example_scope python_on)
    (<["ChronoEngine_pyparser" := engine]> (sc_targets (example_scope python_on))).

Lemma pyparser_fails_iff_witness : pyparser_CMakeLists clash_scope = None.
Proof.
  apply (pyparser_fails_iff clash_scope). split; [reflexivity |].
  right. by eexists.
Defined.

Lemma example_scope_wf (cache : gmap string string) :
  Scope_wf (example_scope cache).
Proof.
  split; [done |]. split; [constructor |].
  apply map_Forall_singleton. constructor.
Qed.

Lemma pyparser_wf_witness :
  match pyparser_CMakeLists (example_scope python_on) with
  | Some sc => Scope_wf sc
  | None => True
  end.
Proof.
  destruct (pyparser_CMakeLists (example_scope python_on)) as [sc |] eqn:E;
    [| exact I].
  apply (pyparser_wf (example_scope python_on) sc);
    [apply example_scope_wf | by eexists | exact E].
Defined.

Lemma python_demos_witness :
  let sc' := on_cm (fun st => pyparser_disabled (pyparser_option st))
               (example_scope ∅) in
  "pyparser" ∈ cm_subdirs (demos_CMakeLists (sibling sc')) <->
  cm_if (sc_cm (example_scope ∅)) "ENABLE_MODULE_PYTHON" = true /\
  cm_is_off match cm_lookup (sc_cm (example_scope ∅)) "BUILD_DEMOS_PYTHON" with
            | Some v => v
            | None => "TRUE"
            end = false.
Proof.
  apply (python_demos (example_scope ∅)); [reflexivity |].
  apply pyparser_disabled_eq. reflexivity.
Defined.

Lemma pyparser_local_names_witness :
  match pyparser_CMakeLists (example_scope python_on) with
  | Some sc' =>
      sc_parent sc' !! "CH_INSTALL_PYTHON" =
        sc_parent (example_scope python_on) !! "CH_INSTALL_PYTHON" /\
      cm_cache (sc_cm sc') !! "CH_INSTALL_PYTHON" =
        cm_cache (sc_cm (example_scope python_on)) !! "CH_INSTALL_PYTHON" /\
      sc_notices sc' = sc_notices (example_scope python_on) /\
      (sc_installs sc' = sc_installs (example_scope python_on) \/
       sc_installs sc' =
         (sc_installs (example_scope python_on) ++
            [InstallTargets ["ChronoEngine_pyparser"] "bin" "lib" "lib";
             InstallFiles pyparser_headers "include/chrono_pyparser"])%list)
  | None => True
  end.
Proof.
  destruct (pyparser_CMakeLists (example_scope python_on)) as [sc |] eqn:E;
    [| exact I].
  apply (pyparser_local_names (example_scope python_on) sc _ E).
  decide_by_computation.
Defined.
